(** * NATS account operator: the reconciliation engine

    A shallow embedding of the controllers of the operator
    (controllers/base_controller.go, the Account controller, the User
    controller and the superseded revisions of both) together with the
    properties the specification states about them.

    The controllers talk to a Kubernetes API server, to the nkeys and jwt
    libraries and to a NATS account server.  All of these are outside the
    controllers: their answers are read from an environment record [Env],
    and every request a controller issues is appended to a log of [Call]s.
    The object under reconciliation is mutated in place by the Go code; here
    it is the state of a small state-and-log monad. *)

From Stdlib Require Import String Ascii List ZArith Bool Lia.
From stdpp Require Import base tactics option list gmap strings.

Local Open Scope string_scope.
Local Open Scope list_scope.

(** Go's [[]byte] and [string] are both byte sequences. *)
Definition bytes := string.

(* ===================================================================== *)
(** ** Errors *)
(* ===================================================================== *)

(** Reasons of the v1alpha1 package, named as the controllers name them.
    The superseded revisions pass free text as a reason: [ReasonText]. *)
Inductive Reason : Type :=
| ReasonUnknownError
| ReasonNotFound
| ReasonNotReady
| ReasonUnsupportedIssuer
| ReasonUnsupportedSigningKey
| ReasonInvalidSigningKeyOwner
| ReasonInvalidSeedSecret
| ReasonMalformedSeedSecret
| ReasonIssuerSeedError
| ReasonPublicKeyMismatch
| ReasonInvalidJWTSecret
| ReasonJWTPushError
| ReasonText (s : string).

(** metav1.StatusReason, as far as the controllers look at it. *)
Inductive StatusReason : Type :=
| StatusReasonNotFound
| StatusReasonConflict
| StatusReasonBadRequest
| StatusReasonOther.

(** Which way a condition error wants the condition marked. *)
Inductive ConditionErrorKind : Type := CondFailed | CondUnknown.

(** Go [error] values met by the controllers: an API status error, a
    condition error of this package, a plain error, an error wrapped with
    [%w], and the result of [multierr.Append]. *)
Inductive error : Type :=
| StatusError (r : StatusReason) (msg : string)
| ConditionError (k : ConditionErrorKind) (reason : Reason) (msg : string)
| PlainError (msg : string)
| WrapError (prefix : string) (inner : error)
| MultiError (e1 e2 : error).

Inductive Result (A : Type) : Type :=
| Ok (a : A)
| Err (e : error).
Arguments Ok {A} a.
Arguments Err {A} e.

Fixpoint Error (e : error) : string :=
  match e with
  | StatusError _ msg => msg
  | ConditionError _ _ msg => msg
  | PlainError msg => msg
  | WrapError prefix inner => prefix +:+ Error inner
  | MultiError e1 e2 => Error e1 +:+ "; " +:+ Error e2
  end.

(** errors.IsNotFound looks through [%w] wrappers. *)
Fixpoint IsNotFound (e : error) : bool :=
  match e with
  | StatusError StatusReasonNotFound _ => true
  | WrapError _ inner => IsNotFound inner
  | _ => false
  end.

Fixpoint IsConflict (e : error) : bool :=
  match e with
  | StatusError StatusReasonConflict _ => true
  | WrapError _ inner => IsConflict inner
  | _ => false
  end.

(** multierr.Append: nil is the unit. *)
Definition multierr_Append (e1 e2 : option error) : option error :=
  match e1, e2 with
  | None, e => e
  | e, None => e
  | Some a, Some b => Some (MultiError a b)
  end.

(** [err != nil] *)
Definition isErr (e : option error) : bool :=
  match e with Some _ => true | None => false end.

(** Modelled from the spec: the condition errors of the controllers package
    (ConditionFailed, ConditionUnknown, asConditionError and
    ConditionError.MarkCondition are not in the sources at hand).  A
    condition error carries which of Failed/Unknown the caller should mark,
    with a reason and a message. *)
Definition ConditionFailed (reason : Reason) (msg : string) : error :=
  ConditionError CondFailed reason msg.

Definition ConditionUnknown (reason : Reason) (msg : string) : error :=
  ConditionError CondUnknown reason msg.

Definition asConditionError (e : option error)
  : option (ConditionErrorKind * Reason * string) :=
  match e with
  | Some (ConditionError k reason msg) => Some (k, reason, msg)
  | _ => None
  end.

Definition MarkCondition {S : Type} (cerr : ConditionErrorKind * Reason * string)
    (markFailed markUnknown : Reason -> string -> S -> S) : S -> S :=
  match cerr with
  | (CondFailed, reason, msg) => markFailed reason msg
  | (CondUnknown, reason, msg) => markUnknown reason msg
  end.

Definition isCondErr (e : option error) : bool :=
  match asConditionError e with Some _ => true | None => false end.

(* ===================================================================== *)
(** ** The condition state machine *)
(* ===================================================================== *)

Inductive ConditionStatus : Type :=
| ConditionTrue
| ConditionFalse
| ConditionUnknownStatus.

Inductive ConditionType : Type :=
| ConditionReady
| KeyPairableConditionSeedSecretReady
| ConditionIssuerResolved
| AccountConditionOperatorResolved
| AccountConditionSigningKeysUpdated
| AccountConditionJWTSecretReady
| AccountConditionJWTPushed
| UserConditionAccountResolved
| UserConditionJWTSecretReady
| UserConditionCredentialsSecretReady
| SigningKeyConditionOwnerResolved
| OperatorConditionSystemAccountResolved.

Record Condition : Type := mkCondition {
  cond_Type : ConditionType;
  cond_Status : ConditionStatus;
  cond_Reason : option Reason;
  cond_Message : string
}.

#[global] Instance Reason_eq_dec : EqDecision Reason.
Proof. solve_decision. Defined.
#[global] Instance ConditionStatus_eq_dec : EqDecision ConditionStatus.
Proof. solve_decision. Defined.
#[global] Instance ConditionType_eq_dec : EqDecision ConditionType.
Proof. solve_decision. Defined.
#[global] Instance Condition_eq_dec : EqDecision Condition.
Proof. solve_decision. Defined.

Definition Conditions := list Condition.

(** The condition types a kind needs True to be ready. *)
Definition ConditionSet := list ConditionType.

Fixpoint GetCondition (t : ConditionType) (cs : Conditions) : option Condition :=
  match cs with
  | [] => None
  | c :: rest =>
      if decide (cond_Type c = t) then Some c else GetCondition t rest
  end.

(** [IsTrue] is defined on a nil condition too, where it is false. *)
Definition IsTrue (c : option Condition) : bool :=
  match c with
  | Some c => bool_decide (cond_Status c = ConditionTrue)
  | None => false
  end.

Definition IsFalse (c : option Condition) : bool :=
  match c with
  | Some c => bool_decide (cond_Status c = ConditionFalse)
  | None => false
  end.

Fixpoint SetCondition (c : Condition) (cs : Conditions) : Conditions :=
  match cs with
  | [] => [c]
  | x :: rest =>
      if decide (cond_Type x = cond_Type c) then c :: rest
      else x :: SetCondition c rest
  end.

(** Modelled from the spec: the condition manager of the v1alpha1 package
    (status types and their Mark functions are not in the sources at hand).
    [InitializeConditions] seeds every known condition type that is absent
    to Unknown; marking one condition also maintains the aggregate Ready
    condition, which is True iff all required conditions are True. *)
Definition initOne (t : ConditionType) (cs : Conditions) : Conditions :=
  match GetCondition t cs with
  | Some _ => cs
  | None => SetCondition (mkCondition t ConditionUnknownStatus None "") cs
  end.

Definition InitializeConditions (set : ConditionSet) (cs : Conditions) : Conditions :=
  fold_left (fun acc t => initOne t acc) (ConditionReady :: set) cs.

Definition allTrue (set : ConditionSet) (cs : Conditions) : bool :=
  forallb (fun t => IsTrue (GetCondition t cs)) set.

Definition anyFalse (set : ConditionSet) (cs : Conditions) : bool :=
  existsb (fun t => IsFalse (GetCondition t cs)) set.

Definition markTrue (set : ConditionSet) (t : ConditionType) (cs : Conditions) : Conditions :=
  let cs1 := SetCondition (mkCondition t ConditionTrue None "") cs in
  if allTrue set cs1
  then SetCondition (mkCondition ConditionReady ConditionTrue None "") cs1
  else cs1.

Definition markFalse (set : ConditionSet) (t : ConditionType)
    (reason : Reason) (msg : string) (cs : Conditions) : Conditions :=
  let cs1 := SetCondition (mkCondition t ConditionFalse (Some reason) msg) cs in
  SetCondition (mkCondition ConditionReady ConditionFalse (Some reason) msg) cs1.

Definition markUnknown (set : ConditionSet) (t : ConditionType)
    (reason : Reason) (msg : string) (cs : Conditions) : Conditions :=
  let cs1 := SetCondition (mkCondition t ConditionUnknownStatus (Some reason) msg) cs in
  if anyFalse set cs1 then cs1
  else SetCondition (mkCondition ConditionReady ConditionUnknownStatus (Some reason) msg) cs1.

Definition IsReady (cs : Conditions) : bool :=
  IsTrue (GetCondition ConditionReady cs).

(* ===================================================================== *)
(** ** Resources of the accounts.nats.io/v1alpha1 API *)
(* ===================================================================== *)

Record ObjectMeta : Type := mkMeta {
  Namespace : string;
  Name : string;
  UID : string;
  DeletionTimestamp : option Z;
  Finalizers : list string
}.

Record InferredObjectReference : Type := mkInferredRef {
  iref_Namespace : string;
  iref_Name : string
}.

Record TypedObjectReference : Type := mkTypedRef {
  ref_APIVersion : string;
  ref_Kind : string;
  ref_Name : string;
  ref_Namespace : string;
  ref_UID : string
}.

Record KeyPair : Type := mkKeyPair {
  PublicKey : string;
  SeedSecretName : string
}.

Record SigningKeyEmbeddedStatus : Type := mkEmbedded {
  emb_Name : string;
  emb_KeyPair : KeyPair
}.

(** schema.GroupVersionKind, kept as the two strings it is built from. *)
Definition GetGroupVersionKind (r : TypedObjectReference) : string * string :=
  (ref_APIVersion r, ref_Kind r).

Definition gvkString (gvk : string * string) : string :=
  fst gvk +:+ ", Kind=" +:+ snd gvk.

Record SecretKeySelector : Type := mkSelector {
  sks_Name : string;
  sks_Key : string
}.

Record TLSConfig : Type := mkTLS { CAFile : option SecretKeySelector }.

Record OperatorSpec : Type := mkOperatorSpec {
  AccountServerURL : string;
  op_TLSConfig : option TLSConfig
}.

Record OperatorStatus : Type := mkOperatorStatus {
  op_Conditions : Conditions;
  op_KeyPair : option KeyPair;
  ResolvedSystemAccount : option InferredObjectReference
}.

Record Operator : Type := mkOperator {
  op_meta : ObjectMeta;
  op_spec : OperatorSpec;
  op_status : OperatorStatus
}.

Record SigningKeyStatus : Type := mkSigningKeyStatus {
  sk_Conditions : Conditions;
  sk_KeyPair : option KeyPair;
  sk_OwnerRef : option TypedObjectReference
}.

Record SigningKey : Type := mkSigningKey {
  sk_meta : ObjectMeta;
  sk_status : SigningKeyStatus
}.

(** A metav1.LabelSelector is only handed to the apimachinery parser. *)
Record LabelSelector : Type := mkLabelSelector { ls_text : string }.

(** The claim fields of a specification (limits, permissions, imports,
    exports) are only handed to the claim builders of the nsc package. *)
Record AccountSpec : Type := mkAccountSpec {
  acc_Issuer : TypedObjectReference;
  acc_SeedSecretName : string;
  acc_JWTSecretName : string;
  SigningKeysSelector : option LabelSelector;
  acc_ClaimFields : string
}.

Record AccountStatus : Type := mkAccountStatus {
  acc_Conditions : Conditions;
  acc_KeyPair : option KeyPair;
  OperatorRef : option InferredObjectReference;
  SigningKeys : list SigningKeyEmbeddedStatus
}.

Record Account : Type := mkAccount {
  acc_meta : ObjectMeta;
  acc_spec : AccountSpec;
  acc_status : AccountStatus
}.

Record UserSpec : Type := mkUserSpec {
  usr_Issuer : TypedObjectReference;
  usr_SeedSecretName : string;
  usr_JWTSecretName : string;
  CredentialsSecretName : string;
  usr_ClaimFields : string
}.

Record UserStatus : Type := mkUserStatus {
  usr_Conditions : Conditions;
  usr_KeyPair : option KeyPair;
  AccountRef : option InferredObjectReference
}.

Record User : Type := mkUser {
  usr_meta : ObjectMeta;
  usr_spec : UserSpec;
  usr_status : UserStatus
}.

#[global] Instance ObjectMeta_eq_dec : EqDecision ObjectMeta.
Proof. solve_decision. Defined.
#[global] Instance InferredObjectReference_eq_dec : EqDecision InferredObjectReference.
Proof. solve_decision. Defined.
#[global] Instance TypedObjectReference_eq_dec : EqDecision TypedObjectReference.
Proof. solve_decision. Defined.
#[global] Instance KeyPair_eq_dec : EqDecision KeyPair.
Proof. solve_decision. Defined.
#[global] Instance SigningKeyEmbeddedStatus_eq_dec : EqDecision SigningKeyEmbeddedStatus.
Proof. solve_decision. Defined.
#[global] Instance AccountStatus_eq_dec : EqDecision AccountStatus.
Proof. solve_decision. Defined.
#[global] Instance UserStatus_eq_dec : EqDecision UserStatus.
Proof. solve_decision. Defined.

(** A core/v1 Secret: its key, its data, the immutable flag and the UID of
    the controller that owns it. *)
Record Secret : Type := mkSecret {
  sec_Namespace : string;
  sec_Name : string;
  Data : gmap string bytes;
  Immutable : bool;
  sec_Controller : option string
}.

#[global] Instance Secret_eq_dec : EqDecision Secret.
Proof. solve_decision. Defined.

(** Well-known keys of the managed secrets. *)
Definition NatsSecretSeedKey : string := "seed".
Definition NatsSecretPublicKeyKey : string := "public-key".
Definition NatsSecretJWTKey : string := "jwt".
Definition NatsSecretCredsKey : string := "creds".

Definition AccountFinalizer : string := "accounts.nats.io/finalizer".

(** What [Scheme.New] can hand back for a registered kind: one of the four
    identity resources, some other API object, or a runtime.Object that is
    no client.Object. *)
Inductive ObjKind : Type :=
| OperatorKind
| AccountKind
| UserKind
| SigningKeyKind
| OtherKind (tag : string).

Inductive SchemeObject : Type :=
| NotClientObject
| Prototype (k : ObjKind).

Inductive Object : Type :=
| ObjOperator (o : Operator)
| ObjAccount (a : Account)
| ObjUser (u : User)
| ObjSigningKey (s : SigningKey)
| ObjOther (tag : string) (ns name : string).

(** The identity resources implement v1alpha1.KeyPairable. *)
Inductive KeyPairable : Type :=
| KPOperator (o : Operator)
| KPAccount (a : Account)
| KPUser (u : User)
| KPSigningKey (s : SigningKey).

Definition asKeyPairable (o : Object) : option KeyPairable :=
  match o with
  | ObjOperator o => Some (KPOperator o)
  | ObjAccount a => Some (KPAccount a)
  | ObjUser u => Some (KPUser u)
  | ObjSigningKey s => Some (KPSigningKey s)
  | ObjOther _ _ _ => None
  end.

Definition kp_meta (k : KeyPairable) : ObjectMeta :=
  match k with
  | KPOperator o => op_meta o
  | KPAccount a => acc_meta a
  | KPUser u => usr_meta u
  | KPSigningKey s => sk_meta s
  end.

Definition GetKeyPair (k : KeyPairable) : option KeyPair :=
  match k with
  | KPOperator o => op_KeyPair (op_status o)
  | KPAccount a => acc_KeyPair (acc_status a)
  | KPUser u => usr_KeyPair (usr_status u)
  | KPSigningKey s => sk_KeyPair (sk_status s)
  end.

Definition GetNamespace (k : KeyPairable) : string := Namespace (kp_meta k).
Definition GetName (k : KeyPairable) : string := Name (kp_meta k).

Definition kp_Conditions (k : KeyPairable) : Conditions :=
  match k with
  | KPOperator o => op_Conditions (op_status o)
  | KPAccount a => acc_Conditions (acc_status a)
  | KPUser u => usr_Conditions (usr_status u)
  | KPSigningKey s => sk_Conditions (sk_status s)
  end.

Definition kindName (k : KeyPairable) : string :=
  match k with
  | KPOperator _ => "Operator"
  | KPAccount _ => "Account"
  | KPUser _ => "User"
  | KPSigningKey _ => "SigningKey"
  end.

Definition GroupVersion : string := "accounts.nats.io/v1alpha1".

Definition kp_GroupVersionKind (k : KeyPairable) : string * string :=
  (GroupVersion, kindName k).

Definition obj_GroupVersionKind (o : Object) : string * string :=
  match o with
  | ObjOperator _ => (GroupVersion, "Operator")
  | ObjAccount _ => (GroupVersion, "Account")
  | ObjUser _ => (GroupVersion, "User")
  | ObjSigningKey _ => (GroupVersion, "SigningKey")
  | ObjOther tag _ _ => ("", tag)
  end.

(** controllerutil.ContainsFinalizer / AddFinalizer / RemoveFinalizer. *)
Definition ContainsFinalizer (m : ObjectMeta) (f : string) : bool :=
  bool_decide (f ∈ Finalizers m).

Definition setFinalizers (m : ObjectMeta) (fs : list string) : ObjectMeta :=
  mkMeta (Namespace m) (Name m) (UID m) (DeletionTimestamp m) fs.

Definition AddFinalizer (m : ObjectMeta) (f : string) : ObjectMeta :=
  if ContainsFinalizer m f then m else setFinalizers m (Finalizers m ++ [f]).

Definition RemoveFinalizer (m : ObjectMeta) (f : string) : ObjectMeta :=
  setFinalizers m (filter (fun x => x <> f) (Finalizers m)).

(** metav1.Time.IsZero on the (nilable) deletion timestamp. *)
Definition IsZero (t : option Z) : bool :=
  match t with None => true | Some _ => false end.

(* ===================================================================== *)
(** ** The world outside the controllers *)
(* ===================================================================== *)

(** nkeys: a key pair holds its seed; its public key is derived from it. *)
Inductive PrefixByte : Type :=
| PrefixByteOperator
| PrefixByteAccount
| PrefixByteUser
| PrefixByteOther (b : Z).

#[global] Instance PrefixByte_eq_dec : EqDecision PrefixByte.
Proof. solve_decision. Defined.

Definition prefixString (p : PrefixByte) : string :=
  match p with
  | PrefixByteOperator => "operator"
  | PrefixByteAccount => "account"
  | PrefixByteUser => "user"
  | PrefixByteOther _ => "unknown"
  end.

Record NKey : Type := mkNKey { nk_seed : bytes }.

(** Decoded claims of a token: the kind of claim set, the issuance
    timestamp, and everything else in canonical form. *)
Inductive ClaimType : Type := OperatorClaim | AccountClaim | UserClaim | OtherClaim.

#[global] Instance ClaimType_eq_dec : EqDecision ClaimType.
Proof. solve_decision. Defined.

Record Claims : Type := mkClaims {
  claim_Type : ClaimType;
  IssuedAt : Z;
  claim_Content : string
}.

(** Modelled from the spec: nsc.Equality (the nsc package is not in the
    sources at hand).  Two claim sets are semantically equal when they are
    equal after excluding the issuance-timestamp field. *)
Definition Equality_DeepEqual (got want : Claims) : bool :=
  bool_decide (claim_Type got = claim_Type want /\ claim_Content got = claim_Content want).

(** What the deferred function of a Reconcile hands to
    equality.Semantic.DeepEqual: the snapshot is the pointer that
    Status.DeepCopy() returns, the status is the Status field of the
    resource, a value (the controllers call its methods in place and never
    assign it).  DeepEqual answers false for two values of different types,
    whatever they hold. *)
Inductive GoValue (S : Type) : Type :=
| Pointer (s : S)
| Value (s : S).
Arguments Pointer {S} s.
Arguments Value {S} s.

Definition Semantic_DeepEqual {S : Type} `{EqDecision S} (a1 a2 : GoValue S) : bool :=
  match a1, a2 with
  | Pointer x, Pointer y => bool_decide (x = y)
  | Value x, Value y => bool_decide (x = y)
  | _, _ => false
  end.

(** jwt.AccountClaims as the superseded Account controller edits it. *)
Record AccountClaims : Type := mkAccountClaims {
  ac_Subject : string;
  ac_SigningKeys : list string;
  ac_Rest : string
}.

(** labels.Selector, as far as the controller looks at it. *)
Record Selector : Type := mkSel { sel_Empty : bool; sel_String : string }.

Definition labels_Everything : Selector := mkSel true "".

Inductive NatsOption : Type := CABundle (ca : bytes).

(** The answers of everything the controllers call but do not implement. *)
Record Env : Type := mkEnv {
  (* runtime.Scheme *)
  Scheme_New : string * string -> Result SchemeObject;
  (* client.Client, reads *)
  Get_Operator : string -> string -> Result Operator;
  Get_Account : string -> string -> Result Account;
  Get_User : string -> string -> Result User;
  Get_SigningKey : string -> string -> Result SigningKey;
  Get_Other : string -> string -> string -> Result unit;
  (* typed client sets *)
  Secrets_Get : string -> string -> Result Secret;
  Operators_Get : string -> string -> Result Operator;
  SigningKeys_List : string -> string -> Result (list SigningKey);
  (* writes *)
  Client_Create : Secret -> option error;
  Client_Update : Secret -> option error;
  Update_Account : Account -> option error;
  Status_Update_Account : Account -> option error;
  Update_User : User -> option error;
  Status_Update_User : User -> option error;
  (* apimachinery, controller-runtime *)
  LabelSelectorAsSelector : LabelSelector -> Result Selector;
  SetControllerReference : Object -> Secret -> Result Secret;
  (* nkeys *)
  nkeys_CreateAccount : Result NKey;
  nkeys_CreateUser : Result NKey;
  nkeys_FromSeed : bytes -> Result NKey;
  nkeys_DecodeSeed : bytes -> Result (PrefixByte * bytes);
  kp_PublicKey : NKey -> Result string;
  kp_Seed : NKey -> Result bytes;
  (* jwt and nsc *)
  jwt_Decode : string -> Result Claims;
  CreateAccountClaims : Account -> NKey -> Result (Claims * string);
  CreateUserClaims : User -> NKey -> Result (Claims * string);
  (* controllers/resources *)
  KeyPairSecretBuilder_Build : option Secret -> Object -> NKey -> Result Secret;
  JWTSecretBuilder_Build : option Secret -> Object -> string -> Result Secret;
  UserCredentialSecretBuilder_Build :
    option Secret -> Object -> string -> bytes -> Result Secret;
  (* the account server, reached through the system account *)
  (* the operator may be a nil pointer; [None] is a panic of the callee *)
  SysAccountLoader_Load : option Operator -> option (Result NKey);
  nsc_Connect : string -> NKey -> NKey -> list NatsOption -> option error;
  nsc_Push : string -> option error;
  nsc_UpdateJWT : string -> string -> option error;
  nsc_Delete : string -> option error;
  (* pkg/helpers *)
  IsSystemAccount : Account -> option Operator -> option bool;
  (* used by the superseded revisions only *)
  nsc_CreateAccount : string -> string -> list string -> NKey -> Result (string * string * bytes);
  nsc_CreateUser : string -> string -> string -> NKey -> Result (string * string * bytes);
  jwt_DecodeAccountClaims : string -> Result AccountClaims;
  isEqualUnordered : list string -> list string -> bool;
  claims_Encode : AccountClaims -> NKey -> Result string;
  nkeys_ParseDecoratedNKey : bytes -> Result NKey;
  jwt_FormatUserConfig : string -> bytes -> Result bytes;
  (* the condition sets of the v1alpha1 kinds *)
  operatorCondSet : ConditionSet;
  accountCondSet : ConditionSet;
  userCondSet : ConditionSet;
  signingKeyCondSet : ConditionSet
}.

(** Requests issued by a controller, in the order it issues them. *)
Inductive Call : Type :=
| CGet (k : ObjKind) (ns name : string)
| CGetSecret (ns name : string)
| CGetOperator (ns name : string)
| CListSigningKeys (ns selector : string)
| CCreateSecret (s : Secret)
| CUpdateSecret (s : Secret)
| CUpdateObject (finalizers : list string)
| CUpdateStatus
| CEvent (etype reason message : string)
| CGenerateKeyPair (p : PrefixByte)
| CLoadSystemAccount (ns name : string)
| CConnect (url : string)
| CPush (token : string)
| CUpdateJWT (subject token : string)
| CDelete (publicKey : string)
| CClose.

Definition isSecretWrite (c : Call) : bool :=
  match c with
  | CCreateSecret _ | CUpdateSecret _ => true
  | _ => false
  end.

Definition isRemoteCall (c : Call) : bool :=
  match c with
  | CConnect _ | CPush _ | CUpdateJWT _ _ | CDelete _ | CClose => true
  | _ => false
  end.

Definition isPush (c : Call) : bool :=
  match c with
  | CPush _ | CUpdateJWT _ _ => true
  | _ => false
  end.

Definition isStatusUpdate (c : Call) : bool :=
  match c with CUpdateStatus => true | _ => false end.

Definition isGenerateKeyPair (c : Call) : bool :=
  match c with CGenerateKeyPair _ => true | _ => false end.

Definition isListSigningKeys (c : Call) : bool :=
  match c with CListSigningKeys _ _ => true | _ => false end.

Definition isEvent (c : Call) : bool :=
  match c with CEvent _ _ _ => true | _ => false end.

Definition secretWrites (l : list Call) : list Call := List.filter isSecretWrite l.
Definition remoteCalls (l : list Call) : list Call := List.filter isRemoteCall l.

(* ===================================================================== *)
(** ** A monad for one reconciliation pass *)
(* ===================================================================== *)

(** The object under reconciliation is the state; issued requests are
    logged; [out = None] is a Go panic (a nil dereference). *)
Record Res (O A : Type) : Type := mkRes {
  out : option A;
  obj : O;
  log : list Call
}.
Arguments mkRes {O A} out obj log.
Arguments out {O A} r.
Arguments obj {O A} r.
Arguments log {O A} r.

Definition M (O A : Type) : Type := O -> Res O A.

Definition ret {O A} (a : A) : M O A := fun o => mkRes (Some a) o [].

Definition bind {O A B} (m : M O A) (f : A -> M O B) : M O B :=
  fun o =>
    let r := m o in
    match out r with
    | Some a => let r' := f a (obj r) in mkRes (out r') (obj r') (log r ++ log r')
    | None => mkRes None (obj r) (log r)
    end.

Definition panic {O A} : M O A := fun o => mkRes None o [].

(** Issue a request and receive the environment's answer. *)
Definition call {O A} (c : Call) (answer : A) : M O A :=
  fun o => mkRes (Some answer) o [c].

Definition get {O} : M O O := fun o => mkRes (Some o) o [].

Definition modify {O} (f : O -> O) : M O unit := fun o => mkRes (Some tt) (f o) [].

Declare Scope pass_scope.
Delimit Scope pass_scope with pass.
Notation "'let*' x ':=' m 'in' k" := (bind m (fun x => k))
  (at level 10, x pattern, m at level 100, k at level 200) : pass_scope.
Notation "m ';;' k" := (bind m (fun _ => k))
  (at level 100, k at level 200, right associativity) : pass_scope.
Local Open Scope pass_scope.

Definition rmap {A B} (f : A -> B) (r : Result A) : Result B :=
  match r with Ok a => Ok (f a) | Err e => Err e end.

(** The value Go leaves in the first result when the error is ignored. *)
Definition orEmpty (r : Result string) : string :=
  match r with Ok s => s | Err _ => "" end.

(** Go's %q. *)
Definition quote (s : string) : string :=
  String (Ascii.ascii_of_nat 34) (s +:+ String (Ascii.ascii_of_nat 34) EmptyString).

(* ===================================================================== *)
(** ** controllers/base_controller.go *)
(* ===================================================================== *)

Section BaseReconciler.
Variable E : Env.
Context {O : Type}.

Definition condSetOf (k : KeyPairable) : ConditionSet :=
  match k with
  | KPOperator _ => operatorCondSet E
  | KPAccount _ => accountCondSet E
  | KPUser _ => userCondSet E
  | KPSigningKey _ => signingKeyCondSet E
  end.

Definition kp_initConditions (k : KeyPairable) : KeyPairable :=
  let cs := InitializeConditions (condSetOf k) (kp_Conditions k) in
  match k with
  | KPOperator o =>
      KPOperator (mkOperator (op_meta o) (op_spec o)
        (mkOperatorStatus cs (op_KeyPair (op_status o)) (ResolvedSystemAccount (op_status o))))
  | KPAccount a =>
      KPAccount (mkAccount (acc_meta a) (acc_spec a)
        (mkAccountStatus cs (acc_KeyPair (acc_status a)) (OperatorRef (acc_status a))
           (SigningKeys (acc_status a))))
  | KPUser u =>
      KPUser (mkUser (usr_meta u) (usr_spec u)
        (mkUserStatus cs (usr_KeyPair (usr_status u)) (AccountRef (usr_status u))))
  | KPSigningKey s =>
      KPSigningKey (mkSigningKey (sk_meta s)
        (mkSigningKeyStatus cs (sk_KeyPair (sk_status s)) (sk_OwnerRef (sk_status s))))
  end.

(** What the API server answers when an object of kind [k] is fetched. *)
Definition fetch (k : ObjKind) (ns name : string) : Result Object :=
  match k with
  | OperatorKind => rmap ObjOperator (Get_Operator E ns name)
  | AccountKind => rmap ObjAccount (Get_Account E ns name)
  | UserKind => rmap ObjUser (Get_User E ns name)
  | SigningKeyKind => rmap ObjSigningKey (Get_SigningKey E ns name)
  | OtherKind tag => rmap (fun _ => ObjOther tag ns name) (Get_Other E tag ns name)
  end.

(** r.Client.Get into an object of the kind the scheme instantiated. *)
Definition Client_Get (k : ObjKind) (ns name : string) : M O (Result Object) :=
  call (CGet k ns name) (fetch k ns name).

Definition CoreV1_Secrets_Get (ns name : string) : M O (Result Secret) :=
  call (CGetSecret ns name) (Secrets_Get E ns name).

Definition Eventf (etype reason message : string) : M O unit :=
  call (CEvent etype reason message) tt.

Definition ensureSeedSecretUpToDate (owner : Object) (got : Secret)
  : M O (option NKey * bool * option error) :=
  match Data got !! NatsSecretSeedKey with
  | None =>
      ret (None, true, Some (ConditionFailed ReasonInvalidSeedSecret
        "seed secret does not contain seed data, delete the secret for a new keypair"))
  | Some seed =>
      match nkeys_FromSeed E seed with
      | Err err =>
          ret (None, true, Some (ConditionFailed ReasonInvalidSeedSecret
            ("failed to parse seed: " +:+ Error err)))
      | Ok kp =>
          match KeyPairSecretBuilder_Build E (Some got) owner kp with
          | Err err =>
              ret (Some kp, true, Some (ConditionFailed ReasonUnknownError (Error err)))
          | Ok want =>
              if negb (bool_decide (got = want)) then
                let* r := call (CUpdateSecret want) (Client_Update E want) in
                match r with
                | Some err =>
                    ret (Some kp, false,
                         Some (ConditionFailed ReasonUnknownError (Error err)))
                | None =>
                    Eventf "Normal" "SeedSecretUpdated"
                      ("updated secret: " +:+ sec_Namespace want +:+ "/" +:+ sec_Name want);;
                    ret (Some kp, true, None)
                end
              else ret (Some kp, true, None)
          end
      end
  end.

Definition resolveIssuer (issuer : TypedObjectReference) (fallbackNamespace : string)
  : M O (option KeyPairable * bool * option error) :=
  let issuerGVK := GetGroupVersionKind issuer in
  match Scheme_New E issuerGVK with
  | Err err =>
      ret (None, true, Some (ConditionFailed ReasonUnsupportedIssuer
        ("unsupported GroupVersionKind: " +:+ Error err)))
  | Ok NotClientObject =>
      ret (None, true, Some (ConditionFailed ReasonUnsupportedIssuer
        "runtime.Object cannot be converted to client.Object"))
  | Ok (Prototype kind) =>
      let fallbackNamespace :=
        if negb (bool_decide (ref_Namespace issuer = ""))
        then ref_Namespace issuer else fallbackNamespace in
      let* r := Client_Get kind fallbackNamespace (ref_Name issuer) in
      match r with
      | Err err =>
          if IsNotFound err then
            ret (None, true, Some (ConditionFailed ReasonNotFound
              (gvkString issuerGVK +:+ ", " +:+ fallbackNamespace +:+ "/"
                 +:+ ref_Name issuer +:+ ": not found")))
          else
            ret (None, false, Some (ConditionUnknown ReasonUnknownError (Error err)))
      | Ok issuerObj =>
          match asKeyPairable issuerObj with
          | None =>
              ret (None, true, Some (ConditionFailed ReasonUnsupportedIssuer
                "issuer does not implement KeyPairable interface"))
          | Some keyPairable =>
              let keyPairable := kp_initConditions keyPairable in
              let seedReadyCondition :=
                GetCondition KeyPairableConditionSeedSecretReady
                  (kp_Conditions keyPairable) in
              if negb (IsTrue seedReadyCondition) then
                ret (None, true, Some (ConditionUnknown ReasonNotReady
                  "issuer seed secret is not ready"))
              else ret (Some keyPairable, true, None)
          end
      end
  end.

Definition resolveSigningKeyOwner (sk : SigningKey)
  : M O (option Object * bool * option error) :=
  if negb (IsTrue (GetCondition SigningKeyConditionOwnerResolved
                     (sk_Conditions (sk_status sk)))) then
    ret (None, true, Some (ConditionUnknown ReasonNotReady
      "signing key owner has not been resolved"))
  else
    match sk_OwnerRef (sk_status sk) with
    | None => panic
    | Some ownerRef =>
        let gvk := GetGroupVersionKind ownerRef in
        match Scheme_New E gvk with
        | Err err =>
            ret (None, true, Some (ConditionFailed ReasonInvalidSigningKeyOwner
              ("unsupported GroupVersionKind: " +:+ Error err)))
        | Ok NotClientObject =>
            ret (None, true, Some (ConditionFailed ReasonInvalidSigningKeyOwner
              "runtime.Object cannot be converted to client.Object"))
        | Ok (Prototype kind) =>
            let* r := Client_Get kind (ref_Namespace ownerRef) (ref_Name ownerRef) in
            match r with
            | Err err =>
                if IsNotFound err then
                  ret (None, true, Some (ConditionFailed ReasonNotFound (Error err)))
                else
                  ret (None, false, Some (ConditionUnknown ReasonUnknownError (Error err)))
            | Ok owner => ret (Some owner, true, None)
            end
        end
    end.

Definition loadIssuerSeed (issuer : KeyPairable) (wantPrefix : PrefixByte)
  : M O (option NKey * bool * option error) :=
  match GetKeyPair issuer with
  | None =>
      ret (None, true, Some (ConditionFailed ReasonUnknownError "issuer KeyPair is nil"))
  | Some keyPair =>
      let* r := CoreV1_Secrets_Get (GetNamespace issuer) (SeedSecretName keyPair) in
      match r with
      | Err err =>
          ret (None, IsNotFound err, Some (ConditionUnknown ReasonIssuerSeedError
            ("failed to get issuer seed: " +:+ Error err)))
      | Ok skSeedSecret =>
          match Data skSeedSecret !! NatsSecretSeedKey with
          | None =>
              ret (None, true, Some (ConditionFailed ReasonMalformedSeedSecret
                ("secret missing required field: " +:+ NatsSecretSeedKey)))
          | Some seed =>
              match nkeys_DecodeSeed E seed with
              | Err err =>
                  ret (None, true, Some (ConditionFailed ReasonMalformedSeedSecret
                    ("failed to parse seed: " +:+ Error err)))
              | Ok (prefix, _) =>
                  if negb (bool_decide (prefix = wantPrefix)) then
                    ret (None, true, Some (ConditionFailed ReasonMalformedSeedSecret
                      ("unexpected seed prefix, wanted " +:+ quote (prefixString wantPrefix)
                         +:+ " but got " +:+ quote (prefixString prefix))))
                  else
                    (* the error of FromSeed is ignored: a nil key pair panics below *)
                    match nkeys_FromSeed E seed with
                    | Err _ => panic
                    | Ok kp =>
                        match kp_PublicKey E kp with
                        | Err err =>
                            ret (None, true, Some (ConditionFailed ReasonUnknownError
                              ("failed to get public key from seed: " +:+ Error err)))
                        | Ok pk =>
                            if negb (bool_decide (pk = PublicKey keyPair)) then
                              ret (None, false, Some (ConditionFailed ReasonPublicKeyMismatch
                                ("public key mismatch, wanted " +:+ quote (PublicKey keyPair)
                                   +:+ " but got " +:+ quote pk)))
                            else ret (Some kp, true, None)
                        end
                    end
              end
          end
      end
  end.

End BaseReconciler.

(* ===================================================================== *)
(** ** Status of an Account and of a User *)
(* ===================================================================== *)

(** Modelled from the spec: the Mark functions of v1alpha1.AccountStatus
    (api/accounts/v1alpha1 is not in the sources at hand).  Each marks its
    own condition through the condition manager; the Ready/Resolved/Updated
    ones also record the value they are given. *)
Module AccountStatusOps.
Section Ops.
Variable set : ConditionSet.

Definition withConditions (f : Conditions -> Conditions) (s : AccountStatus) : AccountStatus :=
  mkAccountStatus (f (acc_Conditions s)) (acc_KeyPair s) (OperatorRef s) (SigningKeys s).

Definition InitializeConditions : AccountStatus -> AccountStatus :=
  withConditions (InitializeConditions set).

Definition MarkSeedSecretReady (publicKey seedSecretName : string) (s : AccountStatus) :=
  mkAccountStatus (markTrue set KeyPairableConditionSeedSecretReady (acc_Conditions s))
    (Some (mkKeyPair publicKey seedSecretName)) (OperatorRef s) (SigningKeys s).
Definition MarkSeedSecretFailed (reason : Reason) (msg : string) :=
  withConditions (markFalse set KeyPairableConditionSeedSecretReady reason msg).
Definition MarkSeedSecretUnknown (reason : Reason) (msg : string) :=
  withConditions (markUnknown set KeyPairableConditionSeedSecretReady reason msg).

Definition MarkIssuerResolved := withConditions (markTrue set ConditionIssuerResolved).
Definition MarkIssuerResolveFailed (reason : Reason) (msg : string) :=
  withConditions (markFalse set ConditionIssuerResolved reason msg).
Definition MarkIssuerResolveUnknown (reason : Reason) (msg : string) :=
  withConditions (markUnknown set ConditionIssuerResolved reason msg).

Definition MarkOperatorResolved (ref : InferredObjectReference) (s : AccountStatus) :=
  mkAccountStatus (markTrue set AccountConditionOperatorResolved (acc_Conditions s))
    (acc_KeyPair s) (Some ref) (SigningKeys s).
Definition MarkOperatorResolveFailed (reason : Reason) (msg : string) :=
  withConditions (markFalse set AccountConditionOperatorResolved reason msg).
Definition MarkOperatorResolveUnknown (reason : Reason) (msg : string) :=
  withConditions (markUnknown set AccountConditionOperatorResolved reason msg).

Definition MarkSigningKeysUpdated (sks : list SigningKeyEmbeddedStatus) (s : AccountStatus) :=
  mkAccountStatus (markTrue set AccountConditionSigningKeysUpdated (acc_Conditions s))
    (acc_KeyPair s) (OperatorRef s) sks.
Definition MarkSigningKeysUpdateUnknown (reason : Reason) (msg : string) :=
  withConditions (markUnknown set AccountConditionSigningKeysUpdated reason msg).

Definition MarkJWTSecretReady := withConditions (markTrue set AccountConditionJWTSecretReady).
Definition MarkJWTSecretFailed (reason : Reason) (msg : string) :=
  withConditions (markFalse set AccountConditionJWTSecretReady reason msg).
Definition MarkJWTSecretUnknown (reason : Reason) (msg : string) :=
  withConditions (markUnknown set AccountConditionJWTSecretReady reason msg).

Definition MarkJWTPushed := withConditions (markTrue set AccountConditionJWTPushed).
Definition MarkJWTPushFailed (reason : Reason) (msg : string) :=
  withConditions (markFalse set AccountConditionJWTPushed reason msg).
Definition MarkJWTPushUnknown (reason : Reason) (msg : string) :=
  withConditions (markUnknown set AccountConditionJWTPushed reason msg).
End Ops.
End AccountStatusOps.

(** Modelled from the spec: the Mark functions of v1alpha1.UserStatus. *)
Module UserStatusOps.
Section Ops.
Variable set : ConditionSet.

Definition withConditions (f : Conditions -> Conditions) (s : UserStatus) : UserStatus :=
  mkUserStatus (f (usr_Conditions s)) (usr_KeyPair s) (AccountRef s).

Definition InitializeConditions : UserStatus -> UserStatus :=
  withConditions (InitializeConditions set).

Definition MarkSeedSecretReady (publicKey seedSecretName : string) (s : UserStatus) :=
  mkUserStatus (markTrue set KeyPairableConditionSeedSecretReady (usr_Conditions s))
    (Some (mkKeyPair publicKey seedSecretName)) (AccountRef s).
Definition MarkSeedSecretFailed (reason : Reason) (msg : string) :=
  withConditions (markFalse set KeyPairableConditionSeedSecretReady reason msg).
Definition MarkSeedSecretUnknown (reason : Reason) (msg : string) :=
  withConditions (markUnknown set KeyPairableConditionSeedSecretReady reason msg).

Definition MarkIssuerResolved := withConditions (markTrue set ConditionIssuerResolved).
Definition MarkIssuerResolveFailed (reason : Reason) (msg : string) :=
  withConditions (markFalse set ConditionIssuerResolved reason msg).
Definition MarkIssuerResolveUnknown (reason : Reason) (msg : string) :=
  withConditions (markUnknown set ConditionIssuerResolved reason msg).

Definition MarkAccountResolved (ref : InferredObjectReference) (s : UserStatus) :=
  mkUserStatus (markTrue set UserConditionAccountResolved (usr_Conditions s))
    (usr_KeyPair s) (Some ref).
Definition MarkAccountResolveFailed (reason : Reason) (msg : string) :=
  withConditions (markFalse set UserConditionAccountResolved reason msg).
Definition MarkAccountResolveUnknown (reason : Reason) (msg : string) :=
  withConditions (markUnknown set UserConditionAccountResolved reason msg).

Definition MarkJWTSecretReady := withConditions (markTrue set UserConditionJWTSecretReady).
Definition MarkJWTSecretFailed (reason : Reason) (msg : string) :=
  withConditions (markFalse set UserConditionJWTSecretReady reason msg).
Definition MarkJWTSecretUnknown (reason : Reason) (msg : string) :=
  withConditions (markUnknown set UserConditionJWTSecretReady reason msg).

Definition MarkCredentialsSecretReady :=
  withConditions (markTrue set UserConditionCredentialsSecretReady).
Definition MarkCredentialsSecretFailed (reason : Reason) (msg : string) :=
  withConditions (markFalse set UserConditionCredentialsSecretReady reason msg).
Definition MarkCredentialsSecretUnknown (reason : Reason) (msg : string) :=
  withConditions (markUnknown set UserConditionCredentialsSecretReady reason msg).
End Ops.
End UserStatusOps.

(* ===================================================================== *)
(** ** Signing-key membership *)
(* ===================================================================== *)

(** Modelled from the spec: helpers.NextSigningKeys (pkg/helpers is not in
    the sources at hand).  Its inputs are the owning resource, its previously
    recorded membership and the current listing.  The desired membership is
    the listing filtered to the Signing Keys whose resolved owner reference
    equals the calling resource (namespace and name) and whose readiness
    condition is True, each projected to its name and key pair.  The result
    is order-stable: the recorded entries that are still desired keep their
    order, and the newly desired ones follow in listing order.  The caller
    names the owning resource by its UID; the filter the spec states needs
    its namespace and name, so the owner is handed over as the metadata of
    the resource, which holds the UID with both. *)
Definition ownedBy (owner : ObjectMeta) (sk : SigningKey) : bool :=
  match sk_OwnerRef (sk_status sk) with
  | Some r =>
      bool_decide (ref_Namespace r = Namespace owner)
      && bool_decide (ref_Name r = Name owner)
  | None => false
  end.

Definition projectSigningKey (sk : SigningKey) : option SigningKeyEmbeddedStatus :=
  match sk_KeyPair (sk_status sk) with
  | Some kp => Some (mkEmbedded (Name (sk_meta sk)) kp)
  | None => None
  end.

Definition desiredSigningKeys (owner : ObjectMeta) (skList : list SigningKey)
  : list SigningKeyEmbeddedStatus :=
  omap projectSigningKey
    (List.filter (fun sk => ownedBy owner sk && IsReady (sk_Conditions (sk_status sk))) skList).

Definition NextSigningKeys (owner : ObjectMeta) (current : list SigningKeyEmbeddedStatus)
    (skList : list SigningKey) : list SigningKeyEmbeddedStatus :=
  let desired := desiredSigningKeys owner skList in
  List.filter (fun x => bool_decide (x ∈ desired)) current
    ++ List.filter (fun x => negb (bool_decide (x ∈ current))) desired.

(* ===================================================================== *)
(** ** The Account controller *)
(* ===================================================================== *)

Module AccountReconciler.
Section Controller.
Variable E : Env.

Import AccountStatusOps.

Definition mark (f : ConditionSet -> AccountStatus -> AccountStatus) : M Account unit :=
  modify (fun acc =>
    mkAccount (acc_meta acc) (acc_spec acc) (f (accountCondSet E) (acc_status acc))).

Definition setMeta (f : ObjectMeta -> ObjectMeta) : M Account unit :=
  modify (fun acc => mkAccount (f (acc_meta acc)) (acc_spec acc) (acc_status acc)).

(** r.Update(ctx, acc) *)
Definition Update : M Account (option error) :=
  let* acc := get in
  call (CUpdateObject (Finalizers (acc_meta acc))) (Update_Account E acc).

Definition createSeedSecret : M Account (option error) :=
  let* acc := get in
  let* r := call (CGenerateKeyPair PrefixByteAccount) (nkeys_CreateAccount E) in
  match r with
  | Err err =>
      mark (fun set => MarkSeedSecretFailed set ReasonUnknownError (Error err));;
      ret (Some err)
  | Ok kp =>
      match KeyPairSecretBuilder_Build E None (ObjAccount acc) kp with
      | Err err =>
          mark (fun set => MarkSeedSecretFailed set ReasonUnknownError (Error err));;
          ret (Some err)
      | Ok secret =>
          match SetControllerReference E (ObjAccount acc) secret with
          | Err err =>
              mark (fun set => MarkSeedSecretFailed set ReasonUnknownError (Error err));;
              ret (Some err)
          | Ok secret =>
              let* r := call (CCreateSecret secret) (Client_Create E secret) in
              match r with
              | Some err =>
                  mark (fun set => MarkSeedSecretFailed set ReasonUnknownError (Error err));;
                  ret (Some err)
              | None =>
                  Eventf "Normal" "SeedSecretCreated"
                    ("created secret: " +:+ sec_Namespace secret +:+ "/" +:+ sec_Name secret);;
                  match kp_PublicKey E kp with
                  | Err err =>
                      mark (fun set => MarkSeedSecretFailed set ReasonUnknownError (Error err));;
                      ret (Some err)
                  | Ok pubkey =>
                      mark (fun set => MarkSeedSecretReady set pubkey (sec_Name secret));;
                      ret None
                  end
              end
          end
      end
  end.

Definition ensureSeedSecretUpToDate (got : Secret) : M Account (bool * option error) :=
  let* acc := get in
  match Data got !! NatsSecretSeedKey with
  | None =>
      mark (fun set => MarkSeedSecretFailed set ReasonInvalidSeedSecret
        "seed secret does not contain seed data, delete the secret for a new keypair");;
      ret (false, None)
  | Some seed =>
      match nkeys_FromSeed E seed with
      | Err err =>
          mark (fun set => MarkSeedSecretFailed set ReasonInvalidSeedSecret
            ("failed to parse seed: " +:+ Error err));;
          ret (false, None)
      | Ok kp =>
          match KeyPairSecretBuilder_Build E (Some got) (ObjAccount acc) kp with
          | Err err =>
              mark (fun set => MarkSeedSecretUnknown set ReasonUnknownError (Error err));;
              ret (false, Some err)
          | Ok want =>
              let* r :=
                if negb (bool_decide (got = want)) then
                  let* r := call (CUpdateSecret want) (Client_Update E want) in
                  match r with
                  | Some err =>
                      mark (fun set => MarkSeedSecretUnknown set ReasonUnknownError (Error err));;
                      ret (Some err)
                  | None =>
                      Eventf "Normal" "SeedSecretUpdated"
                        ("updated secret: " +:+ sec_Namespace want +:+ "/" +:+ sec_Name want);;
                      ret None
                  end
                else ret None in
              match r with
              | Some err => ret (false, Some err)
              | None =>
                  let pubkey := orEmpty (kp_PublicKey E kp) in
                  mark (fun set => MarkSeedSecretReady set pubkey (sec_Name want));;
                  ret (true, None)
              end
          end
      end
  end.

Definition reconcileSeedSecret : M Account (bool * option error) :=
  let* acc := get in
  let* r := CoreV1_Secrets_Get E (Namespace (acc_meta acc)) (acc_SeedSecretName (acc_spec acc)) in
  match r with
  | Err err =>
      if IsNotFound err then
        let* e := createSeedSecret in ret (true, e)
      else
        mark (fun set => MarkSeedSecretUnknown set ReasonUnknownError (Error err));;
        ret (false, Some err)
  | Ok got => ensureSeedSecretUpToDate got
  end.

Definition resolveOperator (keyPair : KeyPairable)
  : M Account (option Operator * bool * option error) :=
  let resolved (operator : Operator) : M Account (option Operator * bool * option error) :=
    mark (fun set => MarkOperatorResolved set
            (mkInferredRef (Namespace (op_meta operator)) (Name (op_meta operator))));;
    ret (Some operator, true, None) in
  match keyPair with
  | KPOperator v => resolved v
  | KPSigningKey v =>
      let* res := resolveSigningKeyOwner E v in
      let '(owner, ok, err) := res in
      if isErr err || negb ok then
        match asConditionError err with
        | Some cerr =>
            mark (fun set => MarkCondition cerr
                    (MarkOperatorResolveFailed set) (MarkOperatorResolveUnknown set));;
            if ok then ret (None, true, None) else ret (None, false, err)
        | None =>
            match err with
            | None => panic
            | Some e =>
                mark (fun set => MarkOperatorResolveUnknown set ReasonUnknownError (Error e));;
                if ok then ret (None, true, None) else ret (None, false, err)
            end
        end
      else
        match owner with
        | Some (ObjOperator operator) => resolved operator
        | Some other =>
            mark (fun set => MarkOperatorResolveFailed set ReasonInvalidSigningKeyOwner
              ("account issuer is not owned by an Operator, got: "
                 +:+ gvkString (obj_GroupVersionKind other)));;
            ret (None, false, None)
        | None => panic
        end
  | _ =>
      mark (fun set => MarkOperatorResolveFailed set ReasonUnsupportedIssuer
        ("invalid keypair, expected Operator or SigningKey, got: "
           +:+ gvkString (kp_GroupVersionKind keyPair)));;
      ret (None, false, None)
  end.

Definition ensureSigningKeysUpdated : M Account (option error) :=
  let* acc := get in
  let selected : Result Selector :=
    match SigningKeysSelector (acc_spec acc) with
    | None => Ok labels_Everything
    | Some sel => LabelSelectorAsSelector E sel
    end in
  match selected with
  | Err err =>
      Eventf "Warning" "InvalidSigningKeysSelector"
        ("Failed to parse label selector: " +:+ Error err);;
      ret (Some err)
  | Ok labelSelector =>
      let listOptions := if negb (sel_Empty labelSelector) then sel_String labelSelector else "" in
      let* r := call (CListSigningKeys (Namespace (acc_meta acc)) listOptions)
                     (SigningKeys_List E (Namespace (acc_meta acc)) listOptions) in
      match r with
      | Err err => ret (Some (WrapError "failed to list SigningKeys: " err))
      | Ok skList =>
          (* helpers.NextSigningKeys(acc.UID, acc.Status.SigningKeys, skList) *)
          let nextSKs :=
            NextSigningKeys (acc_meta acc) (SigningKeys (acc_status acc)) skList in
          (if negb (bool_decide (SigningKeys (acc_status acc) = nextSKs))
           then Eventf "Normal" "SigningKeysChanged" ""
           else ret tt);;
          mark (fun set => MarkSigningKeysUpdated set nextSKs);;
          ret None
      end
  end.

Definition loadIssuerSeed (issuer : KeyPairable) : M Account (option NKey * bool * option error) :=
  match GetKeyPair issuer with
  | None =>
      mark (fun set => MarkIssuerResolveFailed set ReasonUnknownError "issuer KeyPair is nil");;
      ret (None, false, None)
  | Some keyPair =>
      let* r := CoreV1_Secrets_Get E (GetNamespace issuer) (SeedSecretName keyPair) in
      match r with
      | Err err =>
          mark (fun set => MarkIssuerResolveUnknown set ReasonIssuerSeedError
            ("failed to get issuer seed: " +:+ Error err));;
          if IsNotFound err then ret (None, false, None)
          else ret (None, false, Some err)
      | Ok skSeedSecret =>
          match Data skSeedSecret !! NatsSecretSeedKey with
          | None =>
              mark (fun set => MarkIssuerResolveFailed set ReasonMalformedSeedSecret
                ("secret missing required field: " +:+ NatsSecretSeedKey));;
              ret (None, false, None)
          | Some seed =>
              match nkeys_DecodeSeed E seed with
              | Err err =>
                  mark (fun set => MarkIssuerResolveFailed set ReasonMalformedSeedSecret
                    ("failed to parse seed: " +:+ Error err));;
                  ret (None, false, None)
              | Ok (prefix, _) =>
                  if negb (bool_decide (prefix = PrefixByteOperator)) then
                    mark (fun set => MarkIssuerResolveFailed set ReasonMalformedSeedSecret
                      ("unexpected seed prefix, wanted "
                         +:+ quote (prefixString PrefixByteOperator)
                         +:+ " but got " +:+ quote (prefixString prefix)));;
                    ret (None, false, None)
                  else
                    match nkeys_FromSeed E seed with
                    | Err _ => panic
                    | Ok kp =>
                        match kp_PublicKey E kp with
                        | Err err =>
                            mark (fun set => MarkIssuerResolveFailed set ReasonUnknownError
                              ("failed to get public key from seed: " +:+ Error err));;
                            ret (None, false, None)
                        | Ok pk =>
                            if negb (bool_decide (pk = PublicKey keyPair)) then
                              mark (fun set => MarkIssuerResolveFailed set ReasonPublicKeyMismatch
                                ("public key mismatch, wanted " +:+ quote (PublicKey keyPair)
                                   +:+ " but got " +:+ quote pk));;
                              ret (None, false, None)
                            else
                              mark MarkIssuerResolved;;
                              ret (Some kp, true, None)
                        end
                    end
              end
          end
      end
  end.

Definition createJWTSecret (accountJWT : string) : M Account (option error) :=
  let* acc := get in
  match JWTSecretBuilder_Build E None (ObjAccount acc) accountJWT with
  | Err err =>
      mark (fun set => MarkJWTSecretFailed set ReasonUnknownError (Error err));;
      ret (Some err)
  | Ok secret =>
      match SetControllerReference E (ObjAccount acc) secret with
      | Err err =>
          mark (fun set => MarkJWTSecretFailed set ReasonUnknownError (Error err));;
          ret (Some err)
      | Ok secret =>
          let* r := call (CCreateSecret secret) (Client_Create E secret) in
          match r with
          | Some err =>
              mark (fun set => MarkJWTSecretFailed set ReasonUnknownError (Error err));;
              ret (Some err)
          | None =>
              Eventf "Normal" "JWTSecretCreated"
                ("created secret: " +:+ sec_Namespace secret +:+ "/" +:+ sec_Name secret);;
              ret None
          end
      end
  end.

(** ensureJWTSecretUpToDate compares that the existing JWT secret decodes
    and matches the expected claims, if it does not match the secret will
    be updated with the nextJWT value. *)
Definition ensureJWTSecretUpToDate (wantClaims : Claims) (got : Secret) (nextJWT : string)
  : M Account (string * bool * option error) :=
  let* acc := get in
  match Data got !! NatsSecretJWTKey with
  | None =>
      mark (fun set => MarkJWTSecretFailed set ReasonInvalidJWTSecret
        "JWT secret does not contain JWT data, delete the secret to generate a new JWT");;
      ret ("", false, None)
  | Some gotJWT =>
      let upToDate :=
        match jwt_Decode E gotJWT with
        | Err _ => false
        | Ok gotClaims => Equality_DeepEqual gotClaims wantClaims
        end in
      if upToDate then
        mark MarkJWTSecretReady;;
        ret (gotJWT, true, None)
      else
        match JWTSecretBuilder_Build E (Some got) (ObjAccount acc) nextJWT with
        | Err err =>
            mark (fun set => MarkSeedSecretUnknown set ReasonUnknownError (Error err));;
            ret ("", false, Some err)
        | Ok want =>
            let* r := call (CUpdateSecret want) (Client_Update E want) in
            match r with
            | Some err =>
                mark (fun set => MarkSeedSecretUnknown set ReasonUnknownError (Error err));;
                ret ("", false, Some err)
            | None =>
                Eventf "Normal" "SeedSecretUpdated"
                  ("updated secret: " +:+ sec_Namespace want +:+ "/" +:+ sec_Name want);;
                mark MarkJWTSecretReady;;
                ret (nextJWT, true, None)
            end
        end
  end.

Definition reconcileJWTSecret (issuerKP : NKey) : M Account (string * bool * option error) :=
  let* acc := get in
  match CreateAccountClaims E acc issuerKP with
  | Err err =>
      mark (fun set => MarkJWTSecretFailed set ReasonUnknownError (Error err));;
      ret ("", false, Some err)
  | Ok (wantClaims, nextJWT) =>
      let* r := CoreV1_Secrets_Get E (Namespace (acc_meta acc)) (acc_JWTSecretName (acc_spec acc)) in
      match r with
      | Err err =>
          if IsNotFound err then
            let* e := createJWTSecret nextJWT in
            ret (nextJWT, true, e)
          else
            mark (fun set => MarkJWTSecretUnknown set ReasonUnknownError (Error err));;
            ret ("", false, Some err)
      | Ok got => ensureJWTSecretUpToDate wantClaims got nextJWT
      end
  end.

Definition loadCAFile (ns : string) (selector : SecretKeySelector) : M Account (Result bytes) :=
  let* r := CoreV1_Secrets_Get E ns (sks_Name selector) in
  match r with
  | Err err => ret (Err (WrapError "failed to get caFile secret: " err))
  | Ok secret =>
      let key := if negb (bool_decide (sks_Key selector = "")) then sks_Key selector else "ca.crt" in
      match Data secret !! key with
      | None => ret (Err (PlainError ("caFile secret missing key " +:+ quote key)))
      | Some caFile => ret (Ok caFile)
      end
  end.

Definition getNATSOptions (operator : Operator) : M Account (Result (list NatsOption)) :=
  match op_TLSConfig (op_spec operator) with
  | None => ret (Ok [])
  | Some tlsConfig =>
      match CAFile tlsConfig with
      | Some caFileSel =>
          let* r := loadCAFile (Namespace (op_meta operator)) caFileSel in
          match r with
          | Err err => ret (Err (WrapError "failed to load CA file: " err))
          | Ok caFile => ret (Ok [CABundle caFile])
          end
      | None => ret (Err (PlainError "invalid TLS config: missing CA file"))
      end
  end.

Definition Load (operator : option Operator) : M Account (Result NKey) :=
  let key := match operator with
             | Some o => (Namespace (op_meta o), Name (op_meta o))
             | None => ("", "")
             end in
  let* r := call (CLoadSystemAccount (fst key) (snd key)) (SysAccountLoader_Load E operator) in
  match r with
  | None => panic
  | Some r => ret r
  end.

Definition ensureJWTPushed (operator : option Operator) (issuer : NKey) (ajwt : string)
  : M Account (option error) :=
  let* r := Load operator in
  match r with
  | Err err =>
      mark (fun set => MarkJWTPushFailed set ReasonUnknownError (Error err));;
      ret (Some err)
  | Ok sysSeed =>
      match operator with
      | None => panic
      | Some operator =>
          let* r := getNATSOptions operator in
          match r with
          | Err err =>
              mark (fun set => MarkJWTPushFailed set ReasonUnknownError (Error err));;
              ret (Some err)
          | Ok opts =>
              let* r := call (CConnect (AccountServerURL (op_spec operator)))
                             (nsc_Connect E (AccountServerURL (op_spec operator)) issuer sysSeed opts) in
              match r with
              | Some err =>
                  mark (fun set => MarkJWTPushFailed set ReasonUnknownError (Error err));;
                  ret (Some err)
              | None =>
                  let* r := call (CPush ajwt) (nsc_Push E ajwt) in
                  match r with
                  | Some err =>
                      mark (fun set => MarkJWTPushFailed set ReasonJWTPushError (Error err));;
                      call CClose tt;;
                      ret (Some err)
                  | None =>
                      mark MarkJWTPushed;;
                      call CClose tt;;
                      ret None
                  end
              end
          end
      end
  end.

Definition finalizeAccount : M Account (option error) :=
  let* acc := get in
  if negb (IsTrue (GetCondition AccountConditionJWTSecretReady (acc_Conditions (acc_status acc))))
  then ret None
  else if negb (IsTrue (GetCondition AccountConditionJWTPushed (acc_Conditions (acc_status acc))))
  then ret None
  else
    match OperatorRef (acc_status acc) with
    | None => panic
    | Some operatorRef =>
      let* r := call (CGetOperator (iref_Namespace operatorRef) (iref_Name operatorRef))
                     (Operators_Get E (iref_Namespace operatorRef) (iref_Name operatorRef)) in
      match r with
      | Err err =>
          if IsNotFound err then ret None
          else ret (Some (WrapError "operator could not be loaded: " err))
      | Ok operator =>
        match op_KeyPair (op_status operator) with
        | None => ret (Some (PlainError "operator not ready"))
        | Some operatorKeyPair =>
          let* r := CoreV1_Secrets_Get E (Namespace (op_meta operator))
                      (SeedSecretName operatorKeyPair) in
          match r with
          | Err err => ret (Some (WrapError "unable to load operator seed: " err))
          | Ok operatorSeed =>
            match Data operatorSeed !! NatsSecretSeedKey with
            | None =>
                ret (Some (PlainError ("operator seed secret missing property, "
                                         +:+ quote NatsSecretSeedKey)))
            | Some operatorSeedData =>
              match nkeys_FromSeed E operatorSeedData with
              | Err err => ret (Some (WrapError "failed to parse operator seed data: " err))
              | Ok operatorKP =>
                let* r := Load (Some operator) in
                match r with
                | Err err => if IsNotFound err then ret None else ret (Some err)
                | Ok sysSeed =>
                  let* r := getNATSOptions operator in
                  match r with
                  | Err err =>
                      mark (fun set => MarkJWTPushFailed set ReasonUnknownError (Error err));;
                      ret (Some err)
                  | Ok opts =>
                    let* r := call (CConnect (AccountServerURL (op_spec operator)))
                                (nsc_Connect E (AccountServerURL (op_spec operator))
                                   operatorKP sysSeed opts) in
                    match r with
                    | Some err => ret (Some err)
                    | None =>
                      match acc_KeyPair (acc_status acc) with
                      | None => call CClose tt;; panic
                      | Some keyPair =>
                          let* r := call (CDelete (PublicKey keyPair))
                                      (nsc_Delete E (PublicKey keyPair)) in
                          call CClose tt;;
                          ret r
                      end
                    end
                  end
                end
              end
            end
          end
        end
      end
    end.

(** What Reconcile does when resolveIssuer did not hand back an issuer:
    the body of the [if err != nil || !ok] that follows the call. *)
Definition issuerUnresolved (ok : bool) (err : option error) : M Account (option error) :=
  match asConditionError err, err with
  | Some cerr, _ =>
      mark (fun set => MarkCondition cerr
              (MarkIssuerResolveFailed set) (MarkIssuerResolveUnknown set));;
      if ok then ret None else ret err
  | None, Some e =>
      mark (fun set => MarkIssuerResolveUnknown set ReasonUnknownError (Error e));;
      if ok then ret None else ret err
  | None, None => panic
  end.

(** The publication step at the end of Reconcile: a system account is not
    pushed, its condition is set so that it can be considered ready. *)
Definition publication (operator : option Operator) (issuerKP : NKey) (accountJWT : string)
  : M Account (option error) :=
  let* acc := get in
  match IsSystemAccount E acc operator with
  | None => panic
  | Some false => ensureJWTPushed operator issuerKP accountJWT
  | Some true => mark MarkJWTPushed;; ret None
  end.

(** The part of Reconcile that runs while the deletion timestamp is zero,
    after the finalizer is in place. *)
Definition pipeline : M Account (option error) :=
  let* res := reconcileSeedSecret in
  let '(ok, err) := res in
  if isErr err || negb ok then ret err else
  let* acc := get in
  let* res := resolveIssuer E (acc_Issuer (acc_spec acc)) (Namespace (acc_meta acc)) in
  let '(keyPairable, ok, err) := res in
  if isErr err || negb ok then issuerUnresolved ok err
  else
  match keyPairable with
  | None => panic
  | Some keyPairable =>
  let* res := resolveOperator keyPairable in
  let '(operator, ok, err) := res in
  if isErr err || negb ok then ret err else
  let* err := ensureSigningKeysUpdated in
  if isErr err then ret err else
  let* res := loadIssuerSeed keyPairable in
  let '(issuerKP, ok, err) := res in
  if isErr err || negb ok then
    (if ok then ret None else ret err)
  else
  match issuerKP with
  | None => panic
  | Some issuerKP =>
  let* res := reconcileJWTSecret issuerKP in
  let '(accountJWT, ok, err) := res in
  if isErr err || negb ok then ret err else
  publication operator issuerKP accountJWT
  end
  end.

Definition reconcileLoaded : M Account (option error) :=
  let* acc := get in
  if IsZero (DeletionTimestamp (acc_meta acc)) then
    let* err :=
      if negb (ContainsFinalizer (acc_meta acc) AccountFinalizer) then
        setMeta (fun m => AddFinalizer m AccountFinalizer);;
        Update
      else ret None in
    if isErr err then ret err else pipeline
  else
    if ContainsFinalizer (acc_meta acc) AccountFinalizer then
      let* err := finalizeAccount in
      if isErr err then ret err else
      setMeta (fun m => RemoveFinalizer m AccountFinalizer);;
      Update
    else ret None.

(** The deferred function of Reconcile: it runs when the body returns and
    when it panics, and appends a failed status update to the error.  The
    snapshot is the pointer acc.Status.DeepCopy() returned and is compared
    with the value acc.Status. *)
Definition withDeferredStatusUpdate (originalStatus : AccountStatus)
    (body : M Account (option error)) : M Account (option error) :=
  fun acc =>
    let r := body acc in
    if negb (Semantic_DeepEqual (Pointer originalStatus) (Value (acc_status (obj r)))) then
      let err2 := Status_Update_Account E (obj r) in
      mkRes (match out r with
             | Some err => Some (multierr_Append err err2)
             | None => None
             end)
            (obj r) (log r ++ [CUpdateStatus])
    else r.

Definition Reconcile (req : string * string) : Res (option Account) (option error) :=
  match Get_Account E (fst req) (snd req) with
  | Err err =>
      mkRes (Some (if IsNotFound err then None else Some err)) None
            [CGet AccountKind (fst req) (snd req)]
  | Ok acc =>
      let originalStatus := acc_status acc in
      let r := withDeferredStatusUpdate originalStatus
                 (mark InitializeConditions;; reconcileLoaded) acc in
      mkRes (out r) (Some (obj r)) (CGet AccountKind (fst req) (snd req) :: log r)
  end.

(** resolveSigningKeyOperator marks the operator condition itself and
    fetches an Operator at the namespace and name of the owner reference,
    whatever kind the reference names. *)
Definition resolveSigningKeyOperator (sk : SigningKey)
  : M Account (option Operator * bool * option error) :=
  if negb (IsTrue (GetCondition SigningKeyConditionOwnerResolved
                     (sk_Conditions (sk_status sk)))) then
    mark (fun set => MarkOperatorResolveUnknown set ReasonNotReady
            "signing key owner has not been resolved");;
    ret (None, false, None)
  else
    match sk_OwnerRef (sk_status sk) with
    | None => panic
    | Some ownerRef =>
        let* r := call (CGet OperatorKind (ref_Namespace ownerRef) (ref_Name ownerRef))
                       (Get_Operator E (ref_Namespace ownerRef) (ref_Name ownerRef)) in
        match r with
        | Err err =>
            if IsNotFound err then
              mark (fun set => MarkOperatorResolveFailed set ReasonNotFound (Error err));;
              ret (None, false, None)
            else
              mark (fun set => MarkOperatorResolveUnknown set ReasonUnknownError (Error err));;
              ret (None, false, Some err)
        | Ok operator => ret (Some operator, true, None)
        end
    end.

(** The map function that SetupWithManager registers for the watch on
    Signing Keys: the requests to enqueue for a watched object, each a
    namespace and a name. *)
Definition signingKeyWatch (obj : Object) : list (string * string) :=
  match obj with
  | ObjSigningKey signingKey =>
      match sk_OwnerRef (sk_status signingKey) with
      | None => []
      | Some ownerRef =>
          let accountGVK := (GroupVersion, "Account") in
          if negb (bool_decide (accountGVK = GetGroupVersionKind ownerRef)) then []
          else [(ref_Namespace ownerRef, ref_Name ownerRef)]
      end
  | _ => []
  end.

End Controller.
End AccountReconciler.

(* ===================================================================== *)
(** ** The User controller *)
(* ===================================================================== *)

Module UserReconciler.
Section Controller.
Variable E : Env.

Import UserStatusOps.

Definition mark (f : ConditionSet -> UserStatus -> UserStatus) : M User unit :=
  modify (fun usr =>
    mkUser (usr_meta usr) (usr_spec usr) (f (userCondSet E) (usr_status usr))).

Definition createSeedSecret : M User (option bytes * bool * option error) :=
  let* usr := get in
  let* r := call (CGenerateKeyPair PrefixByteUser) (nkeys_CreateUser E) in
  match r with
  | Err err =>
      mark (fun set => MarkSeedSecretFailed set ReasonUnknownError (Error err));;
      ret (None, false, Some err)
  | Ok kp =>
      match KeyPairSecretBuilder_Build E None (ObjUser usr) kp with
      | Err err =>
          mark (fun set => MarkSeedSecretFailed set ReasonUnknownError (Error err));;
          ret (None, false, Some err)
      | Ok secret =>
          let* r := call (CCreateSecret secret) (Client_Create E secret) in
          match r with
          | Some err =>
              mark (fun set => MarkSeedSecretFailed set ReasonUnknownError (Error err));;
              ret (None, false, Some err)
          | None =>
              Eventf "Normal" "SeedSecretCreated"
                ("created secret: " +:+ sec_Namespace secret +:+ "/" +:+ sec_Name secret);;
              match kp_PublicKey E kp with
              | Err err =>
                  mark (fun set => MarkSeedSecretFailed set ReasonUnknownError (Error err));;
                  ret (None, true, Some err)
              | Ok pubkey =>
                  let seedBytes := orEmpty (kp_Seed E kp) in
                  mark (fun set => MarkSeedSecretReady set pubkey (sec_Name secret));;
                  ret (Some seedBytes, true, None)
              end
          end
      end
  end.

Definition reconcileSeedSecret : M User (option bytes * bool * option error) :=
  let* usr := get in
  let* r := CoreV1_Secrets_Get E (Namespace (usr_meta usr)) (usr_SeedSecretName (usr_spec usr)) in
  match r with
  | Err err =>
      if IsNotFound err then createSeedSecret
      else
        mark (fun set => MarkSeedSecretUnknown set ReasonUnknownError (Error err));;
        ret (None, false, Some err)
  | Ok got =>
      let* res := ensureSeedSecretUpToDate E (ObjUser usr) got in
      let '(kp, ok, err) := res in
      if isErr err || negb ok then
        match asConditionError err, err with
        | Some cerr, _ =>
            mark (fun set => MarkCondition cerr
                    (MarkSeedSecretFailed set) (MarkSeedSecretUnknown set));;
            ret (None, ok, err)
        | None, Some e =>
            mark (fun set => MarkSeedSecretUnknown set ReasonUnknownError (Error e));;
            ret (None, ok, err)
        | None, None => panic
        end
      else
        match kp with
        | None => panic
        | Some kp =>
            let seedBytes := orEmpty (kp_Seed E kp) in
            let pubkey := orEmpty (kp_PublicKey E kp) in
            mark (fun set => MarkSeedSecretReady set pubkey (usr_SeedSecretName (usr_spec usr)));;
            ret (Some seedBytes, true, None)
        end
  end.

Definition resolveAccount (keyPair : KeyPairable)
  : M User (option Account * bool * option error) :=
  let resolved (account : Account) : M User (option Account * bool * option error) :=
    mark (fun set => MarkAccountResolved set
            (mkInferredRef (Namespace (acc_meta account)) (Name (acc_meta account))));;
    ret (Some account, true, None) in
  match keyPair with
  | KPAccount v => resolved v
  | KPSigningKey v =>
      let* res := resolveSigningKeyOwner E v in
      let '(owner, ok, err) := res in
      if isErr err || negb ok then
        match asConditionError err, err with
        | Some cerr, _ =>
            mark (fun set => MarkCondition cerr
                    (MarkAccountResolveFailed set) (MarkAccountResolveUnknown set));;
            if ok then ret (None, true, None) else ret (None, false, err)
        | None, Some e =>
            mark (fun set => MarkAccountResolveUnknown set ReasonUnknownError (Error e));;
            if ok then ret (None, true, None) else ret (None, false, err)
        | None, None => panic
        end
      else
        match owner with
        | Some (ObjAccount account) => resolved account
        | Some other =>
            mark (fun set => MarkAccountResolveFailed set ReasonInvalidSigningKeyOwner
              ("user issuer is not owned by an Account, got: "
                 +:+ gvkString (obj_GroupVersionKind other)));;
            ret (None, false, None)
        | None => panic
        end
  | _ =>
      mark (fun set => MarkAccountResolveFailed set ReasonUnsupportedIssuer
        ("invalid keypair, expected Account or SigningKey, got: "
           +:+ gvkString (kp_GroupVersionKind keyPair)));;
      ret (None, false, None)
  end.

Definition createJWTSecret (userJWT : string) : M User (bool * option error) :=
  let* usr := get in
  match JWTSecretBuilder_Build E None (ObjUser usr) userJWT with
  | Err err =>
      mark (fun set => MarkJWTSecretFailed set ReasonUnknownError (Error err));;
      ret (true, Some err)
  | Ok secret =>
      let* r := call (CCreateSecret secret) (Client_Create E secret) in
      match r with
      | Some err =>
          mark (fun set => MarkJWTSecretFailed set ReasonUnknownError (Error err));;
          ret (false, Some err)
      | None =>
          Eventf "Normal" "JWTSecretCreated"
            ("created secret: " +:+ sec_Namespace secret +:+ "/" +:+ sec_Name secret);;
          ret (true, None)
      end
  end.

(** ensureJWTSecretUpToDate compares that the existing JWT secret decodes
    and matches the expected claims, if it does not match the secret will
    be updated with the nextJWT value. *)
Definition ensureJWTSecretUpToDate (wantClaims : Claims) (got : Secret) (nextJWT : string)
  : M User (string * bool * option error) :=
  let* usr := get in
  match Data got !! NatsSecretJWTKey with
  | None =>
      mark (fun set => MarkJWTSecretFailed set ReasonInvalidJWTSecret
        "JWT secret does not contain JWT data, delete the secret to generate a new JWT");;
      ret ("", false, None)
  | Some gotJWT =>
      let upToDate :=
        match jwt_Decode E gotJWT with
        | Err _ => false
        | Ok gotClaims => Equality_DeepEqual gotClaims wantClaims
        end in
      if upToDate then
        mark MarkJWTSecretReady;;
        ret (gotJWT, true, None)
      else
        match JWTSecretBuilder_Build E (Some got) (ObjUser usr) nextJWT with
        | Err err =>
            mark (fun set => MarkSeedSecretUnknown set ReasonUnknownError (Error err));;
            ret ("", true, Some err)
        | Ok want =>
            let* r := call (CUpdateSecret want) (Client_Update E want) in
            match r with
            | Some err =>
                mark (fun set => MarkSeedSecretUnknown set ReasonUnknownError (Error err));;
                ret ("", false, Some err)
            | None =>
                Eventf "Normal" "SeedSecretUpdated"
                  ("updated secret: " +:+ sec_Namespace want +:+ "/" +:+ sec_Name want);;
                mark MarkJWTSecretReady;;
                ret (nextJWT, true, None)
            end
        end
  end.

Definition reconcileJWTSecret (keyPairable : KeyPairable)
  : M User (string * bool * option error) :=
  let* res := loadIssuerSeed E keyPairable PrefixByteAccount in
  let '(issuerKP, ok, err) := res in
  if isErr err || negb ok then
    match asConditionError err, err with
    | Some cerr, _ =>
        mark (fun set => MarkCondition cerr
                (MarkIssuerResolveFailed set) (MarkIssuerResolveUnknown set));;
        ret ("", ok, err)
    | None, Some e =>
        mark (fun set => MarkIssuerResolveUnknown set ReasonUnknownError (Error e));;
        ret ("", ok, err)
    | None, None => panic
    end
  else
  match issuerKP with
  | None => panic
  | Some issuerKP =>
    mark MarkIssuerResolved;;
    let* usr := get in
    match CreateUserClaims E usr issuerKP with
    | Err err =>
        mark (fun set => MarkJWTSecretFailed set ReasonUnknownError (Error err));;
        ret ("", false, None)
    | Ok (wantClaims, nextJWT) =>
        let* r := CoreV1_Secrets_Get E (Namespace (usr_meta usr))
                    (usr_JWTSecretName (usr_spec usr)) in
        match r with
        | Err err =>
            if IsNotFound err then
              let* res := createJWTSecret nextJWT in
              let '(ok, err) := res in
              if isErr err || negb ok then ret ("", ok, err)
              else ret (nextJWT, true, None)
            else
              mark (fun set => MarkJWTSecretUnknown set ReasonUnknownError (Error err));;
              ret ("", false, Some err)
        | Ok got => ensureJWTSecretUpToDate wantClaims got nextJWT
        end
    end
  end.

Definition createCredentialsSecret (ujwt : string) (seed : bytes) : M User (option error) :=
  let* usr := get in
  match UserCredentialSecretBuilder_Build E None (ObjUser usr) ujwt seed with
  | Err err =>
      mark (fun set => MarkCredentialsSecretFailed set ReasonUnknownError (Error err));;
      ret (Some err)
  | Ok secret =>
      let* r := call (CCreateSecret secret) (Client_Create E secret) in
      match r with
      | Some err =>
          mark (fun set => MarkCredentialsSecretFailed set ReasonUnknownError (Error err));;
          ret (Some err)
      | None =>
          mark MarkCredentialsSecretReady;;
          Eventf "Normal" "CredentialsSecretCreated"
            ("created secret: " +:+ sec_Namespace secret +:+ "/" +:+ sec_Name secret);;
          ret None
      end
  end.

Definition ensureCredentialsSecretUpToDate (ujwt : string) (seed : bytes) (got : Secret)
  : M User (option error) :=
  let* usr := get in
  match UserCredentialSecretBuilder_Build E (Some got) (ObjUser usr) ujwt seed with
  | Err err =>
      let err := WrapError "failed to build desired credentials secret: " err in
      mark (fun set => MarkCredentialsSecretFailed set ReasonUnknownError (Error err));;
      ret (Some err)
  | Ok want =>
      if bool_decide (got = want) then
        mark MarkCredentialsSecretReady;;
        ret None
      else
        let* r := call (CUpdateSecret want) (Client_Update E want) in
        match r with
        | Some err =>
            let err := WrapError "failed to update credentials secret: " err in
            mark (fun set => MarkCredentialsSecretFailed set ReasonUnknownError (Error err));;
            ret (Some err)
        | None =>
            Eventf "Normal" "CredentialsSecretUpdated"
              ("updated secret: " +:+ sec_Namespace want +:+ "/" +:+ sec_Name want);;
            mark MarkCredentialsSecretReady;;
            ret None
        end
  end.

Definition reconcileUserCredentialSecret (ujwt : string) (seed : bytes) : M User (option error) :=
  let* usr := get in
  let* r := CoreV1_Secrets_Get E (Namespace (usr_meta usr)) (CredentialsSecretName (usr_spec usr)) in
  match r with
  | Err err =>
      if IsNotFound err then createCredentialsSecret ujwt seed
      else
        mark (fun set => MarkCredentialsSecretUnknown set ReasonUnknownError (Error err));;
        ret (Some err)
  | Ok got => ensureCredentialsSecretUpToDate ujwt seed got
  end.

(** What Reconcile does when resolveIssuer did not hand back an issuer:
    the body of the [if err != nil || !ok] that follows the call. *)
Definition issuerUnresolved (ok : bool) (err : option error) : M User (option error) :=
  match asConditionError err, err with
  | Some cerr, _ =>
      mark (fun set => MarkCondition cerr
              (MarkIssuerResolveFailed set) (MarkIssuerResolveUnknown set));;
      if ok then ret None else ret err
  | None, Some e =>
      mark (fun set => MarkIssuerResolveUnknown set ReasonUnknownError (Error e));;
      if ok then ret None else ret err
  | None, None => panic
  end.

Definition pipeline : M User (option error) :=
  let* res := reconcileSeedSecret in
  let '(seed, ok, err) := res in
  if isErr err || negb ok then ret err else
  let* usr := get in
  let* res := resolveIssuer E (usr_Issuer (usr_spec usr)) (Namespace (usr_meta usr)) in
  let '(keyPairable, ok, err) := res in
  if isErr err || negb ok then issuerUnresolved ok err
  else
  match keyPairable with
  | None => panic
  | Some keyPairable =>
  let* res := resolveAccount keyPairable in
  let '(_, ok, err) := res in
  if isErr err || negb ok then ret err else
  let* res := reconcileJWTSecret keyPairable in
  let '(ujwt, ok, err) := res in
  if isErr err || negb ok then
    (if ok then ret None else ret err)
  else
  (* a nil seed is an empty byte slice for the credentials builder *)
  reconcileUserCredentialSecret ujwt (default "" seed)
  end.

(** The deferred function of Reconcile, as in the Account controller: the
    snapshot is the pointer usr.Status.DeepCopy() returned and is compared
    with the value usr.Status. *)
Definition withDeferredStatusUpdate (originalStatus : UserStatus)
    (body : M User (option error)) : M User (option error) :=
  fun usr =>
    let r := body usr in
    if negb (Semantic_DeepEqual (Pointer originalStatus) (Value (usr_status (obj r)))) then
      let err2 := Status_Update_User E (obj r) in
      mkRes (match out r with
             | Some err => Some (multierr_Append err err2)
             | None => None
             end)
            (obj r) (log r ++ [CUpdateStatus])
    else r.

Definition Reconcile (req : string * string) : Res (option User) (option error) :=
  match Get_User E (fst req) (snd req) with
  | Err err =>
      mkRes (Some (if IsNotFound err then None else Some err)) None
            [CGet UserKind (fst req) (snd req)]
  | Ok usr =>
      let originalStatus := usr_status usr in
      let r := withDeferredStatusUpdate originalStatus
                 (mark InitializeConditions;; pipeline) usr in
      mkRes (out r) (Some (obj r)) (CGet UserKind (fst req) (snd req) :: log r)
  end.

End Controller.
End UserReconciler.

(* ===================================================================== *)
(** ** The superseded revisions of the two controllers *)
(* ===================================================================== *)

Module Superseded.

(** Modelled from the spec: NewSecret and createOrUpdateSecret, helpers of
    the controllers package that are not in the sources at hand.  The first
    builds a secret from its name, namespace, data and immutable flag; the
    second updates the secret when it is told the secret exists and creates
    it otherwise. *)
Definition NewSecret (name ns : string) (data : gmap string bytes) (immutable : bool) : Secret :=
  mkSecret ns name data immutable None.

Definition createOrUpdateSecret {O} (E : Env) (secret : Secret) (update : bool)
  : M O (option error) :=
  if update then call (CUpdateSecret secret) (Client_Update E secret)
  else call (CCreateSecret secret) (Client_Create E secret).

Definition NewNotFound (name : string) : error :=
  StatusError StatusReasonNotFound (name +:+ " not found").

Definition notFoundR {A} (r : Result A) : bool :=
  match r with Err e => IsNotFound e | Ok _ => false end.

Definition NewBadRequest (reason : string) : error :=
  StatusError StatusReasonBadRequest reason.

(** ctrl.Result, as far as the controllers set it: the delay of the next
    pass in seconds, 0 when none is asked for. *)
Record ctrl_Result : Type := mkCtrlResult { RequeueAfter : Z }.

Module AccountReconciler.
Section Controller.
Variable E : Env.

Import AccountStatusOps.

Definition mark (f : ConditionSet -> AccountStatus -> AccountStatus) : M Account unit :=
  modify (fun acc =>
    mkAccount (acc_meta acc) (acc_spec acc) (f (accountCondSet E) (acc_status acc))).

(** The loop of ensureSigningKeysUpdated; [None] is the panic of a nil
    owner reference or a nil key pair on a ready signing key. *)
Fixpoint collectSigningKeys (acc : Account) (items : list SigningKey)
  : option (list SigningKeyEmbeddedStatus) :=
  match items with
  | [] => Some []
  | sk :: rest =>
      if IsReady (sk_Conditions (sk_status sk)) then
        match sk_OwnerRef (sk_status sk) with
        | None => None
        | Some ownerRef =>
            if bool_decide (ref_Namespace ownerRef = Namespace (acc_meta acc))
               && bool_decide (ref_Name ownerRef = Name (acc_meta acc)) then
              match sk_KeyPair (sk_status sk) with
              | None => None
              | Some kp =>
                  match collectSigningKeys acc rest with
                  | Some l => Some (mkEmbedded (Name (sk_meta sk)) kp :: l)
                  | None => None
                  end
              end
            else collectSigningKeys acc rest
        end
      else collectSigningKeys acc rest
  end.

Definition ensureSigningKeysUpdated
  : M Account (list SigningKeyEmbeddedStatus * option error) :=
  let* acc := get in
  let* r := call (CListSigningKeys (Namespace (acc_meta acc)) "")
                 (SigningKeys_List E (Namespace (acc_meta acc)) "") in
  match r with
  | Ok [] =>
      mark (fun set => MarkSigningKeysUpdateUnknown set (ReasonText "no signing keys found") "");;
      ret ([], Some (NewNotFound "signingkeys"))
  | Err err => ret ([], Some err)
  | Ok items =>
      match collectSigningKeys acc items with
      | None => panic
      | Some [] =>
          mark (fun set => MarkSigningKeysUpdateUnknown set
                  (ReasonText "no ready signing keys found for account")
                  ("account: " +:+ Name (acc_meta acc)));;
          ret ([], Some (NewNotFound "signingkeys"))
      | Some signingKeys =>
          mark (fun set => MarkSigningKeysUpdated set signingKeys);;
          ret (signingKeys, None)
      end
  end.

(** isSystemAccount returns true if acc is the system account this can
    only be used if the accounts operator has been resolved. *)
Definition isSystemAccount : M Account (bool * option error) :=
  let* acc := get in
  if negb (IsTrue (GetCondition AccountConditionOperatorResolved
                     (acc_Conditions (acc_status acc)))) then
    ret (true, None)
  else
    match OperatorRef (acc_status acc) with
    | None => panic
    | Some operatorRef =>
        let* r := call (CGetOperator (iref_Namespace operatorRef) (iref_Name operatorRef))
                       (Operators_Get E (iref_Namespace operatorRef) (iref_Name operatorRef)) in
        match r with
        | Err err => ret (true, Some err)
        | Ok operator =>
            if negb (IsTrue (GetCondition OperatorConditionSystemAccountResolved
                               (op_Conditions (op_status operator)))) then
              ret (true, None)
            else
              match ResolvedSystemAccount (op_status operator) with
              | None => panic
              | Some sysAcc =>
                  if bool_decide (Name (acc_meta acc) = iref_Name sysAcc)
                     && bool_decide (Namespace (acc_meta acc) = iref_Namespace sysAcc)
                  then ret (true, None)
                  else ret (false, None)
              end
        end
    end.

Definition updateAccountJWTSigningKeys (operatorSeed : bytes) (jwtSecret : Secret)
    (sKeys : list string) : M Account (option error) :=
  let accJWTEncoded := default "" (Data jwtSecret !! NatsSecretJWTKey) in
  match jwt_DecodeAccountClaims E accJWTEncoded with
  | Err err => ret (Some err)
  | Ok accClaims =>
      if isEqualUnordered E (ac_SigningKeys accClaims) sKeys then ret None
      else
        let accClaims := mkAccountClaims (ac_Subject accClaims) sKeys (ac_Rest accClaims) in
        match nkeys_FromSeed E operatorSeed with
        | Err err => ret (Some err)
        | Ok kPair =>
            match claims_Encode E accClaims kPair with
            | Err err => ret (Some err)
            | Ok ajwt =>
                let jwtSecret :=
                  mkSecret (sec_Namespace jwtSecret) (sec_Name jwtSecret)
                    (<[NatsSecretJWTKey := ajwt]> (Data jwtSecret))
                    (Immutable jwtSecret) (sec_Controller jwtSecret) in
                let* r := call (CUpdateSecret jwtSecret) (Client_Update E jwtSecret) in
                match r with
                | Some err => ret (Some err)
                | None =>
                    let* res := isSystemAccount in
                    let '(isSys, err) := res in
                    if negb (isErr err) && negb isSys then
                      call (CUpdateJWT (ac_Subject accClaims) ajwt)
                           (nsc_UpdateJWT E (ac_Subject accClaims) ajwt)
                    else ret None
                end
            end
        end
  end.

Definition ensureSeedJWTSecrets (sKeys : list SigningKeyEmbeddedStatus) (opSkey : bytes)
  : M Account (option error) :=
  let* acc := get in
  let ns := Namespace (acc_meta acc) in
  let* errSeed := CoreV1_Secrets_Get E ns (acc_SeedSecretName (acc_spec acc)) in
  let* errJWT := CoreV1_Secrets_Get E ns (acc_JWTSecretName (acc_spec acc)) in
  let sKeysPublicKeys := map (fun sk => PublicKey (emb_KeyPair sk)) sKeys in
  if notFoundR errSeed || notFoundR errJWT then
    match nkeys_FromSeed E opSkey with
    | Err err => ret (Some err)
    | Ok kPair =>
      (* nsc.CreateAccount hands back a new seed and public key *)
      let* r := call (CGenerateKeyPair PrefixByteAccount)
                  (nsc_CreateAccount E (Name (acc_meta acc)) (acc_ClaimFields (acc_spec acc))
                     sKeysPublicKeys kPair) in
      match r with
      | Err err => ret (Some err)
      | Ok (ajwt, publicKey, seed) =>
        let jwtSecret := NewSecret (acc_JWTSecretName (acc_spec acc)) ns
                           {[ NatsSecretJWTKey := ajwt ]} false in
        match SetControllerReference E (ObjAccount acc) jwtSecret with
        | Err err => ret (Some err)
        | Ok jwtSecret =>
          let* r := createOrUpdateSecret E jwtSecret (negb (notFoundR errJWT)) in
          match r with
          | Some err => ret (Some err)
          | None =>
            let seedSecret := NewSecret (acc_SeedSecretName (acc_spec acc)) ns
                                {[ NatsSecretSeedKey := seed ]} true in
            match SetControllerReference E (ObjAccount acc) seedSecret with
            | Err err => ret (Some err)
            | Ok seedSecret =>
              let* r := createOrUpdateSecret E seedSecret (negb (notFoundR errSeed)) in
              match r with
              | Some err => ret (Some err)
              | None =>
                let* res := isSystemAccount in
                let '(isSys, err) := res in
                let done : M Account (option error) :=
                  mark MarkJWTPushed;;
                  mark MarkJWTSecretReady;;
                  mark (fun set => MarkSeedSecretReady set publicKey (sec_Name seedSecret));;
                  ret None in
                if negb (isErr err) && negb isSys then
                  let* r := call (CPush ajwt) (nsc_Push E ajwt) in
                  match r with
                  | Some err =>
                      mark (fun set => MarkJWTPushFailed set
                              (ReasonText "failed to push account jwt to nats server")
                              ("error: " +:+ Error err));;
                      ret None
                  | None => done
                  end
                else if isErr err then ret err
                else done
              end
            end
          end
        end
      end
    end
  else
    match errSeed, errJWT with
    | Err e, _ =>
        mark (fun set => MarkSeedSecretUnknown set (ReasonText "failed to get seed secret") "");;
        ret (Some e)
    | _, Err e =>
        mark (fun set => MarkJWTSecretUnknown set (ReasonText "failed to get jwt secret") "");;
        mark (fun set => MarkJWTPushUnknown set (ReasonText "failed to get jwt secret") "");;
        ret (Some e)
    | Ok _, Ok jwtSec =>
        let* err := updateAccountJWTSigningKeys opSkey jwtSec sKeysPublicKeys in
        if isErr err then
          mark (fun set => MarkJWTPushUnknown set
                  (ReasonText "failed to update account JWT with signing keys") "");;
          mark (fun set => MarkJWTSecretUnknown set
                  (ReasonText "failed to update account JWT with signing keys") "");;
          ret None
        else ret None
    end.

(** ensureOperatorResolved.  The superseded revision names the issuer
    reference Spec.SigningKey; the Signing Key is read through the typed
    client set, whose answer is the API server's for that Signing Key.
    The error of Scheme.New is dropped by the source: what it hands back
    is an Operator, or the default case of the type switch is taken.  A
    seed secret without the seed key gives the empty seed. *)
Definition ensureOperatorResolved : M Account (bytes * option error) :=
  let* acc := get in
  let ns := Namespace (acc_meta acc) in
  let skName := ref_Name (acc_Issuer (acc_spec acc)) in
  let* r := call (CGet SigningKeyKind ns skName) (Get_SigningKey E ns skName) in
  match r with
  | Err err =>
      mark (fun set => MarkOperatorResolveFailed set
              (ReasonText "failed to get signing key reference for accout") "");;
      ret ("", Some err)
  | Ok sKey =>
      if negb (IsTrue (GetCondition SigningKeyConditionOwnerResolved
                         (sk_Conditions (sk_status sKey)))) then
        ret ("", Some (NewNotFound (Name (sk_meta sKey))))
      else
        match sk_OwnerRef (sk_status sKey) with
        | None => panic
        | Some skOwnerRef =>
            match Scheme_New E (GetGroupVersionKind skOwnerRef) with
            | Ok (Prototype OperatorKind) =>
                mark (fun set => MarkOperatorResolved set
                        (mkInferredRef (ref_Namespace skOwnerRef) (ref_Name skOwnerRef)));;
                match sk_KeyPair (sk_status sKey) with
                | None => panic
                | Some keyPair =>
                    let* r := CoreV1_Secrets_Get E ns (SeedSecretName keyPair) in
                    match r with
                    | Err err => ret ("", Some err)
                    | Ok skSeedSecret =>
                        ret (default "" (Data skSeedSecret !! NatsSecretSeedKey), None)
                    end
                end
            | _ =>
                mark (fun set => MarkOperatorResolveFailed set
                        (ReasonText "invalid signing key owner type")
                        ("signing key type: " +:+ ref_Kind skOwnerRef));;
                ret ("", Some (NewBadRequest "invalid signing key owner type"))
            end
        end
  end.

(** The body of Reconcile once the Account is read.  [err] is the named
    result: the short declarations of the first two steps assign to it,
    so the bare returns hand back the not-found error with the delay. *)
Definition reconcileLoaded : M Account (ctrl_Result * option error) :=
  let* res := ensureOperatorResolved in
  let '(opSKey, err) := res in
  match err with
  | Some e =>
      if IsNotFound e then ret (mkCtrlResult 30%Z, err)
      else ret (mkCtrlResult 0%Z, err)
  | None =>
      let* res := ensureSigningKeysUpdated in
      let '(sKeys, err) := res in
      match err with
      | Some e =>
          if IsNotFound e then ret (mkCtrlResult 30%Z, err)
          else ret (mkCtrlResult 0%Z, err)
      | None =>
          let* err := ensureSeedJWTSecrets sKeys opSKey in
          ret (mkCtrlResult 0%Z, err)
      end
  end.

(** The deferred function of Reconcile: it does nothing when the body
    returned an error; otherwise, and when the body panics, it compares
    the pointer acc.Status.DeepCopy() returned with the value acc.Status
    and updates the status when DeepEqual answers false. *)
Definition withDeferredStatusUpdate (originalStatus : AccountStatus)
    (body : M Account (ctrl_Result * option error))
  : M Account (ctrl_Result * option error) :=
  fun acc =>
    let r := body acc in
    match out r with
    | Some (_, Some _) => r
    | _ =>
        if negb (Semantic_DeepEqual (Pointer originalStatus) (Value (acc_status (obj r)))) then
          let err := Status_Update_Account E (obj r) in
          mkRes (match out r with
                 | Some (result, _) =>
                     Some (match err with
                           | Some e => if IsConflict e then mkCtrlResult 30%Z else result
                           | None => result
                           end, err)
                 | None => None
                 end)
                (obj r) (log r ++ [CUpdateStatus])
        else r
    end.

Definition Reconcile (req : string * string)
  : Res (option Account) (ctrl_Result * option error) :=
  match Get_Account E (fst req) (snd req) with
  | Err err =>
      mkRes (Some (mkCtrlResult 0%Z, if IsNotFound err then None else Some err)) None
            [CGet AccountKind (fst req) (snd req)]
  | Ok acc =>
      let originalStatus := acc_status acc in
      let r := withDeferredStatusUpdate originalStatus reconcileLoaded acc in
      mkRes (out r) (Some (obj r)) (CGet AccountKind (fst req) (snd req) :: log r)
  end.

End Controller.
End AccountReconciler.

Module UserReconciler.
Section Controller.
Variable E : Env.

Import UserStatusOps.

Definition mark (f : ConditionSet -> UserStatus -> UserStatus) : M User unit :=
  modify (fun usr =>
    mkUser (usr_meta usr) (usr_spec usr) (f (userCondSet E) (usr_status usr))).

(** The superseded revision names the issuer reference Spec.SigningKey. *)
Definition ensureCredsSecrets (keyPair : KeyPair) : M User (option error) :=
  let* usr := get in
  let ns := Namespace (usr_meta usr) in
  let* r := CoreV1_Secrets_Get E (ref_Namespace (usr_Issuer (usr_spec usr)))
              (SeedSecretName keyPair) in
  match r with
  | Err err => ret (Some err)
  | Ok accSKeySecret =>
    let accSKey := default "" (Data accSKeySecret !! NatsSecretSeedKey) in
    let* errSeed := CoreV1_Secrets_Get E ns (usr_SeedSecretName (usr_spec usr)) in
    let* errJWT := CoreV1_Secrets_Get E ns (usr_JWTSecretName (usr_spec usr)) in
    let* errCreds := CoreV1_Secrets_Get E ns (CredentialsSecretName (usr_spec usr)) in
    if notFoundR errSeed || notFoundR errJWT || notFoundR errCreds then
      match nkeys_ParseDecoratedNKey E accSKey with
      | Err err => ret (Some err)
      | Ok kPair =>
        (* nsc.CreateUser hands back a new seed and public key *)
        let* r := call (CGenerateKeyPair PrefixByteUser)
                    (nsc_CreateUser E (Name (usr_meta usr)) (usr_ClaimFields (usr_spec usr))
                       (PublicKey keyPair) kPair) in
        match r with
        | Err err => ret (Some err)
        | Ok (ujwt, publicKey, seed) =>
          match jwt_FormatUserConfig E ujwt seed with
          | Err _ =>
              mark (fun set => MarkCredentialsSecretFailed set
                      (ReasonText "failed to format user creds") "");;
              ret None
          | Ok userCreds =>
            let jwtSecret := NewSecret (usr_JWTSecretName (usr_spec usr)) ns
                               {[ NatsSecretJWTKey := ujwt ]} true in
            match SetControllerReference E (ObjUser usr) jwtSecret with
            | Err err => ret (Some err)
            | Ok jwtSecret =>
              let* r := createOrUpdateSecret E jwtSecret (negb (notFoundR errJWT)) in
              match r with
              | Some err => ret (Some err)
              | None =>
                let seedSecret := NewSecret (usr_SeedSecretName (usr_spec usr)) ns
                                    (<[ NatsSecretSeedKey := seed ]>
                                       {[ NatsSecretPublicKeyKey := publicKey ]}) true in
                match SetControllerReference E (ObjUser usr) seedSecret with
                | Err err => ret (Some err)
                | Ok seedSecret =>
                  let* r := createOrUpdateSecret E seedSecret (negb (notFoundR errSeed)) in
                  match r with
                  | Some err => ret (Some err)
                  | None =>
                    let credsSecret := NewSecret (CredentialsSecretName (usr_spec usr)) ns
                                         {[ NatsSecretCredsKey := userCreds ]} false in
                    match SetControllerReference E (ObjUser usr) credsSecret with
                    | Err err => ret (Some err)
                    | Ok credsSecret =>
                      let* r := createOrUpdateSecret E credsSecret (negb (notFoundR errCreds)) in
                      match r with
                      | Some err => ret (Some err)
                      | None =>
                          mark MarkCredentialsSecretReady;;
                          mark MarkJWTSecretReady;;
                          mark (fun set => MarkSeedSecretReady set publicKey
                                             (usr_SeedSecretName (usr_spec usr)));;
                          ret None
                      end
                    end
                  end
                end
              end
            end
          end
        end
      end
    else
      match errSeed, errJWT, errCreds with
      | Err e, _, _ =>
          mark (fun set => MarkSeedSecretUnknown set (ReasonText "failed to get seed secret") "");;
          ret (Some e)
      | _, Err e, _ =>
          mark (fun set => MarkJWTSecretUnknown set (ReasonText "failed to get jwt secret") "");;
          ret (Some e)
      | _, _, Err e =>
          mark (fun set => MarkCredentialsSecretUnknown set
                  (ReasonText "failed to get credentials secrets") "");;
          ret (Some e)
      | _, _, _ => ret None
      end
  end.

End Controller.
End UserReconciler.

End Superseded.


(* ===================================================================== *)
(** ** A small cluster to run the controllers on *)
(* ===================================================================== *)

(** A concrete environment: the API server answers from the objects of a
    [World]; seeds are the letter S, a letter for the key space (O, A or U)
    and a name, and the public key of a seed drops the S; every write and
    every request to the account server succeeds unless the world says
    otherwise. *)
Module Demo.

Record World : Type := mkWorld {
  w_secrets : list Secret;
  w_operators : list Operator;
  w_accounts : list Account;
  w_users : list User;
  w_signingKeys : list SigningKey;
  w_tokens : list (string * Claims);
  w_now : Z;
  w_systemAccount : string;
  w_connect : option error;
  w_update : option error
}.

Definition notFound {A} (what : string) : Result A :=
  Err (StatusError StatusReasonNotFound (what +:+ " not found")).

Definition findBy {A} (meta : A -> ObjectMeta) (l : list A) (ns name : string) : Result A :=
  match List.find (fun x => bool_decide (Namespace (meta x) = ns)
                              && bool_decide (Name (meta x) = name)) l with
  | Some x => Ok x
  | None => notFound name
  end.

Definition findSecret (l : list Secret) (ns name : string) : Result Secret :=
  match List.find (fun s => bool_decide (sec_Namespace s = ns)
                              && bool_decide (sec_Name s = name)) l with
  | Some s => Ok s
  | None => notFound name
  end.

Definition decodeSeed (seed : bytes) : Result (PrefixByte * bytes) :=
  match seed with
  | String "S"%char (String "O"%char rest) => Ok (PrefixByteOperator, rest)
  | String "S"%char (String "A"%char rest) => Ok (PrefixByteAccount, rest)
  | String "S"%char (String "U"%char rest) => Ok (PrefixByteUser, rest)
  | _ => Err (PlainError "nkeys: invalid seed")
  end.

Definition fromSeed (seed : bytes) : Result NKey :=
  match decodeSeed seed with
  | Ok _ => Ok (mkNKey seed)
  | Err e => Err e
  end.

Definition publicKey (kp : NKey) : Result string :=
  match nk_seed kp with
  | String "S"%char rest => Ok rest
  | _ => Err (PlainError "nkeys: invalid seed")
  end.

Definition schemeNew (gvk : string * string) : Result SchemeObject :=
  if bool_decide (fst gvk = GroupVersion) then
    if bool_decide (snd gvk = "Operator") then Ok (Prototype OperatorKind)
    else if bool_decide (snd gvk = "Account") then Ok (Prototype AccountKind)
    else if bool_decide (snd gvk = "User") then Ok (Prototype UserKind)
    else if bool_decide (snd gvk = "SigningKey") then Ok (Prototype SigningKeyKind)
    else Err (PlainError "no kind is registered")
  else if bool_decide (gvk = ("v1", "Secret")) then Ok (Prototype (OtherKind "Secret"))
  else if bool_decide (gvk = ("v1", "SecretList")) then Ok NotClientObject
  else Err (PlainError "no kind is registered").

Definition ownerKey (owner : Object) : string * string :=
  match owner with
  | ObjOperator o => (Namespace (op_meta o), UID (op_meta o))
  | ObjAccount a => (Namespace (acc_meta a), UID (acc_meta a))
  | ObjUser u => (Namespace (usr_meta u), UID (usr_meta u))
  | ObjSigningKey s => (Namespace (sk_meta s), UID (sk_meta s))
  | ObjOther _ ns name => (ns, name)
  end.

Definition buildKeyPairSecret (base : option Secret) (owner : Object) (kp : NKey)
  : Result Secret :=
  match owner with
  | ObjAccount a =>
      Ok (mkSecret (Namespace (acc_meta a)) (acc_SeedSecretName (acc_spec a))
            {[ NatsSecretSeedKey := nk_seed kp ]} true (Some (UID (acc_meta a))))
  | ObjUser u =>
      Ok (mkSecret (Namespace (usr_meta u)) (usr_SeedSecretName (usr_spec u))
            (<[ NatsSecretSeedKey := nk_seed kp ]>
               {[ NatsSecretPublicKeyKey := orEmpty (publicKey kp) ]})
            true (Some (UID (usr_meta u))))
  | _ => Err (PlainError "owner has no seed secret")
  end.

Definition buildJWTSecret (base : option Secret) (owner : Object) (token : string)
  : Result Secret :=
  match owner with
  | ObjAccount a =>
      Ok (mkSecret (Namespace (acc_meta a)) (acc_JWTSecretName (acc_spec a))
            {[ NatsSecretJWTKey := token ]} false (Some (UID (acc_meta a))))
  | ObjUser u =>
      Ok (mkSecret (Namespace (usr_meta u)) (usr_JWTSecretName (usr_spec u))
            {[ NatsSecretJWTKey := token ]} true (Some (UID (usr_meta u))))
  | _ => Err (PlainError "owner has no JWT secret")
  end.

Definition buildCredentialsSecret (base : option Secret) (owner : Object)
    (token : string) (seed : bytes) : Result Secret :=
  match owner with
  | ObjUser u =>
      Ok (mkSecret (Namespace (usr_meta u)) (CredentialsSecretName (usr_spec u))
            {[ NatsSecretCredsKey := token +:+ "/" +:+ seed ]}
            false (Some (UID (usr_meta u))))
  | _ => Err (PlainError "owner has no credentials secret")
  end.

Definition embeddedKeys (sks : list SigningKeyEmbeddedStatus) : string :=
  fold_right (fun sk s => PublicKey (emb_KeyPair sk) +:+ "," +:+ s) "" sks.

Definition accountClaims (now : Z) (acc : Account) (issuer : NKey) : Result (Claims * string) :=
  let content := Name (acc_meta acc) +:+ "|" +:+ acc_ClaimFields (acc_spec acc) +:+ "|"
                   +:+ embeddedKeys (SigningKeys (acc_status acc)) +:+ "|"
                   +:+ orEmpty (publicKey issuer) in
  Ok (mkClaims AccountClaim now content, "fresh:" +:+ content).

Definition userClaims (now : Z) (usr : User) (issuer : NKey) : Result (Claims * string) :=
  let content := Name (usr_meta usr) +:+ "|" +:+ usr_ClaimFields (usr_spec usr) +:+ "|"
                   +:+ orEmpty (publicKey issuer) in
  Ok (mkClaims UserClaim now content, "fresh:" +:+ content).

Definition decodeToken (tokens : list (string * Claims)) (token : string) : Result Claims :=
  match List.find (fun p => bool_decide (fst p = token)) tokens with
  | Some p => Ok (snd p)
  | None => Err (PlainError "jwt: invalid token")
  end.

Definition accountSet : ConditionSet :=
  [KeyPairableConditionSeedSecretReady; ConditionIssuerResolved;
   AccountConditionOperatorResolved; AccountConditionSigningKeysUpdated;
   AccountConditionJWTSecretReady; AccountConditionJWTPushed].

Definition userSet : ConditionSet :=
  [KeyPairableConditionSeedSecretReady; ConditionIssuerResolved;
   UserConditionAccountResolved; UserConditionJWTSecretReady;
   UserConditionCredentialsSecretReady].

Definition operatorSet : ConditionSet :=
  [KeyPairableConditionSeedSecretReady; OperatorConditionSystemAccountResolved].

Definition signingKeySet : ConditionSet :=
  [KeyPairableConditionSeedSecretReady; SigningKeyConditionOwnerResolved].

Definition env (w : World) : Env := {|
  Scheme_New := schemeNew;
  Get_Operator := findBy op_meta (w_operators w);
  Get_Account := findBy acc_meta (w_accounts w);
  Get_User := findBy usr_meta (w_users w);
  Get_SigningKey := findBy sk_meta (w_signingKeys w);
  Get_Other := fun _ _ name => notFound name;
  Secrets_Get := findSecret (w_secrets w);
  Operators_Get := findBy op_meta (w_operators w);
  SigningKeys_List := fun ns _ =>
    Ok (List.filter (fun sk => bool_decide (Namespace (sk_meta sk) = ns)) (w_signingKeys w));
  Client_Create := fun _ => None;
  Client_Update := fun _ => w_update w;
  Update_Account := fun _ => None;
  Status_Update_Account := fun _ => None;
  Update_User := fun _ => None;
  Status_Update_User := fun _ => None;
  LabelSelectorAsSelector := fun s => Ok (mkSel false (ls_text s));
  SetControllerReference := fun owner s =>
    Ok (mkSecret (sec_Namespace s) (sec_Name s) (Data s) (Immutable s)
          (Some (snd (ownerKey owner))));
  nkeys_CreateAccount := Ok (mkNKey "SAnew");
  nkeys_CreateUser := Ok (mkNKey "SUnew");
  nkeys_FromSeed := fromSeed;
  nkeys_DecodeSeed := decodeSeed;
  kp_PublicKey := publicKey;
  kp_Seed := fun kp => Ok (nk_seed kp);
  jwt_Decode := decodeToken (w_tokens w);
  CreateAccountClaims := accountClaims (w_now w);
  CreateUserClaims := userClaims (w_now w);
  KeyPairSecretBuilder_Build := buildKeyPairSecret;
  JWTSecretBuilder_Build := buildJWTSecret;
  UserCredentialSecretBuilder_Build := buildCredentialsSecret;
  SysAccountLoader_Load := fun operator =>
    match operator with
    | Some _ => Some (Ok (mkNKey "SAsys"))
    | None => None
    end;
  nsc_Connect := fun _ _ _ _ => w_connect w;
  nsc_Push := fun _ => None;
  nsc_UpdateJWT := fun _ _ => None;
  nsc_Delete := fun _ => None;
  IsSystemAccount := fun acc operator =>
    match operator with
    | Some _ => Some (bool_decide (Name (acc_meta acc) = w_systemAccount w))
    | None => None
    end;
  nsc_CreateAccount := fun name _ _ _ => Ok ("fresh:" +:+ name, "Anew", "SAnew");
  nsc_CreateUser := fun name _ _ _ => Ok ("fresh:" +:+ name, "Unew", "SUnew");
  jwt_DecodeAccountClaims := fun _ => Err (PlainError "jwt: invalid token");
  isEqualUnordered := fun a b => bool_decide (a = b);
  claims_Encode := fun _ _ => Err (PlainError "jwt: cannot encode");
  nkeys_ParseDecoratedNKey := fromSeed;
  jwt_FormatUserConfig := fun token seed => Ok (token +:+ "/" +:+ seed);
  operatorCondSet := operatorSet;
  accountCondSet := accountSet;
  userCondSet := userSet;
  signingKeyCondSet := signingKeySet
|}.

(** All conditions of a set, and Ready, True. *)
Definition allTrueConditions (set : ConditionSet) : Conditions :=
  map (fun t => mkCondition t ConditionTrue None "") (ConditionReady :: set).

Definition meta (ns name : string) : ObjectMeta := mkMeta ns name ("uid-" +:+ name) None [].

(** The operator [op] of namespace [nats], its seed in [op-seed]. *)
Definition op : Operator :=
  mkOperator (meta "nats" "op")
    (mkOperatorSpec "nats://accounts" None)
    (mkOperatorStatus (allTrueConditions operatorSet)
       (Some (mkKeyPair "Oop" "op-seed")) (Some (mkInferredRef "nats" "sys"))).

Definition opSeed : Secret :=
  mkSecret "nats" "op-seed" {[ NatsSecretSeedKey := "SOop" ]} true (Some "uid-op").

Definition issuerRef (kind name : string) : TypedObjectReference :=
  mkTypedRef GroupVersion kind name "" "".

(** The account [acct], issued by [op], as it is once it has converged. *)
Definition acctSpec : AccountSpec := mkAccountSpec (issuerRef "Operator" "op") "acct-seed" "acct-jwt" None "limits".

Definition acct : Account :=
  mkAccount (mkMeta "nats" "acct" "uid-acct" None [AccountFinalizer]) acctSpec
    (mkAccountStatus (allTrueConditions accountSet)
       (Some (mkKeyPair "Aacct" "acct-seed")) (Some (mkInferredRef "nats" "op")) []).

Definition acctSeed : Secret :=
  mkSecret "nats" "acct-seed" {[ NatsSecretSeedKey := "SAacct" ]} true (Some "uid-acct").

Definition acctContent : string := "acct|limits||Oop".

Definition acctJWT : Secret :=
  mkSecret "nats" "acct-jwt" {[ NatsSecretJWTKey := "stored-acct" ]} false (Some "uid-acct").

(** The user [usr], issued by [acct], as it is once it has converged. *)
Definition usrSpec : UserSpec :=
  mkUserSpec (issuerRef "Account" "acct") "usr-seed" "usr-jwt" "usr-creds" "permissions".

Definition usr : User :=
  mkUser (meta "nats" "usr") usrSpec
    (mkUserStatus (allTrueConditions userSet)
       (Some (mkKeyPair "Uusr" "usr-seed")) (Some (mkInferredRef "nats" "acct"))).

Definition usrSeed : Secret :=
  mkSecret "nats" "usr-seed"
    (<[ NatsSecretSeedKey := "SUusr" ]> {[ NatsSecretPublicKeyKey := "Uusr" ]})
    true (Some "uid-usr").

Definition usrContent : string := "usr|permissions|Aacct".

Definition usrJWT : Secret :=
  mkSecret "nats" "usr-jwt" {[ NatsSecretJWTKey := "stored-usr" ]} true (Some "uid-usr").

Definition usrCreds : Secret :=
  mkSecret "nats" "usr-creds" {[ NatsSecretCredsKey := "stored-usr/SUusr" ]} false (Some "uid-usr").

(** The stored tokens were signed at time 100; now it is 200. *)
Definition tokens : list (string * Claims) :=
  [("stored-acct", mkClaims AccountClaim 100 acctContent);
   ("stored-usr", mkClaims UserClaim 100 usrContent)].

Definition converged : World :=
  mkWorld [opSeed; acctSeed; acctJWT; usrSeed; usrJWT; usrCreds]
    [op] [acct] [usr] [] tokens 200 "sys" None None.

(** The same cluster, with [acct] as the system account of [op]. *)
Definition convergedSystem : World :=
  mkWorld [opSeed; acctSeed; acctJWT; usrSeed; usrJWT; usrCreds]
    [op] [acct] [usr] [] tokens 200 "acct" None None.

(** Signing keys of [acct]: A is ready, C is not; B is recorded in the status
    of the account but no longer listed. *)
Definition signingKey (name : string) (ready : bool) : SigningKey :=
  mkSigningKey (meta "nats" name)
    (mkSigningKeyStatus
       (if ready then allTrueConditions signingKeySet
        else [mkCondition ConditionReady ConditionFalse (Some ReasonNotReady) ""])
       (Some (mkKeyPair ("O" +:+ name) (name +:+ "-seed")))
       (Some (mkTypedRef GroupVersion "Account" "acct" "nats" "uid-acct"))).

Definition embedded (name : string) : SigningKeyEmbeddedStatus :=
  mkEmbedded name (mkKeyPair ("O" +:+ name) (name +:+ "-seed")).



(** [acct] marked for deletion, and a cluster whose account server cannot be
    reached. *)
Definition deletedAcct : Account :=
  mkAccount (mkMeta "nats" "acct" "uid-acct" (Some 300%Z) [AccountFinalizer]) acctSpec
    (acc_status acct).

Definition connectionRefused : error := PlainError "nats: no servers available for connection".

Definition unreachable : World :=
  mkWorld [opSeed; acctSeed; acctJWT] [op] [deletedAcct] [] [] tokens 200 "sys"
    (Some connectionRefused) None.

Definition deleting : World :=
  mkWorld [opSeed; acctSeed; acctJWT] [op] [deletedAcct] [] [] tokens 200 "sys" None None.

(** The same cluster where [acct], marked for deletion, is the system account
    that the operator has resolved. *)
Definition opOfAcct : Operator :=
  mkOperator (meta "nats" "op") (op_spec op)
    (mkOperatorStatus (allTrueConditions operatorSet)
       (Some (mkKeyPair "Oop" "op-seed")) (Some (mkInferredRef "nats" "acct"))).

Definition deletingSystem : World :=
  mkWorld [opSeed; acctSeed; acctJWT] [opOfAcct] [deletedAcct] [] [] tokens 200 "acct"
    None None.

(** [acct] with another public key recorded in its status than the one its
    seed secret decodes to. *)
Definition driftedAcct : Account :=
  mkAccount (acc_meta acct) acctSpec
    (mkAccountStatus (allTrueConditions accountSet)
       (Some (mkKeyPair "Aother" "acct-seed")) (Some (mkInferredRef "nats" "op")) []).

Definition drifted : World :=
  mkWorld [opSeed; acctSeed; acctJWT] [op] [driftedAcct] [] [] tokens 200 "sys" None None.

(** An operator whose status records another public key than the one its
    seed secret decodes to. *)
Definition driftedOp : Operator :=
  mkOperator (meta "nats" "op") (op_spec op)
    (mkOperatorStatus (allTrueConditions operatorSet)
       (Some (mkKeyPair "Oother" "op-seed")) (Some (mkInferredRef "nats" "sys"))).

Definition driftedIssuer : World :=
  mkWorld [opSeed; acctSeed; acctJWT; usrSeed; usrJWT; usrCreds]
    [driftedOp] [acct] [usr] [] tokens 200 "sys" None None.

(** The seed secrets are there, the JWT and credentials secrets of the user
    are missing. *)
Definition usrExplicit : User :=
  mkUser (usr_meta usr)
    (mkUserSpec (mkTypedRef GroupVersion "Account" "acct" "nats" "")
       "usr-seed" "usr-jwt" "usr-creds" "permissions")
    (usr_status usr).

Definition siblingsMissing : World :=
  mkWorld [opSeed; acctSeed; acctJWT; usrSeed] [op] [acct] [usr] [] tokens 200 "sys" None None.

(** The user [usr] before its first pass: none of its secrets exists. *)
Definition unseeded : World :=
  mkWorld [opSeed; acctSeed; acctJWT] [op] [acct] [usr] [] tokens 200 "sys" None None.

(** An account on which no operator has been resolved yet. *)
Definition unresolvedAcct : Account :=
  mkAccount (acc_meta acct) acctSpec (mkAccountStatus [] None None []).

End Demo.


(* ===================================================================== *)
(** ** Properties of logs, claims and statuses *)
(* ===================================================================== *)

(** No call of the log is of the kind [p]. *)
Definition quiet (p : Call -> bool) (l : list Call) : Prop :=
  Forall (fun c => p c = false) l.

Definition noPush : list Call -> Prop := quiet isPush.

(** [wp m o Q]: run from the object [o], the pass [m] ends in a result (or
    a panic), an object and a log that satisfy [Q]. *)
Definition wp {O A} (m : M O A) (o : O) (Q : option A -> O -> list Call -> Prop) : Prop :=
  Q (out (m o)) (obj (m o)) (log (m o)).

(** The decoded claims equal the canonical ones once their issuance
    timestamp is set aside. *)
Definition sameButIssuedAt (got want : Claims) : Prop :=
  mkClaims (claim_Type got) (IssuedAt want) (claim_Content got) = want.

(** The stored token does not stand for the canonical claims: it fails to
    decode, or it decodes to claims that differ in more than the timestamp. *)
Definition stale (E : Env) (gotJWT : string) (wantClaims : Claims) : Prop :=
  (exists e, jwt_Decode E gotJWT = Err e) \/
  (exists gotClaims, jwt_Decode E gotJWT = Ok gotClaims /\ ~ sameButIssuedAt gotClaims wantClaims).

(** A condition as [markTrue] leaves it. *)
Definition trueCondition (t : ConditionType) : Condition :=
  mkCondition t ConditionTrue None "".

Definition holds (t : ConditionType) (cs : Conditions) : Prop :=
  GetCondition t cs = Some (trueCondition t).



(** The selector the Account controller lists Signing Keys with. *)
Definition selectorOf (E : Env) (acc : Account) : Result Selector :=
  match SigningKeysSelector (acc_spec acc) with
  | None => Ok labels_Everything
  | Some sel => LabelSelectorAsSelector E sel
  end.

Definition listOptionsOf (sel : Selector) : string :=
  if negb (sel_Empty sel) then sel_String sel else "".

Definition isDelete (c : Call) : bool :=
  match c with CDelete _ => true | _ => false end.

Definition deletes (l : list Call) : list Call := List.filter isDelete l.

(** Both preconditions of finalization hold on the Account. *)
Definition gateOpen (acc : Account) : bool :=
  IsTrue (GetCondition AccountConditionJWTSecretReady (acc_Conditions (acc_status acc)))
  && IsTrue (GetCondition AccountConditionJWTPushed (acc_Conditions (acc_status acc))).

(** The resolved Operator of the Account is found with its key pair, and its
    seed secret holds a seed that parses to [operatorKP]. *)
Definition operatorLoaded (E : Env) (acc : Account) (operator : Operator) (operatorKP : NKey)
  : Prop :=
  exists ref keyPair seedSecret seed,
    OperatorRef (acc_status acc) = Some ref /\
    Operators_Get E (iref_Namespace ref) (iref_Name ref) = Ok operator /\
    op_KeyPair (op_status operator) = Some keyPair /\
    Secrets_Get E (Namespace (op_meta operator)) (SeedSecretName keyPair) = Ok seedSecret /\
    Data seedSecret !! NatsSecretSeedKey = Some seed /\
    nkeys_FromSeed E seed = Ok operatorKP.

(** Every call of kind [p] in the log satisfies [R]. *)
Definition allowed (p : Call -> bool) (R : Call -> Prop) (l : list Call) : Prop :=
  forall c, In c l -> p c = true -> R c.

Definition never : Call -> Prop := fun _ => False.

(** From an object that satisfies [I], the pass [m] keeps [I] and issues a
    call of kind [p] only if the call satisfies [R]. *)
Definition guarded {O A} (I : O -> Prop) (p : Call -> bool) (R : Call -> Prop)
    (m : M O A) : Prop :=
  forall o, I o -> I (obj (m o)) /\ allowed p R (log (m o)).

(** The Account under reconciliation is still the one the pass started
    with: its key and its specification do not change. *)
Definition sameAccount (acc0 acc : Account) : Prop :=
  Namespace (acc_meta acc) = Namespace (acc_meta acc0) /\
  Name (acc_meta acc) = Name (acc_meta acc0) /\
  UID (acc_meta acc) = UID (acc_meta acc0) /\
  acc_spec acc = acc_spec acc0.

Definition sameUser (usr0 usr : User) : Prop :=
  usr_meta usr = usr_meta usr0 /\ usr_spec usr = usr_spec usr0.

(** The calls of the reconciliation pipeline proper: writes of secrets, the
    listing of Signing Keys, pushes of a token and key generation. *)
Definition pipelineCall (c : Call) : bool :=
  isSecretWrite c || isListSigningKeys c || isPush c || isGenerateKeyPair c.

(** The status still records the membership, the key pair and the operator
    reference of [acc0], and the Account is marked for deletion. *)
Definition sameRecords (acc0 acc : Account) : Prop :=
  SigningKeys (acc_status acc) = SigningKeys (acc_status acc0) /\
  acc_KeyPair (acc_status acc) = acc_KeyPair (acc_status acc0) /\
  OperatorRef (acc_status acc) = OperatorRef (acc_status acc0).

Definition beingDeleted (acc0 acc : Account) : Prop :=
  sameRecords acc0 acc /\ IsZero (DeletionTimestamp (acc_meta acc)) = false.

(** The API server answers not-found for the secret. *)
Definition secretAbsent (E : Env) (ns name : string) : Prop :=
  exists e, Secrets_Get E ns name = Err e /\ IsNotFound e = true.

(** The seed secret [got] is written back only as the key-pair builder
    rebuilds it from [got] itself and the key pair its own seed decodes to. *)
Definition repairedOnly (E : Env) (owner : Object) (got : Secret) (l : list Call) : Prop :=
  secretWrites l = [] \/
  exists seed kp want,
    Data got !! NatsSecretSeedKey = Some seed /\
    nkeys_FromSeed E seed = Ok kp /\
    KeyPairSecretBuilder_Build E (Some got) owner kp = Ok want /\
    got <> want /\
    secretWrites l = [CUpdateSecret want].

(** The Account as Reconcile has it when its pipeline starts: the
    conditions initialised and the finalizer in place. *)
Definition entering (E : Env) (acc : Account) : Account :=
  mkAccount
    (if ContainsFinalizer (acc_meta acc) AccountFinalizer then acc_meta acc
     else AddFinalizer (acc_meta acc) AccountFinalizer)
    (acc_spec acc)
    (AccountStatusOps.InitializeConditions (accountCondSet E) (acc_status acc)).

(** The pipeline, started on [acc0], reaches its publication step: the seed
    step, the resolution of the issuer and of the Operator, the Signing
    Keys, the seed of the issuer and the token step each returned ok and no
    error.  [operator] is what resolveOperator returned, [issuerKP] and
    [accountJWT] what loadIssuerSeed and reconcileJWTSecret returned, and
    [acc] is the Account as these steps left it. *)
Definition reachesPublication (E : Env) (acc0 : Account) (operator : option Operator)
    (issuerKP : NKey) (accountJWT : string) (acc : Account) : Prop :=
  exists keyPairable,
    let r1 := AccountReconciler.reconcileSeedSecret E acc0 in
    let r2 := resolveIssuer E (acc_Issuer (acc_spec (obj r1))) (Namespace (acc_meta (obj r1)))
                (obj r1) in
    let r3 := AccountReconciler.resolveOperator E keyPairable (obj r2) in
    let r4 := AccountReconciler.ensureSigningKeysUpdated E (obj r3) in
    let r5 := AccountReconciler.loadIssuerSeed E keyPairable (obj r4) in
    let r6 := AccountReconciler.reconcileJWTSecret E issuerKP (obj r5) in
    out r1 = Some (true, None) /\
    out r2 = Some (Some keyPairable, true, None) /\
    out r3 = Some (operator, true, None) /\
    out r4 = Some None /\
    out r5 = Some (Some issuerKP, true, None) /\
    out r6 = Some (accountJWT, true, None) /\
    acc = obj r6.

(** Requests that only read: from the API server or from the loader of the
    system account. *)
Definition isRead (c : Call) : bool :=
  match c with
  | CGet _ _ _ | CGetSecret _ _ | CGetOperator _ _ | CListSigningKeys _ _
  | CLoadSystemAccount _ _ => true
  | _ => false
  end.

Definition changes (c : Call) : bool := negb (isRead c).

(** The log holds reads only: no secret is written, no object or status is
    updated, no event is recorded, no key pair is generated and the account
    server is not contacted. *)
Definition readOnly : list Call -> Prop := quiet changes.

(** Every request is a read, the update of the status apart. *)
Definition besidesStatus (c : Call) : bool := changes c && negb (isStatusUpdate c).

Definition readsButStatus : list Call -> Prop := quiet besidesStatus.

(** The conditions an Account pass, and a User pass, marks. *)
Definition accountMarks : list ConditionType :=
  [KeyPairableConditionSeedSecretReady; ConditionIssuerResolved;
   AccountConditionOperatorResolved; AccountConditionSigningKeysUpdated;
   AccountConditionJWTSecretReady; AccountConditionJWTPushed].

Definition userMarks : list ConditionType :=
  [KeyPairableConditionSeedSecretReady; ConditionIssuerResolved;
   UserConditionAccountResolved; UserConditionJWTSecretReady;
   UserConditionCredentialsSecretReady].

(** All conditions are already set: Ready, those of the kind's condition
    set and those the pass marks are True, as [markTrue] leaves them. *)
Definition allSet (set marks : list ConditionType) (cs : Conditions) : Prop :=
  forall t, In t (ConditionReady :: set ++ marks) -> holds t cs.

Definition issuerNamespace (issuer : TypedObjectReference) (fallback : string) : string :=
  if negb (bool_decide (ref_Namespace issuer = "")) then ref_Namespace issuer else fallback.

(** The issuer reference resolves to [k]: the scheme knows its kind, the
    API server returns the object, and its seed secret is ready. *)
Definition issuerResolves (E : Env) (issuer : TypedObjectReference) (fallback : string)
    (k : KeyPairable) : Prop :=
  exists kind object k0,
    Scheme_New E (GetGroupVersionKind issuer) = Ok (Prototype kind) /\
    fetch E kind (issuerNamespace issuer fallback) (ref_Name issuer) = Ok object /\
    asKeyPairable object = Some k0 /\
    k = kp_initConditions E k0 /\
    IsTrue (GetCondition KeyPairableConditionSeedSecretReady (kp_Conditions k)) = true.

(** The owner behind an issuer: the issuer itself, or the resolved owner of
    a Signing Key as the API server returns it. *)
Definition ownerResolves (E : Env) (k : KeyPairable) (owner : Object) : Prop :=
  match k with
  | KPSigningKey sk =>
      IsTrue (GetCondition SigningKeyConditionOwnerResolved (sk_Conditions (sk_status sk)))
        = true /\
      exists ref kind,
        sk_OwnerRef (sk_status sk) = Some ref /\
        Scheme_New E (GetGroupVersionKind ref) = Ok (Prototype kind) /\
        fetch E kind (ref_Namespace ref) (ref_Name ref) = Ok owner
  | KPOperator v => owner = ObjOperator v
  | KPAccount v => owner = ObjAccount v
  | KPUser v => owner = ObjUser v
  end.

(** The seed secret of the issuer holds a seed of the wanted key space that
    parses to [issuerKP], whose public key is the one the issuer records. *)
Definition issuerSeedLoads (E : Env) (k : KeyPairable) (wantPrefix : PrefixByte)
    (issuerKP : NKey) : Prop :=
  exists keyPair secret seed raw,
    GetKeyPair k = Some keyPair /\
    Secrets_Get E (GetNamespace k) (SeedSecretName keyPair) = Ok secret /\
    Data secret !! NatsSecretSeedKey = Some seed /\
    nkeys_DecodeSeed E seed = Ok (wantPrefix, raw) /\
    nkeys_FromSeed E seed = Ok issuerKP /\
    kp_PublicKey E issuerKP = Ok (PublicKey keyPair).

(** The seed secret is there, equal to what the key-pair builder makes of
    it, and holds the seed of [kp]. *)
Definition seedSettled (E : Env) (owner : Object) (ns name : string) (kp : NKey) : Prop :=
  exists got seed,
    Secrets_Get E ns name = Ok got /\
    sec_Name got = name /\
    Data got !! NatsSecretSeedKey = Some seed /\
    nkeys_FromSeed E seed = Ok kp /\
    KeyPairSecretBuilder_Build E (Some got) owner kp = Ok got.

(** The JWT secret is there and its token decodes to claims canonically
    equal to the wanted ones. *)
Definition tokenSettled (E : Env) (ns name : string) (wantClaims : Claims)
    (storedJWT : string) : Prop :=
  exists got gotClaims,
    Secrets_Get E ns name = Ok got /\
    Data got !! NatsSecretJWTKey = Some storedJWT /\
    jwt_Decode E storedJWT = Ok gotClaims /\
    sameButIssuedAt gotClaims wantClaims.

(** The observed state of an Account matches its desired state; [operator]
    is its resolved Operator, [issuerKP] the key pair that signs its token
    and [storedJWT] the token in its JWT secret. *)
Definition AccountConverged (E : Env) (acc : Account) (operator : Operator)
    (issuerKP : NKey) (storedJWT : string) : Prop :=
  let ns := Namespace (acc_meta acc) in
  IsZero (DeletionTimestamp (acc_meta acc)) = true /\
  ContainsFinalizer (acc_meta acc) AccountFinalizer = true /\
  allSet (accountCondSet E) accountMarks (acc_Conditions (acc_status acc)) /\
  (exists kp,
     seedSettled E (ObjAccount acc) ns (acc_SeedSecretName (acc_spec acc)) kp /\
     acc_KeyPair (acc_status acc)
       = Some (mkKeyPair (orEmpty (kp_PublicKey E kp)) (acc_SeedSecretName (acc_spec acc)))) /\
  (exists k,
     issuerResolves E (acc_Issuer (acc_spec acc)) ns k /\
     ownerResolves E k (ObjOperator operator) /\
     issuerSeedLoads E k PrefixByteOperator issuerKP) /\
  OperatorRef (acc_status acc)
    = Some (mkInferredRef (Namespace (op_meta operator)) (Name (op_meta operator))) /\
  (exists sel skList,
     selectorOf E acc = Ok sel /\
     SigningKeys_List E ns (listOptionsOf sel) = Ok skList /\
     NextSigningKeys (acc_meta acc) (SigningKeys (acc_status acc)) skList
       = SigningKeys (acc_status acc)) /\
  (exists wantClaims nextJWT,
     CreateAccountClaims E acc issuerKP = Ok (wantClaims, nextJWT) /\
     tokenSettled E ns (acc_JWTSecretName (acc_spec acc)) wantClaims storedJWT).

(** The observed state of a User matches its desired state. *)
Definition UserConverged (E : Env) (usr : User) : Prop :=
  let ns := Namespace (usr_meta usr) in
  allSet (userCondSet E) userMarks (usr_Conditions (usr_status usr)) /\
  exists kp k account issuerKP wantClaims nextJWT storedJWT creds,
    seedSettled E (ObjUser usr) ns (usr_SeedSecretName (usr_spec usr)) kp /\
    usr_KeyPair (usr_status usr)
      = Some (mkKeyPair (orEmpty (kp_PublicKey E kp)) (usr_SeedSecretName (usr_spec usr))) /\
    issuerResolves E (usr_Issuer (usr_spec usr)) ns k /\
    ownerResolves E k (ObjAccount account) /\
    AccountRef (usr_status usr)
      = Some (mkInferredRef (Namespace (acc_meta account)) (Name (acc_meta account))) /\
    issuerSeedLoads E k PrefixByteAccount issuerKP /\
    CreateUserClaims E usr issuerKP = Ok (wantClaims, nextJWT) /\
    tokenSettled E ns (usr_JWTSecretName (usr_spec usr)) wantClaims storedJWT /\
    Secrets_Get E ns (CredentialsSecretName (usr_spec usr)) = Ok creds /\
    UserCredentialSecretBuilder_Build E (Some creds) (ObjUser usr) storedJWT
      (orEmpty (kp_Seed E kp)) = Ok creds.

(** What publication leaves in the log when it succeeds. *)
Definition pushOf (operator : Operator) (token : string) : list Call :=
  [CConnect (AccountServerURL (op_spec operator)); CPush token; CClose].


(* ===================================================================== *)
(** ** Further properties of passes *)
(* ===================================================================== *)

(** What one pass may say to the account server: nothing, a connection
    that is refused, or one connection that carries at most one request, a
    push or a delete, and is closed after it. *)
Definition session (l : list Call) : Prop :=
  remoteCalls l = [] \/
  (exists url, remoteCalls l = [CConnect url]) \/
  (exists url, remoteCalls l = [CConnect url; CClose]) \/
  (exists url c, remoteCalls l = [CConnect url; c; CClose] /\
                 (isPush c = true \/ isDelete c = true)).

(** Whatever the object it starts from, the pass [m] says to the account
    server what one session allows. *)
Definition oneSession {O A} (m : M O A) : Prop := forall o, session (log (m o)).

(** Whatever the object it starts from, the pass [m] issues no call of the
    kind [p]. *)
Definition silent {O A} (p : Call -> bool) (m : M O A) : Prop :=
  guarded (fun _ : O => True) p never m.

(** The requests a pass of the User controller may issue: reads of objects
    and secrets, writes of secrets, events, the generation of a user key pair
    and the update of the status. *)
Definition userCall (c : Call) : bool :=
  match c with
  | CGet _ _ _ | CGetSecret _ _ | CCreateSecret _ | CUpdateSecret _
  | CEvent _ _ _ | CGenerateKeyPair PrefixByteUser | CUpdateStatus => true
  | _ => false
  end.

Definition notUserCall (c : Call) : bool := negb (userCall c).

Definition isObjectUpdate (c : Call) : bool :=
  match c with CUpdateObject _ => true | _ => false end.

(** The Account as Reconcile has it once the conditions are initialised. *)
Definition initialised (E : Env) (acc : Account) : Account :=
  mkAccount (acc_meta acc) (acc_spec acc)
    (AccountStatusOps.InitializeConditions (accountCondSet E) (acc_status acc)).

(** How the token step of the Account controller comes to hand on the token
    [jwt], [l] being what the step requested: the JWT secret holds it and it
    is up to date, nothing being written; or the secret held a stale token
    and was updated, with success, to the secret built from the fresh token;
    or the secret was not found and was created, with success, from the
    fresh token, with its controller reference set. *)
Definition handedOn (E : Env) (acc : Account) (issuerKP : NKey) (jwt : string)
    (l : list Call) : Prop :=
  exists wantClaims nextJWT,
    CreateAccountClaims E acc issuerKP = Ok (wantClaims, nextJWT) /\
    let ns := Namespace (acc_meta acc) in
    let name := acc_JWTSecretName (acc_spec acc) in
    ((exists got,
        Secrets_Get E ns name = Ok got /\
        Data got !! NatsSecretJWTKey = Some jwt /\
        ~ stale E jwt wantClaims /\ secretWrites l = []) \/
     (exists got gotJWT want,
        Secrets_Get E ns name = Ok got /\
        Data got !! NatsSecretJWTKey = Some gotJWT /\
        stale E gotJWT wantClaims /\ jwt = nextJWT /\
        JWTSecretBuilder_Build E (Some got) (ObjAccount acc) nextJWT = Ok want /\
        Client_Update E want = None /\ secretWrites l = [CUpdateSecret want]) \/
     (exists e built secret,
        Secrets_Get E ns name = Err e /\ IsNotFound e = true /\ jwt = nextJWT /\
        JWTSecretBuilder_Build E None (ObjAccount acc) nextJWT = Ok built /\
        SetControllerReference E (ObjAccount acc) built = Ok secret /\
        Client_Create E secret = None /\ secretWrites l = [CCreateSecret secret])).

(** The same for the User controller, which sets no controller reference
    on the secret it creates. *)
Definition handedOnUser (E : Env) (usr : User) (issuerKP : NKey) (jwt : string)
    (l : list Call) : Prop :=
  exists wantClaims nextJWT,
    CreateUserClaims E usr issuerKP = Ok (wantClaims, nextJWT) /\
    let ns := Namespace (usr_meta usr) in
    let name := usr_JWTSecretName (usr_spec usr) in
    ((exists got,
        Secrets_Get E ns name = Ok got /\
        Data got !! NatsSecretJWTKey = Some jwt /\
        ~ stale E jwt wantClaims /\ secretWrites l = []) \/
     (exists got gotJWT want,
        Secrets_Get E ns name = Ok got /\
        Data got !! NatsSecretJWTKey = Some gotJWT /\
        stale E gotJWT wantClaims /\ jwt = nextJWT /\
        JWTSecretBuilder_Build E (Some got) (ObjUser usr) nextJWT = Ok want /\
        Client_Update E want = None /\ secretWrites l = [CUpdateSecret want]) \/
     (exists e secret,
        Secrets_Get E ns name = Err e /\ IsNotFound e = true /\ jwt = nextJWT /\
        JWTSecretBuilder_Build E None (ObjUser usr) nextJWT = Ok secret /\
        Client_Create E secret = None /\ secretWrites l = [CCreateSecret secret])).


(** The User once its issuer is marked resolved, as the token step of the
    User controller has it when it signs. *)
Definition issuerMarked (E : Env) (usr : User) : User :=
  mkUser (usr_meta usr) (usr_spec usr)
    (UserStatusOps.MarkIssuerResolved (userCondSet E) (usr_status usr)).


(** The membership of the superseded revision: a Signing Key counts for an
    Account when it is ready and its owner reference names the namespace and
    the name of the Account. *)
Definition namesAccount (acc : Account) (sk : SigningKey) : bool :=
  match sk_OwnerRef (sk_status sk) with
  | Some r =>
      bool_decide (ref_Namespace r = Namespace (acc_meta acc))
      && bool_decide (ref_Name r = Name (acc_meta acc))
  | None => false
  end.

Definition countsFor (acc : Account) (sk : SigningKey) : bool :=
  IsReady (sk_Conditions (sk_status sk)) && namesAccount acc sk.

(** A ready Signing Key without an owner reference, or one that counts for
    the Account and has no key pair. *)
Definition incomplete (acc : Account) (sk : SigningKey) : bool :=
  IsReady (sk_Conditions (sk_status sk))
  && match sk_OwnerRef (sk_status sk) with
     | None => true
     | Some _ =>
         namesAccount acc sk
         && match sk_KeyPair (sk_status sk) with None => true | Some _ => false end
     end.

(** A cluster for the superseded Account controller: the account is issued
    through the Signing Key [opkey] of the operator, the Signing Key [A]
    counts for it, its seed secret exists and its JWT secret is missing. *)
Definition opKey : SigningKey :=
  mkSigningKey (Demo.meta "nats" "opkey")
    (mkSigningKeyStatus (Demo.allTrueConditions Demo.signingKeySet)
       (Some (mkKeyPair "Oopkey" "opkey-seed"))
       (Some (mkTypedRef GroupVersion "Operator" "op" "nats" "uid-op"))).

Definition opKeySeed : Secret :=
  mkSecret "nats" "opkey-seed" {[ NatsSecretSeedKey := "SOopkey" ]} true (Some "uid-opkey").

Definition keyedAcct : Account :=
  mkAccount (Demo.meta "nats" "acct")
    (mkAccountSpec (Demo.issuerRef "SigningKey" "opkey") "acct-seed" "acct-jwt" None "limits")
    (mkAccountStatus [] None None []).

Definition tokenLost : Demo.World :=
  Demo.mkWorld [opKeySeed; Demo.acctSeed] [Demo.op] [keyedAcct] []
    [opKey; Demo.signingKey "A" true; Demo.signingKey "C" false]
    Demo.tokens 200 "sys" None None.


(* ===================================================================== *)
(** * Reasoning about a pass *)
(* ===================================================================== *)

Section WP.
Context {O : Type}.

Lemma wp_ret {A} (a : A) (o : O) Q : Q (Some a) o [] -> wp (ret a) o Q.
Proof. exact id. Qed.

Lemma wp_panic {A} (o : O) (Q : option A -> O -> list Call -> Prop) :
  Q None o [] -> wp panic o Q.
Proof. exact id. Qed.

Lemma wp_call {A} c (answer : A) (o : O) Q :
  Q (Some answer) o [c] -> wp (call c answer) o Q.
Proof. exact id. Qed.

Lemma wp_get (o : O) Q : Q (Some o) o [] -> wp get o Q.
Proof. exact id. Qed.

Lemma wp_modify f (o : O) Q : Q (Some tt) (f o) [] -> wp (modify f) o Q.
Proof. exact id. Qed.

Lemma wp_bind {A B} (m : M O A) (f : A -> M O B) o Q :
  wp m o (fun a o' l =>
            match a with
            | Some a => wp (f a) o' (fun b o'' l' => Q b o'' (l ++ l'))
            | None => Q None o' l
            end) ->
  wp (bind m f) o Q.
Proof.
  unfold wp, bind. destruct (out (m o)); simpl; auto.
Qed.

Lemma wp_mono {A} (m : M O A) o (Q1 Q2 : option A -> O -> list Call -> Prop) :
  wp m o Q1 -> (forall a o' l, Q1 a o' l -> Q2 a o' l) -> wp m o Q2.
Proof. unfold wp. auto. Qed.

(** Sequencing after a pass whose behaviour is known from a lemma. *)
Lemma wp_seq {A B} (m : M O A) (f : A -> M O B) o Q1 Q :
  wp m o Q1 ->
  (forall a o' l, Q1 (Some a) o' l -> wp (f a) o' (fun b o'' l' => Q b o'' (l ++ l'))) ->
  (forall o' l, Q1 None o' l -> Q None o' l) ->
  wp (bind m f) o Q.
Proof.
  intros Hm Hf Hp. apply wp_bind. eapply wp_mono; [exact Hm|].
  intros [a|] o' l H; auto.
Qed.

Lemma wp_get_bind {B} (f : O -> M O B) (o : O) Q : wp (f o) o Q -> wp (bind get f) o Q.
Proof. intros H. apply wp_bind. exact H. Qed.

Lemma wp_modify_bind {B} g (f : unit -> M O B) (o : O) Q :
  wp (f tt) (g o) Q -> wp (bind (modify g) f) o Q.
Proof. intros H. apply wp_bind. exact H. Qed.

Lemma wp_ret_bind {A B} (a : A) (f : A -> M O B) (o : O) Q :
  wp (f a) o Q -> wp (bind (ret a) f) o Q.
Proof. intros H. apply wp_bind. exact H. Qed.

Lemma wp_call_bind {A B} c (answer : A) (f : A -> M O B) (o : O) Q :
  wp (f answer) o (fun b o' l => Q b o' (c :: l)) -> wp (bind (call c answer) f) o Q.
Proof. intros H. apply wp_bind. exact H. Qed.

Lemma wp_panic_bind {A B} (f : A -> M O B) (o : O) Q :
  Q None o [] -> wp (bind panic f) o Q.
Proof. intros H. apply wp_bind. exact H. Qed.

Lemma wp_bind_assoc {A B C} (m : M O A) (f : A -> M O B) (g : B -> M O C) o Q :
  wp (bind m (fun a => bind (f a) g)) o Q -> wp (bind (bind m f) g) o Q.
Proof.
  unfold wp, bind. destruct (out (m o)); simpl; auto.
  destruct (out (f a (obj (m o)))); simpl; rewrite ?app_assoc; auto.
Qed.

End WP.

(** One step of symbolic execution of a pass. *)
Ltac wp_step :=
  lazymatch goal with
  | |- wp (bind (bind _ _) _) _ _ => apply wp_bind_assoc
  | |- wp (bind get _) _ _ => apply wp_get_bind
  | |- wp (bind (modify _) _) _ _ => apply wp_modify_bind
  | |- wp (bind (ret _) _) _ _ => apply wp_ret_bind
  | |- wp (bind (call _ _) _) _ _ => apply wp_call_bind
  | |- wp (bind panic _) _ _ => apply wp_panic_bind
  | |- wp (ret _) _ _ => apply wp_ret
  | |- wp panic _ _ => apply wp_panic
  | |- wp (call _ _) _ _ => apply wp_call
  | |- wp get _ _ => apply wp_get
  | |- wp (modify _) _ _ => apply wp_modify
  | |- wp (bind (match ?x with _ => _ end) _) _ _ => destruct x eqn:?
  | |- wp (match ?x with _ => _ end) _ _ => destruct x eqn:?
  | |- wp (let '(_, _) := ?x in _) _ _ => destruct x
  | |- wp (bind (let '(_, _) := ?x in _) _) _ _ => destruct x
  end.

Ltac wp_simpl := cbv beta; cbn [isErr negb orb andb].

Ltac wp_run := repeat (wp_simpl; wp_step); wp_simpl.

(** Logs without calls of some kind. *)
Lemma quiet_nil p : quiet p [].
Proof. constructor. Qed.

Lemma quiet_cons p c l : p c = false -> quiet p l -> quiet p (c :: l).
Proof. intros. constructor; assumption. Qed.

Lemma quiet_app p l1 l2 : quiet p l1 -> quiet p l2 -> quiet p (l1 ++ l2).
Proof. unfold quiet. intros. apply Forall_app. split; assumption. Qed.

Lemma quiet_app_inv p l1 l2 : quiet p (l1 ++ l2) -> quiet p l1 /\ quiet p l2.
Proof. unfold quiet. intros H. apply Forall_app in H. exact H. Qed.

Lemma quiet_filter p l : quiet p l -> List.filter p l = [].
Proof.
  induction 1 as [|c l Hc Hl IH]; simpl; [reflexivity|]. rewrite Hc. exact IH.
Qed.

Lemma quiet_In p l c : quiet p l -> In c l -> p c = false.
Proof. unfold quiet. rewrite List.Forall_forall. auto. Qed.

Ltac quiet_tac :=
  unfold noPush;
  repeat first [ apply quiet_nil | assumption
               | apply quiet_cons; [reflexivity|]
               | apply quiet_app ].

Lemma allowed_nil p R : allowed p R [].
Proof. intros c []. Qed.

Lemma allowed_app p R l1 l2 : allowed p R l1 -> allowed p R l2 -> allowed p R (l1 ++ l2).
Proof.
  intros H1 H2 c Hin. apply in_app_or in Hin as [Hin|Hin]; [apply (H1 c Hin) | apply (H2 c Hin)].
Qed.

Lemma allowed_quiet p l : allowed p never l <-> quiet p l.
Proof.
  unfold allowed, never, quiet. rewrite List.Forall_forall. split.
  - intros H c Hc. destruct (p c) eqn:Hp; [|reflexivity]. destruct (H c Hc Hp).
  - intros H c Hc Hp. rewrite (H c Hc) in Hp. discriminate.
Qed.

Section Guarded.
Context {O : Type}.
Variable I : O -> Prop.
Variable p : Call -> bool.
Variable R : Call -> Prop.

Lemma guarded_ret {A} (a : A) : guarded I p R (ret a).
Proof. intros o Ho. split; [exact Ho | apply allowed_nil]. Qed.

Lemma guarded_panic {A} : guarded I p R (@panic O A).
Proof. intros o Ho. split; [exact Ho | apply allowed_nil]. Qed.

Lemma guarded_get : guarded I p R (@get O).
Proof. intros o Ho. split; [exact Ho | apply allowed_nil]. Qed.

Lemma guarded_call {A} c (answer : A) :
  (p c = true -> R c) -> guarded I p R (call c answer).
Proof.
  intros H o Ho. split; [exact Ho|]. intros c' [<-|[]]. exact H.
Qed.

Lemma guarded_modify f : (forall o, I o -> I (f o)) -> guarded I p R (modify f).
Proof. intros H o Ho. split; [apply H; exact Ho | apply allowed_nil]. Qed.

Lemma guarded_bind {A B} (m : M O A) (f : A -> M O B) :
  guarded I p R m -> (forall a, guarded I p R (f a)) -> guarded I p R (bind m f).
Proof.
  intros Hm Hf o Ho. destruct (Hm o Ho) as [Hi Hl]. unfold bind.
  destruct (out (m o)) as [a|]; simpl.
  - destruct (Hf a _ Hi) as [Hi' Hl']. split; [exact Hi' | apply allowed_app; assumption].
  - split; assumption.
Qed.

Lemma guarded_call_bind {A B} c (answer : A) (f : A -> M O B) :
  (p c = true -> R c) -> guarded I p R (f answer) ->
  guarded I p R (bind (call c answer) f).
Proof.
  intros Hc Hf o Ho. unfold bind, call; simpl. destruct (Hf o Ho) as [Hi Hl].
  split; [exact Hi|]. intros c' [<-|Hin]; [exact Hc | exact (Hl c' Hin)].
Qed.

Lemma guarded_bind_get {B} (f : O -> M O B) :
  (forall o, I o -> guarded I p R (f o)) -> guarded I p R (bind get f).
Proof.
  intros Hf o Ho. unfold bind, get; simpl. exact (Hf o Ho o Ho).
Qed.

End Guarded.

(** One step through the structure of a pass. *)
Ltac guard_step :=
  lazymatch goal with
  | |- guarded _ _ _ (bind get _) => apply guarded_bind_get; intros ? ?
  | |- guarded _ _ _ (bind (call _ _) _) => apply guarded_call_bind
  | |- guarded _ _ _ (bind _ _) => apply guarded_bind; [|intros ?]
  | |- guarded _ _ _ (ret _) => apply guarded_ret
  | |- guarded _ _ _ panic => apply guarded_panic
  | |- guarded _ _ _ get => apply guarded_get
  | |- guarded _ _ _ (call _ _) => apply guarded_call
  | |- guarded _ _ _ (modify _) => apply guarded_modify
  | |- guarded _ _ _ (match ?x with _ => _ end) => destruct x eqn:?
  | |- guarded _ _ _ (let '(_, _) := ?x in _) => destruct x
  end.

Ltac guard_run := repeat (cbv beta; guard_step).

(** A modification of the status keeps what the invariant reads. *)
Ltac keeps := let o := fresh "o" in let H := fresh "H" in intros o H; exact H.


(* ===================================================================== *)
(** * The condition state machine *)
(* ===================================================================== *)

Lemma GetCondition_SetCondition_eq c cs :
  GetCondition (cond_Type c) (SetCondition c cs) = Some c.
Proof.
  induction cs as [|x cs IH]; simpl.
  - rewrite decide_True; reflexivity.
  - destruct (decide (cond_Type x = cond_Type c)) as [Heq|Hne]; simpl.
    + rewrite decide_True; reflexivity.
    + rewrite decide_False; [exact IH | exact Hne].
Qed.

Lemma GetCondition_SetCondition_ne c t cs :
  cond_Type c <> t -> GetCondition t (SetCondition c cs) = GetCondition t cs.
Proof.
  intros Hne. induction cs as [|x cs IH]; simpl.
  - rewrite decide_False; [reflexivity | exact Hne].
  - destruct (decide (cond_Type x = cond_Type c)) as [Heq|Hne']; simpl.
    + rewrite decide_False by exact Hne.
      rewrite decide_False; [reflexivity | congruence].
    + destruct (decide (cond_Type x = t)); [reflexivity | exact IH].
Qed.

Lemma SetCondition_id c cs :
  GetCondition (cond_Type c) cs = Some c -> SetCondition c cs = cs.
Proof.
  induction cs as [|x cs IH]; simpl; [discriminate|].
  destruct (decide (cond_Type x = cond_Type c)) as [Heq|Hne].
  - intros [= ->]. reflexivity.
  - intros H. rewrite IH; [reflexivity | exact H].
Qed.

Lemma GetCondition_type t cs c : GetCondition t cs = Some c -> cond_Type c = t.
Proof.
  induction cs as [|x cs IH]; simpl; [discriminate|].
  destruct (decide (cond_Type x = t)); [intros [= <-]; assumption | exact IH].
Qed.

Lemma markTrue_get set t cs :
  t <> ConditionReady -> holds t (markTrue set t cs).
Proof.
  intros Hne. unfold holds, markTrue, trueCondition.
  destruct (allTrue set _).
  - rewrite GetCondition_SetCondition_ne by (simpl; congruence).
    apply (GetCondition_SetCondition_eq (mkCondition t ConditionTrue None "")).
  - apply (GetCondition_SetCondition_eq (mkCondition t ConditionTrue None "")).
Qed.


Lemma markTrue_other set t t' cs :
  t' <> t -> t' <> ConditionReady ->
  GetCondition t' (markTrue set t cs) = GetCondition t' cs.
Proof.
  intros H1 H2. unfold markTrue. destruct (allTrue set _).
  - rewrite !GetCondition_SetCondition_ne by (simpl; congruence). reflexivity.
  - rewrite GetCondition_SetCondition_ne by (simpl; congruence). reflexivity.
Qed.

Lemma markFalse_get set t reason msg cs :
  t <> ConditionReady ->
  GetCondition t (markFalse set t reason msg cs)
    = Some (mkCondition t ConditionFalse (Some reason) msg).
Proof.
  intros Hne. unfold markFalse.
  rewrite GetCondition_SetCondition_ne by (simpl; congruence).
  apply (GetCondition_SetCondition_eq (mkCondition t ConditionFalse (Some reason) msg)).
Qed.

Lemma markFalse_other set t t' reason msg cs :
  t' <> t -> t' <> ConditionReady ->
  GetCondition t' (markFalse set t reason msg cs) = GetCondition t' cs.
Proof.
  intros H1 H2. unfold markFalse.
  rewrite !GetCondition_SetCondition_ne by (simpl; congruence). reflexivity.
Qed.

Lemma markFalse_not_ready set t reason msg cs :
  IsReady (markFalse set t reason msg cs) = false.
Proof.
  unfold IsReady, markFalse.
  rewrite (GetCondition_SetCondition_eq
             (mkCondition ConditionReady ConditionFalse (Some reason) msg)).
  reflexivity.
Qed.

Lemma markUnknown_other set t t' reason msg cs :
  t' <> t -> t' <> ConditionReady ->
  GetCondition t' (markUnknown set t reason msg cs) = GetCondition t' cs.
Proof.
  intros H1 H2. unfold markUnknown. destruct (anyFalse set _).
  - rewrite GetCondition_SetCondition_ne by (simpl; congruence). reflexivity.
  - rewrite !GetCondition_SetCondition_ne by (simpl; congruence). reflexivity.
Qed.

(** Marking a condition that is already as [markTrue] leaves it changes
    nothing, once Ready is True as well. *)
Lemma markTrue_id set t cs :
  holds t cs -> holds ConditionReady cs -> markTrue set t cs = cs.
Proof.
  unfold holds, trueCondition. intros Ht Hr. unfold markTrue.
  rewrite (SetCondition_id (mkCondition t ConditionTrue None "") cs Ht).
  destruct (allTrue set cs); [|reflexivity].
  apply (SetCondition_id (mkCondition ConditionReady ConditionTrue None "") cs Hr).
Qed.

Lemma initOne_id t cs c : GetCondition t cs = Some c -> initOne t cs = cs.
Proof. unfold initOne. intros ->. reflexivity. Qed.

Lemma InitializeConditions_id set cs :
  (forall t, In t (ConditionReady :: set) -> exists c, GetCondition t cs = Some c) ->
  InitializeConditions set cs = cs.
Proof.
  unfold InitializeConditions. generalize (ConditionReady :: set) as ts.
  induction ts as [|t ts IH]; intros H; simpl; [reflexivity|].
  destruct (H t (or_introl eq_refl)) as [c Hc].
  rewrite (initOne_id t cs c Hc). apply IH. intros t' Ht'. apply H. right. exact Ht'.
Qed.

(** Initialising never takes a condition away, nor changes one. *)
Lemma initOne_keeps t t' cs c :
  GetCondition t' cs = Some c -> GetCondition t' (initOne t cs) = Some c.
Proof.
  intros H. unfold initOne. destruct (GetCondition t cs) eqn:Ht; [exact H|].
  rewrite GetCondition_SetCondition_ne; [exact H|].
  simpl. intros ->. congruence.
Qed.

Lemma InitializeConditions_keeps set t cs c :
  GetCondition t cs = Some c -> GetCondition t (InitializeConditions set cs) = Some c.
Proof.
  unfold InitializeConditions. generalize (ConditionReady :: set) as ts. intros ts.
  revert cs. induction ts as [|t0 ts IH]; intros cs H; simpl; [exact H|].
  apply IH. apply initOne_keeps. exact H.
Qed.

Lemma initOne_IsTrue t t' cs :
  IsTrue (GetCondition t' (initOne t cs)) = IsTrue (GetCondition t' cs).
Proof.
  unfold initOne. destruct (GetCondition t cs) eqn:Ht; [reflexivity|].
  destruct (decide (t = t')) as [<-|Hne].
  - rewrite (GetCondition_SetCondition_eq (mkCondition t ConditionUnknownStatus None "")).
    rewrite Ht. reflexivity.
  - rewrite GetCondition_SetCondition_ne by (simpl; exact Hne). reflexivity.
Qed.

Lemma InitializeConditions_IsTrue set t cs :
  IsTrue (GetCondition t (InitializeConditions set cs)) = IsTrue (GetCondition t cs).
Proof.
  unfold InitializeConditions. generalize (ConditionReady :: set) as ts. intros ts.
  revert cs. induction ts as [|t0 ts IH]; intros cs; simpl; [reflexivity|].
  rewrite IH. apply initOne_IsTrue.
Qed.


(* ===================================================================== *)
(** * The system-account test of the superseded Account controller *)
(* ===================================================================== *)

Module SupersededFacts.
Import Superseded.AccountReconciler.

Lemma isSystemAccount_quiet (E : Env) (acc : Account) :
  wp (isSystemAccount E) acc (fun _ o l => o = acc /\ noPush l).
Proof.
  unfold isSystemAccount.
  wp_run; (split; [reflexivity | quiet_tac]).
Qed.

Lemma isSystemAccount_spec (E : Env) (acc : Account) :
  wp (isSystemAccount E) acc (fun a o l =>
    a = out (isSystemAccount E acc) /\ o = acc /\ noPush l).
Proof.
  pose proof (isSystemAccount_quiet E acc) as H. unfold wp in *. tauto.
Qed.

(** The token is sent to the account server only after the test has answered
    false and no error. *)
Lemma updateAccountJWTSigningKeys_push (E : Env) (acc : Account) operatorSeed jwtSecret sKeys :
  wp (updateAccountJWTSigningKeys E operatorSeed jwtSecret sKeys) acc (fun _ _ l =>
    noPush l \/ out (isSystemAccount E acc) = Some (false, None)).
Proof.
  unfold updateAccountJWTSigningKeys.
  wp_run; try (left; quiet_tac; fail).
  eapply wp_seq; [apply isSystemAccount_spec | |].
  - intros [isSys err] ? ? (Ha & -> & Hl). cbv beta.
    destruct err as [e|], isSys; simpl; wp_run;
      try (left; quiet_tac; fail).
    right. symmetry. exact Ha.
  - intros ? ? (Ha & -> & Hl). left. quiet_tac.
Qed.

Lemma ensureSeedJWTSecrets_push (E : Env) (acc : Account) sKeys opSkey :
  wp (ensureSeedJWTSecrets E sKeys opSkey) acc (fun _ _ l =>
    noPush l \/ out (isSystemAccount E acc) = Some (false, None)).
Proof.
  unfold ensureSeedJWTSecrets, Superseded.createOrUpdateSecret, CoreV1_Secrets_Get, mark.
  wp_run; try (left; quiet_tac; fail).
  all: try (eapply wp_seq; [apply isSystemAccount_spec | |];
    [ intros [isSys err] ? ? (Ha & -> & Hl); cbv beta;
      destruct err as [e|], isSys; simpl; wp_run;
      solve [ left; quiet_tac | right; symmetry; exact Ha ]
    | intros ? ? (Ha & -> & Hl); left; quiet_tac ]).
  all: eapply wp_seq; [apply updateAccountJWTSigningKeys_push | |];
    [ intros ? ? ? [Hl|Hl]; cbv beta; wp_run;
      solve [ left; quiet_tac | right; exact Hl ]
    | intros ? ? [Hl|Hl]; [left; quiet_tac | right; exact Hl] ].
Qed.

End SupersededFacts.


(* ===================================================================== *)
(** * From the pass on a loaded object to Reconcile *)
(* ===================================================================== *)

Lemma sameAccount_AddFinalizer acc0 f :
  forall o, sameAccount acc0 o ->
            sameAccount acc0 (mkAccount (AddFinalizer (acc_meta o) f) (acc_spec o) (acc_status o)).
Proof.
  intros o (Hns & Hn & Hu & Hs). unfold sameAccount, AddFinalizer.
  destruct (ContainsFinalizer (acc_meta o) f); simpl; auto.
Qed.

Lemma sameAccount_RemoveFinalizer acc0 f :
  forall o, sameAccount acc0 o ->
            sameAccount acc0 (mkAccount (RemoveFinalizer (acc_meta o) f) (acc_spec o)
                                (acc_status o)).
Proof.
  intros o (Hns & Hn & Hu & Hs). unfold sameAccount, RemoveFinalizer. simpl. auto.
Qed.

Section ReconcileLift.
Variable E : Env.

Lemma account_Reconcile_allowed I p R req acc :
  Get_Account E (fst req) (snd req) = Ok acc ->
  I acc ->
  guarded I p R (AccountReconciler.reconcileLoaded E) ->
  (forall o, I o -> I (mkAccount (acc_meta o) (acc_spec o)
                         (AccountStatusOps.InitializeConditions (accountCondSet E)
                            (acc_status o)))) ->
  p (CGet AccountKind (fst req) (snd req)) = false ->
  p CUpdateStatus = false ->
  allowed p R (log (AccountReconciler.Reconcile E req)).
Proof.
  intros Hget Hacc Hbody Hinit Hp1 Hp2. unfold AccountReconciler.Reconcile.
  rewrite Hget. cbn [log].
  assert (Hg : guarded I p R
            (AccountReconciler.mark E AccountStatusOps.InitializeConditions;;
             AccountReconciler.reconcileLoaded E)).
  { apply guarded_bind; [|intros _; exact Hbody].
    unfold AccountReconciler.mark. apply guarded_modify. exact Hinit. }
  destruct (Hg acc Hacc) as [_ Hlog].
  unfold AccountReconciler.withDeferredStatusUpdate.
  intros c [<-|Hin] Hc; [congruence|].
  destruct (negb (Semantic_DeepEqual _ _)); cbn [log] in Hin.
  - apply in_app_or in Hin as [Hin|[<-|[]]]; [exact (Hlog c Hin Hc) | congruence].
  - exact (Hlog c Hin Hc).
Qed.

Lemma user_Reconcile_allowed I p R req usr :
  Get_User E (fst req) (snd req) = Ok usr ->
  I usr ->
  guarded I p R (UserReconciler.pipeline E) ->
  (forall o, I o -> I (mkUser (usr_meta o) (usr_spec o)
                         (UserStatusOps.InitializeConditions (userCondSet E)
                            (usr_status o)))) ->
  p (CGet UserKind (fst req) (snd req)) = false ->
  p CUpdateStatus = false ->
  allowed p R (log (UserReconciler.Reconcile E req)).
Proof.
  intros Hget Husr Hbody Hinit Hp1 Hp2. unfold UserReconciler.Reconcile.
  rewrite Hget. cbn [log].
  assert (Hg : guarded I p R
            (UserReconciler.mark E UserStatusOps.InitializeConditions;;
             UserReconciler.pipeline E)).
  { apply guarded_bind; [|intros _; exact Hbody].
    unfold UserReconciler.mark. apply guarded_modify. exact Hinit. }
  destruct (Hg usr Husr) as [_ Hlog].
  unfold UserReconciler.withDeferredStatusUpdate.
  intros c [<-|Hin] Hc; [congruence|].
  destruct (negb (Semantic_DeepEqual _ _)); cbn [log] in Hin.
  - apply in_app_or in Hin as [Hin|[<-|[]]]; [exact (Hlog c Hin Hc) | congruence].
  - exact (Hlog c Hin Hc).
Qed.

End ReconcileLift.


(* ===================================================================== *)
(** * The token-reconcile step *)
(* ===================================================================== *)

Lemma Equality_DeepEqual_spec (got want : Claims) :
  Equality_DeepEqual got want = true <-> sameButIssuedAt got want.
Proof.
  unfold Equality_DeepEqual, sameButIssuedAt.
  rewrite bool_decide_eq_true. destruct got, want; simpl.
  split.
  - intros [-> ->]. reflexivity.
  - intros [= -> ->]. split; reflexivity.
Qed.

Lemma stale_decide (E : Env) (gotJWT : string) (wantClaims : Claims) :
  match jwt_Decode E gotJWT with
  | Err _ => false
  | Ok gotClaims => Equality_DeepEqual gotClaims wantClaims
  end = false <-> stale E gotJWT wantClaims.
Proof.
  unfold stale. destruct (jwt_Decode E gotJWT) as [g|e].
  - split.
    + intros H. right. exists g. split; [reflexivity|].
      rewrite <- Equality_DeepEqual_spec. congruence.
    + intros [[e He]|[g' [[= <-] Hne]]]; [discriminate|].
      destruct (Equality_DeepEqual g wantClaims) eqn:Heq; [|reflexivity].
      apply Equality_DeepEqual_spec in Heq. contradiction.
  - split; [|reflexivity]. intros _. left. exists e. reflexivity.
Qed.

Section TokenReconcile.
Variable E : Env.
Variables (wantClaims : Claims) (got : Secret) (nextJWT gotJWT : string).
Hypothesis Hjwt : Data got !! NatsSecretJWTKey = Some gotJWT.

Let upToDate : bool :=
  match jwt_Decode E gotJWT with
  | Err _ => false
  | Ok gotClaims => Equality_DeepEqual gotClaims wantClaims
  end.

Lemma account_token_kept (acc : Account) :
  upToDate = true ->
  let r := AccountReconciler.ensureJWTSecretUpToDate E wantClaims got nextJWT acc in
  out r = Some (gotJWT, true, None) /\ log r = [].
Proof.
  intros Hup. unfold AccountReconciler.ensureJWTSecretUpToDate, bind, get; simpl.
  rewrite Hjwt. fold upToDate. rewrite Hup. simpl. split; reflexivity.
Qed.

Lemma account_token_replaced (acc : Account) (want : Secret) :
  upToDate = false ->
  JWTSecretBuilder_Build E (Some got) (ObjAccount acc) nextJWT = Ok want ->
  let r := AccountReconciler.ensureJWTSecretUpToDate E wantClaims got nextJWT acc in
  secretWrites (log r) = [CUpdateSecret want] /\
  (Client_Update E want = None -> out r = Some (nextJWT, true, None)).
Proof.
  intros Hup Hb. unfold AccountReconciler.ensureJWTSecretUpToDate, bind, get; simpl.
  rewrite Hjwt. fold upToDate. rewrite Hup. simpl. rewrite Hb. simpl.
  destruct (Client_Update E want); simpl; split; try reflexivity; discriminate.
Qed.

Lemma user_token_kept (usr : User) :
  upToDate = true ->
  let r := UserReconciler.ensureJWTSecretUpToDate E wantClaims got nextJWT usr in
  out r = Some (gotJWT, true, None) /\ log r = [].
Proof.
  intros Hup. unfold UserReconciler.ensureJWTSecretUpToDate, bind, get; simpl.
  rewrite Hjwt. fold upToDate. rewrite Hup. simpl. split; reflexivity.
Qed.

Lemma user_token_replaced (usr : User) (want : Secret) :
  upToDate = false ->
  JWTSecretBuilder_Build E (Some got) (ObjUser usr) nextJWT = Ok want ->
  let r := UserReconciler.ensureJWTSecretUpToDate E wantClaims got nextJWT usr in
  secretWrites (log r) = [CUpdateSecret want] /\
  (Client_Update E want = None -> out r = Some (nextJWT, true, None)).
Proof.
  intros Hup Hb. unfold UserReconciler.ensureJWTSecretUpToDate, bind, get; simpl.
  rewrite Hjwt. fold upToDate. rewrite Hup. simpl. rewrite Hb. simpl.
  destruct (Client_Update E want); simpl; split; try reflexivity; discriminate.
Qed.

End TokenReconcile.

(** C1.  For a resource whose JWT secret exists and holds a token, the
    token-reconcile step of the Account controller and of the User controller
    replaces the stored token with the freshly signed candidate (one update
    of the secret, built from the candidate) if and only if the stored token
    fails to decode or decodes to claims that differ from the canonical ones
    in more than the issuance timestamp; otherwise the existing token is
    returned unchanged and nothing is requested from the API server. *)
Theorem ensureJWTSecretUpToDate_replaces_iff_stale :
  forall (E : Env) (wantClaims : Claims) (got : Secret) (nextJWT gotJWT : string)
         (acc : Account) (usr : User) (wantA wantU : Secret),
    Data got !! NatsSecretJWTKey = Some gotJWT ->
    JWTSecretBuilder_Build E (Some got) (ObjAccount acc) nextJWT = Ok wantA ->
    JWTSecretBuilder_Build E (Some got) (ObjUser usr) nextJWT = Ok wantU ->
    let ra := AccountReconciler.ensureJWTSecretUpToDate E wantClaims got nextJWT acc in
    let ru := UserReconciler.ensureJWTSecretUpToDate E wantClaims got nextJWT usr in
    (secretWrites (log ra) = [CUpdateSecret wantA] <-> stale E gotJWT wantClaims) /\
    (secretWrites (log ru) = [CUpdateSecret wantU] <-> stale E gotJWT wantClaims) /\
    (stale E gotJWT wantClaims ->
       (Client_Update E wantA = None -> out ra = Some (nextJWT, true, None)) /\
       (Client_Update E wantU = None -> out ru = Some (nextJWT, true, None))) /\
    (~ stale E gotJWT wantClaims ->
       out ra = Some (gotJWT, true, None) /\ log ra = [] /\
       out ru = Some (gotJWT, true, None) /\ log ru = []).
Proof.
  intros E wantClaims got nextJWT gotJWT acc usr wantA wantU Hjwt HbA HbU ra ru.
  pose proof (stale_decide E gotJWT wantClaims) as Hst.
  destruct (match jwt_Decode E gotJWT with
            | Err _ => false
            | Ok gotClaims => Equality_DeepEqual gotClaims wantClaims
            end) eqn:Hup.
  - assert (Hfresh : ~ stale E gotJWT wantClaims).
    { intros H. apply Hst in H. discriminate. }
    destruct (account_token_kept E wantClaims got nextJWT gotJWT Hjwt acc Hup) as [Ha1 Ha2].
    destruct (user_token_kept E wantClaims got nextJWT gotJWT Hjwt usr Hup) as [Hu1 Hu2].
    fold ra in Ha1, Ha2. fold ru in Hu1, Hu2.
    split; [|split; [|split]].
    + split; [|intros H; contradiction]. rewrite Ha2. discriminate.
    + split; [|intros H; contradiction]. rewrite Hu2. discriminate.
    + intros H; contradiction.
    + intros _. auto.
  - assert (Hstale : stale E gotJWT wantClaims) by (apply Hst; reflexivity).
    destruct (account_token_replaced E wantClaims got nextJWT gotJWT Hjwt acc wantA Hup HbA)
      as [Ha1 Ha2].
    destruct (user_token_replaced E wantClaims got nextJWT gotJWT Hjwt usr wantU Hup HbU)
      as [Hu1 Hu2].
    fold ra in Ha1, Ha2. fold ru in Hu1, Hu2.
    split; [|split; [|split]].
    + split; auto.
    + split; auto.
    + intros _. auto.
    + intros H; contradiction.
Qed.

(** The converged account of the demo cluster: its stored token was signed at
    time 100, the canonical claims are built at time 200 and differ in nothing
    else, and the token is kept. *)
Lemma ensureJWTSecretUpToDate_witness :
  let E := Demo.env Demo.converged in
  let want := mkClaims AccountClaim 200 Demo.acctContent in
  out (AccountReconciler.ensureJWTSecretUpToDate E want Demo.acctJWT "fresh" Demo.acct)
    = Some ("stored-acct", true, None)
  /\ log (AccountReconciler.ensureJWTSecretUpToDate E want Demo.acctJWT "fresh" Demo.acct) = [].
Proof.
  intros E want.
  destruct (ensureJWTSecretUpToDate_replaces_iff_stale E want Demo.acctJWT "fresh" "stored-acct"
              Demo.acct Demo.usr
              (mkSecret "nats" "acct-jwt" {[ NatsSecretJWTKey := "fresh" ]} false (Some "uid-acct"))
              (mkSecret "nats" "usr-jwt" {[ NatsSecretJWTKey := "fresh" ]} true (Some "uid-usr"))
              eq_refl eq_refl eq_refl) as (_ & _ & _ & Hkept).
  assert (Hfresh : ~ stale E "stored-acct" want).
  { intros [[e He]|[g [Hg Hne]]]; [discriminate He|].
    injection Hg as <-. apply Hne. reflexivity. }
  destruct (Hkept Hfresh) as (H1 & H2 & _). split; assumption.
Defined.


(* ===================================================================== *)
(** * Issuer resolution *)
(* ===================================================================== *)

Ltac crush :=
  repeat match goal with
         | |- _ /\ _ => split
         | |- _ <-> _ => split
         end;
  intros;
  repeat match goal with
         | H : exists _, _ |- _ => destruct H
         | H : _ /\ _ |- _ => destruct H
         end;
  try discriminate; try congruence; try reflexivity;
  try (simplify_eq; congruence);
  eauto 12.

(** C5.  resolveIssuer returns handled = false, with an error, exactly when
    fetching the referenced object fails with an error other than not-found.
    In every other failure (the kind is not registered or is no client
    object, the object is not found, it has no key pair capability, its seed
    condition is not True) it returns handled = true with a condition error
    and no issuer, and the Account and User controllers then return no error
    to the retry machinery; a handled = false error is returned to it. *)
Theorem resolveIssuer_handled_or_transient :
  forall (E : Env) (O : Type) (issuer : TypedObjectReference)
         (fallbackNamespace : string) (o : O),
    let r := resolveIssuer E issuer fallbackNamespace o in
    let ns := if negb (bool_decide (ref_Namespace issuer = ""))
              then ref_Namespace issuer else fallbackNamespace in
    let gvk := GetGroupVersionKind issuer in
    exists kp ok err,
      out r = Some (kp, ok, err) /\ obj r = o /\
      (ok = false <->
         exists kind e, Scheme_New E gvk = Ok (Prototype kind) /\
                        fetch E kind ns (ref_Name issuer) = Err e /\
                        IsNotFound e = false) /\
      (err = None <->
         exists kind fetched k,
           Scheme_New E gvk = Ok (Prototype kind) /\
           fetch E kind ns (ref_Name issuer) = Ok fetched /\
           asKeyPairable fetched = Some k /\
           IsTrue (GetCondition KeyPairableConditionSeedSecretReady
                     (kp_Conditions (kp_initConditions E k))) = true /\
           kp = Some (kp_initConditions E k)) /\
      (err <> None -> isCondErr err = true /\ kp = None) /\
      (forall acc, err <> None ->
         out (AccountReconciler.issuerUnresolved E ok err acc)
           = Some (if ok then None else err)) /\
      (forall usr, err <> None ->
         out (UserReconciler.issuerUnresolved E ok err usr)
           = Some (if ok then None else err)).
Proof.
  assert (Hce : forall k r m, isCondErr (Some (ConditionError k r m)) = true) by reflexivity.
  intros E O issuer fallbackNamespace o r ns gvk.
  subst r. unfold resolveIssuer. fold gvk. fold ns.
  destruct (Scheme_New E gvk) as [[|kind]|e0] eqn:Hs.
  - eexists _, _, _. split; [reflexivity|]. split; [reflexivity|].
    crush.
  - unfold Client_Get, bind, call; simpl.
    destruct (fetch E kind ns (ref_Name issuer)) as [fetched|e] eqn:Hf; simpl.
    + destruct (asKeyPairable fetched) as [k|] eqn:Hk; simpl.
      * destruct (IsTrue (GetCondition KeyPairableConditionSeedSecretReady
                     (kp_Conditions (kp_initConditions E k)))) eqn:Hc; simpl.
        -- eexists _, _, _. split; [reflexivity|]. split; [reflexivity|].
           crush.
        -- eexists _, _, _. split; [reflexivity|]. split; [reflexivity|].
           crush.
      * eexists _, _, _. split; [reflexivity|]. split; [reflexivity|].
        crush.
    + destruct (IsNotFound e) eqn:Hnf; simpl.
      * eexists _, _, _. split; [reflexivity|]. split; [reflexivity|].
        crush.
      * eexists _, _, _. split; [reflexivity|]. split; [reflexivity|].
        crush.
  - eexists _, _, _. split; [reflexivity|]. split; [reflexivity|].
    crush.
Qed.


(* ===================================================================== *)
(** * Signing-key membership *)
(* ===================================================================== *)










(* ===================================================================== *)
(** * Finalization *)
(* ===================================================================== *)

Lemma remoteCalls_app l1 l2 : remoteCalls (l1 ++ l2) = remoteCalls l1 ++ remoteCalls l2.
Proof. unfold remoteCalls. apply List.filter_app. Qed.

Lemma deletes_app l1 l2 : deletes (l1 ++ l2) = deletes l1 ++ deletes l2.
Proof. unfold deletes. apply List.filter_app. Qed.

Lemma quiet_remoteCalls l : quiet isRemoteCall l -> remoteCalls l = [].
Proof. apply quiet_filter. Qed.

Lemma quiet_remote_deletes l : quiet isRemoteCall l -> deletes l = [].
Proof.
  induction 1 as [|c l Hc Hl IH]; simpl; [reflexivity|].
  destruct c; try discriminate Hc; exact IH.
Qed.

Lemma deletes_cons c l : deletes (c :: l) = (if isDelete c then [c] else []) ++ deletes l.
Proof. unfold deletes. simpl. destruct (isDelete c); reflexivity. Qed.

Lemma remoteCalls_cons c l :
  remoteCalls (c :: l) = (if isRemoteCall c then [c] else []) ++ remoteCalls l.
Proof. unfold remoteCalls. simpl. destruct (isRemoteCall c); reflexivity. Qed.

(** Normalises [deletes] and [remoteCalls] of a log built from conses,
    appends and parts known to hold no remote call. *)
Ltac log_norm :=
  repeat first [ rewrite deletes_cons | rewrite deletes_app
               | rewrite remoteCalls_cons | rewrite remoteCalls_app ];
  repeat match goal with
         | H : quiet isRemoteCall ?l |- _ =>
             first [ rewrite (quiet_remote_deletes l H) | rewrite (quiet_remoteCalls l H) ]
         end;
  change (deletes []) with (@nil Call);
  change (remoteCalls []) with (@nil Call);
  cbn [isDelete isRemoteCall app].

Lemma RemoveFinalizer_gone m f : ContainsFinalizer (RemoveFinalizer m f) f = false.
Proof.
  unfold ContainsFinalizer, RemoveFinalizer. simpl.
  apply bool_decide_eq_false. rewrite list_elem_of_filter. intros [H _]. apply H. reflexivity.
Qed.

Section Finalization.
Variable E : Env.
Import AccountReconciler.

(** Loading the CA bundle reads secrets only. *)
Lemma getNATSOptions_spec (operator : Operator) (acc : Account) :
  wp (getNATSOptions E operator) acc (fun a o l =>
    a = out (getNATSOptions E operator acc) /\ o = acc /\ quiet isRemoteCall l).
Proof.
  assert (H : wp (getNATSOptions E operator) acc (fun _ o l =>
                o = acc /\ quiet isRemoteCall l)).
  { unfold getNATSOptions, loadCAFile, CoreV1_Secrets_Get.
    wp_run; (split; [reflexivity | quiet_tac]). }
  unfold wp in *. tauto.
Qed.

Lemma Load_spec (operator : option Operator) (acc : Account) :
  wp (Load E operator) acc (fun a o l =>
    o = acc /\ quiet isRemoteCall l /\
    a = match SysAccountLoader_Load E operator with
        | Some r => Some r
        | None => None
        end).
Proof.
  unfold Load. wp_run; (split; [reflexivity|]); (split; [quiet_tac | reflexivity]).
Qed.

(** Whatever happens, finalization leaves at most one delete in the log,
    for the public key recorded on the Account, and only through the gate. *)
Lemma finalizeAccount_deletes (acc : Account) :
  wp (finalizeAccount E) acc (fun _ _ l =>
    deletes l = [] \/
    exists kp, gateOpen acc = true /\ acc_KeyPair (acc_status acc) = Some kp /\
               deletes l = [CDelete (PublicKey kp)]).
Proof.
  unfold finalizeAccount. apply wp_get_bind. unfold gateOpen.
  destruct (IsTrue (GetCondition AccountConditionJWTSecretReady _)); cbn [negb andb];
    [|wp_run; left; reflexivity].
  destruct (IsTrue (GetCondition AccountConditionJWTPushed _)); cbn [negb];
    [|wp_run; left; reflexivity].
  unfold CoreV1_Secrets_Get, mark.
  wp_run; try (left; reflexivity).
  eapply wp_seq; [apply Load_spec | |].
  - intros ? ? ? (-> & Hl & _). cbv beta.
    wp_run; try (left; log_norm; reflexivity).
    eapply wp_seq; [apply getNATSOptions_spec | |].
    + intros ? ? ? (_ & -> & Hl'). cbv beta.
      wp_run; try (left; log_norm; reflexivity).
      right. eexists. split; [reflexivity|]. split; [reflexivity|].
      log_norm. reflexivity.
    + intros ? ? (_ & -> & Hl'). left. log_norm. reflexivity.
  - intros ? ? (-> & Hl & _). left. log_norm. reflexivity.
Qed.

Lemma finalizeAccount_gate_closed (acc : Account) :
  gateOpen acc = false ->
  wp (finalizeAccount E) acc (fun a o l => a = Some None /\ o = acc /\ l = []).
Proof.
  intros Hgate. unfold finalizeAccount. apply wp_get_bind. unfold gateOpen in Hgate.
  destruct (IsTrue (GetCondition AccountConditionJWTSecretReady _)); cbn [negb];
    [|wp_run; auto].
  destruct (IsTrue (GetCondition AccountConditionJWTPushed _)); cbn [negb];
    [discriminate Hgate | wp_run; auto].
Qed.

Lemma gateOpen_true (acc : Account) :
  gateOpen acc = true ->
  IsTrue (GetCondition AccountConditionJWTSecretReady (acc_Conditions (acc_status acc))) = true /\
  IsTrue (GetCondition AccountConditionJWTPushed (acc_Conditions (acc_status acc))) = true.
Proof. unfold gateOpen. intros H. apply andb_true_iff in H. exact H. Qed.

Lemma finalizeAccount_operator_gone (acc : Account) ref e :
  gateOpen acc = true ->
  OperatorRef (acc_status acc) = Some ref ->
  Operators_Get E (iref_Namespace ref) (iref_Name ref) = Err e ->
  IsNotFound e = true ->
  wp (finalizeAccount E) acc (fun a o l => a = Some None /\ o = acc /\ remoteCalls l = []).
Proof.
  intros Hgate Href Hget Hnf. apply gateOpen_true in Hgate as [H1 H2].
  unfold finalizeAccount. apply wp_get_bind. rewrite H1, H2. cbn [negb].
  rewrite Href. apply wp_call_bind. rewrite Hget, Hnf.
  wp_run. auto.
Qed.

Lemma finalizeAccount_system_account_gone (acc : Account) operator operatorKP e :
  gateOpen acc = true ->
  operatorLoaded E acc operator operatorKP ->
  SysAccountLoader_Load E (Some operator) = Some (Err e) ->
  IsNotFound e = true ->
  wp (finalizeAccount E) acc (fun a o l => a = Some None /\ o = acc /\ remoteCalls l = []).
Proof.
  intros Hgate (ref & keyPair & seedSecret & seed & Href & Hget & Hkp & Hsec & Hdata & Hfrom)
         Hload Hnf.
  apply gateOpen_true in Hgate as [H1 H2].
  unfold finalizeAccount. apply wp_get_bind. rewrite H1, H2. cbn [negb].
  rewrite Href. apply wp_call_bind. rewrite Hget, Hkp.
  unfold CoreV1_Secrets_Get. apply wp_call_bind. rewrite Hsec, Hdata, Hfrom.
  eapply wp_seq; [apply Load_spec | |].
  - intros ? ? ? (-> & Hl & Ha). rewrite Hload in Ha. injection Ha as ->.
    cbv beta. rewrite Hnf. wp_run.
    split; [reflexivity|]. split; [reflexivity|]. log_norm. reflexivity.
  - intros ? ? (-> & Hl & Ha). rewrite Hload in Ha. discriminate Ha.
Qed.

Lemma finalizeAccount_revokes (acc : Account) operator operatorKP sysSeed opts kp :
  gateOpen acc = true ->
  operatorLoaded E acc operator operatorKP ->
  SysAccountLoader_Load E (Some operator) = Some (Ok sysSeed) ->
  out (getNATSOptions E operator acc) = Some (Ok opts) ->
  nsc_Connect E (AccountServerURL (op_spec operator)) operatorKP sysSeed opts = None ->
  acc_KeyPair (acc_status acc) = Some kp ->
  wp (finalizeAccount E) acc (fun a o l =>
    a = Some (nsc_Delete E (PublicKey kp)) /\ o = acc /\
    remoteCalls l = [CConnect (AccountServerURL (op_spec operator));
                     CDelete (PublicKey kp); CClose]).
Proof.
  intros Hgate (ref & keyPair & seedSecret & seed & Href & Hget & Hkp & Hsec & Hdata & Hfrom)
         Hload Hnats Hconn Hacckp.
  apply gateOpen_true in Hgate as [H1 H2].
  unfold finalizeAccount. apply wp_get_bind. rewrite H1, H2. cbn [negb].
  rewrite Href. apply wp_call_bind. rewrite Hget, Hkp.
  unfold CoreV1_Secrets_Get. apply wp_call_bind. rewrite Hsec, Hdata, Hfrom.
  eapply wp_seq; [apply Load_spec | |].
  - intros ? ? ? (-> & Hl & Ha). rewrite Hload in Ha. injection Ha as ->.
    cbv beta.
    eapply wp_seq; [apply getNATSOptions_spec | |].
    + intros ? ? ? (Ha & -> & Hl'). rewrite Hnats in Ha. injection Ha as ->.
      cbv beta. apply wp_call_bind. rewrite Hconn, Hacckp. wp_run.
      split; [reflexivity|]. split; [reflexivity|]. log_norm. reflexivity.
    + intros ? ? (Ha & -> & Hl'). rewrite Hnats in Ha. discriminate Ha.
  - intros ? ? (-> & Hl & Ha). rewrite Hload in Ha. discriminate Ha.
Qed.

(** A failed connection aborts finalization before any delete. *)
Lemma finalizeAccount_unreachable (acc : Account) operator operatorKP sysSeed opts e :
  gateOpen acc = true ->
  operatorLoaded E acc operator operatorKP ->
  SysAccountLoader_Load E (Some operator) = Some (Ok sysSeed) ->
  out (getNATSOptions E operator acc) = Some (Ok opts) ->
  nsc_Connect E (AccountServerURL (op_spec operator)) operatorKP sysSeed opts = Some e ->
  wp (finalizeAccount E) acc (fun a o l =>
    a = Some (Some e) /\ o = acc /\ deletes l = []).
Proof.
  intros Hgate (ref & keyPair & seedSecret & seed & Href & Hget & Hkp & Hsec & Hdata & Hfrom)
         Hload Hnats Hconn.
  apply gateOpen_true in Hgate as [H1 H2].
  unfold finalizeAccount. apply wp_get_bind. rewrite H1, H2. cbn [negb].
  rewrite Href. apply wp_call_bind. rewrite Hget, Hkp.
  unfold CoreV1_Secrets_Get. apply wp_call_bind. rewrite Hsec, Hdata, Hfrom.
  eapply wp_seq; [apply Load_spec | |].
  - intros ? ? ? (-> & Hl & Ha). rewrite Hload in Ha. injection Ha as ->.
    cbv beta.
    eapply wp_seq; [apply getNATSOptions_spec | |].
    + intros ? ? ? (Ha & -> & Hl'). rewrite Hnats in Ha. injection Ha as ->.
      cbv beta. apply wp_call_bind. rewrite Hconn. wp_run.
      split; [reflexivity|]. split; [reflexivity|]. log_norm. reflexivity.
    + intros ? ? (Ha & -> & Hl'). rewrite Hnats in Ha. discriminate Ha.
  - intros ? ? (-> & Hl & Ha). rewrite Hload in Ha. discriminate Ha.
Qed.

(** Once finalization returns no error, Reconcile removes the finalizer and
    updates the Account, which lets the deletion proceed. *)
Lemma reconcileLoaded_skips_finalization (acc : Account) :
  IsZero (DeletionTimestamp (acc_meta acc)) = false ->
  ContainsFinalizer (acc_meta acc) AccountFinalizer = true ->
  gateOpen acc = false ->
  wp (reconcileLoaded E) acc (fun a o l =>
    l = [CUpdateObject (Finalizers (RemoveFinalizer (acc_meta acc) AccountFinalizer))] /\
    acc_status o = acc_status acc /\
    ContainsFinalizer (acc_meta o) AccountFinalizer = false).
Proof.
  intros Hdel Hfin Hgate. unfold reconcileLoaded. apply wp_get_bind.
  rewrite Hdel, Hfin.
  eapply wp_seq; [apply (finalizeAccount_gate_closed acc Hgate) | |].
  - intros ? ? ? ([= ->] & -> & ->). cbv beta. cbn [isErr].
    unfold setMeta, Update. wp_run. cbn [acc_meta acc_status app].
    split; [reflexivity|]. split; [reflexivity|].
    apply RemoveFinalizer_gone.
  - intros ? ? (H & _). discriminate H.
Qed.

End Finalization.

(** C4.  For every Account: if the JWT-secret-ready condition or
    the JWT-pushed condition is not True, finalization returns success without
    any request at all, and Reconcile of the deletion-marked Account goes on
    to remove the finalizer, so that the deletion proceeds.  In every case at
    most one delete is sent to the remote authority, through the open gate
    only and for the public key recorded on the Account.  If both conditions
    are True and the resolved Operator, its key pair and seed, its system
    account, its connection options and the connection itself are all
    obtained, the delete for the public key of the Account is sent exactly
    once.  A not-found result for the Operator or for its system account is a
    success with no call to the remote authority. *)
Theorem finalizeAccount_gating :
  forall (E : Env) (acc : Account),
    let r := AccountReconciler.finalizeAccount E acc in
    (gateOpen acc = false -> out r = Some None /\ log r = [] /\ obj r = acc) /\
    (gateOpen acc = false ->
     IsZero (DeletionTimestamp (acc_meta acc)) = false ->
     ContainsFinalizer (acc_meta acc) AccountFinalizer = true ->
     let r' := AccountReconciler.reconcileLoaded E acc in
     log r' = [CUpdateObject (Finalizers (RemoveFinalizer (acc_meta acc) AccountFinalizer))] /\
     ContainsFinalizer (acc_meta (obj r')) AccountFinalizer = false) /\
    (deletes (log r) = [] \/
     exists kp, gateOpen acc = true /\ acc_KeyPair (acc_status acc) = Some kp /\
                deletes (log r) = [CDelete (PublicKey kp)]) /\
    (forall operator operatorKP sysSeed opts kp,
        gateOpen acc = true ->
        operatorLoaded E acc operator operatorKP ->
        SysAccountLoader_Load E (Some operator) = Some (Ok sysSeed) ->
        out (AccountReconciler.getNATSOptions E operator acc) = Some (Ok opts) ->
        nsc_Connect E (AccountServerURL (op_spec operator)) operatorKP sysSeed opts = None ->
        acc_KeyPair (acc_status acc) = Some kp ->
        out r = Some (nsc_Delete E (PublicKey kp)) /\
        remoteCalls (log r) = [CConnect (AccountServerURL (op_spec operator));
                               CDelete (PublicKey kp); CClose]) /\
    (forall ref e,
        gateOpen acc = true ->
        OperatorRef (acc_status acc) = Some ref ->
        Operators_Get E (iref_Namespace ref) (iref_Name ref) = Err e ->
        IsNotFound e = true ->
        out r = Some None /\ remoteCalls (log r) = []) /\
    (forall operator operatorKP e,
        gateOpen acc = true ->
        operatorLoaded E acc operator operatorKP ->
        SysAccountLoader_Load E (Some operator) = Some (Err e) ->
        IsNotFound e = true ->
        out r = Some None /\ remoteCalls (log r) = []).
Proof.
  intros E acc r.
  split; [|split; [|split; [|split; [|split]]]].
  - intros Hgate. pose proof (finalizeAccount_gate_closed E acc Hgate) as H.
    unfold wp in H. fold r in H. tauto.
  - intros Hgate Hdel Hfin r'.
    pose proof (reconcileLoaded_skips_finalization E acc Hdel Hfin Hgate) as H.
    unfold wp in H. fold r' in H. tauto.
  - exact (finalizeAccount_deletes E acc).
  - intros operator operatorKP sysSeed opts kp Hgate Hop Hload Hnats Hconn Hkp.
    pose proof (finalizeAccount_revokes E acc operator operatorKP sysSeed opts kp
                  Hgate Hop Hload Hnats Hconn Hkp) as H.
    unfold wp in H. fold r in H. tauto.
  - intros ref e Hgate Href Hget Hnf.
    pose proof (finalizeAccount_operator_gone E acc ref e Hgate Href Hget Hnf) as H.
    unfold wp in H. fold r in H. tauto.
  - intros operator operatorKP e Hgate Hop Hload Hnf.
    pose proof (finalizeAccount_system_account_gone E acc operator operatorKP e
                  Hgate Hop Hload Hnf) as H.
    unfold wp in H. fold r in H. tauto.
Qed.

(** The account of the demo cluster, marked for deletion, with both
    conditions True and the account server reachable: one delete. *)
Lemma finalizeAccount_gating_witness :
  let E := Demo.env Demo.deleting in
  let r := AccountReconciler.finalizeAccount E Demo.deletedAcct in
  operatorLoaded E Demo.deletedAcct Demo.op (mkNKey "SOop") /\
  out r = Some None /\
  remoteCalls (log r) = [CConnect "nats://accounts"; CDelete "Aacct"; CClose].
Proof.
  cbv zeta.
  assert (Hop : operatorLoaded (Demo.env Demo.deleting) Demo.deletedAcct Demo.op
                  (mkNKey "SOop")).
  { exists (mkInferredRef "nats" "op"), (mkKeyPair "Oop" "op-seed"), Demo.opSeed, "SOop".
    repeat split. }
  split; [exact Hop|].
  exact (proj1 (proj2 (proj2 (proj2
           (finalizeAccount_gating (Demo.env Demo.deleting) Demo.deletedAcct))))
           Demo.op (mkNKey "SOop") (mkNKey "SAsys") [] (mkKeyPair "Aacct" "acct-seed")
           eq_refl Hop eq_refl eq_refl eq_refl eq_refl).
Defined.

(** The account server cannot be reached: both
    conditions are True, the Operator and its system account exist, and yet
    no delete is sent; finalization returns the connection error. *)
Lemma finalizeAccount_counterexample :
  let E := Demo.env Demo.unreachable in
  let r := AccountReconciler.finalizeAccount E Demo.deletedAcct in
  gateOpen Demo.deletedAcct = true /\
  Operators_Get E "nats" "op" = Ok Demo.op /\
  SysAccountLoader_Load E (Some Demo.op) = Some (Ok (mkNKey "SAsys")) /\
  deletes (log r) = [] /\
  out r = Some (Some Demo.connectionRefused).
Proof. vm_compute. repeat split. Qed.

(** When the account server is reached, the same Account is revoked once. *)
Example finalizeAccount_revokes_once :
  let E := Demo.env Demo.deleting in
  let r := AccountReconciler.finalizeAccount E Demo.deletedAcct in
  log r = [CGetOperator "nats" "op"; CGetSecret "nats" "op-seed";
           CLoadSystemAccount "nats" "op"; CConnect "nats://accounts";
           CDelete "Aacct"; CClose].
Proof. vm_compute. reflexivity. Qed.


(* ===================================================================== *)
(** * A seed that does not decode to the recorded public key *)
(* ===================================================================== *)

Section SeedMismatch.
Variable E : Env.

(** The Account controller compares the issuer's seed with the issuer's
    recorded public key, and fails the issuer condition without an error. *)
Lemma account_loadIssuerSeed_mismatch (acc : Account) issuer keyPair secret seed rest kp pk :
  GetKeyPair issuer = Some keyPair ->
  Secrets_Get E (GetNamespace issuer) (SeedSecretName keyPair) = Ok secret ->
  Data secret !! NatsSecretSeedKey = Some seed ->
  nkeys_DecodeSeed E seed = Ok (PrefixByteOperator, rest) ->
  nkeys_FromSeed E seed = Ok kp ->
  kp_PublicKey E kp = Ok pk ->
  pk <> PublicKey keyPair ->
  wp (AccountReconciler.loadIssuerSeed E issuer) acc (fun a o l =>
    a = Some (None, false, None) /\
    l = [CGetSecret (GetNamespace issuer) (SeedSecretName keyPair)] /\
    (exists msg,
        GetCondition ConditionIssuerResolved (acc_Conditions (acc_status o))
        = Some (mkCondition ConditionIssuerResolved ConditionFalse
                  (Some ReasonPublicKeyMismatch) msg)) /\
    IsReady (acc_Conditions (acc_status o)) = false /\
    acc_KeyPair (acc_status o) = acc_KeyPair (acc_status acc)).
Proof.
  intros Hkp Hget Hdata Hdec Hfrom Hpk Hne.
  unfold AccountReconciler.loadIssuerSeed. rewrite Hkp.
  unfold CoreV1_Secrets_Get. apply wp_call_bind. rewrite Hget, Hdata, Hdec.
  rewrite bool_decide_eq_true_2 by reflexivity. cbn [negb]. rewrite Hfrom, Hpk.
  rewrite bool_decide_eq_false_2 by exact Hne. cbn [negb].
  unfold AccountReconciler.mark. wp_run. cbn.
  split; [reflexivity|]. split; [reflexivity|]. split; [|split; [|reflexivity]].
  - eexists. apply markFalse_get. discriminate.
  - apply markFalse_not_ready.
Qed.

(** The base controller, used for a User, makes the same comparison but
    hands the condition error back with handled = false. *)
Lemma base_loadIssuerSeed_mismatch {O} (o : O) issuer wantPrefix keyPair secret seed rest kp pk :
  GetKeyPair issuer = Some keyPair ->
  Secrets_Get E (GetNamespace issuer) (SeedSecretName keyPair) = Ok secret ->
  Data secret !! NatsSecretSeedKey = Some seed ->
  nkeys_DecodeSeed E seed = Ok (wantPrefix, rest) ->
  nkeys_FromSeed E seed = Ok kp ->
  kp_PublicKey E kp = Ok pk ->
  pk <> PublicKey keyPair ->
  wp (loadIssuerSeed E issuer wantPrefix) o (fun a o' l =>
    (exists msg, a = Some (None, false, Some (ConditionFailed ReasonPublicKeyMismatch msg))) /\
    o' = o /\ l = [CGetSecret (GetNamespace issuer) (SeedSecretName keyPair)]).
Proof.
  intros Hkp Hget Hdata Hdec Hfrom Hpk Hne.
  unfold loadIssuerSeed. rewrite Hkp.
  unfold CoreV1_Secrets_Get. apply wp_call_bind. rewrite Hget, Hdata, Hdec.
  rewrite bool_decide_eq_true_2 by reflexivity. cbn [negb]. rewrite Hfrom, Hpk.
  rewrite bool_decide_eq_false_2 by exact Hne. cbn [negb].
  wp_run. split; [eexists; reflexivity|]. split; reflexivity.
Qed.

(** The own seed of an Account is not compared with the status: the key it
    decodes to is recorded. *)
Lemma account_own_seed_recorded (acc : Account) got seed kp want :
  Data got !! NatsSecretSeedKey = Some seed ->
  nkeys_FromSeed E seed = Ok kp ->
  KeyPairSecretBuilder_Build E (Some got) (ObjAccount acc) kp = Ok want ->
  got = want \/ Client_Update E want = None ->
  wp (AccountReconciler.ensureSeedSecretUpToDate E got) acc (fun a o l =>
    a = Some (true, None) /\
    acc_KeyPair (acc_status o)
      = Some (mkKeyPair (orEmpty (kp_PublicKey E kp)) (sec_Name want)) /\
    holds KeyPairableConditionSeedSecretReady (acc_Conditions (acc_status o))).
Proof.
  intros Hdata Hfrom Hbuild Hwrite.
  unfold AccountReconciler.ensureSeedSecretUpToDate. apply wp_get_bind.
  rewrite Hdata, Hfrom, Hbuild. unfold AccountReconciler.mark, Eventf.
  destruct (bool_decide (got = want)) eqn:Heq; cbn [negb].
  - wp_run. cbn. split; [reflexivity|]. split; [reflexivity|].
    apply markTrue_get. discriminate.
  - destruct Hwrite as [Hsame|Hupd].
    + apply bool_decide_eq_false in Heq. contradiction.
    + apply wp_bind_assoc. apply wp_call_bind. rewrite Hupd.
      wp_run. cbn. split; [reflexivity|]. split; [reflexivity|].
      apply markTrue_get. discriminate.
Qed.

(** Nor is the own seed of a User. *)
Lemma user_own_seed_recorded (usr : User) got seed kp want :
  Secrets_Get E (Namespace (usr_meta usr)) (usr_SeedSecretName (usr_spec usr)) = Ok got ->
  Data got !! NatsSecretSeedKey = Some seed ->
  nkeys_FromSeed E seed = Ok kp ->
  KeyPairSecretBuilder_Build E (Some got) (ObjUser usr) kp = Ok want ->
  got = want \/ Client_Update E want = None ->
  wp (UserReconciler.reconcileSeedSecret E) usr (fun a o l =>
    a = Some (Some (orEmpty (kp_Seed E kp)), true, None) /\
    usr_KeyPair (usr_status o)
      = Some (mkKeyPair (orEmpty (kp_PublicKey E kp)) (usr_SeedSecretName (usr_spec usr))) /\
    holds KeyPairableConditionSeedSecretReady (usr_Conditions (usr_status o))).
Proof.
  intros Hget Hdata Hfrom Hbuild Hwrite.
  unfold UserReconciler.reconcileSeedSecret. apply wp_get_bind.
  unfold CoreV1_Secrets_Get. apply wp_call_bind. rewrite Hget.
  unfold ensureSeedSecretUpToDate. rewrite Hdata, Hfrom, Hbuild.
  unfold UserReconciler.mark, Eventf.
  destruct (bool_decide (got = want)) eqn:Heq; cbn [negb].
  - wp_run. cbn. split; [reflexivity|]. split; [reflexivity|].
    apply markTrue_get. discriminate.
  - destruct Hwrite as [Hsame|Hupd].
    + apply bool_decide_eq_false in Heq. contradiction.
    + apply wp_bind_assoc. apply wp_call_bind. rewrite Hupd.
      wp_run. cbn. split; [reflexivity|]. split; [reflexivity|].
      apply markTrue_get. discriminate.
Qed.

End SeedMismatch.

(** C6.  A stored seed is compared with a recorded public key
    only when an issuer's seed is loaded for signing.  When the seed of the
    issuer of an Account decodes to a public key other than the one recorded
    in the issuer's status, the Account controller marks the issuer-resolved
    condition False with reason PublicKeyMismatch (Ready turns False), hands
    back no error, requests nothing but the read of the seed secret and leaves
    the recorded key pair alone.  The own seed of an Account or a User is not
    compared with the status: once the seed secret is as desired (or its
    update is accepted), the public key the seed decodes to is recorded in the
    status, whatever was recorded before, and the seed condition is True. *)
Theorem seed_public_key_mismatch :
  forall (E : Env),
    (forall acc issuer keyPair secret seed rest kp pk,
        GetKeyPair issuer = Some keyPair ->
        Secrets_Get E (GetNamespace issuer) (SeedSecretName keyPair) = Ok secret ->
        Data secret !! NatsSecretSeedKey = Some seed ->
        nkeys_DecodeSeed E seed = Ok (PrefixByteOperator, rest) ->
        nkeys_FromSeed E seed = Ok kp ->
        kp_PublicKey E kp = Ok pk ->
        pk <> PublicKey keyPair ->
        let r := AccountReconciler.loadIssuerSeed E issuer acc in
        out r = Some (None, false, None) /\
        log r = [CGetSecret (GetNamespace issuer) (SeedSecretName keyPair)] /\
        (exists msg,
            GetCondition ConditionIssuerResolved (acc_Conditions (acc_status (obj r)))
            = Some (mkCondition ConditionIssuerResolved ConditionFalse
                      (Some ReasonPublicKeyMismatch) msg)) /\
        IsReady (acc_Conditions (acc_status (obj r))) = false /\
        acc_KeyPair (acc_status (obj r)) = acc_KeyPair (acc_status acc)) /\
    (forall acc got seed kp want,
        Data got !! NatsSecretSeedKey = Some seed ->
        nkeys_FromSeed E seed = Ok kp ->
        KeyPairSecretBuilder_Build E (Some got) (ObjAccount acc) kp = Ok want ->
        got = want \/ Client_Update E want = None ->
        let r := AccountReconciler.ensureSeedSecretUpToDate E got acc in
        out r = Some (true, None) /\
        acc_KeyPair (acc_status (obj r))
          = Some (mkKeyPair (orEmpty (kp_PublicKey E kp)) (sec_Name want)) /\
        holds KeyPairableConditionSeedSecretReady (acc_Conditions (acc_status (obj r)))) /\
    (forall usr got seed kp want,
        Secrets_Get E (Namespace (usr_meta usr)) (usr_SeedSecretName (usr_spec usr)) = Ok got ->
        Data got !! NatsSecretSeedKey = Some seed ->
        nkeys_FromSeed E seed = Ok kp ->
        KeyPairSecretBuilder_Build E (Some got) (ObjUser usr) kp = Ok want ->
        got = want \/ Client_Update E want = None ->
        let r := UserReconciler.reconcileSeedSecret E usr in
        out r = Some (Some (orEmpty (kp_Seed E kp)), true, None) /\
        usr_KeyPair (usr_status (obj r))
          = Some (mkKeyPair (orEmpty (kp_PublicKey E kp)) (usr_SeedSecretName (usr_spec usr))) /\
        holds KeyPairableConditionSeedSecretReady (usr_Conditions (usr_status (obj r)))).
Proof.
  intros E. split; [|split].
  - intros acc issuer keyPair secret seed rest kp pk H1 H2 H3 H4 H5 H6 H7 r.
    exact (account_loadIssuerSeed_mismatch E acc issuer keyPair secret seed rest kp pk
             H1 H2 H3 H4 H5 H6 H7).
  - intros acc got seed kp want H1 H2 H3 H4 r.
    exact (account_own_seed_recorded E acc got seed kp want H1 H2 H3 H4).
  - intros usr got seed kp want H1 H2 H3 H4 H5 r.
    exact (user_own_seed_recorded E usr got seed kp want H1 H2 H3 H4 H5).
Qed.

(** The operator of the demo cluster with the public key Oother recorded,
    while its seed decodes to Oop. *)
Lemma seed_public_key_mismatch_witness :
  let E := Demo.env Demo.driftedIssuer in
  let r := AccountReconciler.loadIssuerSeed E (KPOperator Demo.driftedOp) Demo.acct in
  out r = Some (None, false, None) /\
  log r = [CGetSecret "nats" "op-seed"] /\
  IsReady (acc_Conditions (acc_status (obj r))) = false /\
  acc_KeyPair (acc_status (obj r)) = Some (mkKeyPair "Aacct" "acct-seed").
Proof.
  cbv zeta.
  assert (Hne : "Oop" <> PublicKey (mkKeyPair "Oother" "op-seed")) by discriminate.
  destruct (proj1 (seed_public_key_mismatch (Demo.env Demo.driftedIssuer))
              Demo.acct (KPOperator Demo.driftedOp) (mkKeyPair "Oother" "op-seed")
              Demo.opSeed "SOop" "op" (mkNKey "SOop") "Oop"
              eq_refl eq_refl eq_refl eq_refl eq_refl eq_refl Hne)
    as (Ho & Hl & _ & Hr & Hk).
  split; [exact Ho|]. split; [exact Hl|]. split; [exact Hr | exact Hk].
Defined.

(** The own seed of a resource is not compared: the status of the
    account records the public key Aother, its seed secret decodes to Aacct,
    and one pass ends without an error, with Aacct written over the recorded
    key and the account ready. *)
Lemma seed_public_key_mismatch_counterexample :
  let E := Demo.env Demo.drifted in
  let r := AccountReconciler.Reconcile E ("nats", "acct") in
  acc_KeyPair (acc_status Demo.driftedAcct) = Some (mkKeyPair "Aother" "acct-seed") /\
  Secrets_Get E "nats" "acct-seed" = Ok Demo.acctSeed /\
  Demo.publicKey (mkNKey "SAacct") = Ok "Aacct" /\
  out r = Some None /\
  option_map (fun a => acc_KeyPair (acc_status a)) (obj r)
    = Some (Some (mkKeyPair "Aacct" "acct-seed")) /\
  option_map (fun a => IsReady (acc_Conditions (acc_status a))) (obj r) = Some true /\
  In CUpdateStatus (log r).
Proof. vm_compute. repeat split. auto 20. Qed.

(** The issuer side on the demo cluster: the status of the operator records
    Oother while its seed decodes to Oop; the pass of the account ends without
    an error, with the issuer condition failed and nothing written but the
    status. *)
Example issuer_seed_mismatch_absorbed :
  let E := Demo.env Demo.driftedIssuer in
  let r := AccountReconciler.Reconcile E ("nats", "acct") in
  out r = Some None /\
  secretWrites (log r) = [] /\ remoteCalls (log r) = [] /\
  option_map (fun a => IsReady (acc_Conditions (acc_status a))) (obj r) = Some false.
Proof. vm_compute. repeat split. Qed.


(* ===================================================================== *)
(** * The seed secret is created once *)
(* ===================================================================== *)

Section SeedLifecycle.
Variable E : Env.

(** A key pair is generated by the User controller only after the API
    server answered not-found for the seed secret. *)
Lemma user_pipeline_generates (usr0 : User) :
  guarded (sameUser usr0) isGenerateKeyPair
    (fun _ => secretAbsent E (Namespace (usr_meta usr0)) (usr_SeedSecretName (usr_spec usr0)))
    (UserReconciler.pipeline E).
Proof.
  unfold UserReconciler.pipeline, UserReconciler.reconcileSeedSecret,
    UserReconciler.createSeedSecret, ensureSeedSecretUpToDate,
    UserReconciler.issuerUnresolved, resolveIssuer, Client_Get,
    UserReconciler.resolveAccount, resolveSigningKeyOwner,
    UserReconciler.reconcileJWTSecret, loadIssuerSeed,
    UserReconciler.createJWTSecret, UserReconciler.ensureJWTSecretUpToDate,
    UserReconciler.reconcileUserCredentialSecret,
    UserReconciler.createCredentialsSecret,
    UserReconciler.ensureCredentialsSecretUpToDate,
    UserReconciler.mark, Eventf, CoreV1_Secrets_Get, Client_Get.
  guard_run; try (simpl; discriminate); try keeps.
  all: intros _;
    match goal with
    | H : sameUser _ _, He : Secrets_Get _ _ _ = Err ?e |- _ =>
        destruct H as [Hm Hs]; rewrite Hm, Hs in He; exists e; split; assumption
    end.
Qed.

Lemma account_pipeline_generates (acc0 : Account) :
  guarded (sameAccount acc0) isGenerateKeyPair
    (fun _ => secretAbsent E (Namespace (acc_meta acc0)) (acc_SeedSecretName (acc_spec acc0)))
    (AccountReconciler.reconcileLoaded E).
Proof.
  unfold AccountReconciler.reconcileLoaded, AccountReconciler.pipeline,
    AccountReconciler.finalizeAccount, AccountReconciler.Update, AccountReconciler.setMeta,
    AccountReconciler.reconcileSeedSecret, AccountReconciler.createSeedSecret,
    AccountReconciler.ensureSeedSecretUpToDate,
    AccountReconciler.issuerUnresolved, resolveIssuer,
    AccountReconciler.resolveOperator, resolveSigningKeyOwner, Client_Get,
    AccountReconciler.ensureSigningKeysUpdated, AccountReconciler.loadIssuerSeed,
    AccountReconciler.reconcileJWTSecret, AccountReconciler.createJWTSecret,
    AccountReconciler.ensureJWTSecretUpToDate, AccountReconciler.publication,
    AccountReconciler.ensureJWTPushed, AccountReconciler.getNATSOptions,
    AccountReconciler.loadCAFile, AccountReconciler.Load,
    AccountReconciler.mark, Eventf, CoreV1_Secrets_Get.
  guard_run; try (simpl; discriminate); try keeps.
  all: try (intros _;
    match goal with
    | H : sameAccount _ _, He : Secrets_Get _ _ _ = Err ?e |- _ =>
        destruct H as (Hns & _ & _ & Hs); rewrite Hns, Hs in He; exists e; split; assumption
    end).
  all: first [ apply sameAccount_AddFinalizer | apply sameAccount_RemoveFinalizer ].
Qed.

(** An existing seed secret is written back, if at all, as rebuilt from
    itself and from the key pair its seed decodes to. *)
Lemma account_seed_repaired (acc : Account) (got : Secret) :
  Secrets_Get E (Namespace (acc_meta acc)) (acc_SeedSecretName (acc_spec acc)) = Ok got ->
  wp (AccountReconciler.reconcileSeedSecret E) acc (fun _ _ l =>
    quiet isGenerateKeyPair l /\ repairedOnly E (ObjAccount acc) got l).
Proof.
  intros Hget. unfold AccountReconciler.reconcileSeedSecret. apply wp_get_bind.
  unfold CoreV1_Secrets_Get. apply wp_call_bind. rewrite Hget.
  unfold AccountReconciler.ensureSeedSecretUpToDate, AccountReconciler.mark, Eventf.
  wp_run; (split; [quiet_tac|]); try (left; reflexivity).
  all: right; eexists _, _, _; repeat split; try eassumption;
    match goal with
    | H : negb (bool_decide (_ = _)) = true |- _ =>
        apply negb_true_iff, bool_decide_eq_false in H; exact H
    end.
Qed.

Lemma user_seed_repaired (usr : User) (got : Secret) :
  Secrets_Get E (Namespace (usr_meta usr)) (usr_SeedSecretName (usr_spec usr)) = Ok got ->
  wp (UserReconciler.reconcileSeedSecret E) usr (fun _ _ l =>
    quiet isGenerateKeyPair l /\ repairedOnly E (ObjUser usr) got l).
Proof.
  intros Hget. unfold UserReconciler.reconcileSeedSecret. apply wp_get_bind.
  unfold CoreV1_Secrets_Get. apply wp_call_bind. rewrite Hget.
  unfold ensureSeedSecretUpToDate, UserReconciler.mark, Eventf.
  wp_run; (split; [quiet_tac|]); try (left; reflexivity).
  all: right; eexists _, _, _; repeat split; try eassumption;
    match goal with
    | H : negb (bool_decide (_ = _)) = true |- _ =>
        apply negb_true_iff, bool_decide_eq_false in H; exact H
    end.
Qed.

End SeedLifecycle.

(** C8.  In the current Account and User controllers a key pair is generated
    during a pass of Reconcile only when the API server answered not-found
    for the seed secret of the resource; and when the seed secret exists, the
    seed step generates nothing and writes the secret back, if at all, as the
    key-pair builder rebuilds it from the existing secret and the key pair
    its own seed decodes to.  Neither depends on the JWT or credentials
    secrets being there. *)
Theorem seed_secret_never_recreated :
  forall (E : Env) (req : string * string),
    (forall usr c,
        Get_User E (fst req) (snd req) = Ok usr ->
        In c (log (UserReconciler.Reconcile E req)) -> isGenerateKeyPair c = true ->
        secretAbsent E (Namespace (usr_meta usr)) (usr_SeedSecretName (usr_spec usr))) /\
    (forall acc c,
        Get_Account E (fst req) (snd req) = Ok acc ->
        In c (log (AccountReconciler.Reconcile E req)) -> isGenerateKeyPair c = true ->
        secretAbsent E (Namespace (acc_meta acc)) (acc_SeedSecretName (acc_spec acc))) /\
    (forall usr got,
        Secrets_Get E (Namespace (usr_meta usr)) (usr_SeedSecretName (usr_spec usr)) = Ok got ->
        let r := UserReconciler.reconcileSeedSecret E usr in
        quiet isGenerateKeyPair (log r) /\ repairedOnly E (ObjUser usr) got (log r)) /\
    (forall acc got,
        Secrets_Get E (Namespace (acc_meta acc)) (acc_SeedSecretName (acc_spec acc)) = Ok got ->
        let r := AccountReconciler.reconcileSeedSecret E acc in
        quiet isGenerateKeyPair (log r) /\ repairedOnly E (ObjAccount acc) got (log r)).
Proof.
  intros E req. split; [|split; [|split]].
  - intros usr c Hget Hin Hc.
    refine (user_Reconcile_allowed E (sameUser usr) isGenerateKeyPair _ req usr Hget _
              (user_pipeline_generates E usr) _ eq_refl eq_refl c Hin Hc).
    + split; reflexivity.
    + intros o H. exact H.
  - intros acc c Hget Hin Hc.
    refine (account_Reconcile_allowed E (sameAccount acc) isGenerateKeyPair _ req acc Hget _
              (account_pipeline_generates E acc) _ eq_refl eq_refl c Hin Hc).
    + repeat split.
    + intros o H. exact H.
  - intros usr got Hget r. exact (user_seed_repaired E usr got Hget).
  - intros acc got Hget r. exact (account_seed_repaired E acc got Hget).
Qed.

(** The user of the demo cluster on its first pass, when a key pair is
    generated, and on a pass that finds its seed secret. *)
Lemma seed_secret_never_recreated_witness :
  secretAbsent (Demo.env Demo.unseeded) "nats" "usr-seed" /\
  (let r := UserReconciler.reconcileSeedSecret (Demo.env Demo.siblingsMissing) Demo.usr in
   quiet isGenerateKeyPair (log r) /\
   repairedOnly (Demo.env Demo.siblingsMissing) (ObjUser Demo.usr) Demo.usrSeed (log r)).
Proof.
  split.
  - refine (proj1 (seed_secret_never_recreated (Demo.env Demo.unseeded) ("nats", "usr"))
              Demo.usr (CGenerateKeyPair PrefixByteUser) eq_refl _ eq_refl).
    vm_compute. auto 20.
  - exact (proj1 (proj2 (proj2
             (seed_secret_never_recreated (Demo.env Demo.siblingsMissing) ("nats", "usr"))))
             Demo.usr Demo.usrSeed eq_refl).
Defined.

(** The user of the demo cluster with its seed secret in place and its JWT
    and credentials secrets missing: both are created, no key pair is
    generated and the seed secret is not written; the pass ends with the
    update of the status. *)
Example user_siblings_recreated_seed_kept :
  log (UserReconciler.Reconcile (Demo.env Demo.siblingsMissing) ("nats", "usr"))
  = [CGet UserKind "nats" "usr"; CGetSecret "nats" "usr-seed";
     CGet AccountKind "nats" "acct"; CGetSecret "nats" "acct-seed";
     CGetSecret "nats" "usr-jwt";
     CCreateSecret (mkSecret "nats" "usr-jwt"
                      {[ NatsSecretJWTKey := "fresh:usr|permissions|Aacct" ]}
                      true (Some "uid-usr"));
     CEvent "Normal" "JWTSecretCreated" "created secret: nats/usr-jwt";
     CGetSecret "nats" "usr-creds";
     CCreateSecret (mkSecret "nats" "usr-creds"
                      {[ NatsSecretCredsKey := "fresh:usr|permissions|Aacct/SUusr" ]}
                      false (Some "uid-usr"));
     CEvent "Normal" "CredentialsSecretCreated" "created secret: nats/usr-creds";
     CUpdateStatus].
Proof. vm_compute. reflexivity. Qed.

(** The superseded User controller on the same cluster: with a sibling
    secret missing it generates a new key pair and writes its seed over the
    existing seed secret. *)
Example superseded_user_regenerates_seed :
  let r := Superseded.UserReconciler.ensureCredsSecrets (Demo.env Demo.siblingsMissing)
             (mkKeyPair "Aacct" "acct-seed") Demo.usrExplicit in
  In (CGenerateKeyPair PrefixByteUser) (log r) /\
  In (CUpdateSecret (mkSecret "nats" "usr-seed"
                       (<[ NatsSecretSeedKey := "SUnew" ]> {[ NatsSecretPublicKeyKey := "Unew" ]})
                       true (Some "uid-usr"))) (log r).
Proof. vm_compute. split; auto 20. Qed.


(** C9.  The system-account test of the superseded Account controller fails
    closed.  It returns true when the operator-resolved condition of the
    Account is not True, when fetching the Operator returns any error (the
    error is returned with it), and when the system-account-resolved
    condition of the Operator is not True.  It returns false only with no
    error, when the Operator was fetched and the name or the namespace of its
    resolved system account differs from the Account's.  Unless the test
    returned false and no error, neither caller sends a token to the account
    server. *)
Theorem isSystemAccount_fails_closed :
  forall (E : Env) (acc : Account),
    let r := Superseded.AccountReconciler.isSystemAccount E acc in
    let resolved := IsTrue (GetCondition AccountConditionOperatorResolved
                              (acc_Conditions (acc_status acc))) in
    (resolved = false -> out r = Some (true, None)) /\
    (forall ref e,
        resolved = true -> OperatorRef (acc_status acc) = Some ref ->
        Operators_Get E (iref_Namespace ref) (iref_Name ref) = Err e ->
        out r = Some (true, Some e)) /\
    (forall ref operator,
        resolved = true -> OperatorRef (acc_status acc) = Some ref ->
        Operators_Get E (iref_Namespace ref) (iref_Name ref) = Ok operator ->
        IsTrue (GetCondition OperatorConditionSystemAccountResolved
                  (op_Conditions (op_status operator))) = false ->
        out r = Some (true, None)) /\
    (forall err,
        out r = Some (false, err) ->
        err = None /\
        exists ref operator sysAcc,
          OperatorRef (acc_status acc) = Some ref /\
          Operators_Get E (iref_Namespace ref) (iref_Name ref) = Ok operator /\
          ResolvedSystemAccount (op_status operator) = Some sysAcc /\
          (Name (acc_meta acc) <> iref_Name sysAcc \/
           Namespace (acc_meta acc) <> iref_Namespace sysAcc)) /\
    (forall sKeys opSkey,
        out r <> Some (false, None) ->
        noPush (log (Superseded.AccountReconciler.ensureSeedJWTSecrets E sKeys opSkey acc))) /\
    (forall operatorSeed jwtSecret sKeys,
        out r <> Some (false, None) ->
        noPush (log (Superseded.AccountReconciler.updateAccountJWTSigningKeys
                       E operatorSeed jwtSecret sKeys acc))).
Proof.
  intros E acc r resolved.
  split; [|split; [|split; [|split; [|split]]]].
  - intros H. subst r resolved. unfold Superseded.AccountReconciler.isSystemAccount.
    unfold bind, get; simpl. rewrite H. reflexivity.
  - intros ref e H Href Hget. subst r resolved.
    unfold Superseded.AccountReconciler.isSystemAccount.
    unfold bind, get, call; simpl. rewrite H, Href. simpl. rewrite Hget. reflexivity.
  - intros ref operator H Href Hget Hsys. subst r resolved.
    unfold Superseded.AccountReconciler.isSystemAccount.
    unfold bind, get, call; simpl. rewrite H, Href. simpl. rewrite Hget. simpl.
    rewrite Hsys. reflexivity.
  - intros err. subst r resolved.
    unfold Superseded.AccountReconciler.isSystemAccount.
    unfold bind, get, call; simpl.
    destruct (IsTrue (GetCondition AccountConditionOperatorResolved _)); simpl;
      [|discriminate].
    destruct (OperatorRef (acc_status acc)) as [ref|]; simpl; [|discriminate].
    destruct (Operators_Get E _ _) as [operator|e] eqn:Hget; simpl; [|discriminate].
    destruct (IsTrue (GetCondition OperatorConditionSystemAccountResolved _)); simpl;
      [|discriminate].
    destruct (ResolvedSystemAccount (op_status operator)) as [sysAcc|] eqn:Hsys;
      simpl; [|discriminate].
    destruct (bool_decide (Name (acc_meta acc) = iref_Name sysAcc)) eqn:Hn;
      destruct (bool_decide (Namespace (acc_meta acc) = iref_Namespace sysAcc)) eqn:Hns;
      simpl; try discriminate; intros [= <-]; (split; [reflexivity|]);
      exists ref, operator, sysAcc; repeat split; auto.
    + right. apply bool_decide_eq_false in Hns. exact Hns.
    + left. apply bool_decide_eq_false in Hn. exact Hn.
    + left. apply bool_decide_eq_false in Hn. exact Hn.
  - intros sKeys opSkey Hne.
    destruct (SupersededFacts.ensureSeedJWTSecrets_push E acc sKeys opSkey) as [H|H];
      [exact H | contradiction].
  - intros operatorSeed jwtSecret sKeys Hne.
    destruct (SupersededFacts.updateAccountJWTSigningKeys_push E acc operatorSeed jwtSecret sKeys)
      as [H|H]; [exact H | contradiction].
Qed.

(** An account with no operator resolved is taken for the system account;
    the account of the demo cluster, whose operator names sys, is not. *)
Lemma isSystemAccount_fails_closed_witness :
  out (Superseded.AccountReconciler.isSystemAccount (Demo.env Demo.converged)
         Demo.unresolvedAcct) = Some (true, None) /\
  exists ref operator sysAcc,
    OperatorRef (acc_status Demo.acct) = Some ref /\
    Operators_Get (Demo.env Demo.converged) (iref_Namespace ref) (iref_Name ref)
      = Ok operator /\
    ResolvedSystemAccount (op_status operator) = Some sysAcc /\
    (Name (acc_meta Demo.acct) <> iref_Name sysAcc \/
     Namespace (acc_meta Demo.acct) <> iref_Namespace sysAcc).
Proof.
  split.
  - exact (proj1 (isSystemAccount_fails_closed (Demo.env Demo.converged) Demo.unresolvedAcct)
             eq_refl).
  - exact (proj2 (proj1 (proj2 (proj2 (proj2
             (isSystemAccount_fails_closed (Demo.env Demo.converged) Demo.acct))))
             None eq_refl)).
Defined.


(* ===================================================================== *)
(** * The deletion branch of the Account controller *)
(* ===================================================================== *)

Section Deletion.
Variable E : Env.
Import AccountReconciler.

Lemma finalizeAccount_guarded (acc0 : Account) :
  guarded (beingDeleted acc0) pipelineCall never (finalizeAccount E).
Proof.
  unfold finalizeAccount, getNATSOptions, loadCAFile, Load, CoreV1_Secrets_Get, mark.
  guard_run; try (simpl; discriminate); try keeps.
Qed.

Lemma reconcileLoaded_guarded (acc0 : Account) :
  guarded (beingDeleted acc0) pipelineCall never (reconcileLoaded E).
Proof.
  unfold reconcileLoaded. apply guarded_bind_get. intros acc [Hrec Hdel].
  rewrite Hdel.
  destruct (ContainsFinalizer (acc_meta acc) AccountFinalizer).
  - apply guarded_bind; [apply finalizeAccount_guarded|]. intros err.
    unfold setMeta, Update.
    guard_run; try (simpl; discriminate); try keeps.
  - apply guarded_ret.
Qed.

Lemma deletion_pass_guarded (acc0 : Account) :
  guarded (beingDeleted acc0) pipelineCall never
    (mark E AccountStatusOps.InitializeConditions;; reconcileLoaded E).
Proof.
  apply guarded_bind; [|intros _; apply reconcileLoaded_guarded].
  unfold mark. apply guarded_modify. keeps.
Qed.

Lemma withDeferredStatusUpdate_log originalStatus body acc :
  exists tail,
    log (withDeferredStatusUpdate E originalStatus body acc) = log (body acc) ++ tail /\
    (tail = [] \/ tail = [CUpdateStatus]) /\
    obj (withDeferredStatusUpdate E originalStatus body acc) = obj (body acc).
Proof.
  unfold withDeferredStatusUpdate.
  destruct (negb (Semantic_DeepEqual _ _)).
  - exists [CUpdateStatus]. simpl. auto.
  - exists []. rewrite app_nil_r. auto.
Qed.

End Deletion.

(** C10.  For every Account whose deletion timestamp is set, one pass of
    Reconcile issues no call of the pipeline: no secret is created or
    updated, the Signing Keys are not listed, no token is pushed and no key
    pair is generated; and the membership, the key pair and the operator
    reference recorded in the status are the ones the pass found.  (A call of
    the pipeline in the log of a pass therefore means that the deletion
    timestamp was zero.) *)
Theorem Reconcile_deletion_branch :
  forall (E : Env) (req : string * string) (acc : Account),
    Get_Account E (fst req) (snd req) = Ok acc ->
    IsZero (DeletionTimestamp (acc_meta acc)) = false ->
    let r := AccountReconciler.Reconcile E req in
    quiet pipelineCall (log r) /\
    exists acc', obj r = Some acc' /\ sameRecords acc acc'.
Proof.
  intros E req acc Hget Hdel r. subst r. unfold AccountReconciler.Reconcile.
  rewrite Hget. cbn [log obj].
  destruct (withDeferredStatusUpdate_log E (acc_status acc)
              (AccountReconciler.mark E AccountStatusOps.InitializeConditions;;
               AccountReconciler.reconcileLoaded E) acc) as (tail & -> & Htail & ->).
  assert (Hstart : beingDeleted acc acc).
  { split; [|exact Hdel]. repeat split. }
  destruct (deletion_pass_guarded E acc acc Hstart) as [[Hrec _] Hlog].
  split.
  - apply quiet_cons; [reflexivity|]. apply quiet_app.
    + apply allowed_quiet. exact Hlog.
    + destruct Htail as [->| ->]; quiet_tac.
  - eexists. split; [reflexivity | exact Hrec].
Qed.

(** The account of the demo cluster, marked for deletion: the pass revokes
    its token and removes the finalizer, and issues no call of the
    pipeline. *)
Lemma Reconcile_deletion_branch_witness :
  let r := AccountReconciler.Reconcile (Demo.env Demo.deleting) ("nats", "acct") in
  quiet pipelineCall (log r) /\
  exists acc', obj r = Some acc' /\ sameRecords Demo.deletedAcct acc'.
Proof.
  exact (Reconcile_deletion_branch (Demo.env Demo.deleting) ("nats", "acct") Demo.deletedAcct
           eq_refl eq_refl).
Defined.

Example Reconcile_deletion_log :
  log (AccountReconciler.Reconcile (Demo.env Demo.deleting) ("nats", "acct"))
  = [CGet AccountKind "nats" "acct"; CGetOperator "nats" "op"; CGetSecret "nats" "op-seed";
     CLoadSystemAccount "nats" "op"; CConnect "nats://accounts"; CDelete "Aacct"; CClose;
     CUpdateObject []; CUpdateStatus].
Proof. vm_compute. reflexivity. Qed.


(* ===================================================================== *)
(** * A pass on a converged resource *)
(* ===================================================================== *)

Lemma quiet_weaken (p q : Call -> bool) l :
  (forall c, p c = true -> q c = true) -> quiet q l -> quiet p l.
Proof.
  intros Hpq Hq. unfold quiet in *. eapply Forall_impl; [exact Hq|].
  intros c Hc. cbv beta in Hc. destruct (p c) eqn:Hp; [|reflexivity].
  rewrite (Hpq c Hp) in Hc. discriminate.
Qed.

Lemma readOnly_quiet (p : Call -> bool) l :
  (forall c, p c = true -> isRead c = false) -> readOnly l -> quiet p l.
Proof.
  intros Hp. apply quiet_weaken. intros c Hc. unfold changes. rewrite (Hp c Hc). reflexivity.
Qed.

Ltac by_kind := let c := fresh "c" in intros c; destruct c; simpl; congruence.

Lemma readOnly_secretWrites l : readOnly l -> secretWrites l = [].
Proof. intros H. apply quiet_filter. revert H. apply readOnly_quiet. by_kind. Qed.

Lemma readOnly_remoteCalls l : readOnly l -> remoteCalls l = [].
Proof. intros H. apply quiet_filter. revert H. apply readOnly_quiet. by_kind. Qed.

Lemma readOnly_then_remote l1 l2 : readOnly l1 -> remoteCalls (l1 ++ l2) = remoteCalls l2.
Proof.
  intros H. unfold remoteCalls. rewrite List.filter_app.
  fold (remoteCalls l1). rewrite (readOnly_remoteCalls _ H). reflexivity.
Qed.

Lemma readOnly_then_writes l1 l2 : readOnly l1 -> secretWrites (l1 ++ l2) = secretWrites l2.
Proof.
  intros H. unfold secretWrites. rewrite List.filter_app.
  fold (secretWrites l1). rewrite (readOnly_secretWrites _ H). reflexivity.
Qed.

Lemma readOnly_statusUpdate l : readOnly l -> quiet isStatusUpdate l.
Proof. apply readOnly_quiet. by_kind. Qed.

Lemma remoteCalls_cons_read c l : isRemoteCall c = false -> remoteCalls (c :: l) = remoteCalls l.
Proof. intros H. unfold remoteCalls. cbn [List.filter]. rewrite H. reflexivity. Qed.

Lemma readOnly_readsButStatus l : readOnly l -> readsButStatus l.
Proof.
  apply quiet_weaken. intros c Hc. unfold besidesStatus in Hc.
  apply andb_true_iff in Hc as [Hc _]. exact Hc.
Qed.

Lemma readsButStatus_secretWrites l : readsButStatus l -> secretWrites l = [].
Proof.
  intros H. apply quiet_filter. revert H. apply quiet_weaken.
  intros c; destruct c; unfold besidesStatus, changes; simpl; congruence.
Qed.

Lemma readsButStatus_remoteCalls l : readsButStatus l -> remoteCalls l = [].
Proof.
  intros H. apply quiet_filter. revert H. apply quiet_weaken.
  intros c; destruct c; unfold besidesStatus, changes; simpl; congruence.
Qed.

Lemma secretWrites_pass c l :
  isSecretWrite c = false -> secretWrites (c :: l ++ [CUpdateStatus]) = secretWrites l.
Proof.
  intros H. unfold secretWrites. cbn [List.filter]. rewrite H, List.filter_app.
  cbn. apply app_nil_r.
Qed.

Lemma remoteCalls_pass c l :
  isRemoteCall c = false -> remoteCalls (c :: l ++ [CUpdateStatus]) = remoteCalls l.
Proof.
  intros H. unfold remoteCalls. cbn [List.filter]. rewrite H, List.filter_app.
  cbn. apply app_nil_r.
Qed.

Lemma multierr_Append_none e1 e2 : multierr_Append e1 e2 = None -> e1 = None.
Proof. destruct e1, e2; simpl; congruence. Qed.

(** What the deferred function adds to the pass of a body that reads. *)
Lemma readsButStatus_pass c l tail :
  isRead c = true -> readOnly l -> (tail = [] \/ tail = [CUpdateStatus]) ->
  readsButStatus (c :: l ++ tail).
Proof.
  intros Hc Hl Ht. apply quiet_cons; [unfold besidesStatus, changes; rewrite Hc; reflexivity|].
  apply quiet_app; [apply readOnly_readsButStatus; exact Hl|].
  destruct Ht as [-> | ->]; [apply quiet_nil|].
  apply quiet_cons; [reflexivity | apply quiet_nil].
Qed.

Lemma readOnly_app l1 l2 : readOnly l1 -> readOnly l2 -> readOnly (l1 ++ l2).
Proof. apply quiet_app. Qed.

Ltac reads := repeat first [ apply quiet_nil | apply quiet_cons; [reflexivity|]
                           | apply quiet_app | assumption ].

(** Statuses that a mark leaves as they are. *)
Lemma mkAccount_id (acc : Account) st :
  st = acc_status acc -> mkAccount (acc_meta acc) (acc_spec acc) st = acc.
Proof. intros ->. destruct acc; reflexivity. Qed.

Lemma mkUser_id (usr : User) st :
  st = usr_status usr -> mkUser (usr_meta usr) (usr_spec usr) st = usr.
Proof. intros ->. destruct usr; reflexivity. Qed.

Lemma mkAccountStatus_id st cs kp ref sks :
  cs = acc_Conditions st -> kp = acc_KeyPair st -> ref = OperatorRef st ->
  sks = SigningKeys st -> mkAccountStatus cs kp ref sks = st.
Proof. intros -> -> -> ->. destruct st; reflexivity. Qed.

Lemma mkUserStatus_id st cs kp ref :
  cs = usr_Conditions st -> kp = usr_KeyPair st -> ref = AccountRef st ->
  mkUserStatus cs kp ref = st.
Proof. intros -> -> ->. destruct st; reflexivity. Qed.

Lemma allSet_ready set marks cs : allSet set marks cs -> holds ConditionReady cs.
Proof. intros H. apply H. left. reflexivity. Qed.

Lemma allSet_mark set marks cs t : allSet set marks cs -> In t marks -> holds t cs.
Proof. intros H Ht. apply H. right. apply in_or_app. right. exact Ht. Qed.

Lemma allSet_markTrue set marks cs t :
  allSet set marks cs -> In t marks -> markTrue set t cs = cs.
Proof.
  intros H Ht. apply markTrue_id; [exact (allSet_mark _ _ _ _ H Ht) | exact (allSet_ready _ _ _ H)].
Qed.

Lemma allSet_InitializeConditions set marks cs :
  allSet set marks cs -> InitializeConditions set cs = cs.
Proof.
  intros H. apply InitializeConditions_id. intros t Ht.
  exists (trueCondition t). apply H.
  destruct Ht as [<-|Ht]; [left; reflexivity | right; apply in_or_app; left; exact Ht].
Qed.

(** ** The steps both controllers share *)

Section SharedSteps.
Variable E : Env.
Context {O : Type}.

Lemma resolveIssuer_settled issuer fallback k (o : O) :
  issuerResolves E issuer fallback k ->
  wp (resolveIssuer E issuer fallback) o (fun a o' l =>
    a = Some (Some k, true, None) /\ o' = o /\ readOnly l).
Proof.
  intros (kind & object & k0 & Hs & Hf & Hk & -> & Ht).
  unfold issuerNamespace in Hf.
  unfold resolveIssuer, Client_Get. cbv zeta. rewrite Hs.
  apply wp_call_bind. rewrite Hf, Hk, Ht. cbn [negb]. apply wp_ret.
  split; [reflexivity|]. split; [reflexivity|]. reads.
Qed.

Lemma resolveSigningKeyOwner_settled sk owner (o : O) :
  ownerResolves E (KPSigningKey sk) owner ->
  wp (resolveSigningKeyOwner E sk) o (fun a o' l =>
    a = Some (Some owner, true, None) /\ o' = o /\ readOnly l).
Proof.
  intros (Ht & ref & kind & Hr & Hs & Hf).
  unfold resolveSigningKeyOwner, Client_Get. rewrite Ht, Hr. cbv zeta. rewrite Hs.
  cbn [negb]. apply wp_call_bind. rewrite Hf. apply wp_ret.
  split; [reflexivity|]. split; [reflexivity|]. reads.
Qed.

Lemma loadIssuerSeed_settled k wantPrefix issuerKP (o : O) :
  issuerSeedLoads E k wantPrefix issuerKP ->
  wp (loadIssuerSeed E k wantPrefix) o (fun a o' l =>
    a = Some (Some issuerKP, true, None) /\ o' = o /\ readOnly l).
Proof.
  intros (keyPair & secret & seed & raw & Hk & Hg & Hd & Hp & Hf & Hpk).
  unfold loadIssuerSeed, CoreV1_Secrets_Get. rewrite Hk.
  apply wp_call_bind. rewrite Hg, Hd, Hp.
  rewrite bool_decide_eq_true_2 by reflexivity. cbn [negb]. rewrite Hf, Hpk.
  rewrite bool_decide_eq_true_2 by reflexivity. cbn [negb]. apply wp_ret.
  split; [reflexivity|]. split; [reflexivity|]. reads.
Qed.

Lemma ensureSeedSecretUpToDate_settled owner got seed kp (o : O) :
  Data got !! NatsSecretSeedKey = Some seed ->
  nkeys_FromSeed E seed = Ok kp ->
  KeyPairSecretBuilder_Build E (Some got) owner kp = Ok got ->
  wp (ensureSeedSecretUpToDate E owner got) o (fun a o' l =>
    a = Some (Some kp, true, None) /\ o' = o /\ readOnly l).
Proof.
  intros Hd Hf Hb. unfold ensureSeedSecretUpToDate. rewrite Hd, Hf, Hb.
  rewrite bool_decide_eq_true_2 by reflexivity. cbn [negb]. apply wp_ret.
  split; [reflexivity|]. split; [reflexivity|]. reads.
Qed.

End SharedSteps.

(** Running one step whose outcome a lemma gives, the object unchanged. *)
Ltac wp_simpl' := cbv beta iota zeta; cbn [isErr negb orb andb].

Ltac seq_with lem :=
  eapply wp_seq; [apply lem | | intros ? ? (? & _); discriminate];
  let a := fresh "a" in
  let Ha := fresh "Ha" in
  let Hl := fresh "Hl" in
  intros a ? ? (Ha & -> & Hl); injection Ha as ->; wp_simpl'.

(** ** The Account controller *)

Section ConvergedAccount.
Variable E : Env.
Variables (acc : Account) (operator : Operator) (issuerKP : NKey) (storedJWT : string).
Hypothesis Hconv : AccountConverged E acc operator issuerKP storedJWT.

Import AccountReconciler.

Lemma account_allSet : allSet (accountCondSet E) accountMarks (acc_Conditions (acc_status acc)).
Proof. apply Hconv. Qed.

Lemma account_mark t :
  In t accountMarks ->
  AccountStatusOps.withConditions (markTrue (accountCondSet E) t) (acc_status acc)
  = acc_status acc.
Proof.
  intros Ht. unfold AccountStatusOps.withConditions.
  apply mkAccountStatus_id; try reflexivity.
  exact (allSet_markTrue _ _ _ _ account_allSet Ht).
Qed.

Ltac marked tac :=
  unfold mark; apply wp_modify_bind; cbv beta; rewrite mkAccount_id by tac.

Ltac in_marks := unfold accountMarks; simpl; tauto.

Lemma account_reconcileSeedSecret_settled :
  wp (reconcileSeedSecret E) acc (fun a o l =>
    a = Some (true, None) /\ o = acc /\ readOnly l).
Proof.
  pose proof Hconv as H. unfold AccountConverged in H. cbv zeta in H.
  destruct H as (_ & _ & _ & (kp & (got & seed & Hg & Hn & Hd & Hf & Hb) & Hkp) & _).
  unfold reconcileSeedSecret, CoreV1_Secrets_Get. apply wp_get_bind, wp_call_bind.
  rewrite Hg. unfold ensureSeedSecretUpToDate. apply wp_get_bind.
  rewrite Hd, Hf, Hb. rewrite bool_decide_eq_true_2 by reflexivity. cbn [negb].
  apply wp_ret_bind. cbv zeta.
  marked ltac:(unfold AccountStatusOps.MarkSeedSecretReady; apply mkAccountStatus_id;
               [apply (allSet_markTrue _ _ _ _ account_allSet); in_marks
               | rewrite Hkp, Hn; reflexivity | reflexivity | reflexivity]).
  apply wp_ret. split; [reflexivity|]. split; [reflexivity|]. reads.
Qed.

Lemma account_resolveOperator_settled k :
  ownerResolves E k (ObjOperator operator) ->
  wp (resolveOperator E k) acc (fun a o l =>
    a = Some (Some operator, true, None) /\ o = acc /\ readOnly l).
Proof.
  pose proof Hconv as H. unfold AccountConverged in H. cbv zeta in H.
  destruct H as (_ & _ & _ & _ & _ & Href & _).
  assert (Hres : wp (mark E (fun set => AccountStatusOps.MarkOperatorResolved set
              (mkInferredRef (Namespace (op_meta operator)) (Name (op_meta operator))));;
            ret (Some operator, true, @None error)) acc (fun a o l =>
              a = Some (Some operator, true, None) /\ o = acc /\ readOnly l)).
  { marked ltac:(unfold AccountStatusOps.MarkOperatorResolved; apply mkAccountStatus_id;
                 [apply (allSet_markTrue _ _ _ _ account_allSet); in_marks
                 | reflexivity | symmetry; exact Href | reflexivity]).
    apply wp_ret. split; [reflexivity|]. split; [reflexivity|]. reads. }
  intros Hown. unfold resolveOperator. cbv zeta.
  destruct k as [v|v|v|sk]; simpl in Hown; try discriminate.
  - injection Hown as <-. exact Hres.
  - seq_with (resolveSigningKeyOwner_settled E sk (ObjOperator operator) acc Hown).
    eapply wp_mono; [exact Hres|]. intros ? ? ? (-> & -> & Hl'). cbv beta.
    split; [reflexivity|]. split; [reflexivity|]. reads.
Qed.

Lemma account_ensureSigningKeysUpdated_settled :
  wp (ensureSigningKeysUpdated E) acc (fun a o l =>
    a = Some None /\ o = acc /\ readOnly l).
Proof.
  pose proof Hconv as H. unfold AccountConverged in H. cbv zeta in H.
  destruct H as (_ & _ & _ & _ & _ & _ & (sel & skList & Hsel & Hlist & Hnext) & _).
  unfold selectorOf in Hsel. unfold listOptionsOf in Hlist.
  unfold ensureSigningKeysUpdated. apply wp_get_bind. cbv zeta. rewrite Hsel.
  apply wp_call_bind. rewrite Hlist, Hnext.
  rewrite bool_decide_eq_true_2 by reflexivity. cbn [negb].
  apply wp_ret_bind.
  marked ltac:(unfold AccountStatusOps.MarkSigningKeysUpdated; apply mkAccountStatus_id;
               [apply (allSet_markTrue _ _ _ _ account_allSet); in_marks
               | reflexivity | reflexivity | reflexivity]).
  apply wp_ret. split; [reflexivity|]. split; [reflexivity|]. reads.
Qed.

Lemma account_loadIssuerSeed_settled k :
  issuerSeedLoads E k PrefixByteOperator issuerKP ->
  wp (AccountReconciler.loadIssuerSeed E k) acc (fun a o l =>
    a = Some (Some issuerKP, true, None) /\ o = acc /\ readOnly l).
Proof.
  intros (keyPair & secret & seed & raw & Hk & Hg & Hd & Hp & Hf & Hpk).
  unfold AccountReconciler.loadIssuerSeed, CoreV1_Secrets_Get. rewrite Hk.
  apply wp_call_bind. rewrite Hg, Hd, Hp.
  rewrite bool_decide_eq_true_2 by reflexivity. cbn [negb]. rewrite Hf, Hpk.
  rewrite bool_decide_eq_true_2 by reflexivity. cbn [negb].
  marked ltac:(apply account_mark; in_marks).
  apply wp_ret. split; [reflexivity|]. split; [reflexivity|]. reads.
Qed.

Lemma account_reconcileJWTSecret_settled :
  wp (reconcileJWTSecret E issuerKP) acc (fun a o l =>
    a = Some (storedJWT, true, None) /\ o = acc /\ readOnly l).
Proof.
  pose proof Hconv as H. unfold AccountConverged in H. cbv zeta in H.
  destruct H as (_ & _ & _ & _ & _ & _ & _ & wantClaims & nextJWT & Hc
                   & got & gotClaims & Hg & Hd & Hdec & Heq).
  apply Equality_DeepEqual_spec in Heq.
  unfold reconcileJWTSecret, CoreV1_Secrets_Get. apply wp_get_bind. rewrite Hc.
  apply wp_call_bind. rewrite Hg. unfold ensureJWTSecretUpToDate. apply wp_get_bind.
  rewrite Hd. cbv zeta. rewrite Hdec, Heq.
  marked ltac:(apply account_mark; in_marks).
  apply wp_ret. split; [reflexivity|]. split; [reflexivity|]. reads.
Qed.

(** Up to the publication step the pass reads, and leaves the Account as
    it found it. *)
Lemma account_pipeline_settled Q :
  (forall l, readOnly l ->
     wp (publication E (Some operator) issuerKP storedJWT) acc
        (fun a o l' => Q a o (l ++ l'))) ->
  wp (pipeline E) acc Q.
Proof.
  intros Hpub.
  pose proof Hconv as H. unfold AccountConverged in H. cbv zeta in H.
  destruct H as (_ & _ & _ & _ & (k & Hres & Hown & Hload) & _).
  unfold pipeline.
  seq_with account_reconcileSeedSecret_settled.
  apply wp_get_bind.
  seq_with (resolveIssuer_settled E _ _ k acc Hres).
  seq_with (account_resolveOperator_settled k Hown).
  seq_with account_ensureSigningKeysUpdated_settled.
  seq_with (account_loadIssuerSeed_settled k Hload).
  seq_with account_reconcileJWTSecret_settled.
  eapply wp_mono; [apply Hpub with (l := l ++ l0 ++ l1 ++ l2 ++ l3 ++ l4); reads|].
  intros a o l' HQ. cbv beta in HQ. rewrite <- !app_assoc in HQ. exact HQ.
Qed.

Lemma Load_reads (op : option Operator) :
  wp (Load E op) acc (fun _ o l => o = acc /\ readOnly l).
Proof. unfold Load. wp_run; (split; [reflexivity | reads]). Qed.

Lemma getNATSOptions_reads (op : Operator) :
  wp (getNATSOptions E op) acc (fun _ o l => o = acc /\ readOnly l).
Proof.
  unfold getNATSOptions, loadCAFile, CoreV1_Secrets_Get.
  wp_run; (split; [reflexivity | reads]).
Qed.

Ltac status_free :=
  repeat first [ apply quiet_nil | apply quiet_cons; [reflexivity|] | apply quiet_app
               | apply readOnly_statusUpdate; assumption ].

Ltac no_writes :=
  apply quiet_filter;
  repeat first [ apply quiet_nil | apply quiet_cons; [reflexivity|] | apply quiet_app
               | (apply (readOnly_quiet isSecretWrite); [by_kind | assumption]) ].

(** Publication of an Account that is not the system account: nothing is
    written to a secret and the status is not updated by the step; the
    account server is sent at most a connection, the push of the stored
    token and the close, and all three once the system account and the
    connection options load and the connection is accepted; when the push
    goes through the Account is as it was. *)
Lemma ensureJWTPushed_settled :
  wp (ensureJWTPushed E (Some operator) issuerKP storedJWT) acc (fun a o l =>
    let url := AccountServerURL (op_spec operator) in
    secretWrites l = [] /\ quiet isStatusUpdate l /\
    (remoteCalls l = [] \/ remoteCalls l = [CConnect url] \/
     remoteCalls l = pushOf operator storedJWT) /\
    (forall sysSeed opts,
        SysAccountLoader_Load E (Some operator) = Some (Ok sysSeed) ->
        out (getNATSOptions E operator acc) = Some (Ok opts) ->
        nsc_Connect E url issuerKP sysSeed opts = None ->
        remoteCalls l = pushOf operator storedJWT) /\
    (a = Some None -> o = acc /\ remoteCalls l = pushOf operator storedJWT)).
Proof.
  assert (Hopts : wp (getNATSOptions E operator) acc (fun a o l =>
                    a = out (getNATSOptions E operator acc) /\ o = acc /\ readOnly l)).
  { pose proof (getNATSOptions_reads operator) as H. unfold wp in *.
    split; [reflexivity | exact H]. }
  unfold ensureJWTPushed, Load. cbv zeta. cbn [fst snd].
  apply wp_bind_assoc, wp_call_bind.
  destruct (SysAccountLoader_Load E (Some operator)) as [[sysSeed|err]|] eqn:HL.
  - apply wp_ret_bind.
    eapply wp_seq; [exact Hopts | |].
    + intros r ? l' (Hr & -> & Hl'). cbv beta. unfold mark.
      destruct r as [opts|err].
      * apply wp_call_bind.
        destruct (nsc_Connect E (AccountServerURL (op_spec operator)) issuerKP sysSeed opts)
          as [e|] eqn:Hc.
        -- wp_run. cbv zeta.
           split; [no_writes|]. split; [status_free|].
           rewrite remoteCalls_cons_read by reflexivity.
           rewrite (readOnly_then_remote _ _ Hl').
           split; [right; left; reflexivity|].
           split; [|discriminate].
           intros s' o' [= <-] Ho. rewrite <- Hr in Ho. injection Ho as <-.
           congruence.
        -- apply wp_call_bind.
           destruct (nsc_Push E storedJWT) as [e|]; wp_run; cbv zeta.
           ++ split; [no_writes|]. split; [status_free|].
              rewrite remoteCalls_cons_read by reflexivity.
              rewrite (readOnly_then_remote _ _ Hl').
              split; [right; right; reflexivity|].
              split; [intros; reflexivity | discriminate].
           ++ split; [no_writes|]. split; [status_free|].
              rewrite remoteCalls_cons_read by reflexivity.
              rewrite (readOnly_then_remote _ _ Hl').
              split; [right; right; reflexivity|].
              split; [intros; reflexivity|].
              intros _. split; [|reflexivity].
              apply mkAccount_id. apply account_mark. in_marks.
      * wp_run. cbv zeta. split; [no_writes|]. split; [status_free|].
        rewrite remoteCalls_cons_read by reflexivity.
        rewrite app_nil_r, (readOnly_remoteCalls _ Hl').
        split; [left; reflexivity|]. split; [|discriminate].
        intros s' o' _ Ho. rewrite <- Hr in Ho. discriminate Ho.
    + intros ? l' (Hr & -> & Hl'). cbv zeta. split; [no_writes|]. split; [status_free|].
      rewrite remoteCalls_cons_read by reflexivity. rewrite (readOnly_remoteCalls _ Hl').
      split; [left; reflexivity|]. split; [|discriminate].
      intros s' o' _ Ho. rewrite <- Hr in Ho. discriminate Ho.
  - apply wp_ret_bind. unfold mark. wp_run. cbv zeta.
    split; [reflexivity|]. split; [status_free|].
    split; [left; reflexivity|]. split; discriminate.
  - apply wp_panic_bind. cbv zeta.
    split; [reflexivity|]. split; [status_free|].
    split; [left; reflexivity|]. split; discriminate.
Qed.

Lemma account_pass_settled Q :
  wp (pipeline E) acc Q ->
  wp (mark E AccountStatusOps.InitializeConditions;; reconcileLoaded E) acc Q.
Proof.
  intros HQ.
  pose proof Hconv as H. unfold AccountConverged in H. cbv zeta in H.
  destruct H as (Hzero & Hfin & _).
  marked ltac:(unfold AccountStatusOps.InitializeConditions, AccountStatusOps.withConditions;
               apply mkAccountStatus_id; try reflexivity;
               exact (allSet_InitializeConditions _ _ _ account_allSet)).
  unfold reconcileLoaded. apply wp_get_bind. rewrite Hzero, Hfin. cbn [negb].
  apply wp_ret_bind. wp_simpl'. exact HQ.
Qed.

(** The pass on a converged system account. *)
Lemma account_Reconcile_system req :
  Get_Account E (fst req) (snd req) = Ok acc ->
  IsSystemAccount E acc (Some operator) = Some true ->
  out (Reconcile E req) <> None /\ obj (Reconcile E req) = Some acc /\
  readsButStatus (log (Reconcile E req)).
Proof.
  intros Hget Hsys.
  assert (Hb : wp (mark E AccountStatusOps.InitializeConditions;; reconcileLoaded E) acc
                 (fun a o l => a = Some None /\ o = acc /\ readOnly l)).
  { apply account_pass_settled, account_pipeline_settled. intros l Hl.
    unfold publication. apply wp_get_bind. rewrite Hsys.
    marked ltac:(apply account_mark; in_marks).
    apply wp_ret. split; [reflexivity|]. split; [reflexivity|]. reads. }
  unfold wp in Hb. destruct Hb as (Ho & Hobj & Hl).
  unfold Reconcile. rewrite Hget. cbv zeta. unfold withDeferredStatusUpdate.
  cbn [Semantic_DeepEqual negb out obj log]. rewrite Ho, Hobj.
  split; [discriminate|]. split; [reflexivity|].
  apply readsButStatus_pass; [reflexivity | exact Hl | right; reflexivity].
Qed.

(** The pass on a converged Account that is not the system account. *)
Lemma account_Reconcile_ordinary req :
  Get_Account E (fst req) (snd req) = Ok acc ->
  IsSystemAccount E acc (Some operator) = Some false ->
  let url := AccountServerURL (op_spec operator) in
  secretWrites (log (Reconcile E req)) = [] /\
  (remoteCalls (log (Reconcile E req)) = [] \/
   remoteCalls (log (Reconcile E req)) = [CConnect url] \/
   remoteCalls (log (Reconcile E req)) = pushOf operator storedJWT) /\
  (forall sysSeed opts,
      SysAccountLoader_Load E (Some operator) = Some (Ok sysSeed) ->
      out (getNATSOptions E operator acc) = Some (Ok opts) ->
      nsc_Connect E url issuerKP sysSeed opts = None ->
      remoteCalls (log (Reconcile E req)) = pushOf operator storedJWT) /\
  (out (Reconcile E req) = Some None ->
   obj (Reconcile E req) = Some acc /\
   remoteCalls (log (Reconcile E req)) = pushOf operator storedJWT).
Proof.
  intros Hget Hsys url.
  assert (Hb : wp (mark E AccountStatusOps.InitializeConditions;; reconcileLoaded E) acc
                 (fun a o l =>
                    secretWrites l = [] /\
                    (remoteCalls l = [] \/ remoteCalls l = [CConnect url] \/
                     remoteCalls l = pushOf operator storedJWT) /\
                    (forall sysSeed opts,
                        SysAccountLoader_Load E (Some operator) = Some (Ok sysSeed) ->
                        out (getNATSOptions E operator acc) = Some (Ok opts) ->
                        nsc_Connect E url issuerKP sysSeed opts = None ->
                        remoteCalls l = pushOf operator storedJWT) /\
                    (a = Some None ->
                     o = acc /\ remoteCalls l = pushOf operator storedJWT))).
  { apply account_pass_settled, account_pipeline_settled. intros l Hl.
    unfold publication. apply wp_get_bind. rewrite Hsys.
    eapply wp_mono; [apply ensureJWTPushed_settled|].
    intros a o l' (Hw & _ & H3 & Htr & Hok). cbv beta. fold url in H3, Htr.
    rewrite (readOnly_then_writes _ _ Hl), (readOnly_then_remote _ _ Hl).
    split; [exact Hw|]. split; [exact H3|]. split; [exact Htr | exact Hok]. }
  unfold wp in Hb. destruct Hb as (Hw & H3 & Htr & Hok).
  unfold Reconcile. rewrite Hget. cbv zeta. unfold withDeferredStatusUpdate.
  set (b := (mark E AccountStatusOps.InitializeConditions;; reconcileLoaded E) acc) in *.
  cbn [Semantic_DeepEqual negb out obj log].
  rewrite secretWrites_pass, remoteCalls_pass by reflexivity.
  split; [exact Hw|]. split; [exact H3|]. split; [exact Htr|].
  intros Ha. destruct (out b) as [err|]; [|discriminate Ha].
  injection Ha as Ha. apply multierr_Append_none in Ha. subst err.
  destruct (Hok eq_refl) as (Hobj & Hr). rewrite Hobj. split; [reflexivity | exact Hr].
Qed.

End ConvergedAccount.

(** ** The User controller *)

Section ConvergedUser.
Variable E : Env.
Variable usr : User.
Variables (kp : NKey) (k : KeyPairable) (account : Account) (issuerKP : NKey).
Variables (wantClaims : Claims) (nextJWT storedJWT : string) (creds : Secret).
Hypothesis Hset : allSet (userCondSet E) userMarks (usr_Conditions (usr_status usr)).
Hypothesis Hseed :
  seedSettled E (ObjUser usr) (Namespace (usr_meta usr)) (usr_SeedSecretName (usr_spec usr)) kp.
Hypothesis Hkp :
  usr_KeyPair (usr_status usr)
  = Some (mkKeyPair (orEmpty (kp_PublicKey E kp)) (usr_SeedSecretName (usr_spec usr))).
Hypothesis Hres : issuerResolves E (usr_Issuer (usr_spec usr)) (Namespace (usr_meta usr)) k.
Hypothesis Hown : ownerResolves E k (ObjAccount account).
Hypothesis Href :
  AccountRef (usr_status usr)
  = Some (mkInferredRef (Namespace (acc_meta account)) (Name (acc_meta account))).
Hypothesis Hload : issuerSeedLoads E k PrefixByteAccount issuerKP.
Hypothesis Hclaims : CreateUserClaims E usr issuerKP = Ok (wantClaims, nextJWT).
Hypothesis Htoken :
  tokenSettled E (Namespace (usr_meta usr)) (usr_JWTSecretName (usr_spec usr))
    wantClaims storedJWT.
Hypothesis Hcreds :
  Secrets_Get E (Namespace (usr_meta usr)) (CredentialsSecretName (usr_spec usr)) = Ok creds.
Hypothesis Hbuild :
  UserCredentialSecretBuilder_Build E (Some creds) (ObjUser usr) storedJWT
    (orEmpty (kp_Seed E kp)) = Ok creds.

Import UserReconciler.

Lemma user_mark t :
  In t userMarks ->
  UserStatusOps.withConditions (markTrue (userCondSet E) t) (usr_status usr) = usr_status usr.
Proof.
  intros Ht. unfold UserStatusOps.withConditions.
  apply mkUserStatus_id; try reflexivity.
  exact (allSet_markTrue _ _ _ _ Hset Ht).
Qed.

Ltac marked tac :=
  unfold mark; apply wp_modify_bind; cbv beta; rewrite mkUser_id by tac.

Ltac in_marks := unfold userMarks; simpl; tauto.

Lemma user_reconcileSeedSecret_settled :
  wp (reconcileSeedSecret E) usr (fun a o l =>
    a = Some (Some (orEmpty (kp_Seed E kp)), true, None) /\ o = usr /\ readOnly l).
Proof.
  destruct Hseed as (got & seed & Hg & Hn & Hd & Hf & Hb).
  unfold reconcileSeedSecret, CoreV1_Secrets_Get. apply wp_get_bind, wp_call_bind.
  rewrite Hg.
  seq_with (ensureSeedSecretUpToDate_settled E (ObjUser usr) got seed kp usr Hd Hf Hb).
  marked ltac:(unfold UserStatusOps.MarkSeedSecretReady; apply mkUserStatus_id;
               [apply (allSet_markTrue _ _ _ _ Hset); in_marks
               | rewrite Hkp; reflexivity | reflexivity]).
  apply wp_ret. split; [reflexivity|]. split; [reflexivity|]. reads.
Qed.

Lemma user_resolveAccount_settled :
  wp (resolveAccount E k) usr (fun a o l =>
    a = Some (Some account, true, None) /\ o = usr /\ readOnly l).
Proof.
  assert (Hr : wp (mark E (fun set => UserStatusOps.MarkAccountResolved set
              (mkInferredRef (Namespace (acc_meta account)) (Name (acc_meta account))));;
            ret (Some account, true, @None error)) usr (fun a o l =>
              a = Some (Some account, true, None) /\ o = usr /\ readOnly l)).
  { marked ltac:(unfold UserStatusOps.MarkAccountResolved; apply mkUserStatus_id;
                 [apply (allSet_markTrue _ _ _ _ Hset); in_marks
                 | reflexivity | symmetry; exact Href]).
    apply wp_ret. split; [reflexivity|]. split; [reflexivity|]. reads. }
  pose proof Hown as Hown'. unfold resolveAccount. cbv zeta.
  destruct k as [v|v|v|sk]; simpl in Hown'; try discriminate.
  - injection Hown' as <-. exact Hr.
  - seq_with (resolveSigningKeyOwner_settled E sk (ObjAccount account) usr Hown').
    eapply wp_mono; [exact Hr|]. intros ? ? ? (-> & -> & Hl'). cbv beta.
    split; [reflexivity|]. split; [reflexivity|]. reads.
Qed.

Lemma user_reconcileJWTSecret_settled :
  wp (reconcileJWTSecret E k) usr (fun a o l =>
    a = Some (storedJWT, true, None) /\ o = usr /\ readOnly l).
Proof.
  destruct Htoken as (got & gotClaims & Hg & Hd & Hdec & Heq).
  apply Equality_DeepEqual_spec in Heq.
  unfold reconcileJWTSecret, CoreV1_Secrets_Get.
  seq_with (loadIssuerSeed_settled E k PrefixByteAccount issuerKP usr Hload).
  marked ltac:(apply user_mark; in_marks).
  apply wp_get_bind. rewrite Hclaims. apply wp_call_bind. rewrite Hg.
  unfold ensureJWTSecretUpToDate. apply wp_get_bind. rewrite Hd. cbv zeta.
  rewrite Hdec, Heq.
  marked ltac:(apply user_mark; in_marks).
  apply wp_ret. split; [reflexivity|]. split; [reflexivity|]. reads.
Qed.

Lemma user_reconcileUserCredentialSecret_settled :
  wp (reconcileUserCredentialSecret E storedJWT (orEmpty (kp_Seed E kp))) usr (fun a o l =>
    a = Some None /\ o = usr /\ readOnly l).
Proof.
  unfold reconcileUserCredentialSecret, CoreV1_Secrets_Get.
  apply wp_get_bind, wp_call_bind. rewrite Hcreds.
  unfold ensureCredentialsSecretUpToDate. apply wp_get_bind. rewrite Hbuild.
  rewrite bool_decide_eq_true_2 by reflexivity.
  marked ltac:(apply user_mark; in_marks).
  apply wp_ret. split; [reflexivity|]. split; [reflexivity|]. reads.
Qed.

Lemma user_pipeline_settled :
  wp (pipeline E) usr (fun a o l => a = Some None /\ o = usr /\ readOnly l).
Proof.
  unfold pipeline.
  seq_with user_reconcileSeedSecret_settled.
  apply wp_get_bind.
  seq_with (resolveIssuer_settled E _ _ k usr Hres).
  seq_with user_resolveAccount_settled.
  seq_with user_reconcileJWTSecret_settled.
  change (default "" (Some (orEmpty (kp_Seed E kp)))) with (orEmpty (kp_Seed E kp)).
  eapply wp_mono; [apply user_reconcileUserCredentialSecret_settled|].
  intros ? ? ? (-> & -> & Hl'). cbv beta.
  split; [reflexivity|]. split; [reflexivity|]. reads.
Qed.

(** The pass on a converged User. *)
Lemma user_Reconcile_settled req :
  Get_User E (fst req) (snd req) = Ok usr ->
  out (Reconcile E req) <> None /\ obj (Reconcile E req) = Some usr /\
  readsButStatus (log (Reconcile E req)).
Proof.
  intros Hget.
  assert (Hb : wp (mark E UserStatusOps.InitializeConditions;; pipeline E) usr
                 (fun a o l => a = Some None /\ o = usr /\ readOnly l)).
  { marked ltac:(unfold UserStatusOps.InitializeConditions, UserStatusOps.withConditions;
                 apply mkUserStatus_id; try reflexivity;
                 exact (allSet_InitializeConditions _ _ _ Hset)).
    exact user_pipeline_settled. }
  unfold wp in Hb. destruct Hb as (Ho & Hobj & Hl).
  unfold Reconcile. rewrite Hget. cbv zeta. unfold withDeferredStatusUpdate.
  cbn [Semantic_DeepEqual negb out obj log]. rewrite Ho, Hobj.
  split; [discriminate|]. split; [reflexivity|].
  apply readsButStatus_pass; [reflexivity | exact Hl | right; reflexivity].
Qed.

End ConvergedUser.

(** On the demo cluster the account acct and the user usr are converged. *)
Ltac demo_account :=
  unfold AccountConverged; cbv zeta;
  split; [reflexivity|]; split; [reflexivity|]; split;
  [ intros t Ht; simpl in Ht; repeat (destruct Ht as [<-|Ht]; [reflexivity|]); contradiction |];
  split;
  [ exists (mkNKey "SAacct"); split; [|reflexivity];
    exists Demo.acctSeed, "SAacct"; repeat split |];
  split;
  [ exists (KPOperator Demo.op); split; [|split];
    [ exists OperatorKind, (ObjOperator Demo.op), (KPOperator Demo.op); repeat split
    | reflexivity
    | exists (mkKeyPair "Oop" "op-seed"), Demo.opSeed, "SOop", "op"; repeat split ] |];
  split; [reflexivity|]; split;
  [ exists labels_Everything, []; repeat split |];
  exists (mkClaims AccountClaim 200 Demo.acctContent), ("fresh:" +:+ Demo.acctContent);
  split; [reflexivity|];
  exists Demo.acctJWT, (mkClaims AccountClaim 100 Demo.acctContent); repeat split.

Example demo_account_converged :
  AccountConverged (Demo.env Demo.converged) Demo.acct Demo.op (mkNKey "SOop") "stored-acct".
Proof. demo_account. Qed.

Example demo_system_account_converged :
  AccountConverged (Demo.env Demo.convergedSystem) Demo.acct Demo.op (mkNKey "SOop")
    "stored-acct".
Proof. demo_account. Qed.

Example demo_user_converged : UserConverged (Demo.env Demo.converged) Demo.usr.
Proof.
  unfold UserConverged. cbv zeta. split.
  { intros t Ht. simpl in Ht.
    repeat (destruct Ht as [<-|Ht]; [reflexivity|]). contradiction. }
  exists (mkNKey "SUusr"), (KPAccount Demo.acct), Demo.acct, (mkNKey "SAacct"),
    (mkClaims UserClaim 200 Demo.usrContent), ("fresh:" +:+ Demo.usrContent),
    "stored-usr", Demo.usrCreds.
  split.
  { exists Demo.usrSeed, "SUusr". repeat split. }
  split; [reflexivity|]. split.
  { exists AccountKind, (ObjAccount Demo.acct), (KPAccount Demo.acct). repeat split. }
  split; [reflexivity|]. split; [reflexivity|]. split.
  { exists (mkKeyPair "Aacct" "acct-seed"), Demo.acctSeed, "SAacct", "acct". repeat split. }
  split; [reflexivity|]. split.
  { exists Demo.usrJWT, (mkClaims UserClaim 100 Demo.usrContent). repeat split. }
  split; reflexivity.
Qed.

(** C2.  A pass of Reconcile on a converged User, and on a converged Account
    that is the system account of its Operator, does not panic, creates or
    updates no secret, makes no call to the account server and leaves the
    resource, its status included, as it read it: the update of the status
    apart, about which nothing is said here, every request of the pass is a
    read.  On a converged Account that is not the system account no secret is
    created or updated either, but the account server is contacted again:
    what the pass sends it is nothing, or a connection that is refused, or a
    connection, the push of the stored token and the close; it is the last of
    these whenever the system account and the connection options load and
    the connection is accepted, and whenever the pass returns no error, and
    the Account is then left as it was read. *)
Theorem converged_pass_writes_nothing :
  forall (E : Env),
    (forall req usr,
        Get_User E (fst req) (snd req) = Ok usr ->
        UserConverged E usr ->
        let r := UserReconciler.Reconcile E req in
        out r <> None /\ obj r = Some usr /\
        secretWrites (log r) = [] /\ remoteCalls (log r) = [] /\
        readsButStatus (log r)) /\
    (forall req acc operator issuerKP storedJWT,
        Get_Account E (fst req) (snd req) = Ok acc ->
        AccountConverged E acc operator issuerKP storedJWT ->
        let r := AccountReconciler.Reconcile E req in
        let url := AccountServerURL (op_spec operator) in
        (IsSystemAccount E acc (Some operator) = Some true ->
         out r <> None /\ obj r = Some acc /\
         secretWrites (log r) = [] /\ remoteCalls (log r) = [] /\
         readsButStatus (log r)) /\
        (IsSystemAccount E acc (Some operator) = Some false ->
         secretWrites (log r) = [] /\
         (remoteCalls (log r) = [] \/ remoteCalls (log r) = [CConnect url] \/
          remoteCalls (log r) = pushOf operator storedJWT) /\
         (forall sysSeed opts,
             SysAccountLoader_Load E (Some operator) = Some (Ok sysSeed) ->
             out (AccountReconciler.getNATSOptions E operator acc) = Some (Ok opts) ->
             nsc_Connect E url issuerKP sysSeed opts = None ->
             remoteCalls (log r) = pushOf operator storedJWT) /\
         (out r = Some None ->
          obj r = Some acc /\ remoteCalls (log r) = pushOf operator storedJWT))).
Proof.
  intros E. split.
  - intros req usr Hget (Hset & kp & k & account & issuerKP & wantClaims & nextJWT
                           & storedJWT & creds & Hseed & Hkp & Hres & Hown & Href & Hload
                           & Hclaims & Htoken & Hcreds & Hbuild) r.
    destruct (user_Reconcile_settled E usr kp k account issuerKP wantClaims nextJWT
                storedJWT creds Hset Hseed Hkp Hres Hown Href Hload Hclaims Htoken
                Hcreds Hbuild req Hget) as (Ho & Hobj & Hl).
    split; [exact Ho|]. split; [exact Hobj|].
    split; [exact (readsButStatus_secretWrites _ Hl)|].
    split; [exact (readsButStatus_remoteCalls _ Hl) | exact Hl].
  - intros req acc operator issuerKP storedJWT Hget Hconv r url. split.
    + intros Hsys.
      destruct (account_Reconcile_system E acc operator issuerKP storedJWT Hconv req Hget Hsys)
        as (Ho & Hobj & Hl).
      split; [exact Ho|]. split; [exact Hobj|].
      split; [exact (readsButStatus_secretWrites _ Hl)|].
      split; [exact (readsButStatus_remoteCalls _ Hl) | exact Hl].
    + intros Hsys.
      exact (account_Reconcile_ordinary E acc operator issuerKP storedJWT Hconv req Hget Hsys).
Qed.

(** The theorem at the demo cluster: the user usr, the account acct where
    it is the system account, and the account acct where it is not. *)
Lemma converged_pass_witness :
  (UserConverged (Demo.env Demo.converged) Demo.usr /\
   let r := UserReconciler.Reconcile (Demo.env Demo.converged) ("nats", "usr") in
   out r <> None /\ obj r = Some Demo.usr /\
   secretWrites (log r) = [] /\ remoteCalls (log r) = [] /\
   readsButStatus (log r)) /\
  (AccountConverged (Demo.env Demo.convergedSystem) Demo.acct Demo.op (mkNKey "SOop")
     "stored-acct" /\
   let r := AccountReconciler.Reconcile (Demo.env Demo.convergedSystem) ("nats", "acct") in
   out r <> None /\ obj r = Some Demo.acct /\
   secretWrites (log r) = [] /\ remoteCalls (log r) = [] /\
   readsButStatus (log r)) /\
  remoteCalls (log (AccountReconciler.Reconcile (Demo.env Demo.converged) ("nats", "acct")))
  = pushOf Demo.op "stored-acct".
Proof.
  split; [|split].
  - split; [exact demo_user_converged|].
    exact (proj1 (converged_pass_writes_nothing (Demo.env Demo.converged))
             ("nats", "usr") Demo.usr eq_refl demo_user_converged).
  - split; [exact demo_system_account_converged|].
    exact (proj1 (proj2 (converged_pass_writes_nothing (Demo.env Demo.convergedSystem))
                    ("nats", "acct") Demo.acct Demo.op (mkNKey "SOop") "stored-acct"
                    eq_refl demo_system_account_converged) eq_refl).
  - exact (proj1 (proj2 (proj2
             (proj2 (proj2 (converged_pass_writes_nothing (Demo.env Demo.converged))
                       ("nats", "acct") Demo.acct Demo.op (mkNKey "SOop") "stored-acct"
                       eq_refl demo_account_converged) eq_refl)))
             (mkNKey "SAsys") [] eq_refl eq_refl eq_refl).
Defined.

(** The account acct of the demo cluster is converged and is not the system
    account: the pass returns no error and writes no secret, and yet it
    calls the account server, to push the stored token again. *)
Lemma converged_account_pushed_again :
  let E := Demo.env Demo.converged in
  let r := AccountReconciler.Reconcile E ("nats", "acct") in
  Get_Account E "nats" "acct" = Ok Demo.acct /\
  AccountConverged E Demo.acct Demo.op (mkNKey "SOop") "stored-acct" /\
  out r = Some None /\ obj r = Some Demo.acct /\
  secretWrites (log r) = [] /\
  remoteCalls (log r) = [CConnect "nats://accounts"; CPush "stored-acct"; CClose] /\
  remoteCalls (log r) <> [].
Proof.
  cbv zeta. split; [reflexivity|]. split; [exact demo_account_converged|].
  split; [vm_compute; reflexivity|]. split; [vm_compute; reflexivity|].
  split; [vm_compute; reflexivity|].
  assert (H : remoteCalls (log (AccountReconciler.Reconcile (Demo.env Demo.converged)
                                  ("nats", "acct")))
              = [CConnect "nats://accounts"; CPush "stored-acct"; CClose])
    by (vm_compute; reflexivity).
  split; [exact H|]. rewrite H. discriminate.
Qed.


(* ===================================================================== *)
(** * More on conditions and logs *)
(* ===================================================================== *)

Lemma markUnknown_get set t reason msg cs :
  t <> ConditionReady ->
  GetCondition t (markUnknown set t reason msg cs)
    = Some (mkCondition t ConditionUnknownStatus (Some reason) msg).
Proof.
  intros Hne. unfold markUnknown. destruct (anyFalse set _).
  - apply (GetCondition_SetCondition_eq (mkCondition t ConditionUnknownStatus (Some reason) msg)).
  - rewrite GetCondition_SetCondition_ne by (simpl; congruence).
    apply (GetCondition_SetCondition_eq (mkCondition t ConditionUnknownStatus (Some reason) msg)).
Qed.

Lemma markFalse_not_true set t reason msg cs :
  t <> ConditionReady -> IsTrue (GetCondition t (markFalse set t reason msg cs)) = false.
Proof. intros H. rewrite markFalse_get by exact H. reflexivity. Qed.

Lemma markUnknown_not_true set t reason msg cs :
  t <> ConditionReady -> IsTrue (GetCondition t (markUnknown set t reason msg cs)) = false.
Proof. intros H. rewrite markUnknown_get by exact H. reflexivity. Qed.

Section GuardedOut.
Context {O : Type}.
Variable I : O -> Prop.
Variable p : Call -> bool.
Variable R : Call -> Prop.


End GuardedOut.

(** A property of the outcome of a pass, read as a postcondition. *)
Lemma wp_intro {O A} (m : M O A) (o : O) (Q : option A -> O -> list Call -> Prop) :
  wp m o Q -> Q (out (m o)) (obj (m o)) (log (m o)).
Proof. exact (fun H => H). Qed.


(* ===================================================================== *)
(** * The shared steps of controllers/base_controller.go *)
(* ===================================================================== *)

Ltac outcomes :=
  repeat match goal with
         | |- _ /\ _ => split
         | |- _ <-> _ => split
         end;
  intros;
  repeat match goal with
         | H : exists _, _ |- _ => destruct H
         | H : _ /\ _ |- _ => destruct H
         end;
  try discriminate; try congruence; try reflexivity;
  try (simplify_eq; congruence);
  eauto 12.

(** X1.  resolveSigningKeyOwner leaves the object under reconciliation alone
    and requests at most the owner, in the namespace the owner reference
    names.  While the owner-resolved condition of the Signing Key is not True
    it requests nothing and returns handled = true with a not-ready condition
    error; with the condition True and no owner reference it panics.  When it
    returns, handled = false exactly when fetching the owner failed with an
    error other than not-found; it returns no error exactly when the owner
    was fetched, and then the owner is that object; every error it returns is
    a condition error and comes with no owner. *)
Theorem resolveSigningKeyOwner_outcomes :
  forall (E : Env) (O : Type) (sk : SigningKey) (o : O),
    let r := resolveSigningKeyOwner E sk o in
    let resolved := IsTrue (GetCondition SigningKeyConditionOwnerResolved
                              (sk_Conditions (sk_status sk))) in
    obj r = o /\ readOnly (log r) /\
    (resolved = false ->
     log r = [] /\
     out r = Some (None, true, Some (ConditionUnknown ReasonNotReady
                                       "signing key owner has not been resolved"))) /\
    (resolved = true -> sk_OwnerRef (sk_status sk) = None -> out r = None) /\
    (forall ref, resolved = true -> sk_OwnerRef (sk_status sk) = Some ref ->
       (log r = [] \/
        exists kind, log r = [CGet kind (ref_Namespace ref) (ref_Name ref)]) /\
       exists owner ok err,
         out r = Some (owner, ok, err) /\
         (ok = false <->
            exists kind e,
              Scheme_New E (GetGroupVersionKind ref) = Ok (Prototype kind) /\
              fetch E kind (ref_Namespace ref) (ref_Name ref) = Err e /\
              IsNotFound e = false) /\
         (err = None <->
            exists kind fetched,
              Scheme_New E (GetGroupVersionKind ref) = Ok (Prototype kind) /\
              fetch E kind (ref_Namespace ref) (ref_Name ref) = Ok fetched /\
              owner = Some fetched) /\
         (err <> None -> isCondErr err = true /\ owner = None)).
Proof.
  intros E O sk o r resolved. subst r. unfold resolveSigningKeyOwner. fold resolved.
  destruct resolved eqn:Hres; cbn [negb].
  - destruct (sk_OwnerRef (sk_status sk)) as [ref|] eqn:Href.
    + cbv zeta.
      destruct (Scheme_New E (GetGroupVersionKind ref)) as [[|kind]|e0] eqn:Hs.
      * split; [reflexivity|]. split; [apply quiet_nil|]. split; [discriminate|].
        split; [discriminate|]. intros ref' _ [= <-]. split; [left; reflexivity|].
        eexists _, _, _. split; [reflexivity|]. rewrite Hs. outcomes.
      * unfold Client_Get, bind, call; simpl.
        destruct (fetch E kind (ref_Namespace ref) (ref_Name ref)) as [fetched|e] eqn:Hf;
          simpl; [|destruct (IsNotFound e) eqn:Hnf; simpl].
        all: split; [reflexivity|]; split; [reads|]; split; [discriminate|];
          split; [discriminate|]; intros ref' _ [= <-];
          (split; [right; exists kind; reflexivity|]);
          eexists _, _, _; (split; [reflexivity|]); rewrite Hs; outcomes.
      * split; [reflexivity|]. split; [apply quiet_nil|]. split; [discriminate|].
        split; [discriminate|]. intros ref' _ [= <-]. split; [left; reflexivity|].
        eexists _, _, _. split; [reflexivity|]. rewrite Hs. outcomes.
    + split; [reflexivity|]. split; [apply quiet_nil|]. split; [discriminate|].
      split; [reflexivity|]. discriminate.
  - split; [reflexivity|]. split; [apply quiet_nil|]. split; [split; reflexivity|].
    split; discriminate.
Qed.

(** Case analysis on every answer a step branches on. *)
Ltac branch :=
  repeat match goal with
         | |- context [match ?x with _ => _ end] =>
             lazymatch x with
             | context [match _ with _ => _ end] => fail
             | _ => destruct x eqn:?; simpl
             end
         end.

(** X2.  loadIssuerSeed of the base reconciler leaves the object alone and
    requests nothing but one read of the issuer's seed secret.  It returns a
    key pair exactly when the issuer records a key pair, the seed secret is
    read, holds a seed of the wanted key space that parses, and the public key
    of that seed is the recorded one; the key pair is the one parsed from the
    seed, handled is true and there is no error.  It returns handled = false
    only when reading the secret failed with an error other than not-found, or
    when the public key of the seed is not the recorded one. *)
Theorem loadIssuerSeed_outcomes :
  forall (E : Env) (O : Type) (issuer : KeyPairable) (wantPrefix : PrefixByte) (o : O),
    let r := loadIssuerSeed E issuer wantPrefix o in
    obj r = o /\ readOnly (log r) /\ length (log r) <= 1 /\
    (forall kp ok err,
        out r = Some (Some kp, ok, err) <->
        ok = true /\ err = None /\ issuerSeedLoads E issuer wantPrefix kp) /\
    (forall kp err,
        out r = Some (kp, false, err) ->
        kp = None /\ isCondErr err = true /\
        exists keyPair,
          GetKeyPair issuer = Some keyPair /\
          ((exists e, Secrets_Get E (GetNamespace issuer) (SeedSecretName keyPair) = Err e /\
                      IsNotFound e = false) \/
           (exists secret seed issuerKP pk,
              Secrets_Get E (GetNamespace issuer) (SeedSecretName keyPair) = Ok secret /\
              Data secret !! NatsSecretSeedKey = Some seed /\
              nkeys_FromSeed E seed = Ok issuerKP /\
              kp_PublicKey E issuerKP = Ok pk /\
              pk <> PublicKey keyPair))).
Proof.
  intros E O issuer wantPrefix o r. subst r.
  unfold loadIssuerSeed, issuerSeedLoads, CoreV1_Secrets_Get, bind, call, ret, panic; simpl.
  branch.
  all: repeat match goal with
         | H : negb (bool_decide _) = true |- _ =>
             apply negb_true_iff, bool_decide_eq_false in H
         | H : negb (bool_decide _) = false |- _ =>
             apply negb_false_iff, bool_decide_eq_true in H
         end.
  all: split; [reflexivity|]; split; [reads|]; split; [simpl; lia|].
  all: split; [intros kp' ok' err'; split;
                 [intros [= <- <- <-] || (intros [=]) | intros (-> & -> & H)]
              | intros kp' err' [=]].
  all: subst.
  all: try (repeat match goal with
                   | H : exists _, _ |- _ => destruct H
                   | H : _ /\ _ |- _ => destruct H
                   end; congruence).
  all: try (split; [reflexivity|]; split; [reflexivity|]; eauto 12).
Qed.

(** X3.  ensureSeedSecretUpToDate of the base reconciler always returns, and
    leaves the object alone.  It returns handled = false exactly when the seed
    secret differs from what the key-pair builder makes of it and the update
    request fails.  It returns no error exactly when the secret holds a seed
    that parses, the builder succeeds, and the secret is as built or its
    update is accepted; the key pair returned is then the one parsed from the
    seed.  The secret is updated, with the built secret, only when it differs
    from it, and nothing else is written. *)
Theorem ensureSeedSecretUpToDate_outcomes :
  forall (E : Env) (O : Type) (owner : Object) (got : Secret) (o : O),
    let r := ensureSeedSecretUpToDate E owner got o in
    obj r = o /\
    exists kp ok err,
      out r = Some (kp, ok, err) /\
      (ok = false <->
         exists seed parsed want e,
           Data got !! NatsSecretSeedKey = Some seed /\
           nkeys_FromSeed E seed = Ok parsed /\
           KeyPairSecretBuilder_Build E (Some got) owner parsed = Ok want /\
           got <> want /\ Client_Update E want = Some e) /\
      (err = None <->
         exists seed parsed want,
           Data got !! NatsSecretSeedKey = Some seed /\
           nkeys_FromSeed E seed = Ok parsed /\
           KeyPairSecretBuilder_Build E (Some got) owner parsed = Ok want /\
           (got = want \/ Client_Update E want = None) /\
           kp = Some parsed) /\
      (err <> None -> isCondErr err = true) /\
      (secretWrites (log r) = [] \/
       exists seed parsed want,
         Data got !! NatsSecretSeedKey = Some seed /\
         nkeys_FromSeed E seed = Ok parsed /\
         KeyPairSecretBuilder_Build E (Some got) owner parsed = Ok want /\
         got <> want /\ secretWrites (log r) = [CUpdateSecret want]).
Proof.
  intros E O owner got o r. subst r.
  unfold ensureSeedSecretUpToDate, Eventf, bind, call, ret; simpl.
  branch.
  all: repeat match goal with
         | H : negb (bool_decide _) = true |- _ =>
             apply negb_true_iff, bool_decide_eq_false in H
         | H : negb (bool_decide _) = false |- _ =>
             apply negb_false_iff, bool_decide_eq_true in H
         end.
  all: split; [reflexivity|]; eexists _, _, _; (split; [reflexivity|]).
  all: split; [split; [try discriminate | intros (? & ? & ? & ? & ? & ? & ? & ? & ?); congruence]|].
  all: try (intros _; eexists _, _, _, _; repeat split; eauto; fail).
  all: split; [split; [try discriminate
                      | intros (? & ? & ? & ? & ? & ? & [?|?] & ?); congruence]|].
  all: try (intros _; eexists _, _, _; repeat split; eauto; fail).
  all: split; [intros; reflexivity || congruence|].
  all: try (left; reflexivity).
  all: right; eexists _, _, _; repeat split; eauto.
Qed.


(* ===================================================================== *)
(** * More on the Account controller *)
(* ===================================================================== *)

Ltac unbool :=
  repeat match goal with
         | H : negb (bool_decide _) = true |- _ =>
             apply negb_true_iff, bool_decide_eq_false in H
         | H : negb (bool_decide _) = false |- _ =>
             apply negb_false_iff, bool_decide_eq_true in H
         end.

Ltac unpack :=
  repeat match goal with
         | H : exists _, _ |- _ => destruct H
         | H : _ /\ _ |- _ => destruct H
         end.

(** X4.  loadIssuerSeed of the Account controller requests nothing but one
    read of the issuer's seed secret.  It returns a key pair exactly when the
    issuer records a key pair, the seed secret is read and holds an operator
    seed that parses, and the public key of that seed is the recorded one;
    handled is then true, there is no error and the issuer-resolved condition
    is marked True.  In every other case it returns no key pair with
    handled = false and leaves the issuer-resolved condition not True; it
    returns an error only when reading the secret failed with an error other
    than not-found, and the error is that one. *)
Theorem account_loadIssuerSeed_outcomes :
  forall (E : Env) (issuer : KeyPairable) (acc : Account),
    let r := AccountReconciler.loadIssuerSeed E issuer acc in
    let issuerResolved o :=
      GetCondition ConditionIssuerResolved (acc_Conditions (acc_status o)) in
    readOnly (log r) /\ length (log r) <= 1 /\
    acc_meta (obj r) = acc_meta acc /\ acc_spec (obj r) = acc_spec acc /\
    (forall kp ok err,
        out r = Some (Some kp, ok, err) <->
        ok = true /\ err = None /\ issuerSeedLoads E issuer PrefixByteOperator kp) /\
    (forall kp ok err,
        out r = Some (Some kp, ok, err) -> holds ConditionIssuerResolved
                                             (acc_Conditions (acc_status (obj r)))) /\
    (forall ok err,
        out r = Some (None, ok, err) ->
        ok = false /\ IsTrue (issuerResolved (obj r)) = false /\
        (err <> None ->
         exists keyPair e,
           GetKeyPair issuer = Some keyPair /\
           Secrets_Get E (GetNamespace issuer) (SeedSecretName keyPair) = Err e /\
           IsNotFound e = false /\ err = Some e)).
Proof.
  intros E issuer acc r issuerResolved. subst r issuerResolved.
  assert (Hne : ConditionIssuerResolved <> ConditionReady) by discriminate.
  assert (H : wp (AccountReconciler.loadIssuerSeed E issuer) acc (fun a o l =>
    readOnly l /\ length l <= 1 /\ acc_meta o = acc_meta acc /\ acc_spec o = acc_spec acc /\
    (forall kp ok err,
        a = Some (Some kp, ok, err) <->
        ok = true /\ err = None /\ issuerSeedLoads E issuer PrefixByteOperator kp) /\
    (forall kp ok err,
        a = Some (Some kp, ok, err) ->
        holds ConditionIssuerResolved (acc_Conditions (acc_status o))) /\
    (forall ok err,
        a = Some (None, ok, err) ->
        ok = false /\
        IsTrue (GetCondition ConditionIssuerResolved (acc_Conditions (acc_status o))) = false /\
        (err <> None ->
         exists keyPair e,
           GetKeyPair issuer = Some keyPair /\
           Secrets_Get E (GetNamespace issuer) (SeedSecretName keyPair) = Err e /\
           IsNotFound e = false /\ err = Some e)))).
  { unfold AccountReconciler.loadIssuerSeed, AccountReconciler.mark, CoreV1_Secrets_Get,
      issuerSeedLoads.
    wp_run; unbool.
    all: split; [reads|]; split; [simpl; lia|]; split; [reflexivity|]; split; [reflexivity|].
    all: cbn [acc_status acc_Conditions AccountStatusOps.MarkIssuerResolveFailed
              AccountStatusOps.MarkIssuerResolveUnknown AccountStatusOps.MarkIssuerResolved
              AccountStatusOps.withConditions].
    all: split; [intros kp' ok' err'; split;
                   [intros [= <- <- <-] || (intros [=]) | intros (-> & -> & ?); unpack]|].
    all: subst; try congruence.
    all: try (split; [reflexivity|]; split; [reflexivity|];
              eexists _, _, _, _; repeat split; eauto; fail).
    all: split; [intros kp' ok' err'; intros [=]; subst; try (apply markTrue_get; exact Hne)|].
    all: intros ok' err' [=]; subst.
    all: split; [reflexivity|].
    all: split; [first [apply markFalse_not_true | apply markUnknown_not_true]; exact Hne|].
    all: intros Herr; try congruence.
    eexists _, _. repeat split; eauto. }
  exact H.
Qed.

(** X5.  getNATSOptions leaves the Account alone.  For an Operator without a
    TLS configuration it requests nothing and returns no options; for a TLS
    configuration without a CA file it requests nothing and returns an error.
    With a CA file selector it reads exactly the selected secret in the
    namespace of the Operator, and returns the CA bundle stored under the
    selected key, or under ca.crt when the selector names no key; it returns
    an error when the secret cannot be read or does not hold that key. *)
Theorem getNATSOptions_outcomes :
  forall (E : Env) (operator : Operator) (acc : Account),
    let r := AccountReconciler.getNATSOptions E operator acc in
    let ns := Namespace (op_meta operator) in
    obj r = acc /\
    (op_TLSConfig (op_spec operator) = None -> log r = [] /\ out r = Some (Ok [])) /\
    (forall tls,
        op_TLSConfig (op_spec operator) = Some tls -> CAFile tls = None ->
        log r = [] /\ exists e, out r = Some (Err e)) /\
    (forall tls sel,
        op_TLSConfig (op_spec operator) = Some tls -> CAFile tls = Some sel ->
        let key := if bool_decide (sks_Key sel = "") then "ca.crt" else sks_Key sel in
        log r = [CGetSecret ns (sks_Name sel)] /\
        (forall opts,
            out r = Some (Ok opts) <->
            exists secret ca,
              Secrets_Get E ns (sks_Name sel) = Ok secret /\
              Data secret !! key = Some ca /\ opts = [CABundle ca]) /\
        ((exists e, Secrets_Get E ns (sks_Name sel) = Err e) \/
         (exists secret, Secrets_Get E ns (sks_Name sel) = Ok secret /\
                         Data secret !! key = None) ->
         exists e, out r = Some (Err e))).
Proof.
  intros E operator acc r ns. subst r ns.
  unfold AccountReconciler.getNATSOptions, AccountReconciler.loadCAFile, CoreV1_Secrets_Get,
    bind, call, ret; simpl.
  destruct (op_TLSConfig (op_spec operator)) as [tls|]; simpl.
  - destruct (CAFile tls) as [sel|] eqn:Hca; simpl.
    + split.
      { destruct (Secrets_Get E _ _); simpl; [|reflexivity].
        destruct (Data _ !! _); reflexivity. }
      split; [discriminate|].
      split; [intros tls' [= <-]; rewrite Hca; discriminate|].
      intros tls' sel' [= <-]. rewrite Hca. intros [= <-].
      assert (Hkey : (if negb (bool_decide (sks_Key sel = "")) then sks_Key sel else "ca.crt")
                     = (if bool_decide (sks_Key sel = "") then "ca.crt" else sks_Key sel))
        by (destruct (bool_decide (sks_Key sel = "")); reflexivity).
      rewrite Hkey.
      destruct (Secrets_Get E (Namespace (op_meta operator)) (sks_Name sel))
        as [secret|e] eqn:Hg; simpl.
      * destruct (Data secret !! _) as [ca|] eqn:Hd; simpl.
        -- split; [reflexivity|]. split.
           ++ intros opts. split.
              ** intros [= <-]. eauto.
              ** intros (s & c & [= <-] & Hc & ->). congruence.
           ++ intros [[e He]|(s & [= <-] & Hs)]; congruence.
        -- split; [reflexivity|]. split.
           ++ intros opts. split; [discriminate|].
              intros (s & c & [= <-] & Hc & ->). congruence.
           ++ intros _. eauto.
      * split; [reflexivity|]. split.
        -- intros opts. split; [discriminate|]. intros (s & c & Hs & _). discriminate.
        -- intros _. eauto.
    + split; [reflexivity|]. split; [discriminate|].
      split; [|intros tls' sel' [= <-]; rewrite Hca; discriminate].
      intros tls' [= <-] _. split; [reflexivity | eauto].
  - split; [reflexivity|]. split; [split; reflexivity|].
    split; discriminate.
Qed.

Section Publication.
Variable E : Env.

Import AccountReconciler.

Lemma Load_readOnly (operator : option Operator) (acc : Account) :
  wp (Load E operator) acc (fun a o l =>
    o = acc /\ readOnly l /\
    a = match SysAccountLoader_Load E operator with Some r => Some r | None => None end).
Proof.
  unfold Load. wp_run; (split; [reflexivity|]); (split; [reads | reflexivity]).
Qed.

Lemma getNATSOptions_readOnly (operator : Operator) (acc : Account) :
  wp (getNATSOptions E operator) acc (fun a o l =>
    o = acc /\ readOnly l /\ a = out (getNATSOptions E operator acc)).
Proof.
  assert (H : wp (getNATSOptions E operator) acc (fun _ o l => o = acc /\ readOnly l)).
  { unfold getNATSOptions, loadCAFile, CoreV1_Secrets_Get.
    wp_run; (split; [reflexivity | reads]). }
  unfold wp in *. tauto.
Qed.

Ltac writes_none :=
  apply quiet_filter;
  repeat first [ apply quiet_nil | apply quiet_cons; [reflexivity|] | apply quiet_app
               | (apply (readOnly_quiet isSecretWrite); [by_kind | assumption]) ].

Lemma ensureJWTPushed_run (operator : Operator) issuer ajwt (acc : Account) :
  wp (ensureJWTPushed E (Some operator) issuer ajwt) acc (fun a o l =>
    let url := AccountServerURL (op_spec operator) in
    let pushed := GetCondition AccountConditionJWTPushed (acc_Conditions (acc_status o)) in
    secretWrites l = [] /\
    acc_meta o = acc_meta acc /\ acc_spec o = acc_spec acc /\
    (remoteCalls l = [] \/ remoteCalls l = [CConnect url] \/
     remoteCalls l = [CConnect url; CPush ajwt; CClose]) /\
    (a = Some None <->
     remoteCalls l = [CConnect url; CPush ajwt; CClose] /\ nsc_Push E ajwt = None) /\
    (a = Some None -> pushed = Some (trueCondition AccountConditionJWTPushed)) /\
    (forall e, a = Some (Some e) ->
               IsTrue pushed = false /\ IsReady (acc_Conditions (acc_status o)) = false)).
Proof.
  assert (Hne : AccountConditionJWTPushed <> ConditionReady) by discriminate.
  unfold ensureJWTPushed.
  eapply wp_seq; [apply Load_readOnly | |].
  2:{ intros ? l (-> & Hl & _). cbv zeta.
      split; [writes_none|]. split; [reflexivity|]. split; [reflexivity|].
      rewrite (readOnly_remoteCalls _ Hl).
      split; [left; reflexivity|]. split; [split; [discriminate | intros [[=] _]]|].
      split; discriminate. }
  intros r ? l (-> & Hl & _). cbv beta. unfold mark.
  destruct r as [sysSeed|err].
  2:{ wp_run. cbv zeta. split; [writes_none|]. split; [reflexivity|]. split; [reflexivity|].
      rewrite app_nil_r, (readOnly_remoteCalls _ Hl).
      split; [left; reflexivity|]. split; [split; [discriminate | intros [[=] _]]|].
      split; [discriminate|]. intros ? _.
      cbn [acc_status acc_Conditions AccountStatusOps.MarkJWTPushFailed
           AccountStatusOps.withConditions].
      split; [apply markFalse_not_true; exact Hne | apply markFalse_not_ready]. }
  eapply wp_seq; [apply getNATSOptions_readOnly | |].
  2:{ intros ? l' (-> & Hl' & _). cbv zeta.
      split; [writes_none|]. split; [reflexivity|]. split; [reflexivity|].
      rewrite (readOnly_then_remote _ _ Hl), (readOnly_remoteCalls _ Hl').
      split; [left; reflexivity|]. split; [split; [discriminate | intros [[=] _]]|].
      split; discriminate. }
  intros r ? l' (-> & Hl' & _). cbv beta.
  wp_run; cbv zeta.
  all: split; [writes_none|]; split; [reflexivity|]; split; [reflexivity|].
  all: rewrite ?app_nil_r, (readOnly_then_remote _ _ Hl), ?(readOnly_then_remote _ _ Hl'),
         ?(readOnly_remoteCalls _ Hl').
  all: cbn [acc_status acc_Conditions AccountStatusOps.MarkJWTPushFailed
            AccountStatusOps.MarkJWTPushed AccountStatusOps.withConditions].
  all: cbn [remoteCalls List.filter isRemoteCall app].
  - split; [right; left; reflexivity|].
    split; [split; [discriminate | intros [[=] _]]|]. split; [discriminate|].
    intros ? _. split; [apply markFalse_not_true; exact Hne | apply markFalse_not_ready].
  - split; [right; right; reflexivity|].
    split; [split; [discriminate | intros [_ ?]; congruence]|]. split; [discriminate|].
    intros ? _. split; [apply markFalse_not_true; exact Hne | apply markFalse_not_ready].
  - split; [right; right; reflexivity|].
    split; [split; [intros _; split; reflexivity | reflexivity]|].
    split; [intros _; apply markTrue_get; exact Hne | discriminate].
  - split; [left; reflexivity|].
    split; [split; [discriminate | intros [[=] _]]|]. split; [discriminate|].
    intros ? _. split; [apply markFalse_not_true; exact Hne | apply markFalse_not_ready].
Qed.

End Publication.

(** X6.  ensureJWTPushed writes no secret and leaves the metadata and the
    specification of the Account alone.  To the account server it says
    nothing (the system account or the connection options could not be
    loaded), or it is refused the connection, or it connects, pushes the
    token it was handed and closes the connection, whether or not the push
    is accepted.  It returns no error exactly when the push was sent and
    accepted, and the push condition is then True; on every error the push
    condition and Ready are left not True.  Without an Operator nothing is
    sent and the step never succeeds. *)
Theorem ensureJWTPushed_outcomes :
  forall (E : Env) (operator : Operator) (issuer : NKey) (ajwt : string) (acc : Account),
    let r := AccountReconciler.ensureJWTPushed E (Some operator) issuer ajwt acc in
    let r0 := AccountReconciler.ensureJWTPushed E None issuer ajwt acc in
    let url := AccountServerURL (op_spec operator) in
    let pushed := GetCondition AccountConditionJWTPushed (acc_Conditions (acc_status (obj r))) in
    secretWrites (log r) = [] /\
    acc_meta (obj r) = acc_meta acc /\ acc_spec (obj r) = acc_spec acc /\
    (remoteCalls (log r) = [] \/ remoteCalls (log r) = [CConnect url] \/
     remoteCalls (log r) = [CConnect url; CPush ajwt; CClose]) /\
    (out r = Some None <->
     remoteCalls (log r) = [CConnect url; CPush ajwt; CClose] /\ nsc_Push E ajwt = None) /\
    (out r = Some None -> pushed = Some (trueCondition AccountConditionJWTPushed)) /\
    (forall e, out r = Some (Some e) ->
               IsTrue pushed = false /\ IsReady (acc_Conditions (acc_status (obj r))) = false) /\
    remoteCalls (log r0) = [] /\ out r0 <> Some None.
Proof.
  intros E operator issuer ajwt acc r r0 url pushed.
  pose proof (ensureJWTPushed_run E operator issuer ajwt acc) as H.
  unfold wp in H. cbv zeta in H.
  destruct H as (H1 & H2 & H3 & H4 & H5 & H6 & H7).
  repeat (split; [assumption|]).
  subst r0.
  assert (H0 : wp (AccountReconciler.ensureJWTPushed E None issuer ajwt) acc (fun a _ l =>
                 remoteCalls l = [] /\ a <> Some None)).
  { unfold AccountReconciler.ensureJWTPushed, AccountReconciler.mark.
    eapply wp_seq; [apply Load_readOnly | |].
    - intros rr ? l (-> & Hl & _). cbv beta.
      destruct rr; wp_run; rewrite app_nil_r, (readOnly_remoteCalls _ Hl);
        (split; [reflexivity | discriminate]).
    - intros ? l (-> & Hl & _). rewrite (readOnly_remoteCalls _ Hl).
      split; [reflexivity | discriminate]. }
  exact H0.
Qed.


(* ===================================================================== *)
(** * What a pass says to the account server *)
(* ===================================================================== *)

Lemma session_quiet l : quiet isRemoteCall l -> session l.
Proof. intros H. left. apply quiet_filter. exact H. Qed.

Lemma remoteCalls_quiet_l l1 l2 :
  quiet isRemoteCall l1 -> remoteCalls (l1 ++ l2) = remoteCalls l2.
Proof.
  intros H. unfold remoteCalls. rewrite List.filter_app, (quiet_filter _ _ H). reflexivity.
Qed.

Lemma remoteCalls_quiet_r l1 l2 :
  quiet isRemoteCall l2 -> remoteCalls (l1 ++ l2) = remoteCalls l1.
Proof.
  intros H. unfold remoteCalls. rewrite List.filter_app, (quiet_filter _ _ H).
  apply app_nil_r.
Qed.

Lemma session_app_l l1 l2 : quiet isRemoteCall l1 -> session l2 -> session (l1 ++ l2).
Proof. intros H. unfold session. rewrite (remoteCalls_quiet_l _ _ H). exact id. Qed.

Lemma session_app_r l1 l2 : session l1 -> quiet isRemoteCall l2 -> session (l1 ++ l2).
Proof. intros Hs H. unfold session. rewrite (remoteCalls_quiet_r _ _ H). exact Hs. Qed.

Lemma filter_remote_readOnly l : readOnly l -> List.filter isRemoteCall l = [].
Proof. exact (readOnly_remoteCalls l). Qed.

(** Computes the calls to the account server in a log built from conses,
    appends and parts known to be reads. *)
Ltac remote_norm :=
  unfold session, remoteCalls;
  repeat first [ progress cbn [List.filter isRemoteCall app]
               | rewrite List.filter_app
               | match goal with
                 | H : readOnly ?l |- context [List.filter isRemoteCall ?l] =>
                     rewrite (filter_remote_readOnly l H)
                 end ].

Ltac one_session :=
  remote_norm;
  first [ left; reflexivity
        | right; left; eexists; reflexivity
        | right; right; left; eexists; reflexivity
        | right; right; right; eexists _, _;
          split; [reflexivity | first [left; reflexivity | right; reflexivity]] ].

Section Sessions.
Context {O : Type}.

Lemma silent_quiet {A} p (m : M O A) o : silent p m -> quiet p (log (m o)).
Proof. intros H. apply allowed_quiet. exact (proj2 (H o I)). Qed.

Lemma oneSession_silent {A} (m : M O A) : silent isRemoteCall m -> oneSession m.
Proof. intros H o. apply session_quiet, silent_quiet, H. Qed.

Lemma oneSession_ret {A} (a : A) : oneSession (@ret O A a).
Proof. intros o. left. reflexivity. Qed.

Lemma oneSession_panic {A} : oneSession (@panic O A).
Proof. intros o. left. reflexivity. Qed.

Lemma oneSession_bind_l {A B} (m : M O A) (f : A -> M O B) :
  silent isRemoteCall m -> (forall a, oneSession (f a)) -> oneSession (bind m f).
Proof.
  intros Hm Hf o. pose proof (silent_quiet _ m o Hm) as Hq. unfold bind.
  destruct (out (m o)) as [a|]; cbn [log].
  - apply session_app_l; [exact Hq | apply Hf].
  - apply session_quiet, Hq.
Qed.

Lemma oneSession_bind_r {A B} (m : M O A) (f : A -> M O B) :
  oneSession m -> (forall a, silent isRemoteCall (f a)) -> oneSession (bind m f).
Proof.
  intros Hm Hf o. unfold bind.
  destruct (out (m o)) as [a|]; cbn [log].
  - apply session_app_r; [apply Hm | apply silent_quiet, Hf].
  - apply Hm.
Qed.

Lemma oneSession_bind_get {B} (f : O -> M O B) :
  (forall o, oneSession (f o)) -> oneSession (bind get f).
Proof. intros Hf o. unfold bind, get; simpl. apply Hf. Qed.

End Sessions.

(** A pass that does not talk to the account server, by its structure. *)
Ltac silence :=
  unfold silent; guard_run;
  try (intros; exact I); try (simpl; discriminate); try (intros ?; discriminate).

Ltac session_step :=
  lazymatch goal with
  | |- oneSession (bind get _) => apply oneSession_bind_get; intros ?
  | |- oneSession (bind _ _) => apply oneSession_bind_l; [|intros ?]
  | |- oneSession (ret _) => apply oneSession_ret
  | |- oneSession panic => apply oneSession_panic
  | |- oneSession (match ?x with _ => _ end) => destruct x eqn:?
  | |- oneSession (let '(_, _) := ?x in _) => destruct x
  end.

Section AccountSessions.
Variable E : Env.

Import AccountReconciler.

Lemma reconcileSeedSecret_silent : silent isRemoteCall (reconcileSeedSecret E).
Proof.
  unfold reconcileSeedSecret, createSeedSecret, ensureSeedSecretUpToDate, mark, Eventf,
    CoreV1_Secrets_Get.
  silence.
Qed.

Lemma resolveIssuer_silent {O} issuer ns : silent isRemoteCall (@resolveIssuer E O issuer ns).
Proof. unfold resolveIssuer, Client_Get. silence. Qed.

Lemma issuerUnresolved_silent ok err : silent isRemoteCall (issuerUnresolved E ok err).
Proof. unfold issuerUnresolved, mark. silence. Qed.

Lemma resolveOperator_silent k : silent isRemoteCall (resolveOperator E k).
Proof. unfold resolveOperator, resolveSigningKeyOwner, Client_Get, mark. silence. Qed.

Lemma ensureSigningKeysUpdated_silent : silent isRemoteCall (ensureSigningKeysUpdated E).
Proof. unfold ensureSigningKeysUpdated, mark, Eventf. silence. Qed.

Lemma loadIssuerSeed_silent k : silent isRemoteCall (AccountReconciler.loadIssuerSeed E k).
Proof. unfold AccountReconciler.loadIssuerSeed, mark, CoreV1_Secrets_Get. silence. Qed.

Lemma reconcileJWTSecret_silent kp : silent isRemoteCall (reconcileJWTSecret E kp).
Proof.
  unfold reconcileJWTSecret, createJWTSecret, ensureJWTSecretUpToDate, mark, Eventf,
    CoreV1_Secrets_Get.
  silence.
Qed.

Lemma Update_silent : silent isRemoteCall (Update E).
Proof. unfold Update. silence. Qed.

Lemma setMeta_silent f : silent isRemoteCall (setMeta f).
Proof. unfold setMeta. silence. Qed.

Lemma publication_session operator issuerKP accountJWT :
  oneSession (publication E operator issuerKP accountJWT).
Proof.
  intros acc. unfold publication, bind at 1, get; simpl.
  destruct (IsSystemAccount E acc operator) as [[|]|]; simpl.
  - left. reflexivity.
  - destruct operator as [operator|].
    + pose proof (ensureJWTPushed_run E operator issuerKP accountJWT acc) as H.
      unfold wp in H. cbv zeta in H. destruct H as (_ & _ & _ & [H|[H|H]] & _).
      * left. exact H.
      * right. left. eexists. exact H.
      * right. right. right. eexists _, _. split; [exact H | left; reflexivity].
    + assert (H0 : wp (ensureJWTPushed E None issuerKP accountJWT) acc (fun _ _ l =>
                     remoteCalls l = [])).
      { unfold ensureJWTPushed, mark.
        eapply wp_seq; [apply Load_readOnly | |].
        - intros rr ? l (-> & Hl & _). cbv beta.
          destruct rr; wp_run; rewrite app_nil_r; exact (readOnly_remoteCalls _ Hl).
        - intros ? l (-> & Hl & _). exact (readOnly_remoteCalls _ Hl). }
      left. exact H0.
  - left. reflexivity.
Qed.

Lemma pipeline_session : oneSession (pipeline E).
Proof.
  unfold pipeline.
  apply oneSession_bind_l; [apply reconcileSeedSecret_silent | intros [ok err]].
  destruct (isErr err || negb ok); [apply oneSession_ret|].
  apply oneSession_bind_get; intros acc.
  apply oneSession_bind_l; [apply resolveIssuer_silent | intros [[k ok1] err1]].
  destruct (isErr err1 || negb ok1);
    [apply oneSession_silent, issuerUnresolved_silent|].
  destruct k as [k|]; [|apply oneSession_panic].
  apply oneSession_bind_l; [apply resolveOperator_silent | intros [[operator ok2] err2]].
  destruct (isErr err2 || negb ok2); [apply oneSession_ret|].
  apply oneSession_bind_l; [apply ensureSigningKeysUpdated_silent | intros err3].
  destruct (isErr err3); [apply oneSession_ret|].
  apply oneSession_bind_l; [apply loadIssuerSeed_silent | intros [[issuerKP ok4] err4]].
  destruct (isErr err4 || negb ok4);
    [destruct ok4; apply oneSession_ret|].
  destruct issuerKP as [issuerKP|]; [|apply oneSession_panic].
  apply oneSession_bind_l; [apply reconcileJWTSecret_silent | intros [[jwt ok5] err5]].
  destruct (isErr err5 || negb ok5); [apply oneSession_ret|].
  apply publication_session.
Qed.

Lemma finalizeAccount_session : oneSession (finalizeAccount E).
Proof.
  intros acc. change (wp (finalizeAccount E) acc (fun _ _ l => session l)).
  unfold finalizeAccount. apply wp_get_bind.
  destruct (IsTrue (GetCondition AccountConditionJWTSecretReady _)); cbn [negb];
    [|wp_run; one_session].
  destruct (IsTrue (GetCondition AccountConditionJWTPushed _)); cbn [negb];
    [|wp_run; one_session].
  unfold CoreV1_Secrets_Get, mark.
  wp_run; try one_session.
  eapply wp_seq; [apply Load_readOnly | |].
  - intros ? ? ? (-> & Hl & _). cbv beta.
    wp_run; try one_session.
    eapply wp_seq; [apply getNATSOptions_readOnly | |].
    + intros ? ? ? (-> & Hl' & _). cbv beta.
      wp_run; one_session.
    + intros ? ? (-> & Hl' & _). one_session.
  - intros ? ? (-> & Hl & _). one_session.
Qed.

Lemma reconcileLoaded_session : oneSession (reconcileLoaded E).
Proof.
  unfold reconcileLoaded. apply oneSession_bind_get; intros acc.
  destruct (IsZero (DeletionTimestamp (acc_meta acc))).
  - apply oneSession_bind_l.
    + destruct (negb (ContainsFinalizer (acc_meta acc) AccountFinalizer)).
      * unfold setMeta, Update. silence.
      * silence.
    + intros err. destruct (isErr err); [apply oneSession_ret | apply pipeline_session].
  - destruct (ContainsFinalizer (acc_meta acc) AccountFinalizer); [|apply oneSession_ret].
    apply oneSession_bind_r; [apply finalizeAccount_session|].
    intros err. destruct (isErr err); [silence|]. unfold setMeta, Update. silence.
Qed.

Lemma Reconcile_remoteCalls req :
  session (log (Reconcile E req)).
Proof.
  unfold Reconcile. destruct (Get_Account E (fst req) (snd req)) as [acc|e]; cbn [log].
  - unfold withDeferredStatusUpdate.
    assert (Hb : session (log ((mark E AccountStatusOps.InitializeConditions;;
                                reconcileLoaded E) acc))).
    { apply (oneSession_bind_l (mark E AccountStatusOps.InitializeConditions)).
      - unfold mark. silence.
      - intros _. apply reconcileLoaded_session. }
    destruct (negb (Semantic_DeepEqual _ _)); cbn [log].
    + apply (session_app_l [_]); [reads|].
      apply session_app_r; [exact Hb | reads].
    + apply (session_app_l [_]); [reads | exact Hb].
  - left. reflexivity.
Qed.

End AccountSessions.


(* ===================================================================== *)
(** * Reconcile as a whole *)
(* ===================================================================== *)

(** X7.  Whatever the cluster and the account server answer, one pass of
    Reconcile of the Account controller says to the account server what one
    session allows: nothing at all; or one connection that is refused; or one
    connection that carries at most one request, a push or a delete, and is
    closed after it. *)
Theorem account_Reconcile_one_session :
  forall (E : Env) (req : string * string),
    session (log (AccountReconciler.Reconcile E req)).
Proof. intros E req. apply Reconcile_remoteCalls. Qed.

Section UserPass.
Variable E : Env.

Import UserReconciler.

Lemma user_pipeline_calls : silent notUserCall (pipeline E).
Proof.
  unfold pipeline, reconcileSeedSecret, createSeedSecret, ensureSeedSecretUpToDate,
    issuerUnresolved, resolveIssuer, resolveAccount, resolveSigningKeyOwner, Client_Get,
    reconcileJWTSecret, loadIssuerSeed, createJWTSecret, ensureJWTSecretUpToDate,
    reconcileUserCredentialSecret, createCredentialsSecret,
    ensureCredentialsSecretUpToDate, mark, Eventf, CoreV1_Secrets_Get.
  silence.
Qed.

Lemma user_Reconcile_calls req : quiet notUserCall (log (Reconcile E req)).
Proof.
  unfold Reconcile. destruct (Get_User E (fst req) (snd req)) as [usr|e]; cbn [log];
    [|reads].
  unfold withDeferredStatusUpdate.
  assert (Hb : quiet notUserCall
                 (log ((mark E UserStatusOps.InitializeConditions;; pipeline E) usr))).
  { apply silent_quiet. unfold silent. apply guarded_bind.
    - unfold mark. apply guarded_modify. auto.
    - intros _. apply user_pipeline_calls. }
  destruct (negb (Semantic_DeepEqual _ _)); cbn [log]; reads.
Qed.

End UserPass.

(** X8.  Whatever the cluster answers, one pass of Reconcile of the User
    controller issues only reads of objects and of secrets, writes of
    secrets, events, at most the generation of user key pairs and the update
    of the status: it never contacts the account server, never lists Signing
    Keys, never generates an account key pair and never updates the User
    object itself. *)
Theorem user_Reconcile_requests :
  forall (E : Env) (req : string * string),
    let l := log (UserReconciler.Reconcile E req) in
    Forall (fun c => userCall c = true) l /\
    remoteCalls l = [] /\
    quiet isListSigningKeys l /\
    (forall fs, ~ In (CUpdateObject fs) l) /\
    ~ In (CGenerateKeyPair PrefixByteAccount) l.
Proof.
  intros E req l. subst l.
  pose proof (user_Reconcile_calls E req) as H.
  set (l := log (UserReconciler.Reconcile E req)) in *.
  assert (Hk : forall p : Call -> bool,
             (forall c, p c = true -> notUserCall c = true) -> quiet p l).
  { intros p Hp. exact (quiet_weaken p notUserCall l Hp H). }
  split; [|split; [|split; [|split]]].
  - eapply Forall_impl; [exact H|]. intros c Hc. unfold notUserCall in Hc.
    apply negb_false_iff in Hc. exact Hc.
  - apply quiet_filter, Hk. intros c; destruct c; unfold notUserCall; simpl; congruence.
  - apply Hk. intros c; destruct c; unfold notUserCall; simpl; congruence.
  - intros fs Hin. pose proof (quiet_In _ _ _ H Hin) as Hc. discriminate Hc.
  - intros Hin. pose proof (quiet_In _ _ _ H Hin) as Hc. discriminate Hc.
Qed.

Section StatusUpdate.
Variable E : Env.

Lemma account_body_no_status_update :
  silent isStatusUpdate
    (AccountReconciler.mark E AccountStatusOps.InitializeConditions;;
     AccountReconciler.reconcileLoaded E).
Proof.
  unfold AccountReconciler.reconcileLoaded, AccountReconciler.pipeline,
    AccountReconciler.finalizeAccount, AccountReconciler.Update, AccountReconciler.setMeta,
    AccountReconciler.reconcileSeedSecret, AccountReconciler.createSeedSecret,
    AccountReconciler.ensureSeedSecretUpToDate,
    AccountReconciler.issuerUnresolved, resolveIssuer,
    AccountReconciler.resolveOperator, resolveSigningKeyOwner, Client_Get,
    AccountReconciler.ensureSigningKeysUpdated, AccountReconciler.loadIssuerSeed,
    AccountReconciler.reconcileJWTSecret, AccountReconciler.createJWTSecret,
    AccountReconciler.ensureJWTSecretUpToDate, AccountReconciler.publication,
    AccountReconciler.ensureJWTPushed, AccountReconciler.getNATSOptions,
    AccountReconciler.loadCAFile, AccountReconciler.Load,
    AccountReconciler.mark, Eventf, CoreV1_Secrets_Get.
  silence.
Qed.

Lemma user_body_no_status_update :
  silent isStatusUpdate
    (UserReconciler.mark E UserStatusOps.InitializeConditions;; UserReconciler.pipeline E).
Proof.
  unfold UserReconciler.pipeline, UserReconciler.reconcileSeedSecret,
    UserReconciler.createSeedSecret, ensureSeedSecretUpToDate,
    UserReconciler.issuerUnresolved, resolveIssuer, UserReconciler.resolveAccount,
    resolveSigningKeyOwner, Client_Get, UserReconciler.reconcileJWTSecret, loadIssuerSeed,
    UserReconciler.createJWTSecret, UserReconciler.ensureJWTSecretUpToDate,
    UserReconciler.reconcileUserCredentialSecret, UserReconciler.createCredentialsSecret,
    UserReconciler.ensureCredentialsSecretUpToDate, UserReconciler.mark, Eventf,
    CoreV1_Secrets_Get.
  silence.
Qed.

Lemma multierr_Append_failed e1 e2 : multierr_Append e1 (Some e2) <> None.
Proof. destruct e1; discriminate. Qed.

Lemma account_Reconcile_status req acc :
  Get_Account E (fst req) (snd req) = Ok acc ->
  exists acc' l,
    obj (AccountReconciler.Reconcile E req) = Some acc' /\
    quiet isStatusUpdate l /\
    log (AccountReconciler.Reconcile E req) = l ++ [CUpdateStatus] /\
    forall e x, Status_Update_Account E acc' = Some e ->
                out (AccountReconciler.Reconcile E req) = Some x -> x <> None.
Proof.
  intros Hget. unfold AccountReconciler.Reconcile. rewrite Hget. cbv zeta.
  unfold AccountReconciler.withDeferredStatusUpdate.
  pose proof (silent_quiet _ _ acc account_body_no_status_update) as Hq.
  set (b := (AccountReconciler.mark E AccountStatusOps.InitializeConditions;;
             AccountReconciler.reconcileLoaded E) acc) in *.
  cbn [Semantic_DeepEqual negb out obj log].
  exists (obj b), (CGet AccountKind (fst req) (snd req) :: log b).
  split; [reflexivity|]. split; [reads|]. split; [reflexivity|].
  intros e x He. rewrite He. destruct (out b) as [err|]; [|discriminate].
  intros [= <-]. apply multierr_Append_failed.
Qed.

Lemma user_Reconcile_status req usr :
  Get_User E (fst req) (snd req) = Ok usr ->
  exists usr' l,
    obj (UserReconciler.Reconcile E req) = Some usr' /\
    quiet isStatusUpdate l /\
    log (UserReconciler.Reconcile E req) = l ++ [CUpdateStatus] /\
    forall e x, Status_Update_User E usr' = Some e ->
                out (UserReconciler.Reconcile E req) = Some x -> x <> None.
Proof.
  intros Hget. unfold UserReconciler.Reconcile. rewrite Hget. cbv zeta.
  unfold UserReconciler.withDeferredStatusUpdate.
  pose proof (silent_quiet _ _ usr user_body_no_status_update) as Hq.
  set (b := (UserReconciler.mark E UserStatusOps.InitializeConditions;;
             UserReconciler.pipeline E) usr) in *.
  cbn [Semantic_DeepEqual negb out obj log].
  exists (obj b), (CGet UserKind (fst req) (snd req) :: log b).
  split; [reflexivity|]. split; [reads|]. split; [reflexivity|].
  intros e x He. rewrite He. destruct (out b) as [err|]; [|discriminate].
  intros [= <-]. apply multierr_Append_failed.
Qed.

End StatusUpdate.

(** X9.  In one pass of Reconcile, of the Account controller and of the User
    controller, the status is updated at most once, as the last request of
    the pass; it is updated whenever the status the pass leaves differs from
    the status it read; and when that update fails and the pass did not
    panic, Reconcile returns an error.  When the resource cannot be read,
    nothing but the read is requested, and not-found is then no error. *)
Theorem Reconcile_status_update :
  forall (E : Env) (req : string * string),
    let ra := AccountReconciler.Reconcile E req in
    let ru := UserReconciler.Reconcile E req in
    (forall acc,
        Get_Account E (fst req) (snd req) = Ok acc ->
        exists acc' l,
          obj ra = Some acc' /\ quiet isStatusUpdate l /\
          (log ra = l \/ log ra = l ++ [CUpdateStatus]) /\
          (acc_status acc' <> acc_status acc -> log ra = l ++ [CUpdateStatus]) /\
          (forall e x, log ra = l ++ [CUpdateStatus] ->
                       Status_Update_Account E acc' = Some e -> out ra = Some x -> x <> None)) /\
    (forall usr,
        Get_User E (fst req) (snd req) = Ok usr ->
        exists usr' l,
          obj ru = Some usr' /\ quiet isStatusUpdate l /\
          (log ru = l \/ log ru = l ++ [CUpdateStatus]) /\
          (usr_status usr' <> usr_status usr -> log ru = l ++ [CUpdateStatus]) /\
          (forall e x, log ru = l ++ [CUpdateStatus] ->
                       Status_Update_User E usr' = Some e -> out ru = Some x -> x <> None)) /\
    (forall e,
        Get_Account E (fst req) (snd req) = Err e ->
        log ra = [CGet AccountKind (fst req) (snd req)] /\ obj ra = None /\
        out ra = Some (if IsNotFound e then None else Some e)) /\
    (forall e,
        Get_User E (fst req) (snd req) = Err e ->
        log ru = [CGet UserKind (fst req) (snd req)] /\ obj ru = None /\
        out ru = Some (if IsNotFound e then None else Some e)).
Proof.
  intros E req ra ru. subst ra ru.
  split; [|split; [|split]].
  - intros acc Hget.
    destruct (account_Reconcile_status E req acc Hget) as (acc' & l & Ho & Hq & Hl & Hf).
    exists acc', l. split; [exact Ho|]. split; [exact Hq|].
    split; [right; exact Hl|]. split; [intros _; exact Hl|].
    intros e x _. apply Hf.
  - intros usr Hget.
    destruct (user_Reconcile_status E req usr Hget) as (usr' & l & Ho & Hq & Hl & Hf).
    exists usr', l. split; [exact Ho|]. split; [exact Hq|].
    split; [right; exact Hl|]. split; [intros _; exact Hl|].
    intros e x _. apply Hf.
  - intros e Hget. unfold AccountReconciler.Reconcile. rewrite Hget. repeat split.
  - intros e Hget. unfold UserReconciler.Reconcile. rewrite Hget. repeat split.
Qed.

Section Finalizer.
Variable E : Env.

Import AccountReconciler.

Lemma pipeline_no_object_update : silent isObjectUpdate (pipeline E).
Proof.
  unfold pipeline, reconcileSeedSecret, createSeedSecret,
    AccountReconciler.ensureSeedSecretUpToDate, issuerUnresolved, resolveIssuer,
    resolveOperator, resolveSigningKeyOwner, Client_Get, ensureSigningKeysUpdated,
    AccountReconciler.loadIssuerSeed, reconcileJWTSecret, createJWTSecret,
    ensureJWTSecretUpToDate, publication, ensureJWTPushed, getNATSOptions, loadCAFile, Load,
    mark, Eventf, CoreV1_Secrets_Get.
  silence.
Qed.

Lemma finalizeAccount_no_object_update : silent isObjectUpdate (finalizeAccount E).
Proof.
  unfold finalizeAccount, getNATSOptions, loadCAFile, Load, mark, CoreV1_Secrets_Get.
  silence.
Qed.

Lemma finalizeAccount_meta acc : acc_meta (obj (finalizeAccount E acc)) = acc_meta acc.
Proof.
  assert (H : guarded (fun o => acc_meta o = acc_meta acc) isObjectUpdate never
                (finalizeAccount E)).
  { unfold finalizeAccount, getNATSOptions, loadCAFile, Load, mark, CoreV1_Secrets_Get.
    guard_run; try (simpl; discriminate); try (intros ?; discriminate); try keeps. }
  exact (proj1 (H acc eq_refl)).
Qed.

(** The body of Reconcile, once the Account is read. *)
Lemma Reconcile_log req acc :
  Get_Account E (fst req) (snd req) = Ok acc ->
  let b := reconcileLoaded E (initialised E acc) in
  let r := Reconcile E req in
  (log r = CGet AccountKind (fst req) (snd req) :: log b \/
   log r = CGet AccountKind (fst req) (snd req) :: log b ++ [CUpdateStatus]) /\
  (forall e, out b = Some (Some e) -> exists e', out r = Some (Some e')) /\
  (out r = Some None -> out b = Some None).
Proof.
  intros Hget b r. subst b r. unfold Reconcile. rewrite Hget. cbv zeta.
  unfold withDeferredStatusUpdate.
  change ((mark E AccountStatusOps.InitializeConditions;; reconcileLoaded E) acc)
    with (let r' := reconcileLoaded E (initialised E acc) in
          mkRes (out r') (obj r') ([] ++ log r')).
  cbv zeta. cbn [out obj log app].
  destruct (negb (Semantic_DeepEqual _ _)); cbn [out obj log].
  - split; [right; reflexivity|]. split.
    + intros e ->. destruct (Status_Update_Account E _); simpl; eauto.
    + destruct (out (reconcileLoaded E (initialised E acc))) as [[e|]|]; try discriminate.
      * destruct (Status_Update_Account E _); discriminate.
      * reflexivity.
  - split; [left; reflexivity|]. split; [intros e ->; eauto | exact id].
Qed.

End Finalizer.

Lemma RemoveFinalizer_absent m f : f ∉ Finalizers (RemoveFinalizer m f).
Proof.
  unfold RemoveFinalizer. simpl. rewrite list_elem_of_filter. intros [H _]. apply H. reflexivity.
Qed.

Lemma AddFinalizer_present m f : f ∈ Finalizers (AddFinalizer m f).
Proof.
  unfold AddFinalizer, ContainsFinalizer.
  destruct (bool_decide (f ∈ Finalizers m)) eqn:H.
  - apply bool_decide_eq_true in H. exact H.
  - simpl. apply elem_of_app. right. apply list_elem_of_singleton. reflexivity.
Qed.

(** X10.  How Reconcile of the Account controller keeps the finalizer.  On
    an Account that is not marked for deletion and lacks the finalizer, the
    first request after the read is the update of the Account with the
    finalizer added, and when that update is refused nothing else is requested
    but, at most, the status update, and an error is returned.  On an Account
    that is not marked for deletion and has the finalizer, the Account object
    is never updated.  On an Account marked for deletion without the
    finalizer nothing is requested but, at most, the status update.  On an
    Account marked for deletion with the finalizer, the Account object is
    updated only after finalization returned no error, and with the
    finalizer removed. *)
Theorem Reconcile_finalizer :
  forall (E : Env) (req : string * string) (acc : Account),
    Get_Account E (fst req) (snd req) = Ok acc ->
    let r := AccountReconciler.Reconcile E req in
    let read := CGet AccountKind (fst req) (snd req) in
    let live := IsZero (DeletionTimestamp (acc_meta acc)) in
    let held := ContainsFinalizer (acc_meta acc) AccountFinalizer in
    (live = true -> held = false ->
     let acc2 := mkAccount (AddFinalizer (acc_meta acc) AccountFinalizer) (acc_spec acc)
                   (acc_status (initialised E acc)) in
     AccountFinalizer ∈ Finalizers (acc_meta acc2) /\
     exists l,
       log r = read :: CUpdateObject (Finalizers (acc_meta acc2)) :: l /\
       (forall e, Update_Account E acc2 = Some e ->
                  (l = [] \/ l = [CUpdateStatus]) /\ exists e', out r = Some (Some e'))) /\
    (live = true -> held = true -> quiet isObjectUpdate (log r)) /\
    (live = false -> held = false -> log r = [read] \/ log r = [read; CUpdateStatus]) /\
    (live = false -> held = true ->
     forall fs, In (CUpdateObject fs) (log r) ->
                AccountFinalizer ∉ fs /\
                out (AccountReconciler.finalizeAccount E (initialised E acc)) = Some None).
Proof.
  intros E req acc Hget r read live held. subst r read live held.
  destruct (Reconcile_log E req acc Hget) as (Hlog & Herr & _). cbv zeta in Hlog, Herr.
  set (b := AccountReconciler.reconcileLoaded E (initialised E acc)) in *.
  assert (Hb : b = AccountReconciler.reconcileLoaded E (initialised E acc)) by reflexivity.
  unfold AccountReconciler.reconcileLoaded in Hb. unfold bind at 1, get in Hb.
  cbn [out obj log app] in Hb.
  change (acc_meta (initialised E acc)) with (acc_meta acc) in Hb.
  split; [|split; [|split]].
  - intros Hlive Hheld acc2. split; [apply AddFinalizer_present|].
    rewrite Hlive, Hheld in Hb. cbn [negb] in Hb.
    unfold AccountReconciler.setMeta, AccountReconciler.Update in Hb.
    unfold bind, modify, get, call in Hb. cbn [out obj log app] in Hb.
    change (mkAccount (AddFinalizer (acc_meta (initialised E acc)) AccountFinalizer)
              (acc_spec (initialised E acc)) (acc_status (initialised E acc))) with acc2 in Hb.
    destruct (Update_Account E acc2) as [e|] eqn:Hup; cbn [isErr out obj log app ret] in Hb.
    + rewrite Hb in Hlog, Herr. cbn [log out] in Hlog, Herr.
      destruct Hlog as [Hl|Hl]; eexists; (split; [exact Hl|]); intros e0 _.
      * split; [left; reflexivity | exact (Herr e eq_refl)].
      * split; [right; reflexivity | exact (Herr e eq_refl)].
    + rewrite Hb in Hlog. cbn [log] in Hlog.
      destruct Hlog as [Hl|Hl]; eexists; (split; [exact Hl | discriminate]).
  - intros Hlive Hheld. rewrite Hlive, Hheld in Hb. cbn [negb] in Hb.
    unfold bind at 1, ret in Hb. cbn [isErr out obj log app] in Hb.
    assert (Hq : quiet isObjectUpdate (log b)).
    { rewrite Hb. cbn [log]. apply silent_quiet, pipeline_no_object_update. }
    destruct Hlog as [-> | ->]; reads.
  - intros Hlive Hheld. rewrite Hlive, Hheld in Hb. rewrite Hb in Hlog. exact Hlog.
  - intros Hlive Hheld fs Hin. rewrite Hlive, Hheld in Hb.
    pose proof (silent_quiet _ _ (initialised E acc) (finalizeAccount_no_object_update E)) as Hq.
    assert (Hin' : In (CUpdateObject fs) (log b)).
    { destruct Hlog as [Hl|Hl]; rewrite Hl in Hin.
      - destruct Hin as [Hc|Hin]; [discriminate Hc | exact Hin].
      - destruct Hin as [Hc|Hin]; [discriminate Hc|].
        apply in_app_or in Hin as [Hin|[Hc|[]]]; [exact Hin | discriminate Hc]. }
    rewrite Hb in Hin'. unfold bind in Hin'.
    destruct (out (AccountReconciler.finalizeAccount E (initialised E acc)))
      as [[e|]|] eqn:Hfin; cbn [isErr out obj log app ret] in Hin'.
    + rewrite app_nil_r in Hin'. pose proof (quiet_In _ _ _ Hq Hin') as Hc. discriminate Hc.
    + split; [|reflexivity].
      unfold AccountReconciler.setMeta, AccountReconciler.Update, modify, get, call in Hin'.
      cbn [out obj log app] in Hin'.
      apply in_app_or in Hin' as [Hin'|[Hc|[]]].
      * pose proof (quiet_In _ _ _ Hq Hin') as Hc. discriminate Hc.
      * injection Hc as <-. apply RemoveFinalizer_absent.
    + pose proof (quiet_In _ _ _ Hq Hin') as Hc. discriminate Hc.
Qed.

Lemma Reconcile_finalizer_witness :
  quiet isObjectUpdate (log (AccountReconciler.Reconcile (Demo.env Demo.converged) ("nats", "acct"))).
Proof.
  exact (proj1 (proj2 (Reconcile_finalizer (Demo.env Demo.converged) ("nats", "acct") Demo.acct
                         eq_refl)) eq_refl eq_refl).
Defined.


(* ===================================================================== *)
(** * Publication and the system account *)
(* ===================================================================== *)

Section LogOfBind.
Context {O : Type}.

(** A request of a sequence was issued by its first part, or by the
    second part run on what the first part returned and left. *)
Lemma In_log_bind {A B} (m : M O A) (f : A -> M O B) (o : O) c :
  In c (log (bind m f o)) ->
  In c (log (m o)) \/
  exists a, out (m o) = Some a /\ In c (log (f a (obj (m o)))).
Proof.
  unfold bind. destruct (out (m o)) as [a|]; cbn [log]; intros H.
  - apply in_app_or in H as [H|H]; [left; exact H | right; exists a; auto].
  - left. exact H.
Qed.

End LogOfBind.

Section Publication.
Variable E : Env.

Import AccountReconciler.

Lemma publication_system_account (acc : Account) operator issuerKP accountJWT :
  IsSystemAccount E acc operator = Some true ->
  wp (publication E operator issuerKP accountJWT) acc (fun a o l =>
    a = Some None /\ l = [] /\
    holds AccountConditionJWTPushed (acc_Conditions (acc_status o))).
Proof.
  intros Hsys. unfold publication. apply wp_get_bind. rewrite Hsys.
  unfold mark. wp_run. cbn.
  split; [reflexivity|]. split; [reflexivity|]. apply markTrue_get. discriminate.
Qed.

(** The publication step issues a request only after the test answered
    false for the Account and the Operator it is given. *)
Lemma publication_tested (acc : Account) operator issuerKP accountJWT c :
  In c (log (publication E operator issuerKP accountJWT acc)) ->
  IsSystemAccount E acc operator = Some false.
Proof.
  unfold publication. unfold bind at 1, get. cbn [out obj log app].
  destruct (IsSystemAccount E acc operator) as [[|]|]; [|reflexivity|].
  - unfold mark, bind, modify, ret. cbn. intros [].
  - cbn. intros [].
Qed.

Ltac not_remote lem :=
  match goal with
  | Hin : In ?c (log (?m ?o)), Hc : isRemoteCall ?c = true |- _ =>
      pose proof (quiet_In _ _ _ (silent_quiet _ _ o lem) Hin); congruence
  end.

(** Every call to the account server in a run of the pipeline is issued by
    its publication step. *)
Lemma pipeline_remote (acc0 : Account) c :
  In c (log (pipeline E acc0)) -> isRemoteCall c = true ->
  exists operator issuerKP accountJWT acc,
    reachesPublication E acc0 operator issuerKP accountJWT acc /\
    In c (log (publication E operator issuerKP accountJWT acc)).
Proof.
  intros Hin Hc. unfold pipeline in Hin.
  apply In_log_bind in Hin as [Hin|([ok1 err1] & H1 & Hin)];
    [not_remote (reconcileSeedSecret_silent E)|].
  destruct err1 as [e|]; cbn [isErr orb] in Hin; [destruct Hin|].
  destruct ok1; cbn [negb] in Hin; [|destruct Hin].
  apply In_log_bind in Hin as [Hin|(acc1 & Hg & Hin)]; [destruct Hin|].
  cbn [get out obj] in Hg, Hin. injection Hg as <-.
  apply In_log_bind in Hin as [Hin|([[k ok2] err2] & H2 & Hin)];
    [not_remote (@resolveIssuer_silent E Account
                   (acc_Issuer (acc_spec (obj (reconcileSeedSecret E acc0))))
                   (Namespace (acc_meta (obj (reconcileSeedSecret E acc0)))))|].
  destruct err2 as [e|]; cbn [isErr orb] in Hin;
    [not_remote (issuerUnresolved_silent E ok2 (Some e))|].
  destruct ok2; cbn [negb] in Hin; [|not_remote (issuerUnresolved_silent E false None)].
  destruct k as [k|]; [|destruct Hin].
  apply In_log_bind in Hin as [Hin|([[operator ok3] err3] & H3 & Hin)];
    [not_remote (resolveOperator_silent E k)|].
  destruct err3 as [e|]; cbn [isErr orb] in Hin; [destruct Hin|].
  destruct ok3; cbn [negb] in Hin; [|destruct Hin].
  apply In_log_bind in Hin as [Hin|(err4 & H4 & Hin)];
    [not_remote (ensureSigningKeysUpdated_silent E)|].
  destruct err4 as [e|]; cbn [isErr] in Hin; [destruct Hin|].
  apply In_log_bind in Hin as [Hin|([[issuerKP ok5] err5] & H5 & Hin)];
    [not_remote (loadIssuerSeed_silent E k)|].
  destruct err5 as [e|]; cbn [isErr orb] in Hin; [destruct ok5; destruct Hin|].
  destruct ok5; cbn [negb] in Hin; [|destruct Hin].
  destruct issuerKP as [issuerKP|]; [|destruct Hin].
  apply In_log_bind in Hin as [Hin|([[accountJWT ok6] err6] & H6 & Hin)];
    [not_remote (reconcileJWTSecret_silent E issuerKP)|].
  destruct err6 as [e|]; cbn [isErr orb] in Hin; [destruct Hin|].
  destruct ok6; cbn [negb] in Hin; [|destruct Hin].
  eexists operator, issuerKP, accountJWT, _. split; [|exact Hin].
  exists k. cbv zeta. repeat split; assumption.
Qed.

End Publication.

Section LivePass.
Variable E : Env.

Import AccountReconciler.

(** What reaches the publication step is fixed by the Account the pipeline
    starts on. *)
Lemma reachesPublication_unique acc0 operator issuerKP accountJWT acc
      operator' issuerKP' accountJWT' acc' :
  reachesPublication E acc0 operator issuerKP accountJWT acc ->
  reachesPublication E acc0 operator' issuerKP' accountJWT' acc' ->
  operator = operator' /\ issuerKP = issuerKP' /\ accountJWT = accountJWT' /\ acc = acc'.
Proof.
  intros (k & _ & H2 & H3 & _ & H5 & H6 & ->) (k' & _ & H2' & H3' & _ & H5' & H6' & ->).
  cbv zeta in *.
  rewrite H2 in H2'. injection H2' as <-.
  rewrite H3 in H3'. injection H3' as <-.
  rewrite H5 in H5'. injection H5' as <-.
  rewrite H6 in H6'. injection H6' as <-.
  repeat split.
Qed.

(** On an Account that is not marked for deletion, every call to the
    account server in a pass of Reconcile is a call of the pipeline started
    on the Account with conditions initialised and the finalizer added. *)
Lemma live_pass_remote req (acc : Account) c :
  Get_Account E (fst req) (snd req) = Ok acc ->
  IsZero (DeletionTimestamp (acc_meta acc)) = true ->
  In c (log (Reconcile E req)) -> isRemoteCall c = true ->
  In c (log (pipeline E (entering E acc))).
Proof.
  intros Hget Hlive Hin Hc. unfold Reconcile in Hin. rewrite Hget in Hin.
  cbv zeta in Hin. cbn [log] in Hin. destruct Hin as [<-|Hin]; [discriminate Hc|].
  unfold withDeferredStatusUpdate in Hin.
  cbn [Semantic_DeepEqual negb log] in Hin.
  apply in_app_or in Hin as [Hin|[<-|[]]]; [|discriminate Hc].
  apply In_log_bind in Hin as [Hin|([] & _ & Hin)]; [destruct Hin|].
  unfold mark, modify in Hin. cbn [obj] in Hin.
  unfold reconcileLoaded in Hin.
  apply In_log_bind in Hin as [Hin|(acc1 & Hg & Hin)]; [destruct Hin|].
  cbn [get out obj] in Hg, Hin. injection Hg as <-.
  cbn [acc_meta] in Hin. rewrite Hlive in Hin.
  unfold entering.
  destruct (ContainsFinalizer (acc_meta acc) AccountFinalizer) eqn:Hfin; cbn [negb] in Hin.
  - apply In_log_bind in Hin as [Hin|(err & He & Hin)]; [destruct Hin|].
    cbn [ret out obj] in He, Hin. injection He as <-. cbn [isErr] in Hin. exact Hin.
  - apply In_log_bind in Hin as [Hin|(err & He & Hin)].
    + unfold setMeta, Update, modify, bind, get, call in Hin. cbn in Hin.
      destruct Hin as [<-|[]]. discriminate Hc.
    + unfold setMeta, Update, modify, bind, get, call in He, Hin.
      cbn [out obj log acc_meta acc_spec acc_status] in He, Hin.
      destruct err as [e|]; cbn [isErr] in Hin; [destruct Hin|]. exact Hin.
Qed.

End LivePass.

(** C7.  When the system-account test says that the Account is the system
    account of the resolved Operator, the publication step issues no request
    at all, returns no error and leaves the push condition True; whenever
    the publication step issues a request, the test answered false for the
    Account and the Operator it was handed.  In a pass of Reconcile on an
    Account that is not marked for deletion, every call to the account
    server is issued by the publication step, reached with the Operator that
    resolveOperator returned in that pass, and the test answered false for
    that Operator and the Account as the pass had it at that step.  In the
    superseded controller, once its own test has answered true no token is
    pushed either. *)
Theorem system_account_not_pushed :
  forall (E : Env),
    (forall acc operator issuerKP accountJWT,
        IsSystemAccount E acc operator = Some true ->
        let r := AccountReconciler.publication E operator issuerKP accountJWT acc in
        out r = Some None /\ log r = [] /\
        holds AccountConditionJWTPushed (acc_Conditions (acc_status (obj r)))) /\
    (forall acc operator issuerKP accountJWT c,
        In c (log (AccountReconciler.publication E operator issuerKP accountJWT acc)) ->
        IsSystemAccount E acc operator = Some false) /\
    (forall req acc c,
        Get_Account E (fst req) (snd req) = Ok acc ->
        IsZero (DeletionTimestamp (acc_meta acc)) = true ->
        In c (log (AccountReconciler.Reconcile E req)) -> isRemoteCall c = true ->
        exists operator issuerKP accountJWT acc',
          reachesPublication E (entering E acc) operator issuerKP accountJWT acc' /\
          IsSystemAccount E acc' operator = Some false /\
          In c (log (AccountReconciler.publication E operator issuerKP accountJWT acc'))) /\
    (forall acc sKeys opSkey err,
        out (Superseded.AccountReconciler.isSystemAccount E acc) = Some (true, err) ->
        noPush (log (Superseded.AccountReconciler.ensureSeedJWTSecrets E sKeys opSkey acc))).
Proof.
  intros E. split; [|split; [|split]].
  - intros acc operator issuerKP accountJWT Hsys r.
    exact (publication_system_account E acc operator issuerKP accountJWT Hsys).
  - intros acc operator issuerKP accountJWT c. apply publication_tested.
  - intros req acc c Hget Hlive Hin Hc.
    pose proof (live_pass_remote E req acc c Hget Hlive Hin Hc) as Hp.
    destruct (pipeline_remote E _ c Hp Hc) as (operator & issuerKP & jwt & acc' & Hr & Hpub).
    exists operator, issuerKP, jwt, acc'. split; [exact Hr|]. split; [|exact Hpub].
    exact (publication_tested E acc' operator issuerKP jwt c Hpub).
  - intros acc sKeys opSkey err Hsys.
    destruct (SupersededFacts.ensureSeedJWTSecrets_push E acc sKeys opSkey) as [H|H];
      [exact H | congruence].
Qed.

(** The account of the demo cluster as the system account, as an ordinary
    account whose pass pushes its token, and as the system account under the
    superseded controller. *)
Lemma system_account_not_pushed_witness :
  (let E := Demo.env Demo.convergedSystem in
   let r := AccountReconciler.publication E (Some Demo.op) (mkNKey "SOop") "stored-acct"
              Demo.acct in
   out r = Some None /\ log r = [] /\
   holds AccountConditionJWTPushed (acc_Conditions (acc_status (obj r)))) /\
  (let E := Demo.env Demo.converged in
   exists operator issuerKP accountJWT acc',
     reachesPublication E (entering E Demo.acct) operator issuerKP accountJWT acc' /\
     IsSystemAccount E acc' operator = Some false /\
     In (CPush "stored-acct")
        (log (AccountReconciler.publication E operator issuerKP accountJWT acc'))) /\
  IsSystemAccount (Demo.env Demo.converged) Demo.acct (Some Demo.op) = Some false /\
  noPush (log (Superseded.AccountReconciler.ensureSeedJWTSecrets (Demo.env Demo.deletingSystem)
                 [] "op-seed" Demo.deletedAcct)).
Proof.
  split; [|split; [|split]].
  - exact (proj1 (system_account_not_pushed (Demo.env Demo.convergedSystem))
             Demo.acct (Some Demo.op) (mkNKey "SOop") "stored-acct" eq_refl).
  - refine (proj1 (proj2 (proj2 (system_account_not_pushed (Demo.env Demo.converged))))
              ("nats", "acct") Demo.acct (CPush "stored-acct") eq_refl eq_refl _ eq_refl).
    vm_compute. auto 20.
  - refine (proj1 (proj2 (system_account_not_pushed (Demo.env Demo.converged)))
              Demo.acct (Some Demo.op) (mkNKey "SOop") "stored-acct" (CPush "stored-acct") _).
    vm_compute. auto 20.
  - exact (proj2 (proj2 (proj2 (system_account_not_pushed (Demo.env Demo.deletingSystem))))
             Demo.deletedAcct [] "op-seed" None eq_refl).
Defined.

(** On the demo cluster the pipeline of the account acct reaches its
    publication step with the Operator op of the cluster, for which the
    test answers false. *)
Example demo_reaches_publication :
  let E := Demo.env Demo.converged in
  exists acc',
    reachesPublication E (entering E Demo.acct) (Some Demo.op) (mkNKey "SOop") "stored-acct"
      acc' /\
    IsSystemAccount E acc' (Some Demo.op) = Some false.
Proof.
  cbv zeta. eexists. split.
  - unfold reachesPublication. eexists. cbv zeta.
    split; [vm_compute; reflexivity|].
    split; [vm_compute; reflexivity|].
    split; [vm_compute; reflexivity|].
    split; [vm_compute; reflexivity|].
    split; [vm_compute; reflexivity|].
    split; [vm_compute; reflexivity|]. reflexivity.
  - vm_compute. reflexivity.
Qed.

(** The account acct of the demo cluster, marked for deletion and named by
    its Operator as the system account: the test answers true for it, and
    the pass that finalizes it connects to the account server and has the
    account deleted there. *)
Lemma deleted_system_account_contacted :
  let E := Demo.env Demo.deletingSystem in
  let r := AccountReconciler.Reconcile E ("nats", "acct") in
  Get_Account E "nats" "acct" = Ok Demo.deletedAcct /\
  IsSystemAccount E Demo.deletedAcct (Some Demo.opOfAcct) = Some true /\
  remoteCalls (log r) = [CConnect "nats://accounts"; CDelete "Aacct"; CClose] /\
  ~ (forall c, In c (log r) -> isRemoteCall c = true ->
               IsSystemAccount E Demo.deletedAcct (Some Demo.opOfAcct) = Some false).
Proof.
  cbv zeta. split; [reflexivity|]. split; [vm_compute; reflexivity|].
  split; [vm_compute; reflexivity|].
  intros H. specialize (H (CDelete "Aacct")).
  assert (Hin : In (CDelete "Aacct")
                   (log (AccountReconciler.Reconcile (Demo.env Demo.deletingSystem)
                           ("nats", "acct")))) by (vm_compute; auto 20).
  specialize (H Hin eq_refl). vm_compute in H. discriminate H.
Qed.

(** On the demo cluster, where the system account is named sys: the account
    acct is pushed, and the same account reconciled as the system account of
    the cluster is not. *)
Example ordinary_account_pushed :
  remoteCalls (log (AccountReconciler.Reconcile (Demo.env Demo.converged) ("nats", "acct")))
  = [CConnect "nats://accounts"; CPush "stored-acct"; CClose].
Proof. vm_compute. reflexivity. Qed.

Example system_account_silent :
  remoteCalls (log (AccountReconciler.Reconcile (Demo.env Demo.convergedSystem) ("nats", "acct")))
  = [].
Proof. vm_compute. reflexivity. Qed.


(* ===================================================================== *)
(** * The token a pass hands on *)
(* ===================================================================== *)

Ltac wp_go := repeat (wp_simpl'; wp_step); wp_simpl'.

Lemma not_stale_decide (E : Env) (gotJWT : string) (wantClaims : Claims) :
  match jwt_Decode E gotJWT with
  | Err _ => false
  | Ok gotClaims => Equality_DeepEqual gotClaims wantClaims
  end = true -> ~ stale E gotJWT wantClaims.
Proof.
  intros H Hs. apply stale_decide in Hs. congruence.
Qed.

Section AccountToken.
Variable E : Env.

Import AccountReconciler.

Lemma reconcileJWTSecret_run issuerKP (acc : Account) :
  wp (reconcileJWTSecret E issuerKP) acc (fun a o l =>
    acc_meta o = acc_meta acc /\ acc_spec o = acc_spec acc /\
    quiet isRemoteCall l /\
    forall jwt, a = Some (jwt, true, None) -> handedOn E acc issuerKP jwt l).
Proof.
  unfold reconcileJWTSecret, createJWTSecret, ensureJWTSecretUpToDate, mark, Eventf,
    CoreV1_Secrets_Get, handedOn.
  wp_go.
  all: split; [reflexivity|]; split; [reflexivity|]; split; [reads|].
  all: intros jwt Ha; try discriminate Ha; injection Ha as <-.
  all: eexists _, _; (split; [reflexivity|]).
  - left. eexists. split; [reflexivity|]. split; [first [reflexivity | eassumption]|].
    split; [apply not_stale_decide; assumption | reflexivity].
  - right. left. eexists _, _, _. split; [reflexivity|].
    split; [first [reflexivity | eassumption]|].
    split; [apply stale_decide; assumption|].
    repeat split; try eassumption; try reflexivity.
  - right. right. eexists _, _, _. split; [reflexivity|].
    repeat split; try eassumption; try reflexivity.
Qed.

End AccountToken.

Section UserToken.
Variable E : Env.

Import UserReconciler.

Lemma user_reconcileJWTSecret_run k (usr : User) :
  wp (reconcileJWTSecret E k) usr (fun a o l =>
    usr_meta o = usr_meta usr /\ usr_spec o = usr_spec usr /\
    (forall jwt, a = Some (jwt, true, None) ->
       exists issuerKP,
         issuerSeedLoads E k PrefixByteAccount issuerKP /\
         handedOnUser E (issuerMarked E usr) issuerKP jwt l) /\
    (forall issuerKP e,
       issuerSeedLoads E k PrefixByteAccount issuerKP ->
       CreateUserClaims E (issuerMarked E usr) issuerKP = Err e ->
       a = Some ("", false, None) /\ secretWrites l = [])).
Proof.
  unfold reconcileJWTSecret, createJWTSecret, ensureJWTSecretUpToDate, loadIssuerSeed, mark,
    Eventf, CoreV1_Secrets_Get, handedOnUser, issuerSeedLoads.
  fold (issuerMarked E usr).
  wp_go; unbool.
  all: split; [reflexivity|]; split; [reflexivity|].
  all: change (mkUser (usr_meta usr) (usr_spec usr)
                 (UserStatusOps.MarkIssuerResolved (userCondSet E) (usr_status usr)))
         with (issuerMarked E usr) in *.
  all: split; [intros jwt Ha; try discriminate Ha; try (injection Ha as <-)
              | intros issuerKP' e' Hload Hc; unpack; try congruence].
  all: try (simplify_eq; congruence).
  all: try (split; reflexivity).
  all: subst.
  all: eexists; (split; [eexists _, _, _, _; repeat split; try eassumption; reflexivity|]).
  all: eexists _, _; (split; [eassumption|]); cbv zeta.
  - left. eexists. split; [eassumption|]. split; [eassumption|].
    split; [apply not_stale_decide; assumption | reflexivity].
  - right. left. eexists _, _, _. split; [eassumption|]. split; [eassumption|].
    split; [apply stale_decide; assumption|].
    repeat split; try eassumption; try reflexivity.
  - right. right. eexists _, _. split; [eassumption|].
    repeat split; try eassumption; try reflexivity.
Qed.

End UserToken.

Section Provenance.
Variable E : Env.
Variable acc0 : Account.

Import AccountReconciler.





End Provenance.

(** X11.  When the token step of the Account controller hands on a token
    (it returns it with ok and no error), the JWT secret of the Account holds
    that token as far as the API server tells: either the secret was read,
    holds this token and the token is up to date, and nothing was written; or
    the secret held a stale token, the token is the freshly signed one and
    the secret was updated, with success, to the secret built from it; or
    the secret was not found, the token is the freshly signed one and the
    secret was created from it, with success and with its controller
    reference set.  The step itself never talks to the account server and
    leaves the metadata and specification of the Account alone. *)
Theorem reconcileJWTSecret_hands_on_stored :
  forall (E : Env) (issuerKP : NKey) (acc : Account) (jwt : string),
    let r := AccountReconciler.reconcileJWTSecret E issuerKP acc in
    out r = Some (jwt, true, None) ->
    handedOn E acc issuerKP jwt (log r) /\
    quiet isRemoteCall (log r) /\
    acc_meta (obj r) = acc_meta acc /\ acc_spec (obj r) = acc_spec acc.
Proof.
  intros E issuerKP acc jwt r Hout. subst r.
  pose proof (reconcileJWTSecret_run E issuerKP acc) as H. unfold wp in H.
  destruct H as (Hm & Hs & Hq & H).
  split; [exact (H jwt Hout)|]. split; [exact Hq|]. split; assumption.
Qed.

Lemma reconcileJWTSecret_hands_on_stored_witness :
  handedOn (Demo.env Demo.converged) Demo.acct (mkNKey "SOop") "stored-acct" [CGetSecret "nats" "acct-jwt"].
Proof.
  exact (proj1 (reconcileJWTSecret_hands_on_stored (Demo.env Demo.converged) (mkNKey "SOop")
                  Demo.acct "stored-acct" eq_refl)).
Defined.

(** X12.  When the token step of the User controller hands on a token, the
    seed of the issuer was loaded as an account seed whose public key is the
    one the issuer records, and the JWT secret of the User holds the token as
    far as the API server tells: it was read up to date, or updated with
    success from the fresh token, or created with success from the fresh
    token.  When the claims of the User cannot be signed, the step writes no
    secret and returns no error with ok = false.  The step leaves the
    metadata and specification of the User alone. *)
Theorem user_reconcileJWTSecret_hands_on_stored :
  forall (E : Env) (k : KeyPairable) (usr : User),
    let r := UserReconciler.reconcileJWTSecret E k usr in
    usr_meta (obj r) = usr_meta usr /\ usr_spec (obj r) = usr_spec usr /\
    (forall jwt, out r = Some (jwt, true, None) ->
       exists issuerKP,
         issuerSeedLoads E k PrefixByteAccount issuerKP /\
         handedOnUser E (issuerMarked E usr) issuerKP jwt (log r)) /\
    (forall issuerKP e,
       issuerSeedLoads E k PrefixByteAccount issuerKP ->
       CreateUserClaims E (issuerMarked E usr) issuerKP = Err e ->
       out r = Some ("", false, None) /\ secretWrites (log r) = []).
Proof.
  intros E k usr r. subst r.
  exact (user_reconcileJWTSecret_run E k usr).
Qed.




(* ===================================================================== *)
(** * More on the User controller *)
(* ===================================================================== *)

(** Closes the cases of a step by what its branches recorded. *)
Ltac fin Hne :=
  repeat match goal with
         | |- _ /\ _ => split
         | |- _ <-> _ => split
         end;
  intros;
  repeat match goal with
         | H : _ \/ _ |- _ => destruct H
         | H : exists _, _ |- _ => destruct H
         | H : _ /\ _ |- _ => destruct H
         end;
  simplify_eq;
  repeat match goal with
         | H1 : ?x = Ok ?a, H2 : ?x = Ok ?b |- _ =>
             assert (a = b) by congruence; subst; clear H2
         end;
  try discriminate; try congruence; try contradiction; try reflexivity;
  try (apply markTrue_get; exact Hne);
  try (apply markFalse_not_true; exact Hne);
  try (apply markUnknown_not_true; exact Hne);
  try (repeat split; congruence);
  eauto.

Section Credentials.
Variable E : Env.

Import UserReconciler.

Lemma reconcileUserCredentialSecret_run ujwt seed (usr : User) :
  wp (reconcileUserCredentialSecret E ujwt seed) usr (fun a o l =>
    let ns := Namespace (usr_meta usr) in
    let name := CredentialsSecretName (usr_spec usr) in
    let ready := GetCondition UserConditionCredentialsSecretReady
                   (usr_Conditions (usr_status o)) in
    a <> None /\ usr_meta o = usr_meta usr /\ usr_spec o = usr_spec usr /\
    (a = Some None -> ready = Some (trueCondition UserConditionCredentialsSecretReady)) /\
    (forall e, a = Some (Some e) -> IsTrue ready = false) /\
    (forall got want,
        Secrets_Get E ns name = Ok got ->
        UserCredentialSecretBuilder_Build E (Some got) (ObjUser usr) ujwt seed = Ok want ->
        (got = want -> l = [CGetSecret ns name] /\ a = Some None) /\
        (got <> want ->
         secretWrites l = [CUpdateSecret want] /\
         (a = Some None <-> Client_Update E want = None))) /\
    (forall e secret,
        Secrets_Get E ns name = Err e -> IsNotFound e = true ->
        UserCredentialSecretBuilder_Build E None (ObjUser usr) ujwt seed = Ok secret ->
        secretWrites l = [CCreateSecret secret] /\
        (a = Some None <-> Client_Create E secret = None)) /\
    (forall e,
        Secrets_Get E ns name = Err e -> IsNotFound e = false ->
        l = [CGetSecret ns name] /\ a = Some (Some e)) /\
    (forall e,
        (exists got, Secrets_Get E ns name = Ok got /\
           UserCredentialSecretBuilder_Build E (Some got) (ObjUser usr) ujwt seed = Err e) \/
        (exists e0, Secrets_Get E ns name = Err e0 /\ IsNotFound e0 = true /\
           UserCredentialSecretBuilder_Build E None (ObjUser usr) ujwt seed = Err e) ->
        secretWrites l = [] /\ exists e', a = Some (Some e'))).
Proof.
  assert (Hne : UserConditionCredentialsSecretReady <> ConditionReady) by discriminate.
  unfold reconcileUserCredentialSecret, createCredentialsSecret,
    ensureCredentialsSecretUpToDate, mark, Eventf, CoreV1_Secrets_Get.
  wp_go.
  all: repeat match goal with
         | H : bool_decide _ = true |- _ => apply bool_decide_eq_true in H
         | H : bool_decide _ = false |- _ => apply bool_decide_eq_false in H
         end.
  all: cbn [usr_status usr_Conditions UserStatusOps.MarkCredentialsSecretFailed
            UserStatusOps.MarkCredentialsSecretUnknown
            UserStatusOps.MarkCredentialsSecretReady UserStatusOps.withConditions].
  all: repeat (fin Hne).
Qed.

End Credentials.

(** X14.  The credentials step of the User controller always returns, and
    leaves the metadata and specification of the User alone.  When the
    credentials secret is read and equals what the builder makes of it, the
    token and the seed, nothing is requested but the read.  When it differs,
    exactly one secret is written: the update to the built secret.  When it
    is not found, exactly one secret is written: the creation of the built
    secret.  When reading it fails otherwise, nothing else is requested and
    the error is returned.  When the builder fails, no secret is written and
    an error is returned.  The step returns no error exactly when no write
    was needed or the write was accepted, and then the credentials condition
    is True; on every error it is left not True. *)
Theorem reconcileUserCredentialSecret_outcomes :
  forall (E : Env) (ujwt : string) (seed : bytes) (usr : User),
    let r := UserReconciler.reconcileUserCredentialSecret E ujwt seed usr in
    let ns := Namespace (usr_meta usr) in
    let name := CredentialsSecretName (usr_spec usr) in
    let ready := GetCondition UserConditionCredentialsSecretReady
                   (usr_Conditions (usr_status (obj r))) in
    out r <> None /\ usr_meta (obj r) = usr_meta usr /\ usr_spec (obj r) = usr_spec usr /\
    (out r = Some None -> ready = Some (trueCondition UserConditionCredentialsSecretReady)) /\
    (forall e, out r = Some (Some e) -> IsTrue ready = false) /\
    (forall got want,
        Secrets_Get E ns name = Ok got ->
        UserCredentialSecretBuilder_Build E (Some got) (ObjUser usr) ujwt seed = Ok want ->
        (got = want -> log r = [CGetSecret ns name] /\ out r = Some None) /\
        (got <> want ->
         secretWrites (log r) = [CUpdateSecret want] /\
         (out r = Some None <-> Client_Update E want = None))) /\
    (forall e secret,
        Secrets_Get E ns name = Err e -> IsNotFound e = true ->
        UserCredentialSecretBuilder_Build E None (ObjUser usr) ujwt seed = Ok secret ->
        secretWrites (log r) = [CCreateSecret secret] /\
        (out r = Some None <-> Client_Create E secret = None)) /\
    (forall e,
        Secrets_Get E ns name = Err e -> IsNotFound e = false ->
        log r = [CGetSecret ns name] /\ out r = Some (Some e)) /\
    (forall e,
        (exists got, Secrets_Get E ns name = Ok got /\
           UserCredentialSecretBuilder_Build E (Some got) (ObjUser usr) ujwt seed = Err e) \/
        (exists e0, Secrets_Get E ns name = Err e0 /\ IsNotFound e0 = true /\
           UserCredentialSecretBuilder_Build E None (ObjUser usr) ujwt seed = Err e) ->
        secretWrites (log r) = [] /\ exists e', out r = Some (Some e')).
Proof.
  intros E ujwt seed usr r ns name ready. subst r ns name ready.
  exact (reconcileUserCredentialSecret_run E ujwt seed usr).
Qed.


(* ===================================================================== *)
(** * The first pass: seed secrets are created *)
(* ===================================================================== *)

Section FirstPass.
Variable E : Env.

Lemma account_createSeedSecret_run (acc : Account) e :
  Secrets_Get E (Namespace (acc_meta acc)) (acc_SeedSecretName (acc_spec acc)) = Err e ->
  IsNotFound e = true ->
  wp (AccountReconciler.reconcileSeedSecret E) acc (fun a o l =>
    let ready := GetCondition KeyPairableConditionSeedSecretReady
                   (acc_Conditions (acc_status o)) in
    acc_meta o = acc_meta acc /\ acc_spec o = acc_spec acc /\
    (exists err, a = Some (true, err)) /\
    (forall err, a = Some (true, Some err) ->
       IsTrue ready = false /\ acc_KeyPair (acc_status o) = acc_KeyPair (acc_status acc)) /\
    (secretWrites l = [] \/ exists secret, secretWrites l = [CCreateSecret secret]) /\
    (forall kp built secret pk,
        nkeys_CreateAccount E = Ok kp ->
        KeyPairSecretBuilder_Build E None (ObjAccount acc) kp = Ok built ->
        SetControllerReference E (ObjAccount acc) built = Ok secret ->
        Client_Create E secret = None ->
        kp_PublicKey E kp = Ok pk ->
        a = Some (true, None) /\
        l = [CGetSecret (Namespace (acc_meta acc)) (acc_SeedSecretName (acc_spec acc));
             CGenerateKeyPair PrefixByteAccount; CCreateSecret secret;
             CEvent "Normal" "SeedSecretCreated"
               ("created secret: " +:+ sec_Namespace secret +:+ "/" +:+ sec_Name secret)] /\
        acc_KeyPair (acc_status o) = Some (mkKeyPair pk (sec_Name secret)) /\
        ready = Some (trueCondition KeyPairableConditionSeedSecretReady))).
Proof.
  intros Hget Hnf.
  assert (Hne : KeyPairableConditionSeedSecretReady <> ConditionReady) by discriminate.
  unfold AccountReconciler.reconcileSeedSecret, AccountReconciler.createSeedSecret,
    AccountReconciler.mark, Eventf, CoreV1_Secrets_Get.
  apply wp_get_bind, wp_call_bind. rewrite Hget, Hnf.
  wp_go.
  all: cbn [acc_status acc_Conditions acc_KeyPair AccountStatusOps.MarkSeedSecretFailed
            AccountStatusOps.MarkSeedSecretReady AccountStatusOps.withConditions].
  all: split; [reflexivity|]; split; [reflexivity|]; split; [eexists; reflexivity|].
  all: repeat (fin Hne).
Qed.

Lemma user_createSeedSecret_run (usr : User) e :
  Secrets_Get E (Namespace (usr_meta usr)) (usr_SeedSecretName (usr_spec usr)) = Err e ->
  IsNotFound e = true ->
  wp (UserReconciler.reconcileSeedSecret E) usr (fun a o l =>
    let ready := GetCondition KeyPairableConditionSeedSecretReady
                   (usr_Conditions (usr_status o)) in
    usr_meta o = usr_meta usr /\ usr_spec o = usr_spec usr /\
    a <> None /\
    (forall seed ok err, a = Some (seed, ok, Some err) ->
       seed = None /\ IsTrue ready = false /\
       usr_KeyPair (usr_status o) = usr_KeyPair (usr_status usr)) /\
    (secretWrites l = [] \/ exists secret, secretWrites l = [CCreateSecret secret]) /\
    (forall kp secret pk,
        nkeys_CreateUser E = Ok kp ->
        KeyPairSecretBuilder_Build E None (ObjUser usr) kp = Ok secret ->
        Client_Create E secret = None ->
        kp_PublicKey E kp = Ok pk ->
        a = Some (Some (orEmpty (kp_Seed E kp)), true, None) /\
        l = [CGetSecret (Namespace (usr_meta usr)) (usr_SeedSecretName (usr_spec usr));
             CGenerateKeyPair PrefixByteUser; CCreateSecret secret;
             CEvent "Normal" "SeedSecretCreated"
               ("created secret: " +:+ sec_Namespace secret +:+ "/" +:+ sec_Name secret)] /\
        usr_KeyPair (usr_status o) = Some (mkKeyPair pk (sec_Name secret)) /\
        ready = Some (trueCondition KeyPairableConditionSeedSecretReady))).
Proof.
  intros Hget Hnf.
  assert (Hne : KeyPairableConditionSeedSecretReady <> ConditionReady) by discriminate.
  unfold UserReconciler.reconcileSeedSecret, UserReconciler.createSeedSecret,
    UserReconciler.mark, Eventf, CoreV1_Secrets_Get.
  apply wp_get_bind, wp_call_bind. rewrite Hget, Hnf.
  wp_go.
  all: cbn [usr_status usr_Conditions usr_KeyPair UserStatusOps.MarkSeedSecretFailed
            UserStatusOps.MarkSeedSecretReady UserStatusOps.withConditions].
  all: split; [reflexivity|]; split; [reflexivity|]; split; [discriminate|].
  all: repeat (fin Hne).
Qed.

End FirstPass.

(** X15.  When the API server answers not-found for the seed secret, the
    seed step of the Account controller and of the User controller writes at
    most one secret, a creation, and leaves the metadata and specification of
    the resource alone.  When the key pair is generated, the secret is built
    (and, for an Account, given its controller reference), the creation is
    accepted and the public key is obtained, the step requests exactly the
    read, the generation of one key pair of the resource's key space, the
    creation of that secret and the event; it returns no error, and the
    status records the public key of the generated key pair with the name of
    the created secret, the seed condition being True.  The User step then
    returns the seed of the generated key pair.  When an error is returned
    the recorded key pair is left as it was and the seed condition is not
    True. *)
Theorem reconcileSeedSecret_first_pass :
  forall (E : Env),
    (forall acc e,
        Secrets_Get E (Namespace (acc_meta acc)) (acc_SeedSecretName (acc_spec acc)) = Err e ->
        IsNotFound e = true ->
        let r := AccountReconciler.reconcileSeedSecret E acc in
        let ready := GetCondition KeyPairableConditionSeedSecretReady
                       (acc_Conditions (acc_status (obj r))) in
        acc_meta (obj r) = acc_meta acc /\ acc_spec (obj r) = acc_spec acc /\
        (exists err, out r = Some (true, err)) /\
        (forall err, out r = Some (true, Some err) ->
           IsTrue ready = false /\
           acc_KeyPair (acc_status (obj r)) = acc_KeyPair (acc_status acc)) /\
        (secretWrites (log r) = [] \/ exists secret, secretWrites (log r) = [CCreateSecret secret]) /\
        (forall kp built secret pk,
            nkeys_CreateAccount E = Ok kp ->
            KeyPairSecretBuilder_Build E None (ObjAccount acc) kp = Ok built ->
            SetControllerReference E (ObjAccount acc) built = Ok secret ->
            Client_Create E secret = None ->
            kp_PublicKey E kp = Ok pk ->
            out r = Some (true, None) /\
            log r = [CGetSecret (Namespace (acc_meta acc)) (acc_SeedSecretName (acc_spec acc));
                     CGenerateKeyPair PrefixByteAccount; CCreateSecret secret;
                     CEvent "Normal" "SeedSecretCreated"
                       ("created secret: " +:+ sec_Namespace secret +:+ "/"
                          +:+ sec_Name secret)] /\
            acc_KeyPair (acc_status (obj r)) = Some (mkKeyPair pk (sec_Name secret)) /\
            ready = Some (trueCondition KeyPairableConditionSeedSecretReady))) /\
    (forall usr e,
        Secrets_Get E (Namespace (usr_meta usr)) (usr_SeedSecretName (usr_spec usr)) = Err e ->
        IsNotFound e = true ->
        let r := UserReconciler.reconcileSeedSecret E usr in
        let ready := GetCondition KeyPairableConditionSeedSecretReady
                       (usr_Conditions (usr_status (obj r))) in
        usr_meta (obj r) = usr_meta usr /\ usr_spec (obj r) = usr_spec usr /\
        out r <> None /\
        (forall seed ok err, out r = Some (seed, ok, Some err) ->
           seed = None /\ IsTrue ready = false /\
           usr_KeyPair (usr_status (obj r)) = usr_KeyPair (usr_status usr)) /\
        (secretWrites (log r) = [] \/ exists secret, secretWrites (log r) = [CCreateSecret secret]) /\
        (forall kp secret pk,
            nkeys_CreateUser E = Ok kp ->
            KeyPairSecretBuilder_Build E None (ObjUser usr) kp = Ok secret ->
            Client_Create E secret = None ->
            kp_PublicKey E kp = Ok pk ->
            out r = Some (Some (orEmpty (kp_Seed E kp)), true, None) /\
            log r = [CGetSecret (Namespace (usr_meta usr)) (usr_SeedSecretName (usr_spec usr));
                     CGenerateKeyPair PrefixByteUser; CCreateSecret secret;
                     CEvent "Normal" "SeedSecretCreated"
                       ("created secret: " +:+ sec_Namespace secret +:+ "/"
                          +:+ sec_Name secret)] /\
            usr_KeyPair (usr_status (obj r)) = Some (mkKeyPair pk (sec_Name secret)) /\
            ready = Some (trueCondition KeyPairableConditionSeedSecretReady))).
Proof.
  intros E. split.
  - intros acc e Hget Hnf r ready. subst r ready.
    exact (account_createSeedSecret_run E acc e Hget Hnf).
  - intros usr e Hget Hnf r ready. subst r ready.
    exact (user_createSeedSecret_run E usr e Hget Hnf).
Qed.


(* ===================================================================== *)
(** * The owner behind the issuer *)
(* ===================================================================== *)

Ltac wp_owner :=
  repeat (wp_simpl'; cbn [asConditionError ConditionFailed ConditionUnknown MarkCondition];
          wp_step);
  wp_simpl'.

Ltac owner_close :=
  try right;
  match goal with
  | |- exists sk owner e, _ => eexists _, _, _
  | |- exists sk owner, _ => eexists _, _
  | |- exists sk, _ => eexists
  end;
  (split; [reflexivity|]);
  repeat (cbn [bind call ret out obj log negb];
          match goal with H : ?x = _ |- context [?x] => rewrite H end);
  cbn [bind call ret out obj log negb]; reflexivity.

Section Owner.
Variable E : Env.

Lemma resolveOperator_run (k : KeyPairable) (acc : Account) :
  wp (AccountReconciler.resolveOperator E k) acc (fun a o l =>
    let resolved := GetCondition AccountConditionOperatorResolved
                      (acc_Conditions (acc_status o)) in
    acc_meta o = acc_meta acc /\ acc_spec o = acc_spec acc /\
    acc_KeyPair (acc_status o) = acc_KeyPair (acc_status acc) /\
    SigningKeys (acc_status o) = SigningKeys (acc_status acc) /\
    readOnly l /\ length l <= 1 /\
    (forall operator ok err, a = Some (Some operator, ok, err) ->
       ok = true /\ err = None /\
       OperatorRef (acc_status o)
         = Some (mkInferredRef (Namespace (op_meta operator)) (Name (op_meta operator))) /\
       resolved = Some (trueCondition AccountConditionOperatorResolved) /\
       (k = KPOperator operator \/
        exists sk, k = KPSigningKey sk /\
          out (resolveSigningKeyOwner E sk acc) = Some (Some (ObjOperator operator), true, None))) /\
    (forall ok err, a = Some (None, ok, err) ->
       IsTrue resolved = false /\
       OperatorRef (acc_status o) = OperatorRef (acc_status acc) /\
       (ok = true ->
        err = None /\
        exists sk owner e, k = KPSigningKey sk /\
          out (resolveSigningKeyOwner E sk acc) = Some (owner, true, Some e)) /\
       (err <> None ->
        ok = false /\
        exists sk owner, k = KPSigningKey sk /\
          out (resolveSigningKeyOwner E sk acc) = Some (owner, false, err)))).
Proof.
  assert (Hne : AccountConditionOperatorResolved <> ConditionReady) by discriminate.
  unfold AccountReconciler.resolveOperator, resolveSigningKeyOwner, Client_Get,
    AccountReconciler.mark.
  destruct k as [v|v|v|v]; wp_owner.
  all: cbn [acc_status acc_meta acc_spec acc_Conditions acc_KeyPair OperatorRef SigningKeys
            AccountStatusOps.MarkOperatorResolved AccountStatusOps.MarkOperatorResolveFailed
            AccountStatusOps.MarkOperatorResolveUnknown AccountStatusOps.withConditions
            out obj log bind call ret app length].
  all: split; [reflexivity|]; split; [reflexivity|]; split; [reflexivity|];
    split; [reflexivity|]; split; [reads|]; split; [simpl; lia|].
  all: repeat (fin Hne).
  all: owner_close.
Qed.

Lemma resolveAccount_run (k : KeyPairable) (usr : User) :
  wp (UserReconciler.resolveAccount E k) usr (fun a o l =>
    let resolved := GetCondition UserConditionAccountResolved
                      (usr_Conditions (usr_status o)) in
    usr_meta o = usr_meta usr /\ usr_spec o = usr_spec usr /\
    usr_KeyPair (usr_status o) = usr_KeyPair (usr_status usr) /\
    readOnly l /\ length l <= 1 /\
    (forall account ok err, a = Some (Some account, ok, err) ->
       ok = true /\ err = None /\
       AccountRef (usr_status o)
         = Some (mkInferredRef (Namespace (acc_meta account)) (Name (acc_meta account))) /\
       resolved = Some (trueCondition UserConditionAccountResolved) /\
       (k = KPAccount account \/
        exists sk, k = KPSigningKey sk /\
          out (resolveSigningKeyOwner E sk usr) = Some (Some (ObjAccount account), true, None))) /\
    (forall ok err, a = Some (None, ok, err) ->
       IsTrue resolved = false /\
       AccountRef (usr_status o) = AccountRef (usr_status usr) /\
       (ok = true ->
        err = None /\
        exists sk owner e, k = KPSigningKey sk /\
          out (resolveSigningKeyOwner E sk usr) = Some (owner, true, Some e)) /\
       (err <> None ->
        ok = false /\
        exists sk owner, k = KPSigningKey sk /\
          out (resolveSigningKeyOwner E sk usr) = Some (owner, false, err)))).
Proof.
  assert (Hne : UserConditionAccountResolved <> ConditionReady) by discriminate.
  unfold UserReconciler.resolveAccount, resolveSigningKeyOwner, Client_Get,
    UserReconciler.mark.
  destruct k as [v|v|v|v]; wp_owner.
  all: cbn [usr_status usr_meta usr_spec usr_Conditions usr_KeyPair AccountRef
            UserStatusOps.MarkAccountResolved UserStatusOps.MarkAccountResolveFailed
            UserStatusOps.MarkAccountResolveUnknown UserStatusOps.withConditions
            out obj log bind call ret app length].
  all: split; [reflexivity|]; split; [reflexivity|]; split; [reflexivity|];
    split; [reads|]; split; [simpl; lia|].
  all: repeat (fin Hne).
  all: owner_close.
Qed.

End Owner.

(** X16.  resolveOperator of the Account controller and resolveAccount of
    the User controller request at most one object, a read, and change
    nothing of the resource but the owner condition and the owner reference
    of its status.  When an owner is returned, it comes with ok = true and no
    error, the status records the namespace and name of that owner with the
    owner condition True, and the owner is the issuer itself or the object
    that resolveSigningKeyOwner fetched for the issuing Signing Key.  When no
    owner is returned the owner condition is not True and the recorded owner
    reference is as before; ok = true then comes with no error and only after
    resolveSigningKeyOwner returned a handled error, and an error comes with
    ok = false and is the error resolveSigningKeyOwner returned with
    handled = false. *)
Theorem resolve_owner_outcomes :
  forall (E : Env) (k : KeyPairable),
    (forall acc : Account,
        let r := AccountReconciler.resolveOperator E k acc in
        let resolved := GetCondition AccountConditionOperatorResolved
                          (acc_Conditions (acc_status (obj r))) in
        acc_meta (obj r) = acc_meta acc /\ acc_spec (obj r) = acc_spec acc /\
        acc_KeyPair (acc_status (obj r)) = acc_KeyPair (acc_status acc) /\
        SigningKeys (acc_status (obj r)) = SigningKeys (acc_status acc) /\
        readOnly (log r) /\ length (log r) <= 1 /\
        (forall operator ok err, out r = Some (Some operator, ok, err) ->
           ok = true /\ err = None /\
           OperatorRef (acc_status (obj r))
             = Some (mkInferredRef (Namespace (op_meta operator)) (Name (op_meta operator))) /\
           resolved = Some (trueCondition AccountConditionOperatorResolved) /\
           (k = KPOperator operator \/
            exists sk, k = KPSigningKey sk /\
              out (resolveSigningKeyOwner E sk acc)
                = Some (Some (ObjOperator operator), true, None))) /\
        (forall ok err, out r = Some (None, ok, err) ->
           IsTrue resolved = false /\
           OperatorRef (acc_status (obj r)) = OperatorRef (acc_status acc) /\
           (ok = true ->
            err = None /\
            exists sk owner e, k = KPSigningKey sk /\
              out (resolveSigningKeyOwner E sk acc) = Some (owner, true, Some e)) /\
           (err <> None ->
            ok = false /\
            exists sk owner, k = KPSigningKey sk /\
              out (resolveSigningKeyOwner E sk acc) = Some (owner, false, err)))) /\
    (forall usr : User,
        let r := UserReconciler.resolveAccount E k usr in
        let resolved := GetCondition UserConditionAccountResolved
                          (usr_Conditions (usr_status (obj r))) in
        usr_meta (obj r) = usr_meta usr /\ usr_spec (obj r) = usr_spec usr /\
        usr_KeyPair (usr_status (obj r)) = usr_KeyPair (usr_status usr) /\
        readOnly (log r) /\ length (log r) <= 1 /\
        (forall account ok err, out r = Some (Some account, ok, err) ->
           ok = true /\ err = None /\
           AccountRef (usr_status (obj r))
             = Some (mkInferredRef (Namespace (acc_meta account)) (Name (acc_meta account))) /\
           resolved = Some (trueCondition UserConditionAccountResolved) /\
           (k = KPAccount account \/
            exists sk, k = KPSigningKey sk /\
              out (resolveSigningKeyOwner E sk usr)
                = Some (Some (ObjAccount account), true, None))) /\
        (forall ok err, out r = Some (None, ok, err) ->
           IsTrue resolved = false /\
           AccountRef (usr_status (obj r)) = AccountRef (usr_status usr) /\
           (ok = true ->
            err = None /\
            exists sk owner e, k = KPSigningKey sk /\
              out (resolveSigningKeyOwner E sk usr) = Some (owner, true, Some e)) /\
           (err <> None ->
            ok = false /\
            exists sk owner, k = KPSigningKey sk /\
              out (resolveSigningKeyOwner E sk usr) = Some (owner, false, err)))).
Proof.
  intros E k. split.
  - intros acc r resolved. subst r resolved. exact (resolveOperator_run E k acc).
  - intros usr r resolved. subst r resolved. exact (resolveAccount_run E k usr).
Qed.


(* ===================================================================== *)
(** * The superseded Account controller *)
(* ===================================================================== *)

Section SupersededMembership.
Variable E : Env.

Import Superseded.AccountReconciler.

Lemma head_cases (acc : Account) (sk : SigningKey) :
      (IsReady (sk_Conditions (sk_status sk)) = false /\
       countsFor acc sk = false /\ incomplete acc sk = false) \/
      (IsReady (sk_Conditions (sk_status sk)) = true /\
       sk_OwnerRef (sk_status sk) = None /\
       countsFor acc sk = false /\ incomplete acc sk = true) \/
      (exists ref,
         IsReady (sk_Conditions (sk_status sk)) = true /\
         sk_OwnerRef (sk_status sk) = Some ref /\
         (bool_decide (ref_Namespace ref = Namespace (acc_meta acc))
          && bool_decide (ref_Name ref = Name (acc_meta acc))) = false /\
         countsFor acc sk = false /\ incomplete acc sk = false) \/
      (exists ref,
         IsReady (sk_Conditions (sk_status sk)) = true /\
         sk_OwnerRef (sk_status sk) = Some ref /\
         (bool_decide (ref_Namespace ref = Namespace (acc_meta acc))
          && bool_decide (ref_Name ref = Name (acc_meta acc))) = true /\
         sk_KeyPair (sk_status sk) = None /\
         countsFor acc sk = true /\ incomplete acc sk = true) \/
      (exists ref kp,
         IsReady (sk_Conditions (sk_status sk)) = true /\
         sk_OwnerRef (sk_status sk) = Some ref /\
         (bool_decide (ref_Namespace ref = Namespace (acc_meta acc))
          && bool_decide (ref_Name ref = Name (acc_meta acc))) = true /\
         sk_KeyPair (sk_status sk) = Some kp /\
         countsFor acc sk = true /\ incomplete acc sk = false).
Proof.
  unfold countsFor, incomplete, namesAccount.
  destruct (IsReady (sk_Conditions (sk_status sk))); [|left; auto].
  destruct (sk_OwnerRef (sk_status sk)) as [ref|].
  - destruct (bool_decide (ref_Namespace ref = Namespace (acc_meta acc))
              && bool_decide (ref_Name ref = Name (acc_meta acc))) eqn:Hn.
    + destruct (sk_KeyPair (sk_status sk)) as [kp|].
      * do 4 right. exists ref, kp. rewrite Hn. auto 10.
      * do 3 right. left. exists ref. rewrite Hn. auto 10.
    + destruct (sk_KeyPair (sk_status sk)); right; right; left; exists ref; rewrite Hn; auto 10.
  - destruct (sk_KeyPair (sk_status sk)); right; left; auto.
Qed.

Lemma collectSigningKeys_incomplete (acc : Account) items :
  existsb (incomplete acc) items = true -> collectSigningKeys acc items = None.
Proof.
  induction items as [|sk rest IH]; [discriminate|].
  cbn [existsb collectSigningKeys].
  destruct (head_cases acc sk) as [(Hr & Hc & Hi)|[(Hr & Hn & Hc & Hi)
         |[(ref & Hr & Hn & Hm & Hc & Hi)
         |[(ref & Hr & Hn & Hm & Hkk & Hc & Hi)|(ref & kp & Hr & Hn & Hm & Hkk & Hc & Hi)]]]].
  all: rewrite Hr, Hi, ?Hn, ?Hm, ?Hkk; cbn [orb]; try reflexivity; try exact IH.
  intros H. rewrite (IH H). reflexivity.
Qed.

Lemma collectSigningKeys_complete (acc : Account) items :
  existsb (incomplete acc) items = false ->
  collectSigningKeys acc items
    = Some (omap projectSigningKey (List.filter (countsFor acc) items)) /\
  length (omap projectSigningKey (List.filter (countsFor acc) items))
    = length (List.filter (countsFor acc) items).
Proof.
  induction items as [|sk rest IH]; [split; reflexivity|].
  cbn [existsb List.filter collectSigningKeys].
  destruct (head_cases acc sk) as [(Hr & Hc & Hi)|[(Hr & Hn & Hc & Hi)
         |[(ref & Hr & Hn & Hm & Hc & Hi)
         |[(ref & Hr & Hn & Hm & Hkk & Hc & Hi)|(ref & kp & Hr & Hn & Hm & Hkk & Hc & Hi)]]]].
  all: rewrite Hr, Hi, Hc, ?Hn, ?Hm, ?Hkk; cbn [orb]; try discriminate; try exact IH.
  intros H. destruct (IH H) as [Heq Hlen]. rewrite Heq.
  cbn [omap list_omap]. assert (Hp : projectSigningKey sk = Some (mkEmbedded (Name (sk_meta sk)) kp))
    by (unfold projectSigningKey; rewrite Hkk; reflexivity).
  rewrite Hp. cbn [length]. rewrite Hlen. split; reflexivity.
Qed.

End SupersededMembership.

(** X17.  ensureSigningKeysUpdated of the superseded Account controller
    lists the Signing Keys of the Account's namespace, with no selector, and
    requests nothing else.  A failed listing is returned as it is and leaves
    the Account alone.  It panics when a listed Signing Key is ready and has
    no owner reference, or counts for the Account and has no key pair.
    Otherwise the Signing Keys that count are the ready ones whose owner
    reference names the namespace and the name of the Account: when none
    counts it returns a not-found error, keeps the recorded membership and
    the condition is not True; when some count it returns no error, and what
    it returns and records is the name and key pair of each of them, in
    listing order, the condition being True. *)
Theorem superseded_ensureSigningKeysUpdated_membership :
  forall (E : Env) (acc : Account),
    let r := Superseded.AccountReconciler.ensureSigningKeysUpdated E acc in
    let ns := Namespace (acc_meta acc) in
    let updated := GetCondition AccountConditionSigningKeysUpdated
                     (acc_Conditions (acc_status (obj r))) in
    log r = [CListSigningKeys ns ""] /\
    acc_meta (obj r) = acc_meta acc /\ acc_spec (obj r) = acc_spec acc /\
    (forall e, SigningKeys_List E ns "" = Err e -> out r = Some ([], Some e) /\ obj r = acc) /\
    (forall items, SigningKeys_List E ns "" = Ok items ->
       let counted := List.filter (countsFor acc) items in
       let keys := omap projectSigningKey counted in
       (existsb (incomplete acc) items = true -> out r = None) /\
       (existsb (incomplete acc) items = false ->
        length keys = length counted /\
        (counted = [] ->
         out r = Some ([], Some (Superseded.NewNotFound "signingkeys")) /\
         SigningKeys (acc_status (obj r)) = SigningKeys (acc_status acc) /\
         IsTrue updated = false) /\
        (counted <> [] ->
         out r = Some (keys, None) /\
         SigningKeys (acc_status (obj r)) = keys /\
         updated = Some (trueCondition AccountConditionSigningKeysUpdated)))).
Proof.
  intros E acc r ns updated. subst r ns updated.
  assert (Hne : AccountConditionSigningKeysUpdated <> ConditionReady) by discriminate.
  change (wp (Superseded.AccountReconciler.ensureSigningKeysUpdated E) acc (fun a o l =>
    l = [CListSigningKeys (Namespace (acc_meta acc)) ""] /\
    acc_meta o = acc_meta acc /\ acc_spec o = acc_spec acc /\
    (forall e, SigningKeys_List E (Namespace (acc_meta acc)) "" = Err e ->
               a = Some ([], Some e) /\ o = acc) /\
    (forall items, SigningKeys_List E (Namespace (acc_meta acc)) "" = Ok items ->
       (existsb (incomplete acc) items = true -> a = None) /\
       (existsb (incomplete acc) items = false ->
        length (omap projectSigningKey (List.filter (countsFor acc) items))
          = length (List.filter (countsFor acc) items) /\
        (List.filter (countsFor acc) items = [] ->
         a = Some ([], Some (Superseded.NewNotFound "signingkeys")) /\
         SigningKeys (acc_status o) = SigningKeys (acc_status acc) /\
         IsTrue (GetCondition AccountConditionSigningKeysUpdated
                   (acc_Conditions (acc_status o))) = false) /\
        (List.filter (countsFor acc) items <> [] ->
         a = Some (omap projectSigningKey (List.filter (countsFor acc) items), None) /\
         SigningKeys (acc_status o)
           = omap projectSigningKey (List.filter (countsFor acc) items) /\
         GetCondition AccountConditionSigningKeysUpdated (acc_Conditions (acc_status o))
           = Some (trueCondition AccountConditionSigningKeysUpdated)))))).
  unfold Superseded.AccountReconciler.ensureSigningKeysUpdated,
    Superseded.AccountReconciler.mark.
  apply wp_get_bind, wp_call_bind.
  destruct (SigningKeys_List E (Namespace (acc_meta acc)) "") as [items|e] eqn:Hlist.
  - destruct items as [|sk rest].
    + wp_go. split; [reflexivity|]. split; [reflexivity|]. split; [reflexivity|].
      split; [discriminate|]. intros items [= <-]. cbn.
      split; [discriminate|]. intros _. split; [reflexivity|].
      split; [|intros H; contradiction].
      intros _. split; [reflexivity|]. split; [reflexivity|].
      apply markUnknown_not_true; exact Hne.
    + set (items := sk :: rest).
      destruct (existsb (incomplete acc) items) eqn:Hinc.
      * rewrite (collectSigningKeys_incomplete acc items Hinc). wp_go.
        split; [reflexivity|]. split; [reflexivity|]. split; [reflexivity|].
        split; [discriminate|]. intros items' [= <-].
        split; [reflexivity|]. fold items. rewrite Hinc. discriminate.
      * destruct (collectSigningKeys_complete acc items Hinc) as [Hcol Hlen].
        rewrite Hcol.
        destruct (omap projectSigningKey (List.filter (countsFor acc) items))
          as [|k ks] eqn:Hkeys.
        -- wp_go. split; [reflexivity|]. split; [reflexivity|]. split; [reflexivity|].
           split; [discriminate|]. intros items' [= <-]. fold items.
           split; [rewrite Hinc; discriminate|]. intros _. rewrite Hkeys.
           split; [exact Hlen|]. split.
           ++ intros _. split; [reflexivity|]. split; [reflexivity|].
              apply markUnknown_not_true; exact Hne.
           ++ intros Hc. destruct (List.filter (countsFor acc) items); [contradiction|].
              discriminate Hlen.
        -- wp_go. split; [reflexivity|]. split; [reflexivity|]. split; [reflexivity|].
           split; [discriminate|]. intros items' [= <-]. fold items.
           split; [rewrite Hinc; discriminate|]. intros _. rewrite Hkeys.
           split; [exact Hlen|]. split.
           ++ intros Hc. rewrite Hc in Hkeys. discriminate Hkeys.
           ++ intros _. split; [reflexivity|]. split; [reflexivity|].
              apply markTrue_get; exact Hne.
  - wp_go. split; [reflexivity|]. split; [reflexivity|]. split; [reflexivity|].
    split; [|discriminate]. intros e' [= <-]. split; reflexivity.
Qed.

(** X18.  ensureOperatorResolved of the superseded Account controller reads
    the Signing Key that the specification names, in the namespace of the
    Account, and then at most one secret, in the namespace of the Account;
    the Operator itself is never fetched.  It returns no error exactly when
    the Signing Key was read with its owner-resolved condition True, the
    scheme instantiates the kind of its owner reference as an Operator, it
    has a key pair and the seed secret of that key pair was read; the seed
    returned is then the seed entry of that secret, and the empty seed when
    the secret has no such entry.  Every error comes with the empty seed.
    While the owner is not resolved the error is a not-found error and the
    Account is left as it was.  Once the owner reference is seen to be an
    Operator, the status records its namespace and name with the operator
    condition True, whatever happens to the seed secret. *)
Theorem superseded_ensureOperatorResolved_outcomes :
  forall (E : Env) (acc : Account),
    let r := Superseded.AccountReconciler.ensureOperatorResolved E acc in
    let ns := Namespace (acc_meta acc) in
    let skName := ref_Name (acc_Issuer (acc_spec acc)) in
    acc_meta (obj r) = acc_meta acc /\ acc_spec (obj r) = acc_spec acc /\
    readOnly (log r) /\
    (log r = [CGet SigningKeyKind ns skName] \/
     exists secretName, log r = [CGet SigningKeyKind ns skName; CGetSecret ns secretName]) /\
    (forall seed e, out r = Some (seed, Some e) -> seed = "") /\
    (forall seed, out r = Some (seed, None) <->
       exists sKey ref kp secret,
         Get_SigningKey E ns skName = Ok sKey /\
         IsTrue (GetCondition SigningKeyConditionOwnerResolved
                   (sk_Conditions (sk_status sKey))) = true /\
         sk_OwnerRef (sk_status sKey) = Some ref /\
         Scheme_New E (GetGroupVersionKind ref) = Ok (Prototype OperatorKind) /\
         sk_KeyPair (sk_status sKey) = Some kp /\
         Secrets_Get E ns (SeedSecretName kp) = Ok secret /\
         seed = default "" (Data secret !! NatsSecretSeedKey)) /\
    (forall sKey, Get_SigningKey E ns skName = Ok sKey ->
       IsTrue (GetCondition SigningKeyConditionOwnerResolved
                 (sk_Conditions (sk_status sKey))) = false ->
       out r = Some ("", Some (Superseded.NewNotFound (Name (sk_meta sKey)))) /\
       obj r = acc /\ log r = [CGet SigningKeyKind ns skName]) /\
    (forall sKey ref, Get_SigningKey E ns skName = Ok sKey ->
       IsTrue (GetCondition SigningKeyConditionOwnerResolved
                 (sk_Conditions (sk_status sKey))) = true ->
       sk_OwnerRef (sk_status sKey) = Some ref ->
       let resolved := GetCondition AccountConditionOperatorResolved
                         (acc_Conditions (acc_status (obj r))) in
       (Scheme_New E (GetGroupVersionKind ref) = Ok (Prototype OperatorKind) ->
        OperatorRef (acc_status (obj r))
          = Some (mkInferredRef (ref_Namespace ref) (ref_Name ref)) /\
        resolved = Some (trueCondition AccountConditionOperatorResolved)) /\
       (Scheme_New E (GetGroupVersionKind ref) <> Ok (Prototype OperatorKind) ->
        out r = Some ("", Some (Superseded.NewBadRequest "invalid signing key owner type")) /\
        OperatorRef (acc_status (obj r)) = OperatorRef (acc_status acc) /\
        IsTrue resolved = false /\
        log r = [CGet SigningKeyKind ns skName])).
Proof.
  intros E acc r ns skName. subst r ns skName.
  assert (Hne : AccountConditionOperatorResolved <> ConditionReady) by discriminate.
  change (wp (Superseded.AccountReconciler.ensureOperatorResolved E) acc (fun a o l =>
    let ns := Namespace (acc_meta acc) in
    let skName := ref_Name (acc_Issuer (acc_spec acc)) in
    acc_meta o = acc_meta acc /\ acc_spec o = acc_spec acc /\
    readOnly l /\
    (l = [CGet SigningKeyKind ns skName] \/
     exists secretName, l = [CGet SigningKeyKind ns skName; CGetSecret ns secretName]) /\
    (forall seed e, a = Some (seed, Some e) -> seed = "") /\
    (forall seed, a = Some (seed, None) <->
       exists sKey ref kp secret,
         Get_SigningKey E ns skName = Ok sKey /\
         IsTrue (GetCondition SigningKeyConditionOwnerResolved
                   (sk_Conditions (sk_status sKey))) = true /\
         sk_OwnerRef (sk_status sKey) = Some ref /\
         Scheme_New E (GetGroupVersionKind ref) = Ok (Prototype OperatorKind) /\
         sk_KeyPair (sk_status sKey) = Some kp /\
         Secrets_Get E ns (SeedSecretName kp) = Ok secret /\
         seed = default "" (Data secret !! NatsSecretSeedKey)) /\
    (forall sKey, Get_SigningKey E ns skName = Ok sKey ->
       IsTrue (GetCondition SigningKeyConditionOwnerResolved
                 (sk_Conditions (sk_status sKey))) = false ->
       a = Some ("", Some (Superseded.NewNotFound (Name (sk_meta sKey)))) /\
       o = acc /\ l = [CGet SigningKeyKind ns skName]) /\
    (forall sKey ref, Get_SigningKey E ns skName = Ok sKey ->
       IsTrue (GetCondition SigningKeyConditionOwnerResolved
                 (sk_Conditions (sk_status sKey))) = true ->
       sk_OwnerRef (sk_status sKey) = Some ref ->
       let resolved := GetCondition AccountConditionOperatorResolved
                         (acc_Conditions (acc_status o)) in
       (Scheme_New E (GetGroupVersionKind ref) = Ok (Prototype OperatorKind) ->
        OperatorRef (acc_status o)
          = Some (mkInferredRef (ref_Namespace ref) (ref_Name ref)) /\
        resolved = Some (trueCondition AccountConditionOperatorResolved)) /\
       (Scheme_New E (GetGroupVersionKind ref) <> Ok (Prototype OperatorKind) ->
        a = Some ("", Some (Superseded.NewBadRequest "invalid signing key owner type")) /\
        OperatorRef (acc_status o) = OperatorRef (acc_status acc) /\
        IsTrue resolved = false /\
        l = [CGet SigningKeyKind ns skName])))).
  unfold Superseded.AccountReconciler.ensureOperatorResolved,
    Superseded.AccountReconciler.mark, CoreV1_Secrets_Get.
  cbv zeta.
  apply wp_get_bind, wp_call_bind.
  destruct (Get_SigningKey E (Namespace (acc_meta acc)) (ref_Name (acc_Issuer (acc_spec acc))))
    as [sKey|e0] eqn:Hget.
  2: { wp_go. split; [reflexivity|]. split; [reflexivity|]. split; [reads|].
       split; [left; reflexivity|]. repeat (fin Hne). }
  destruct (IsTrue (GetCondition SigningKeyConditionOwnerResolved
                      (sk_Conditions (sk_status sKey)))) eqn:Hres; cbn [negb].
  2: { wp_go. split; [reflexivity|]. split; [reflexivity|]. split; [reads|].
       split; [left; reflexivity|]. repeat (fin Hne). }
  destruct (sk_OwnerRef (sk_status sKey)) as [ref|] eqn:Href.
  2: { wp_go. split; [reflexivity|]. split; [reflexivity|]. split; [reads|].
       split; [left; reflexivity|]. repeat (fin Hne). }
  destruct (Scheme_New E (GetGroupVersionKind ref)) as [[|[| | | |tag]]|e1] eqn:Hs.
  all: wp_go.
  all: cbn [acc_status acc_meta acc_spec acc_Conditions acc_KeyPair OperatorRef SigningKeys
            AccountStatusOps.MarkOperatorResolved AccountStatusOps.MarkOperatorResolveFailed
            AccountStatusOps.withConditions].
  all: split; [reflexivity|]; split; [reflexivity|]; split; [reads|].
  all: split; [first [left; reflexivity | right; eexists; reflexivity]|].
  all: repeat (fin Hne).
  eexists _, _, _, _. repeat split; try eassumption; reflexivity.
Qed.

Section SupersededReconcile.
Variable E : Env.

Import Superseded.AccountReconciler.

Lemma reconcileLoaded_no_status_update : silent isStatusUpdate (reconcileLoaded E).
Proof.
  unfold reconcileLoaded, ensureOperatorResolved, ensureSigningKeysUpdated,
    ensureSeedJWTSecrets, updateAccountJWTSigningKeys, isSystemAccount,
    Superseded.createOrUpdateSecret, mark, CoreV1_Secrets_Get.
  silence.
Qed.

Lemma reconcileLoaded_delay (acc : Account) res err :
  out (reconcileLoaded E acc) = Some (res, err) ->
  Superseded.RequeueAfter res = 0%Z \/
  (Superseded.RequeueAfter res = 30%Z /\ exists e, err = Some e /\ IsNotFound e = true).
Proof.
  unfold reconcileLoaded. unfold bind at 1.
  destruct (out (ensureOperatorResolved E acc)) as [[opSKey [e|]]|]; cbn [out];
    [| |discriminate].
  - destruct (IsNotFound e) eqn:Hnf; cbn; intros [= <- <-]; [right|left; reflexivity].
    split; [reflexivity|]. exists e. split; [reflexivity | exact Hnf].
  - unfold bind at 1.
    destruct (out (ensureSigningKeysUpdated E (obj (ensureOperatorResolved E acc))))
      as [[sKeys [e|]]|]; cbn [out]; [| |discriminate].
    + destruct (IsNotFound e) eqn:Hnf; cbn; intros [= <- <-]; [right|left; reflexivity].
      split; [reflexivity|]. exists e. split; [reflexivity | exact Hnf].
    + unfold bind at 1.
      destruct (out (ensureSeedJWTSecrets E sKeys opSKey _)); cbn; [|discriminate].
      intros [= <- <-]. left. reflexivity.
Qed.

End SupersededReconcile.

(** X19.  Reconcile of the superseded Account controller.  When the Account
    cannot be read it requests nothing else, and a not-found answer is no
    error.  Otherwise it updates the status at most once, as its last
    request; when one of its three steps returns an error, that error is
    returned and the status is not updated, so what the pass marked is not
    stored.  The delay it returns is none or 30 seconds, and 30 seconds only
    together with an error: a not-found error of the first two steps, or a
    conflict of the status update. *)
Theorem superseded_Reconcile_status_and_delay :
  forall (E : Env) (req : string * string),
    let r := Superseded.AccountReconciler.Reconcile E req in
    let read := CGet AccountKind (fst req) (snd req) in
    (forall e, Get_Account E (fst req) (snd req) = Err e ->
       log r = [read] /\
       out r = Some (Superseded.mkCtrlResult 0, if IsNotFound e then None else Some e)) /\
    (exists l, quiet isStatusUpdate l /\
               (log r = read :: l \/ log r = read :: l ++ [CUpdateStatus])) /\
    (forall acc res e,
       Get_Account E (fst req) (snd req) = Ok acc ->
       out (Superseded.AccountReconciler.reconcileLoaded E acc) = Some (res, Some e) ->
       out r = Some (res, Some e) /\ quiet isStatusUpdate (log r)) /\
    (forall res err, out r = Some (res, err) ->
       (Superseded.RequeueAfter res = 0%Z \/ Superseded.RequeueAfter res = 30%Z) /\
       (Superseded.RequeueAfter res = 30%Z ->
        exists e, err = Some e /\ (IsNotFound e = true \/ IsConflict e = true))).
Proof.
  intros E req r read. subst r read.
  unfold Superseded.AccountReconciler.Reconcile.
  destruct (Get_Account E (fst req) (snd req)) as [acc|e0] eqn:Hget.
  2: { cbn [out log]. split; [intros e [= <-]; split; reflexivity|].
       split; [exists []; split; [apply quiet_nil | left; reflexivity]|].
       split; [discriminate|].
       intros res err [= <- <-]. cbn. split; [left; reflexivity | discriminate]. }
  cbv zeta. cbn [out log].
  pose proof (silent_quiet _ _ acc (reconcileLoaded_no_status_update E)) as Hq.
  pose proof (reconcileLoaded_delay E acc) as Hd.
  unfold Superseded.AccountReconciler.withDeferredStatusUpdate.
  set (b := Superseded.AccountReconciler.reconcileLoaded E acc) in *.
  split; [discriminate|].
  destruct (out b) as [[res0 [e|]]|] eqn:Hout.
  - split; [exists (log b); split; [exact Hq | left; reflexivity]|].
    split.
    + intros acc' res e' [= <-] Hb. fold b in Hb. rewrite Hout in Hb.
      injection Hb as <- <-. rewrite Hout.
      split; [reflexivity | reads].
    + rewrite Hout. intros res err [= <- <-].
      destruct (Hd res0 (Some e) eq_refl) as [H0|(H30 & e' & He & Hnf)].
      * split; [left; exact H0|]. intros H. rewrite H0 in H. discriminate H.
      * split; [right; exact H30|]. intros _. exists e'. split; [exact He | left; exact Hnf].
  - destruct (negb (Semantic_DeepEqual _ _)).
    + cbn [out log].
      split; [exists (log b); split; [exact Hq | right; reflexivity]|].
      split; [intros acc' res e' [= <-] Hb; fold b in Hb; rewrite Hout in Hb; discriminate Hb|].
      destruct (Hd res0 None eq_refl) as [H0|(H30 & e' & He & Hnf)]; [|discriminate He].
      destruct (Status_Update_Account E (obj b)) as [e|]; [destruct (IsConflict e) eqn:Hc|].
      * intros res err [= <- <-]. cbn. split; [right; reflexivity|]. intros _. exists e.
        split; [reflexivity | right; exact Hc].
      * intros res err [= <- <-].
        split; [left; exact H0|]. intros H. rewrite H0 in H. discriminate H.
      * intros res err [= <- <-].
        split; [left; exact H0|]. intros H. rewrite H0 in H. discriminate H.
    + rewrite Hout.
      split; [exists (log b); split; [exact Hq | left; reflexivity]|].
      split; [intros acc' res e' [= <-] Hb; fold b in Hb; rewrite Hout in Hb; discriminate Hb|].
      intros res err [= <- <-].
      destruct (Hd res0 None eq_refl) as [H0|(H30 & e' & He & Hnf)]; [|discriminate He].
      split; [left; exact H0|]. intros H. rewrite H0 in H. discriminate H.
  - destruct (negb (Semantic_DeepEqual _ _)).
    + cbn [out log].
      split; [exists (log b); split; [exact Hq | right; reflexivity]|].
      split; [intros acc' res e' [= <-] Hb; fold b in Hb; rewrite Hout in Hb; discriminate Hb|]. discriminate.
    + rewrite Hout.
      split; [exists (log b); split; [exact Hq | left; reflexivity]|].
      split; [intros acc' res e' [= <-] Hb; fold b in Hb; rewrite Hout in Hb; discriminate Hb|]. discriminate.
Qed.

(** X20.  ensureSeedJWTSecrets of the superseded Account controller reads
    the seed secret and the JWT secret of the Account.  When both are read it
    generates no key pair, writes at most one secret, an update under the
    namespace and name of the JWT secret read, and, when it returns, returns
    no error whatever updateAccountJWTSigningKeys returned.  When a read failed and neither
    answer is not-found, it requests nothing else and returns the error of
    the seed secret, or else that of the JWT secret.  When one of the answers
    is not-found it generates a new account key pair, also when the seed
    secret exists, and writes the JWT secret first and then the seed secret,
    each created if its read was not-found and updated otherwise; a failed
    write is returned and ends the step.  After both writes the token is
    pushed at most once; a failed push is not returned as an error, and the
    new key pair is then not recorded in the status, whereas after an
    accepted push the status records the new public key with the name of the
    seed secret written. *)
Theorem superseded_ensureSeedJWTSecrets_writes :
  forall (E : Env) (sKeys : list SigningKeyEmbeddedStatus) (opSkey : bytes) (acc : Account),
    let r := Superseded.AccountReconciler.ensureSeedJWTSecrets E sKeys opSkey acc in
    let ns := Namespace (acc_meta acc) in
    let seedR := Secrets_Get E ns (acc_SeedSecretName (acc_spec acc)) in
    let jwtR := Secrets_Get E ns (acc_JWTSecretName (acc_spec acc)) in
    (forall s j, seedR = Ok s -> jwtR = Ok j ->
       (out r = Some None \/ out r = None) /\ quiet isGenerateKeyPair (log r) /\
       (secretWrites (log r) = [] \/
        exists w, secretWrites (log r) = [CUpdateSecret w] /\
                  sec_Namespace w = sec_Namespace j /\ sec_Name w = sec_Name j)) /\
    (Superseded.notFoundR seedR || Superseded.notFoundR jwtR = false ->
     forall e, seedR = Err e \/ (exists s, seedR = Ok s /\ jwtR = Err e) ->
       out r = Some (Some e) /\
       log r = [CGetSecret ns (acc_SeedSecretName (acc_spec acc));
                CGetSecret ns (acc_JWTSecretName (acc_spec acc))]) /\
    (Superseded.notFoundR seedR || Superseded.notFoundR jwtR = true ->
     forall kPair ajwt pk seed jwtSecret,
       nkeys_FromSeed E opSkey = Ok kPair ->
       nsc_CreateAccount E (Name (acc_meta acc)) (acc_ClaimFields (acc_spec acc))
         (map (fun sk => PublicKey (emb_KeyPair sk)) sKeys) kPair = Ok (ajwt, pk, seed) ->
       SetControllerReference E (ObjAccount acc)
         (Superseded.NewSecret (acc_JWTSecretName (acc_spec acc)) ns
            {[ NatsSecretJWTKey := ajwt ]} false) = Ok jwtSecret ->
       let wj := if Superseded.notFoundR jwtR then CCreateSecret jwtSecret
                 else CUpdateSecret jwtSecret in
       let aj := if Superseded.notFoundR jwtR then Client_Create E jwtSecret
                 else Client_Update E jwtSecret in
       In (CGenerateKeyPair PrefixByteAccount) (log r) /\
       (forall e, aj = Some e -> secretWrites (log r) = [wj] /\ out r = Some (Some e)) /\
       (forall seedSecret,
          aj = None ->
          SetControllerReference E (ObjAccount acc)
            (Superseded.NewSecret (acc_SeedSecretName (acc_spec acc)) ns
               {[ NatsSecretSeedKey := seed ]} true) = Ok seedSecret ->
          let ws := if Superseded.notFoundR seedR then CCreateSecret seedSecret
                    else CUpdateSecret seedSecret in
          let az := if Superseded.notFoundR seedR then Client_Create E seedSecret
                    else Client_Update E seedSecret in
          secretWrites (log r) = [wj; ws] /\
          (forall e, az = Some e -> out r = Some (Some e) /\ remoteCalls (log r) = []) /\
          (az = None ->
           (remoteCalls (log r) = [] \/ remoteCalls (log r) = [CPush ajwt]) /\
           (forall e, remoteCalls (log r) = [CPush ajwt] -> nsc_Push E ajwt = Some e ->
              out r = Some None /\
              acc_KeyPair (acc_status (obj r)) = acc_KeyPair (acc_status acc)) /\
           (remoteCalls (log r) = [CPush ajwt] -> nsc_Push E ajwt = None ->
              out r = Some None /\
              acc_KeyPair (acc_status (obj r))
                = Some (mkKeyPair pk (sec_Name seedSecret)))))).
Proof.
  intros E sKeys opSkey acc r ns seedR jwtR. subst r ns seedR jwtR.
  assert (Hne : KeyPairableConditionSeedSecretReady <> ConditionReady) by discriminate.
  pattern (out (Superseded.AccountReconciler.ensureSeedJWTSecrets E sKeys opSkey acc)),
          (obj (Superseded.AccountReconciler.ensureSeedJWTSecrets E sKeys opSkey acc)),
          (log (Superseded.AccountReconciler.ensureSeedJWTSecrets E sKeys opSkey acc)).
  apply wp_intro.
  unfold Superseded.AccountReconciler.ensureSeedJWTSecrets,
    Superseded.AccountReconciler.updateAccountJWTSigningKeys,
    Superseded.AccountReconciler.isSystemAccount,
    Superseded.createOrUpdateSecret, Superseded.AccountReconciler.mark, CoreV1_Secrets_Get.
  apply wp_get_bind. cbv zeta. apply wp_call_bind, wp_call_bind.
  destruct (Secrets_Get E (Namespace (acc_meta acc)) (acc_SeedSecretName (acc_spec acc)))
    as [s|es] eqn:Hs;
  destruct (Secrets_Get E (Namespace (acc_meta acc)) (acc_JWTSecretName (acc_spec acc)))
    as [j|ej] eqn:Hj;
  cbn [Superseded.notFoundR orb negb];
  try destruct (IsNotFound es) eqn:Hnfs; try destruct (IsNotFound ej) eqn:Hnfj;
  cbn [orb negb].
  all: wp_go.
  all: cbn [acc_status acc_meta acc_spec acc_Conditions acc_KeyPair
            AccountStatusOps.MarkSeedSecretReady AccountStatusOps.MarkJWTSecretReady
            AccountStatusOps.MarkJWTPushed AccountStatusOps.MarkJWTPushFailed
            AccountStatusOps.MarkSeedSecretUnknown AccountStatusOps.MarkJWTSecretUnknown
            AccountStatusOps.MarkJWTPushUnknown AccountStatusOps.withConditions
            secretWrites remoteCalls List.filter isSecretWrite isRemoteCall app].
  all: repeat (fin Hne).
  all: try (reads; fail).
  all: try (simpl; auto 10; fail).
  all: try (right; eexists; split; [reflexivity|]; split; reflexivity).
Qed.

(** The superseded Account controller on a cluster where the account is
    issued through a Signing Key of the operator, its seed secret exists and
    its JWT secret is missing: the pass resolves the operator from the owner
    reference of the Signing Key, counts the one ready Signing Key the
    account owns, generates a new key pair, creates the JWT secret, writes
    the new seed over the existing seed secret, pushes the token and stores
    the status. *)
Example superseded_account_replaces_seed :
  let r := Superseded.AccountReconciler.Reconcile (Demo.env tokenLost) ("nats", "acct") in
  out r = Some (Superseded.mkCtrlResult 0, None) /\
  log r = [CGet AccountKind "nats" "acct"; CGet SigningKeyKind "nats" "opkey";
           CGetSecret "nats" "opkey-seed"; CListSigningKeys "nats" "";
           CGetSecret "nats" "acct-seed"; CGetSecret "nats" "acct-jwt";
           CGenerateKeyPair PrefixByteAccount;
           CCreateSecret (mkSecret "nats" "acct-jwt" {[ NatsSecretJWTKey := "fresh:acct" ]}
                            false (Some "uid-acct"));
           CUpdateSecret (mkSecret "nats" "acct-seed" {[ NatsSecretSeedKey := "SAnew" ]}
                            true (Some "uid-acct"));
           CGetOperator "nats" "op"; CPush "fresh:acct"; CUpdateStatus] /\
  option_map (fun a => SigningKeys (acc_status a)) (obj r) = Some [Demo.embedded "A"] /\
  AccountReconciler.signingKeyWatch (ObjSigningKey (Demo.signingKey "A" true))
    = [("nats", "acct")] /\
  AccountReconciler.signingKeyWatch (ObjSigningKey opKey) = [].
Proof. vm_compute. auto 10. Qed.


(* ===================================================================== *)
(** * Signing Keys seen from the Account controller *)
(* ===================================================================== *)

(** X21.  resolveSigningKeyOperator leaves the metadata and specification of
    the Account alone and only reads.  While the owner-resolved condition of
    the Signing Key is not True it requests nothing and returns no operator,
    ok = false and no error; with the condition True and no owner reference
    it panics.  Otherwise its one request is an Operator at the namespace
    and name of the owner reference, whatever kind the reference names: the
    Operator read is returned with ok = true and the Account unchanged; a
    failed read returns ok = false, with the error unless it is not-found,
    and the operator condition is then not True.  When the scheme
    instantiates the kind of the reference as an Operator,
    resolveSigningKeyOwner returns an owner exactly when
    resolveSigningKeyOperator returns an operator, and it is the same one. *)
Theorem resolveSigningKeyOperator_outcomes :
  forall (E : Env) (sk : SigningKey) (acc : Account),
    let r := AccountReconciler.resolveSigningKeyOperator E sk acc in
    let resolved := IsTrue (GetCondition SigningKeyConditionOwnerResolved
                              (sk_Conditions (sk_status sk))) in
    let marked := IsTrue (GetCondition AccountConditionOperatorResolved
                            (acc_Conditions (acc_status (obj r)))) in
    acc_meta (obj r) = acc_meta acc /\ acc_spec (obj r) = acc_spec acc /\
    readOnly (log r) /\
    (resolved = false ->
     log r = [] /\ out r = Some (None, false, None) /\ marked = false) /\
    (resolved = true -> sk_OwnerRef (sk_status sk) = None -> out r = None) /\
    (forall ref, resolved = true -> sk_OwnerRef (sk_status sk) = Some ref ->
       log r = [CGet OperatorKind (ref_Namespace ref) (ref_Name ref)] /\
       (forall operator,
          Get_Operator E (ref_Namespace ref) (ref_Name ref) = Ok operator ->
          out r = Some (Some operator, true, None) /\ obj r = acc) /\
       (forall e,
          Get_Operator E (ref_Namespace ref) (ref_Name ref) = Err e ->
          out r = Some (None, false, if IsNotFound e then None else Some e) /\
          marked = false) /\
       (Scheme_New E (GetGroupVersionKind ref) = Ok (Prototype OperatorKind) ->
        forall operator,
          out r = Some (Some operator, true, None) <->
          out (resolveSigningKeyOwner E sk acc)
            = Some (Some (ObjOperator operator), true, None))).
Proof.
  intros E sk acc r resolved marked. subst r resolved marked.
  assert (Hne : AccountConditionOperatorResolved <> ConditionReady) by discriminate.
  change (wp (AccountReconciler.resolveSigningKeyOperator E sk) acc (fun a o l =>
    acc_meta o = acc_meta acc /\ acc_spec o = acc_spec acc /\
    readOnly l /\
    (IsTrue (GetCondition SigningKeyConditionOwnerResolved
               (sk_Conditions (sk_status sk))) = false ->
     l = [] /\ a = Some (None, false, None) /\
     IsTrue (GetCondition AccountConditionOperatorResolved
               (acc_Conditions (acc_status o))) = false) /\
    (IsTrue (GetCondition SigningKeyConditionOwnerResolved
               (sk_Conditions (sk_status sk))) = true ->
     sk_OwnerRef (sk_status sk) = None -> a = None) /\
    (forall ref,
       IsTrue (GetCondition SigningKeyConditionOwnerResolved
                 (sk_Conditions (sk_status sk))) = true ->
       sk_OwnerRef (sk_status sk) = Some ref ->
       l = [CGet OperatorKind (ref_Namespace ref) (ref_Name ref)] /\
       (forall operator,
          Get_Operator E (ref_Namespace ref) (ref_Name ref) = Ok operator ->
          a = Some (Some operator, true, None) /\ o = acc) /\
       (forall e,
          Get_Operator E (ref_Namespace ref) (ref_Name ref) = Err e ->
          a = Some (None, false, if IsNotFound e then None else Some e) /\
          IsTrue (GetCondition AccountConditionOperatorResolved
                    (acc_Conditions (acc_status o))) = false) /\
       (Scheme_New E (GetGroupVersionKind ref) = Ok (Prototype OperatorKind) ->
        forall operator,
          a = Some (Some operator, true, None) <->
          out (resolveSigningKeyOwner E sk acc)
            = Some (Some (ObjOperator operator), true, None))))).
  unfold AccountReconciler.resolveSigningKeyOperator, AccountReconciler.mark,
    resolveSigningKeyOwner, Client_Get.
  destruct (IsTrue (GetCondition SigningKeyConditionOwnerResolved
                      (sk_Conditions (sk_status sk)))) eqn:Hres; cbn [negb].
  - destruct (sk_OwnerRef (sk_status sk)) as [ref|] eqn:Href.
    + apply wp_call_bind.
      destruct (Get_Operator E (ref_Namespace ref) (ref_Name ref)) as [operator|e] eqn:Hop;
        [|destruct (IsNotFound e) eqn:Hnf].
      all: wp_go.
      all: cbn [acc_meta acc_spec acc_status acc_Conditions
                AccountStatusOps.MarkOperatorResolveFailed
                AccountStatusOps.MarkOperatorResolveUnknown AccountStatusOps.withConditions].
      all: split; [reflexivity|]; split; [reflexivity|]; split; [reads|];
        split; [discriminate|]; split; [discriminate|].
      all: intros ref' _ [= <-]; split; [reflexivity|].
      all: rewrite Hop.
      * split; [intros operator' [= <-]; split; reflexivity|].
        split; [discriminate|].
        intros Hs operator'. rewrite Hs. unfold bind, call, fetch. rewrite Hop.
        cbn [rmap out obj log app ret].
        split; intros H; injection H as <-; reflexivity.
      * split; [discriminate|].
        split; [intros e' [= <-]; rewrite Hnf; split;
                [reflexivity | apply markFalse_not_true; exact Hne]|].
        intros Hs operator'. rewrite Hs. unfold bind, call, fetch. rewrite Hop.
        cbn [rmap out obj log app ret]. rewrite Hnf. cbn [out ret].
        split; discriminate.
      * split; [discriminate|].
        split; [intros e' [= <-]; rewrite Hnf; split;
                [reflexivity | apply markUnknown_not_true; exact Hne]|].
        intros Hs operator'. rewrite Hs. unfold bind, call, fetch. rewrite Hop.
        cbn [rmap out obj log app ret]. rewrite Hnf. cbn [out ret].
        split; discriminate.
    + wp_go. split; [reflexivity|]. split; [reflexivity|]. split; [apply quiet_nil|].
      split; [discriminate|]. split; [reflexivity|]. discriminate.
  - wp_go.
    cbn [acc_meta acc_spec acc_status acc_Conditions
         AccountStatusOps.MarkOperatorResolveUnknown AccountStatusOps.withConditions].
    split; [reflexivity|]. split; [reflexivity|]. split; [apply quiet_nil|].
    split; [|split; discriminate].
    intros _. split; [reflexivity|]. split; [reflexivity|].
    apply markUnknown_not_true; exact Hne.
Qed.

(** X22.  The map function of the watch on Signing Keys enqueues at most one
    request.  It enqueues a request exactly for a Signing Key whose status
    has an owner reference of API version accounts.nats.io/v1alpha1 and kind
    Account, and the request carries the namespace and the name of that
    reference as they are recorded; any other object, and a Signing Key
    owned by anything else, enqueues nothing.  The first request of the pass
    that Reconcile makes for such a request is the read of the Account at
    that namespace and name. *)
Theorem signingKeyWatch_requests :
  forall (obj : Object),
    let reqs := AccountReconciler.signingKeyWatch obj in
    length reqs <= 1 /\
    (forall req,
       req ∈ reqs <->
       exists sk ref,
         obj = ObjSigningKey sk /\ sk_OwnerRef (sk_status sk) = Some ref /\
         ref_APIVersion ref = GroupVersion /\ ref_Kind ref = "Account" /\
         req = (ref_Namespace ref, ref_Name ref)) /\
    (forall (E : Env) req,
       req ∈ reqs ->
       exists sk ref l,
         obj = ObjSigningKey sk /\ sk_OwnerRef (sk_status sk) = Some ref /\
         log (AccountReconciler.Reconcile E req)
           = CGet AccountKind (ref_Namespace ref) (ref_Name ref) :: l).
Proof.
  intros obj reqs. subst reqs.
  assert (Hchar : forall req,
            req ∈ AccountReconciler.signingKeyWatch obj <->
            exists sk ref,
              obj = ObjSigningKey sk /\ sk_OwnerRef (sk_status sk) = Some ref /\
              ref_APIVersion ref = GroupVersion /\ ref_Kind ref = "Account" /\
              req = (ref_Namespace ref, ref_Name ref)).
  { intros req. unfold AccountReconciler.signingKeyWatch, GetGroupVersionKind.
    destruct obj as [o|a|u|sk|tag ns name];
      try (split; [intros H; inversion H | intros (sk' & ref & H & _); discriminate H]).
    destruct (sk_OwnerRef (sk_status sk)) as [ref|] eqn:Href.
    - cbv zeta.
      destruct (bool_decide (_ = _)) eqn:Hgvk; cbn [negb].
      + apply bool_decide_eq_true in Hgvk. injection Hgvk as Hv Hk.
        split.
        * intros H. apply list_elem_of_singleton in H. subst req.
          exists sk, ref. repeat split; [exact Href | symmetry; exact Hv | symmetry; exact Hk].
        * intros (sk' & ref' & [= <-] & Href' & _ & _ & ->).
          rewrite Href in Href'. injection Href' as <-.
          apply list_elem_of_singleton. reflexivity.
      + apply bool_decide_eq_false in Hgvk.
        split; [intros H; inversion H|].
        intros (sk' & ref' & [= <-] & Href' & Hv & Hk & _).
        rewrite Href in Href'. injection Href' as <-.
        exfalso. apply Hgvk. rewrite Hv, Hk. reflexivity.
    - split; [intros H; inversion H|].
      intros (sk' & ref' & [= <-] & Href' & _). rewrite Href in Href'. discriminate Href'. }
  split; [|split; [exact Hchar|]].
  - unfold AccountReconciler.signingKeyWatch.
    destruct obj as [o|a|u|sk|tag ns name]; cbn [length]; try lia.
    destruct (sk_OwnerRef (sk_status sk)); cbn [length]; [|lia].
    cbv zeta. destruct (negb _); cbn [length]; lia.
  - intros E req Hin. apply Hchar in Hin as (sk & ref & Hobj & Href & _ & _ & ->).
    unfold AccountReconciler.Reconcile. cbn [fst snd].
    destruct (Get_Account E (ref_Namespace ref) (ref_Name ref)).
    + eexists sk, ref, _. split; [exact Hobj|]. split; [exact Href|]. reflexivity.
    + eexists sk, ref, _. split; [exact Hobj|]. split; [exact Href|]. reflexivity.
Qed.
